(* ===== verification/_CoqProject ===== *)
-Q . S2P
Prelude.v
JsString.v
JsValue.v
Regex.v
Catalog.v
Protocol.v
Display.v
Envelope.v
Events.v
EventsFacts.v
Store.v
EventsProps.v
LocalClient.v
LocalClientFacts.v
LocalClientProps.v
DisplayProps.v
Client.v
ClientProps.v
Operator.v
OperatorProps.v
JsArray.v
Visibility.v
Shell.v
TuiFormat.v
TuiApp.v
TuiProps.v
TuiAppProps.v
TuiView.v
Cli.v
CliRun.v
TuiLoad.v
Chat.v
ChatApp.v
ChatView.v
ChatProps.v
Async.v
Computer.v
ComputerProps.v
Desktop.v
DesktopProps.v
NativeApps.v
NativeAppsProps.v
Sessions.v
SessionsProps.v
Auth.v
Media.v
MediaServer.v
MediaProps.v
Office.v
OfficeProps.v
EditorProps.v
Studio.v
StudioProps.v
Changes.v
ChangesProps.v
Busy.v
Delivery.v
DeliveryProps.v
Runtime.v
Checks.v
RuntimeProps.v
Surface.v
Subsystem.v
SubsystemProps.v
Workspace.v
ChatPage.v
Router.v
RouterProps.v
Console.v
ConsoleProps.v
Frames.v
FramesProps.v
Scripts.v
