(* ===== verification/Prelude.v ===== *)
(** * Ion operator clients: a verification development

    Ion is an agent runtime (Go) with operator clients written in TypeScript.  This
    library models the clients: the control-plane protocol they validate, the state they
    derive from the event log, the transports they talk through, and the terminal and
    web applications on top; and the two pages of JavaScript elsewhere in the repository.
    Paths below are relative to [src/ui/] unless they say otherwise.

    ** The program and its parts

    The runtime keeps an ordered log of events.  A client opens a stream (a Unix socket
    in the terminal, a WebSocket in the browser), receives one recovery frame and then
    events, validates every frame with the guards of the generated protocol, folds the
    accepted events into one operator state, and renders that state.  Operators act by
    sending query and command envelopes; answers come back on the same socket or as HTTP
    responses.  The parts interact only through those values: guards are pure functions
    of JSON, the store is a reducer, and the applications are event handlers whose
    awaited calls interleave.

    ** Files and the code they model

    - [Prelude]: shared tactics, and association lists for objects used as maps (their
      own keys keep insertion order).
    - [JsString], [JsValue], [Regex], [JsArray]: the parts of the language and its
      library that the code uses: UTF-16 strings, numbers, JSON values with
      [JSON.stringify], backtracking regular expressions, the stable sort.
    - [Catalog], [Protocol], [Display], [Envelope]: [shared/src/generated/protocol.ts]:
      the operation catalog, the record types, the display-model guards and migration,
      the wire guards.  Guards are boolean functions of JSON ([isEventEnvelope], ...);
      [event_of], [computer_payload_of] read an accepted value as a record.
    - [Events], [Store]: [shared/src/state/events.ts] ([applyEvent], [applyRecovery],
      [applyComputerEvent], ...) and [shared/src/state/store.ts] (the class as a record
      of its state and listeners; an update returns the listeners it notifies).
    - [LocalClient]: [tui/src/local-client.ts]: the transport class and the handshake;
      every method returns the new state and the list of effects (writes, settled
      promises, callbacks) in order.
    - [Client]: [shared/src/client/core.ts] and [shared/src/client/browser.ts]; the
      transport of the shared client is a type class that the local transport implements.
    - [Operator]: the event stream of [browser.ts] and the effect of
      [web/src/app/operator-context.tsx] as a step system with connects in flight,
      timers, sockets and disposal.
    - [Visibility], [Shell]: [web/src/features/computer/visibility.ts], the computer stage
      of [web/src/app/App.tsx], [web/src/components/PanelResizeHandle.tsx] and
      [web/src/components/CommandPalette.tsx].
    - [TuiFormat], [TuiApp], [TuiView]: [tui/src/App.tsx]: formatting helpers, the state
      with its handlers and keys, and the text of every pane.
    - [Cli], [CliRun]: [tui/src/cli.tsx]: arguments, callbacks, redaction, readiness check;
      what is drawn and when, the alternate screen, the signals, the external editor.
    - [TuiLoad]: the effects of [tui/src/App.tsx] that load the catalog and the verification
      of a project.
    - [Chat], [ChatApp], [ChatView]: [web/src/features/chat/ChatHost.tsx] and
      [web/src/lib/project-name.ts]: the transcript, the operations of the composer, the
      message, approval and activity components.  [ChatPage]: its toolbar, suggestions and
      links.
    - [Async]: the asynchronous handlers of the other web components, once for all: a
      handler is a tree of state updates, reads, effects and awaited calls ([proc]), a
      component is a state with the calls it awaits ([World]), and [runs] is what it can
      do.  It proves the program logic the components share: invariants and effects of
      runs ([runs_keeps], [runs_safe]), blindness to a part of the state ([runs_blind]),
      exclusion by a flag ([runs_exclusive], [runs_spanning]), tokens that handlers own
      while they wait ([runs_owned]), where a value comes from ([runs_origin]), and which
      effects come before an await ([late_effect]).
    - [Computer], [Desktop], [NativeApps]: [web/src/features/computer/ComputerStage.tsx],
      [PrivateDesktop.tsx] and [NativeApplications.tsx] beside it: the timeline, the
      shared browser under its lease, workflows and credentials; the desktop's frame
      loop, tickets and input; the renderers of display models.
    - [Sessions]: [web/src/routes/CriticalRoutes.tsx]: overview cards, the conversation
      library, the event pages.
    - [Auth]: [web/src/app/AuthScreen.tsx] and [web/src/components/OperatorLayout.tsx].
    - [Router]: who is signed in, the routes and the rendering of [web/src/app/App.tsx], the
      queries of the layout, and every link of the web interface; the router itself is the
      class [Router] with the laws [RouterLaws].
    - [Media]: [web/src/routes/MediaStudio.tsx]: the form with its controls and what the
      browser accepts of them, the jobs, the uploads with their own state.  [MediaServer]:
      [internal/media/types.go], how the server normalises a form and shows it in a job.
    - [Office]: [web/src/routes/OfficeStudio.tsx]: the library and its operations
      ([officeHandler]); the effect of the embedded editor ([editorHandler]), whose runs
      are the instances of [Editor].
    - [Studio], [Changes], [Runtime], [Checks], [Delivery]: [web/src/routes/StudioRoutes.tsx]:
      the projects page, the tabs, the plan, terminal and code panels; the changes panel
      ([changesHandler]) with its effects and their renders ([commitPanel]); the preview;
      problems, tests and security; data and deployment.  The text fields of a panel are
      one store, indexed by a type of fields.  [Workspace]: the queries of the workspace, the
      effect that fetches those of the panels again, what the page, the plan and the code
      show, and the prompts for the composer.
    - [Busy]: the interface of the panels that are disabled while a command runs
      ([BusyPanel], [RejectingPanel]) and their common command ([busyCommand]); the data,
      deploy and tests panels are its instances.
    - [Surface], [Subsystem]: [web/src/routes/SubsystemRoutes.tsx]: the surfaces, the state
      of a section and how an answer of unknown shape becomes text ([formatScalar],
      [ReadableList], [ReadableRecord], over the tables of the code); the page with its
      counts and cards, the views of the known answers as trees of text ([Node]) and their
      commands ([runHandler], [autonomyHandler], [intentHandler], [automatrixHandler],
      [relationshipHandler], [pageHandler]).
    - [Scripts]: [scripts/audit-production-dependencies.mjs] of the repository and
      [scripts/check-budgets.mjs] of the clients.
    - [Console]: [src/internal/security/dashboard/frontend/app.js], the page of the safety
      rail: the token, the sockets, the window of events and its rendering.
    - [Frames]: [src/skills/creative/p5js/scripts/export-frames.js]: the options and the
      capture of a sketch frame by frame.

    Asynchronous handlers are cut at their awaits: an operation runs to its first await
    and adds a task to the calls in flight; the answer or failure of any of them is a
    later input that runs the rest of that operation.  What a run of an application can
    do is an inductive relation over such inputs ([runs], [tui_runs], [chat_runs]), so
    the theorems about runs hold for every interleaving.  The first two applications
    spell their tasks out as data; the components over [Async] keep the rest of the
    handler itself, as the closure does.  A polled query is an input that loads its data,
    or, in [Desktop], a handler that runs when the query is due.

    ** What the theorems show

    - [EventsFacts], [EventsProps]: the invariant of every reachable store; exactly-once
      application under overlapping replays and repeated deliveries; turns and approvals
      as functions of the log; finality and retention of computer activities; recovery.
    - [LocalClientFacts], [LocalClientProps]: framing in any chunking, responses resolve
      their requests, every request settles once and in order, degradation is reported
      once.  [Cli] composes this with the store: bytes to state, with acknowledgements.
    - [DisplayProps]: accepted models are attributable, their texts have no opening tags of the
      forms the guard names; migration.
    - [ClientProps]: the requests the clients build carry what they were given and are those
      the guards accept; the cross-site token.
    - [OperatorProps]: one stream at a time, bounded retries, no silent stall, nothing
      acknowledged before it is applied.
    - [TuiProps], [TuiAppProps], [TuiView]: the queue, the exclusion between conversation
      calls and where it fails, what keys and slash commands send, what panes show.
    - [ChatProps], [ChatView], [Visibility], [Shell]: the transcript, the merge of durable
      and live messages, the exclusion of composer operations, enabled controls act; the
      turn on screen; the stage's effect settles; the panel's bounds.
    - [ComputerProps], [DesktopProps]: browser actions and desktop input are sent only
      under a lease the control plane reported, with its tickets, and as the operator
      pointed and typed; a typed secret leaves
      only with the request that stores it; the timeline's window and the pinned view;
      one frame timer; the canvas shows accepted models only.
    - [NativeAppsProps]: accepted models decode, and every text, label, source number and
      link on screen is backed by the model and its sources.
    - [SessionsProps], [Auth], [Scripts]: deletion is confirmed, one login at a time, the
      audit passes only when every advisory is covered.
    - [MediaProps]: a job is deleted by the second press of its own button, generations
      are within the bounds of their controls and carry chosen images only, one at a time,
      and settings come back from a job as the server stored them.
    - [OfficeProps], [EditorProps]: changes carry the token and deletions are confirmed,
      the first load ends, opening on every branch, the frame's permissions; at most one
      editor lives and none outlives its effect.
    - [StudioProps], [ChangesProps], [RuntimeProps], [DeliveryProps]: terminals are driven
      under a lease, projects from outside are untrusted, proposals are decided as they
      stand, tabs and addresses agree; content is staged and committed as reviewed,
      remotes need a grant; waivers, runs, starts and style proposals are bound to what
      was loaded; only prepared plans are applied, one command at a time.
    - [SubsystemProps]: the summary of a page is exact and its pages only query; technical
      fields do not show and what a section shows is bounded, while [friendlyValue] is the
      recursion of the code; supervised runs are steered and cancelled as shown and their
      controls come back; decisions, limits and preferences are sent as they stand.
    - [RouterProps], [ChatPage], [Workspace]: redirects settle, every link reaches a route
      at which something is shown, the button of the stage does what it says; a new revision
      fetches the queries of the panels and only those; the plan's prompts reach the composer.
    - [CliRun], [TuiLoad]: the terminal shows the store and is restored when the interface
      exits and by the signals it handles; the editor leaves no file behind and its text becomes the draft.
    - [ConsoleProps]: the token survives its encoding; the page refines an abstract board of
      the newest 1000 events.
    - [FramesProps]: the export ends, and is complete when the browser does its part.

    Some theorems establish what the code does where it falls short of its intent (the
    retained activities, approval keys while typing, verification overlapping a call, the
    stage that reopens, the approvals pane, the doubled right click, the inactive desktop
    that keeps polling, the pending mark that all conversations share, the editor script
    that is never tried again, the answer that opens another document, the frames, late
    images and previews of the media form, the project that is created twice, the changes
    panel that renders without end, the panels that a rejected request disables, the hunks
    that follow the checkboxes, the annotation of another service, the migration whose dry
    run failed, the scan that looks clean, the texts that break a page, the guidance that is
    lost, the decision that reaches another specification, the blank page behind a trailing
    slash, the page nothing links to, the console that reports offline while it is live and
    hides its rows, the export that succeeds without frames, the tags that count as safe text, the seed of
    zero, the terminal that a crash leaves
    on the alternate screen, the editor that is not found, the manifest of another project).

    ** Bounds and fuel

    Integers that the source keeps as safe integers are [Z] with the guards' bounds; the
    event window of 1000, the activity order of 1000 and the queue of 20 are the source's
    constants.  Loops that are not structural carry fuel: the receive loop gets one more
    than the length of its buffer, and [drain_fuel] shows that more changes nothing (every
    iteration consumes at least the newline); the loops over strings and the repetition of
    a regular expression get the length of their text, of which every iteration consumes
    a part; decimal digits get the size of the number.  The frame export is given a number of
    iterations, and [export_ends] shows that some number is enough unless Infinity frames are
    asked for.  The recursion of [friendlyAt] is
    structural in the levels that are left, at most two.  Percentages are computed on
    doubles, rounded to nearest even.  Screen coordinates, pointer times
    and wheel distances are rationals, a coordinate that is [NaN] is absent.

    ** Parameters

    [JSON.parse], [Date.parse], [encodeURIComponent], [decodeURIComponent], the URL parser
    and its serialiser, the Unicode case and letter tables, [Number] and local time
    formatting are parameters ([Platform], [CaseTable], [Environment] or section variables); theorems that
    depend on one state what they need, and witnesses instantiate it.  The router, the cache
    of queries, the headless browser and the operating system of the terminal client are
    parameters too, as are the server's test of an image and its shortening of file names;
    [listRouter] has the laws of the router.

    ** Not modelled

    The Go runtime but for [MediaServer], and the Rust index service; generated bundles ([dist]); markup, styling,
    focus and scrolling; the speech engine and the clipboard; the timers of the polling
    queries and the contents of the query cache; icons, the calls that start React and the
    configuration of the bundler.  The project, delivery and studio interfaces of the protocol
    are declarations without code: the panels' records hold what is read of them. *)
From stdpp Require Import base list strings.
From Stdlib Require Import ZArith NArith.

(** ** Automation shared by the components *)

Create HintDb ion discriminated.

(** Case analysis on the scrutinee of every [match] and [if] of the goal. *)
Ltac cases := repeat (case_match; simplify_eq/=; try done).

(** Splits boolean conjunctions and turns boolean tests into propositions. *)
Ltac bools :=
  repeat match goal with
  | H : _ && _ = true |- _ => apply andb_prop in H; destruct H
  | H : negb _ = true |- _ => apply negb_true_iff in H
  | H : bool_decide _ = true |- _ => apply bool_decide_eq_true_1 in H
  | H : bool_decide _ = false |- _ => apply bool_decide_eq_false_1 in H
  | H : _ || _ = false |- _ => apply orb_false_elim in H; destruct H
  | H : (_ <=? _)%N = true |- _ => apply N.leb_le in H
  | H : (_ <=? _)%N = false |- _ => apply N.leb_gt in H
  | H : (_ <? _)%N = true |- _ => apply N.ltb_lt in H
  | H : (_ <? _)%N = false |- _ => apply N.ltb_ge in H
  | H : (_ =? _)%N = true |- _ => apply N.eqb_eq in H
  | H : (_ =? _)%N = false |- _ => apply N.eqb_neq in H
  | H : (_ <=? _)%Z = true |- _ => apply Z.leb_le in H
  | H : (_ <=? _)%Z = false |- _ => apply Z.leb_gt in H
  | H : (_ <? _)%Z = true |- _ => apply Z.ltb_lt in H
  | H : (_ <? _)%Z = false |- _ => apply Z.ltb_ge in H
  | H : (_ =? _)%Z = true |- _ => apply Z.eqb_eq in H
  | H : (_ =? _)%Z = false |- _ => apply Z.eqb_neq in H
  | H : Nat.leb _ _ = true |- _ => apply Nat.leb_le in H
  | H : Nat.leb _ _ = false |- _ => apply Nat.leb_gt in H
  end.

(** ** Ordered association lists: JavaScript objects used as maps

    A [Record<UUID, V>] of the source is an object whose own keys keep the order in
    which they were first inserted.  [assoc_set] is [o[k] = v]: it overwrites in place
    when the key is present and appends otherwise.  [assoc_del] is [delete o[k]]. *)
Section Assoc.
Context {K V : Type} `{EqDecision K}.
Implicit Types (m : list (K * V)) (k : K) (v : V).

Fixpoint assoc_get (k : K) (m : list (K * V)) : option V :=
  match m with
  | [] => None
  | (k', v) :: m' => if decide (k = k') then Some v else assoc_get k m'
  end.

Fixpoint assoc_set (k : K) (v : V) (m : list (K * V)) : list (K * V) :=
  match m with
  | [] => [(k, v)]
  | (k', v') :: m' =>
      if decide (k = k') then (k', v) :: m' else (k', v') :: assoc_set k v m'
  end.

Definition assoc_del (k : K) (m : list (K * V)) : list (K * V) :=
  filter (λ kv, kv.1 ≠ k) m.

Lemma assoc_get_set k v m k' :
  assoc_get k' (assoc_set k v m) = if decide (k' = k) then Some v else assoc_get k' m.
Proof.
  induction m as [|[k0 v0] m IH]; simpl; [done|].
  destruct (decide (k = k0)) as [->|Hk]; simpl.
  - by destruct (decide (k' = k0)).
  - rewrite IH. repeat case_decide; congruence.
Qed.

Lemma assoc_get_set_eq k v m : assoc_get k (assoc_set k v m) = Some v.
Proof. rewrite assoc_get_set. by case_decide. Qed.

Lemma assoc_get_set_ne k k' v m :
  k' ≠ k → assoc_get k' (assoc_set k v m) = assoc_get k' m.
Proof. rewrite assoc_get_set. by case_decide. Qed.

Lemma assoc_get_del k m k' :
  assoc_get k' (assoc_del k m) = if decide (k' = k) then None else assoc_get k' m.
Proof.
  unfold assoc_del. induction m as [|[k0 v0] m IH]; simpl; [by case_decide|].
  rewrite filter_cons; simpl. destruct (decide (k0 = k)) as [->|Hk].
  - rewrite decide_False by tauto. rewrite IH. by destruct (decide (k' = k)).
  - rewrite decide_True by done. simpl. rewrite IH.
    repeat case_decide; congruence.
Qed.

Lemma assoc_get_del_eq k m : assoc_get k (assoc_del k m) = None.
Proof. rewrite assoc_get_del. by case_decide. Qed.

Lemma assoc_get_del_ne k k' m :
  k' ≠ k → assoc_get k' (assoc_del k m) = assoc_get k' m.
Proof. rewrite assoc_get_del. by case_decide. Qed.

Lemma assoc_get_elem k v m : assoc_get k m = Some v → (k, v) ∈ m.
Proof.
  induction m as [|[k0 v0] m IH]; simpl; [done|]. case_decide; intros; simplify_eq.
  - left.
  - right; auto.
Qed.

Lemma assoc_get_is_Some k m : is_Some (assoc_get k m) ↔ k ∈ m.*1.
Proof.
  induction m as [|[k0 v0] m IH]; simpl.
  - split; [intros [? ?]; done | intros H; inversion H].
  - rewrite elem_of_cons. destruct (decide (k = k0)) as [->|Hk].
    + split; [by left|by eexists].
    + rewrite IH. tauto.
Qed.

Lemma assoc_get_None k m : assoc_get k m = None ↔ k ∉ m.*1.
Proof. rewrite <- assoc_get_is_Some, <- eq_None_not_Some. done. Qed.

Lemma assoc_elem_get k v m : NoDup m.*1 → (k, v) ∈ m → assoc_get k m = Some v.
Proof.
  induction m as [|[k0 v0] m IH]; simpl; intros Hnd Hin; [inversion Hin|].
  apply NoDup_cons in Hnd as [Hk Hnd]. apply elem_of_cons in Hin as [?|Hin]; simplify_eq.
  - by case_decide.
  - case_decide; subst; [|auto]. destruct Hk. apply list_elem_of_fmap. by exists (k0, v).
Qed.

Lemma assoc_set_keys_in k v m : k ∈ m.*1 → (assoc_set k v m).*1 = m.*1.
Proof.
  induction m as [|[k0 v0] m IH]; simpl; intros Hk; [inversion Hk|].
  case_decide; simpl; [done|]. f_equal. apply IH.
  by apply elem_of_cons in Hk as [?|?].
Qed.

Lemma assoc_set_keys_notin k v m : k ∉ m.*1 → (assoc_set k v m).*1 = m.*1 ++ [k].
Proof.
  induction m as [|[k0 v0] m IH]; simpl; intros Hk; [done|].
  apply not_elem_of_cons in Hk as [??]. rewrite decide_False by done. simpl.
  f_equal; auto.
Qed.

Lemma assoc_set_keys k v m :
  (assoc_set k v m).*1 = if decide (k ∈ m.*1) then m.*1 else m.*1 ++ [k].
Proof.
  case_decide; [by apply assoc_set_keys_in|by apply assoc_set_keys_notin].
Qed.

Lemma assoc_set_elem k v m kv :
  kv ∈ assoc_set k v m → kv = (k, v) ∨ kv ∈ m.
Proof.
  induction m as [|[k0 v0] m IH]; simpl.
  - intros [?|H]%elem_of_cons; [by left|inversion H].
  - case_decide; subst; intros [->|Hin]%elem_of_cons; rewrite ?elem_of_cons;
      first [tauto | apply IH in Hin; tauto].
Qed.

Lemma assoc_del_elem k m kv : kv ∈ assoc_del k m ↔ kv.1 ≠ k ∧ kv ∈ m.
Proof. unfold assoc_del. rewrite list_elem_of_filter. done. Qed.

Lemma assoc_set_keys_elem k v m i : i ∈ (assoc_set k v m).*1 ↔ i = k ∨ i ∈ m.*1.
Proof.
  rewrite assoc_set_keys. case_decide; rewrite ?elem_of_app, ?list_elem_of_singleton;
    intuition congruence.
Qed.

Lemma assoc_set_nodup k v m : NoDup m.*1 → NoDup (assoc_set k v m).*1.
Proof.
  intros Hnd. rewrite assoc_set_keys. case_decide; [done|].
  apply NoDup_app; split_and!; [done| |apply NoDup_singleton].
  by intros x Hx ->%list_elem_of_singleton.
Qed.

Lemma assoc_del_keys k m : (assoc_del k m).*1 = filter (.≠ k) m.*1.
Proof.
  unfold assoc_del. induction m as [|[k0 v0] m IH]; [done|].
  rewrite fmap_cons, !filter_cons. simpl.
  destruct (decide (k0 ≠ k)); [|done]. rewrite fmap_cons. by f_equal.
Qed.

Lemma assoc_del_nodup k m : NoDup m.*1 → NoDup (assoc_del k m).*1.
Proof. rewrite assoc_del_keys. apply NoDup_filter. Qed.

Lemma assoc_set_Forall (P : K * V → Prop) k v m :
  P (k, v) → Forall P m → Forall P (assoc_set k v m).
Proof.
  rewrite !Forall_forall. intros ? ? kv [->|?]%assoc_set_elem; auto.
Qed.

Lemma assoc_del_Forall (P : K * V → Prop) k m : Forall P m → Forall P (assoc_del k m).
Proof. rewrite !Forall_forall. intros ? kv [_ ?]%assoc_del_elem; auto. Qed.

Lemma assoc_set_length k v m :
  length (assoc_set k v m) = if decide (k ∈ m.*1) then length m else S (length m).
Proof.
  rewrite <-(length_fmap fst (assoc_set k v m)), assoc_set_keys.
  case_decide; rewrite ?length_app, ?length_fmap; simpl; lia.
Qed.
End Assoc.
