(* ===== verification/JsString.v ===== *)
(** * JavaScript strings

    A JavaScript string is a sequence of UTF-16 code units ([list N], every unit below
    65536).  This file models the string operations the operator clients use: literals,
    [trim], [startsWith], [endsWith], [includes], [indexOf], [slice], [split],
    [replaceAll] with a one-unit pattern, [join], the view of a string as code points
    (which regular expressions with the [u] flag read) and the length of its UTF-8
    encoding (which [TextEncoder] gives). *)
From Stdlib Require Import ZArith NArith Ascii String.
From stdpp Require Import base list strings.
From S2P Require Import Prelude.

Abbreviation jstr := (list N).

(** ** Literals

    Source literals are UTF-8; [js] decodes them into UTF-16 code units. *)
Definition utf16_of_cp (c : N) : jstr :=
  if (c <? 65536)%N then [c]
  else [(55296 + (c - 65536) / 1024)%N; (56320 + (c - 65536) mod 1024)%N].

Fixpoint cps_of_utf8 (fuel : nat) (bs : list N) : list N :=
  match fuel with
  | O => []
  | S fuel =>
      match bs with
      | [] => []
      | b0 :: bs0 =>
          if (b0 <? 128)%N then b0 :: cps_of_utf8 fuel bs0 else
          match bs0 with
          | b1 :: bs1 =>
              if (b0 <? 224)%N
              then ((b0 - 192) * 64 + (b1 - 128))%N :: cps_of_utf8 fuel bs1 else
              match bs1 with
              | b2 :: bs2 =>
                  if (b0 <? 240)%N
                  then ((b0 - 224) * 4096 + (b1 - 128) * 64 + (b2 - 128))%N
                       :: cps_of_utf8 fuel bs2 else
                  match bs2 with
                  | b3 :: bs3 =>
                      ((b0 - 240) * 262144 + (b1 - 128) * 4096 + (b2 - 128) * 64
                       + (b3 - 128))%N :: cps_of_utf8 fuel bs3
                  | [] => []
                  end
              | [] => []
              end
          | [] => []
          end
      end
  end.

Definition js (s : string) : jstr :=
  let bs := map Ascii.N_of_ascii (String.list_ascii_of_string s) in
  flat_map utf16_of_cp (cps_of_utf8 (length bs) bs).

(** ** Tests and pieces *)

Definition jeqb (a b : jstr) : bool := bool_decide (a = b).

Definition jlen (s : jstr) : N := N.of_nat (length s).

Fixpoint startsWith (p s : jstr) : bool :=
  match p, s with
  | [], _ => true
  | _ :: _, [] => false
  | a :: p', b :: s' => (a =? b)%N && startsWith p' s'
  end.

Definition endsWith (p s : jstr) : bool := startsWith (reverse p) (reverse s).

Fixpoint indexOf (c : N) (s : jstr) : option nat :=
  match s with
  | [] => None
  | x :: s' => if (x =? c)%N then Some 0 else S <$> indexOf c s'
  end.

(** [s.includes(sub)]. *)
Fixpoint includes (sub s : jstr) : bool :=
  startsWith sub s || match s with [] => false | _ :: s' => includes sub s' end.

(** WhiteSpace and LineTerminator of the language: what [trim] strips and [\s] matches. *)
Definition is_space (c : N) : bool :=
  ((9 <=? c) && (c <=? 13) || (c =? 32) || (c =? 160) || (c =? 5760)
   || ((8192 <=? c) && (c <=? 8202)) || (c =? 8232) || (c =? 8233) || (c =? 8239)
   || (c =? 8287) || (c =? 12288) || (c =? 65279))%N.

Fixpoint trimStart (s : jstr) : jstr :=
  match s with
  | [] => []
  | c :: s' => if is_space c then trimStart s' else s
  end.

Definition trim (s : jstr) : jstr :=
  reverse (trimStart (reverse (trimStart s))).

(** [s.split(c)] for a one-unit separator: never empty. *)
Fixpoint splitOn (c : N) (s : jstr) : list jstr :=
  match s with
  | [] => [[]]
  | x :: s' =>
      if (x =? c)%N then [] :: splitOn c s'
      else match splitOn c s' with
           | [] => [[x]]
           | w :: ws => (x :: w) :: ws
           end
  end.

(** [ws.join(sep)]. *)
Fixpoint join (sep : jstr) (ws : list jstr) : jstr :=
  match ws with
  | [] => []
  | [w] => w
  | w :: ws' => w ++ sep ++ join sep ws'
  end.

(** [s.replaceAll(c, r)] for a one-unit pattern. *)
Definition replaceUnit (c : N) (r s : jstr) : jstr :=
  flat_map (λ x, if (x =? c)%N then r else [x]) s.

(** [s.replaceAll(p, '')] for a literal pattern: removes the non-overlapping occurrences
    found from left to right. *)
Fixpoint removeAll_go (fuel : nat) (p s : jstr) : jstr :=
  match fuel with
  | O => s
  | S fuel =>
      match s with
      | [] => []
      | x :: s' =>
          if negb (jeqb p []) && startsWith p s then removeAll_go fuel p (drop (length p) s)
          else x :: removeAll_go fuel p s'
      end
  end.
Definition removeAll (p s : jstr) : jstr := removeAll_go (S (length s)) p s.

(** ** Code points and UTF-8 length *)

Definition is_high (c : N) : bool := ((55296 <=? c) && (c <=? 56319))%N.
Definition is_low (c : N) : bool := ((56320 <=? c) && (c <=? 57343))%N.

(** The code points of a string: a surrogate pair is one, a lone surrogate is itself. *)
Fixpoint code_points (s : jstr) : list N :=
  match s with
  | [] => []
  | h :: s' =>
      match s' with
      | l :: s'' =>
          if is_high h && is_low l
          then (65536 + (h - 55296) * 1024 + (l - 56320))%N :: code_points s''
          else h :: code_points s'
      | [] => [h]
      end
  end.

(** Bytes a code point takes in UTF-8; a lone surrogate is replaced by U+FFFD. *)
Definition utf8_width (c : N) : N :=
  (if c <? 128 then 1 else if c <? 2048 then 2 else if c <? 65536 then 3 else 4)%N.

(** [new TextEncoder().encode(s).length]. *)
Definition utf8_length (s : jstr) : N :=
  foldr (λ c acc, utf8_width c + acc)%N 0%N (code_points s).

(** ** Case mapping

    ASCII letters are mapped here.  What [toLowerCase] and [toUpperCase] do to the other
    code units is the engine's Unicode table, a parameter. *)
Class CaseTable := {
  lower_other : N → jstr;
  upper_other : N → jstr;
}.

Definition is_ascii (c : N) : bool := (c <? 128)%N.
Definition lower_ascii (c : N) : N :=
  if ((65 <=? c) && (c <=? 90))%N then (c + 32)%N else c.
Definition upper_ascii (c : N) : N :=
  if ((97 <=? c) && (c <=? 122))%N then (c - 32)%N else c.

Definition toLowerCase `{CaseTable} (s : jstr) : jstr :=
  flat_map (λ c, if is_ascii c then [lower_ascii c] else lower_other c) s.
Definition toUpperCase `{CaseTable} (s : jstr) : jstr :=
  flat_map (λ c, if is_ascii c then [upper_ascii c] else upper_other c) s.

(** A table that leaves the other units alone, for concrete evaluations. *)
Definition ascii_only : CaseTable := {| lower_other c := [c]; upper_other c := [c] |}.

(** ** Lemmas *)

Lemma jeqb_eq a b : jeqb a b = true ↔ a = b.
Proof. apply bool_decide_eq_true. Qed.

Lemma jeqb_refl a : jeqb a a = true.
Proof. by apply jeqb_eq. Qed.

Lemma jeqb_neq a b : jeqb a b = false ↔ a ≠ b.
Proof. apply bool_decide_eq_false. Qed.

Lemma startsWith_spec p s : startsWith p s = true ↔ ∃ r, s = p ++ r.
Proof.
  revert s; induction p as [|a p IH]; intros s; simpl.
  - split; [by exists s|done].
  - destruct s as [|b s]; [split; [done|by intros [? ?]]|].
    rewrite andb_true_iff, N.eqb_eq, IH. split.
    + intros [-> [r ->]]. by exists r.
    + intros [r ?]; simplify_eq. eauto.
Qed.

Lemma indexOf_None c s : indexOf c s = None ↔ c ∉ s.
Proof.
  induction s as [|x s IH]; simpl.
  - split; [intros _ H; inversion H|done].
  - rewrite not_elem_of_cons. destruct (N.eqb_spec x c) as [->|Hx].
    + split; [done|]. tauto.
    + destruct (indexOf c s); simpl; intuition congruence.
Qed.

Lemma indexOf_Some c s i :
  indexOf c s = Some i → s = take i s ++ c :: drop (S i) s ∧ c ∉ take i s.
Proof.
  revert i; induction s as [|x s IH]; simpl; intros i; [done|].
  destruct (N.eqb_spec x c) as [->|Hx].
  - intros [= <-]. split; [done|]. apply not_elem_of_nil.
  - destruct (indexOf c s) as [j|]; simpl; [|done]. intros [= <-].
    destruct (IH j eq_refl) as [Heq Hni]. split.
    + simpl. f_equal. exact Heq.
    + simpl. apply not_elem_of_cons. split; congruence.
Qed.

Lemma indexOf_app_notin c l r :
  c ∉ l → indexOf c (l ++ c :: r) = Some (length l).
Proof.
  induction l as [|x l IH]; simpl; intros Hni.
  - by rewrite N.eqb_refl.
  - apply not_elem_of_cons in Hni as [? ?].
    destruct (N.eqb_spec x c); [congruence|]. by rewrite IH.
Qed.

Lemma splitOn_not_nil c s : splitOn c s ≠ [].
Proof. destruct s; simpl; [done|]. repeat case_match; done. Qed.

(** Splitting and joining on the same separator is the identity. *)
Lemma join_splitOn c s : join [c] (splitOn c s) = s.
Proof.
  induction s as [|x s IH]; simpl; [done|].
  pose proof (splitOn_not_nil c s) as Hne.
  destruct (N.eqb_spec x c) as [->|Hx].
  - simpl. destruct (splitOn c s) as [|w ws] eqn:E; [done|]. by rewrite <-IH.
  - destruct (splitOn c s) as [|w ws]; [done|]. rewrite <-IH.
    destruct ws; done.
Qed.

Lemma splitOn_notin c s : Forall (λ w, c ∉ w) (splitOn c s).
Proof.
  induction s as [|x s IH]; simpl.
  - repeat constructor. apply not_elem_of_nil.
  - destruct (N.eqb_spec x c) as [->|Hx].
    + constructor; [apply not_elem_of_nil|done].
    + destruct (splitOn c s) as [|w ws].
      * repeat constructor. by apply not_elem_of_cons; split; [|apply not_elem_of_nil].
      * inversion IH; subst. constructor; [|done]. apply not_elem_of_cons; auto.
Qed.

Lemma splitOn_notin_eq c w : c ∉ w → splitOn c w = [w].
Proof.
  induction w as [|x w IH]; [done|]. intros [Hx Hw]%not_elem_of_cons. cbn [splitOn].
  destruct (N.eqb_spec x c) as [->|_]; [done|]. by rewrite (IH Hw).
Qed.

Lemma splitOn_app c w s : c ∉ w → splitOn c (w ++ c :: s) = w :: splitOn c s.
Proof.
  induction w as [|x w IH]; cbn [app splitOn]; [by rewrite N.eqb_refl|].
  intros [Hx Hw]%not_elem_of_cons. destruct (N.eqb_spec x c) as [->|_]; [done|]. by rewrite (IH Hw).
Qed.

(** ** Trimming *)

Lemma trimStart_suffix s : ∃ p, s = p ++ trimStart s ∧ Forall (λ c, is_space c = true) p.
Proof.
  induction s as [|c s (p & Hs & Hp)]; [by exists []|]. cbn [trimStart].
  destruct (is_space c) eqn:Hc; [|by exists []]. exists (c :: p). split; [by rewrite Hs at 1|by constructor].
Qed.

Lemma trimStart_head s : match trimStart s with [] => True | c :: _ => is_space c = false end.
Proof. induction s as [|c s IH]; [done|]. cbn [trimStart]. by destruct (is_space c) eqn:Hc. Qed.

Lemma trimStart_fixed s : match s with [] => True | c :: _ => is_space c = false end → trimStart s = s.
Proof. destruct s as [|c s]; [done|]. cbn [trimStart]. by intros ->. Qed.

(** A prefix of a string that does not start with a space does not either. *)
Lemma trim_trim s : trim (trim s) = trim s.
Proof.
  unfold trim. set (a := trimStart s). pose proof (trimStart_head s) as Ha. fold a in Ha.
  set (b := trimStart (reverse a)). pose proof (trimStart_head (reverse a)) as Hb. fold b in Hb.
  rewrite (trimStart_fixed (reverse b)), reverse_involutive; [by rewrite (trimStart_fixed b)|].
  destruct (trimStart_suffix (reverse a)) as (p & Hp & _). fold b in Hp.
  apply (f_equal reverse) in Hp. rewrite reverse_involutive, reverse_app in Hp.
  destruct (reverse b); [done|]. by rewrite Hp in Ha.
Qed.

Lemma trimStart_notin c s : c ∉ s → c ∉ trimStart s.
Proof. destruct (trimStart_suffix s) as (p & Hs & _). rewrite Hs at 1. by intros [_ H]%not_elem_of_app. Qed.

Lemma trim_notin c s : c ∉ s → c ∉ trim s.
Proof.
  intros Hc. unfold trim. rewrite elem_of_reverse. apply trimStart_notin. rewrite elem_of_reverse. by apply trimStart_notin.
Qed.

(** Joining trimmed pieces with a separator and a space, then splitting at the separator
    and trimming, gives the pieces back. *)
Lemma join_pieces ws :
  Forall (λ w, (59%N ∉ w) ∧ trim w = w) ws → ws ≠ [] → map trim (splitOn 59 (join (js "; ") ws)) = ws.
Proof.
  assert (∀ s, map trim (splitOn 59 (32%N :: s)) = map trim (splitOn 59 s)) as Hsp.
  { intros s. cbn [splitOn]. replace (32 =? 59)%N with false by reflexivity.
    pose proof (splitOn_not_nil 59 s) as Hn. destruct (splitOn 59 s); [done|]. reflexivity. }
  induction 1 as [|w ws [H1 H2] Hws IH]; [done|]. intros _.
  destruct ws as [|w' ws]; cbn [join].
  { rewrite splitOn_notin_eq by done. cbn. by rewrite H2. }
  change (js "; ") with [59%N; 32%N]. cbn [app]. rewrite splitOn_app by done. cbn [map].
  rewrite H2, Hsp. f_equal. by apply IH.
Qed.
