(* ===== verification/JsValue.v ===== *)
(** * JavaScript numbers and JSON values

    The values the clients receive as [unknown] are results of [JSON.parse]: null,
    booleans, numbers, strings, arrays and plain objects.  An absent property reads as
    [undefined], here [None].

    A finite number is represented by its shortest decimal [m * 10^e], which determines
    the double (and is what [Number::toString] prints); negative zero is not told apart
    from zero, as no operation used by the clients does.  [JSON.parse] also yields the
    infinities (for a literal such as 1e999) and never NaN. *)
From stdpp Require Import base list strings.
From Stdlib Require Import ZArith NArith.
From S2P Require Import Prelude JsString.

Inductive num : Type :=
  | NFin (m e : Z)
  | NInf (neg : bool).

#[export] Instance num_eq_dec : EqDecision num.
Proof. solve_decision. Defined.

(** The integer a number is, when it is one. *)
Definition num_to_Z (n : num) : option Z :=
  match n with
  | NFin m e =>
      if (0 <=? e)%Z then Some (m * 10 ^ e)%Z
      else if (m mod 10 ^ (- e) =? 0)%Z then Some (m / 10 ^ (- e))%Z else None
  | NInf _ => None
  end.

(** [Number.MAX_SAFE_INTEGER]. *)
Definition max_safe_integer : Z := (2 ^ 53 - 1)%Z.

(** [Number.isSafeInteger(n)]. *)
Definition isSafeInteger (n : num) : bool :=
  match num_to_Z n with
  | Some z => (Z.abs z <=? max_safe_integer)%Z
  | None => false
  end.

(** The number that an integer literal denotes. *)
Definition num_of_Z (z : Z) : num := NFin z 0.

(** Decimal digits of a non-negative integer, most significant first. *)
Fixpoint digits_go (fuel : nat) (n : N) (acc : jstr) : jstr :=
  match fuel with
  | O => acc
  | S fuel =>
      let acc := (48 + n mod 10)%N :: acc in
      if (n <? 10)%N then acc else digits_go fuel (n / 10)%N acc
  end.
Definition digits (n : N) : jstr := digits_go (S (N.to_nat (N.log2 n))) n [].

Definition string_of_Z (z : Z) : jstr :=
  if (z <? 0)%Z then 45%N :: digits (Z.to_N (- z)) else digits (Z.to_N z).

(** [Number::toString]: [s] the decimal digits, [k] their number, [n] the position of
    the decimal point. *)
Definition num_toString (x : num) : jstr :=
  match x with
  | NInf true => js "-Infinity"
  | NInf false => js "Infinity"
  | NFin m e =>
      if (m =? 0)%Z then js "0" else
      let sign := if (m <? 0)%Z then [45%N] else [] in
      let s := digits (Z.to_N (Z.abs m)) in
      let k := Z.of_nat (length s) in
      let n := (k + e)%Z in
      sign ++
      (if (k <=? n)%Z && (n <=? 21)%Z then s ++ replicate (Z.to_nat (n - k)) 48%N
       else if (0 <? n)%Z && (n <=? 21)%Z then
         take (Z.to_nat n) s ++ 46%N :: drop (Z.to_nat n) s
       else if (-6 <? n)%Z && (n <=? 0)%Z then
         js "0." ++ replicate (Z.to_nat (- n)) 48%N ++ s
       else
         let ex := (n - 1)%Z in
         let exs := (if (ex <? 0)%Z then [45%N] else [43%N])
                      ++ digits (Z.to_N (Z.abs ex)) in
         match s with
         | [d] => d :: 101%N :: exs
         | d :: ds => d :: 46%N :: ds ++ 101%N :: exs
         | [] => []
         end)
  end.

(** ** JSON values *)
#[local] Unset Elimination Schemes.
Inductive json : Type :=
  | JNull
  | JBool (b : bool)
  | JNum (n : num)
  | JStr (s : jstr)
  | JArr (l : list json)
  | JObj (fields : list (jstr * json)).
#[local] Set Elimination Schemes.

(** Induction with the hypothesis for every element and every field. *)
Section JsonInd.
Variable P : json → Prop.
Hypothesis Hnull : P JNull.
Hypothesis Hbool : ∀ b, P (JBool b).
Hypothesis Hnum : ∀ n, P (JNum n).
Hypothesis Hstr : ∀ s, P (JStr s).
Hypothesis Harr : ∀ l, Forall P l → P (JArr l).
Hypothesis Hobj : ∀ o, Forall (λ kv, P kv.2) o → P (JObj o).

Fixpoint json_nested_ind (v : json) : P v :=
  match v with
  | JNull => Hnull
  | JBool b => Hbool b
  | JNum n => Hnum n
  | JStr s => Hstr s
  | JArr l =>
      Harr l ((fix go l := match l return Forall P l with
                           | [] => Forall_nil_2 _
                           | x :: l' => Forall_cons_2 _ x l' (json_nested_ind x) (go l')
                           end) l)
  | JObj o =>
      Hobj o ((fix go o := match o return Forall (λ kv, P kv.2) o with
                           | [] => Forall_nil_2 _
                           | kv :: o' => Forall_cons_2 _ kv o' (json_nested_ind kv.2) (go o')
                           end) o)
  end.
End JsonInd.

(** [value.k] of a value that is an object; [undefined] otherwise.  The clients only
    read properties after testing that the value is an object. *)
Definition get (k : string) (v : json) : option json :=
  match v with
  | JObj o => assoc_get (js k) o
  | _ => None
  end.

(** [Object.prototype.hasOwnProperty.call(value, k)]. *)
Definition hasOwn (k : string) (v : json) : bool := bool_decide (is_Some (get k v)).

(** [typeof value === 'object' && value !== null && !Array.isArray(value)]. *)
Definition isRecord (v : option json) : bool :=
  match v with Some (JObj _) => true | _ => false end.

Definition isArray (v : option json) : option (list json) :=
  match v with Some (JArr l) => Some l | _ => None end.

(** [typeof value === 'string'], with the string. *)
Definition asString (v : option json) : option jstr :=
  match v with Some (JStr s) => Some s | _ => None end.
Definition isString (v : option json) : bool := bool_decide (is_Some (asString v)).

Definition asNum (v : option json) : option num :=
  match v with Some (JNum n) => Some n | _ => None end.
Definition isNumber (v : option json) : bool := bool_decide (is_Some (asNum v)).

Definition isBoolean (v : option json) : bool :=
  match v with Some (JBool _) => true | _ => false end.

(** [value === 'literal']. *)
Definition isLit (s : string) (v : option json) : bool :=
  match v with Some (JStr t) => jeqb t (js s) | _ => false end.

(** ** [JSON.stringify]

    Without indentation, on values as [JSON.parse] builds them. *)
Definition hex_digit (n : N) : N := if (n <? 10)%N then (48 + n)%N else (87 + n)%N.

Definition unicode_escape (c : N) : jstr :=
  [92; 117; hex_digit (c / 4096); hex_digit (c / 256 mod 16); hex_digit (c / 16 mod 16);
   hex_digit (c mod 16)]%N.

Definition quote_unit (c : N) : jstr :=
  (if c =? 8 then [92; 98]
   else if c =? 9 then [92; 116]
   else if c =? 10 then [92; 110]
   else if c =? 12 then [92; 102]
   else if c =? 13 then [92; 114]
   else if c =? 34 then [92; 34]
   else if c =? 92 then [92; 92]
   else if c <? 32 then unicode_escape c
   else [c])%N.

(** Lone surrogates are escaped; pairs are kept. *)
Fixpoint quote_body (s : jstr) : jstr :=
  match s with
  | [] => []
  | h :: s' =>
      if is_high h then
        match s' with
        | l :: s'' => if is_low l then h :: l :: quote_body s''
                      else unicode_escape h ++ quote_body s'
        | [] => unicode_escape h
        end
      else if is_low h then unicode_escape h ++ quote_body s'
      else quote_unit h ++ quote_body s'
  end.

Definition quote (s : jstr) : jstr := 34%N :: quote_body s ++ [34%N].

Fixpoint stringify (v : json) : jstr :=
  match v with
  | JNull => js "null"
  | JBool true => js "true"
  | JBool false => js "false"
  | JNum (NInf _) => js "null"
  | JNum n => num_toString n
  | JStr s => quote s
  | JArr l => 91%N :: join [44%N] (map stringify l) ++ [93%N]
  | JObj o =>
      123%N :: join [44%N] (map (λ kv, quote kv.1 ++ 58%N :: stringify kv.2) o) ++ [125%N]
  end.

(** [String(value)] for an optional JSON value read from an object; arrays are joined
    by commas with null as the empty string, plain objects print as their tag. *)
Fixpoint toStr (v : json) : jstr :=
  match v with
  | JNull => js "null"
  | JBool true => js "true"
  | JBool false => js "false"
  | JNum n => num_toString n
  | JStr s => s
  | JArr l => join [44%N] (map (λ x, match x with JNull => [] | _ => toStr x end) l)
  | JObj _ => js "[object Object]"
  end.

(** ** Serialised values stay on one line *)

(** Printable: no unit below the space. *)
Definition printable (s : jstr) : Prop := Forall (λ c, (32 <= c)%N) s.

Lemma printable_app s t : printable (s ++ t) ↔ printable s ∧ printable t.
Proof. apply Forall_app. Qed.

Lemma digits_printable n : printable (digits n).
Proof.
  unfold digits. generalize (S (N.to_nat (N.log2 n))) as f.
  assert (printable []) as H by constructor. revert H. generalize ([] : jstr) as acc.
  intros acc H f. revert n acc H. induction f as [|f IH]; intros n acc H; simpl; [done|].
  assert (printable ((48 + n mod 10)%N :: acc)) by (constructor; [|done]; pose proof (N.le_add_r 48 (n mod 10)); lia).
  case_match; [done|]. by apply IH.
Qed.

Lemma num_toString_printable x : printable (num_toString x).
Proof.
  unfold printable.
  destruct x as [m e|[]]; [|by (vm_compute; repeat constructor)..].
  unfold num_toString. case_match; [by (vm_compute; repeat constructor)|].
  pose proof (digits_printable (Z.to_N (Z.abs m))) as Hd. unfold printable in Hd.
  apply Forall_app; split; [case_match; by repeat constructor|].
  assert (∀ k, Forall (λ c, (32 <= c)%N) (replicate k 48%N)) as Hrep.
  { intros k. apply Forall_replicate. lia. }
  repeat case_match.
  - by apply Forall_app.
  - apply Forall_app; split; [by apply Forall_take|].
    constructor; [lia|by apply Forall_drop].
  - apply Forall_app; split; [vm_compute; by repeat constructor|]. by apply Forall_app.
  - constructor.
  - inversion Hd; subst. repeat constructor; try lia; try done; try apply digits_printable.
  - inversion Hd; subst. repeat constructor; try lia; try done; try apply digits_printable.
  - inversion Hd; subst. constructor; [done|]. constructor; [lia|].
    apply Forall_app; split; [done|]. constructor; [lia|].
    constructor; [lia|]. apply digits_printable.
  - inversion Hd; subst. constructor; [done|]. constructor; [lia|].
    apply Forall_app; split; [done|]. constructor; [lia|].
    constructor; [lia|]. apply digits_printable.
Qed.

Lemma hex_digit_printable n : (32 <= hex_digit n)%N.
Proof. unfold hex_digit. case_match; lia. Qed.

Lemma unicode_escape_printable c : printable (unicode_escape c).
Proof.
  unfold unicode_escape, printable.
  repeat apply Forall_cons_2; try apply Forall_nil_2; try apply hex_digit_printable; lia.
Qed.

Lemma quote_unit_printable c : printable (quote_unit c).
Proof.
  unfold quote_unit, printable.
  destruct (c <? 32)%N eqn:E; repeat case_match;
    first [apply unicode_escape_printable | apply N.ltb_ge in E | idtac];
    repeat constructor; lia.
Qed.

Lemma quote_printable s : printable (quote s).
Proof.
  unfold quote. constructor; [lia|]. apply printable_app; split; [|apply Forall_cons_2; [lia|constructor]].
  induction s as [s IH] using (induction_ltof1 _ (@length N)); unfold ltof in IH.
  destruct s as [|h s]; [constructor|]. cbn [quote_body].
  pose proof (unicode_escape_printable h) as He.
  pose proof (quote_unit_printable h) as Hq.
  destruct (is_high h) eqn:Hh.
  - destruct s as [|l s]; [done|]. destruct (is_low l) eqn:Hl.
    + unfold is_high in Hh. unfold is_low in Hl. bools.
      constructor; [lia|]. constructor; [lia|]. apply IH. simpl; lia.
    + apply printable_app; split; [done|]. apply IH. simpl; lia.
  - destruct (is_low h); apply printable_app; (split; [done|]); apply IH; simpl; lia.
Qed.

Lemma join_printable sep ws :
  printable sep → Forall printable ws → printable (join sep ws).
Proof.
  intros Hs. induction ws as [|w ws IH]; intros H; [constructor|].
  inversion H; subst. destruct ws as [|w' ws]; [done|].
  change (printable (w ++ sep ++ join sep (w' :: ws))).
  apply printable_app; split; [done|]. apply printable_app; split; auto.
Qed.

(** A serialised value has no control unit, in particular no line feed. *)
Lemma stringify_printable v : printable (stringify v).
Proof.
  induction v as [| b | n | s | l IH | o IH] using json_nested_ind.
  - vm_compute. by repeat constructor.
  - destruct b; vm_compute; by repeat constructor.
  - destruct n as [m e|]; [apply (num_toString_printable (NFin m e))|].
    vm_compute. by repeat constructor.
  - apply quote_printable.
  - cbn [stringify]. constructor; [lia|]. apply printable_app; split; [|apply Forall_cons_2; [lia|constructor]].
    apply join_printable; [apply Forall_cons_2; [lia|constructor]|].
    by apply Forall_fmap.
  - cbn [stringify]. constructor; [lia|]. apply printable_app; split; [|apply Forall_cons_2; [lia|constructor]].
    apply join_printable; [apply Forall_cons_2; [lia|constructor]|].
    apply Forall_fmap. eapply Forall_impl; [exact IH|]. intros [k x] Hx.
    change (printable (quote k ++ 58%N :: stringify x)).
    apply printable_app; split; [apply quote_printable|]. constructor; [lia|done].
Qed.

Lemma stringify_no_newline v : 10%N ∉ stringify v.
Proof.
  intros Hin. pose proof (stringify_printable v) as H. unfold printable in H.
  rewrite Forall_forall in H. apply H in Hin. lia.
Qed.

(** A plain integer prints as its decimal digits. *)
Example num_toString_ex :
  map num_toString [NFin 0 0; NFin 12 2; NFin (-15) (-1); NFin 1 21; NFin 123 (-9); NFin 5 (-7)]
  = map js ["0"; "1200"; "-1.5"; "1e+21"; "1.23e-7"; "5e-7"]%string.
Proof. vm_compute. reflexivity. Qed.
