(* ===== verification/Regex.v ===== *)
(** * Regular expressions

    The clients test and rewrite text with JavaScript regular expressions.  [re] is the
    fragment they use: character sets, sequence, alternation, greedy repetition, word
    boundaries and anchors.  [run] is the backtracking matcher of the language
    (continuation passing, greedy first); [rmatch] is the relation it decides; [test] is
    [RegExp.prototype.test] and [replace_all] is [String.prototype.replaceAll] with a
    global expression. *)
From stdpp Require Import base list strings.
From Stdlib Require Import ZArith NArith Wf_nat.
From S2P Require Import Prelude JsString.

Inductive re : Type :=
  | REps
  | RChr (p : N → bool)
  | RCat (a b : re)
  | RAlt (a b : re)
  | RStar (a : re)
  | RBound (word : N → bool)
  | RBos
  | REos.

(** What stands before the position, and the input from it on. *)
Definition cursor : Type := option N * list N.

Definition is_word_at (w : N → bool) (c : option N) : bool :=
  match c with Some x => w x | None => false end.

Definition at_bound (w : N → bool) (c : cursor) : bool :=
  xorb (is_word_at w c.1) (is_word_at w (head c.2)).

Inductive rmatch : re → cursor → cursor → Prop :=
  | m_eps c : rmatch REps c c
  | m_chr p pr x l : p x = true → rmatch (RChr p) (pr, x :: l) (Some x, l)
  | m_cat a b c c1 c2 : rmatch a c c1 → rmatch b c1 c2 → rmatch (RCat a b) c c2
  | m_alt_l a b c c1 : rmatch a c c1 → rmatch (RAlt a b) c c1
  | m_alt_r a b c c1 : rmatch b c c1 → rmatch (RAlt a b) c c1
  | m_star_nil a c : rmatch (RStar a) c c
  | m_star_step a c c1 c2 :
      rmatch a c c1 → rmatch (RStar a) c1 c2 → rmatch (RStar a) c c2
  | m_bound w c : at_bound w c = true → rmatch (RBound w) c c
  | m_bos l : rmatch RBos (None, l) (None, l)
  | m_eos pr : rmatch REos (pr, []) (pr, []).

(** The matcher.  An iteration of a repetition that consumes nothing is refused, as the
    language prescribes, so the length of the input bounds the iterations. *)
Section Run.
Context {A : Type}.

Section Star.
Variable body : cursor → (cursor → option A) → option A.
Variable k : cursor → option A.

Fixpoint run_star (fuel : nat) (c : cursor) : option A :=
  match fuel with
  | O => k c
  | S fuel =>
      match body c (λ c', if (length c'.2 <? length c.2)%nat then run_star fuel c' else None) with
      | Some x => Some x
      | None => k c
      end
  end.
End Star.

Fixpoint run (r : re) (c : cursor) (k : cursor → option A) : option A :=
  match r with
  | REps => k c
  | RChr p => match c.2 with
              | x :: l => if p x then k (Some x, l) else None
              | [] => None
              end
  | RCat a b => run a c (λ c', run b c' k)
  | RAlt a b => match run a c k with Some x => Some x | None => run b c k end
  | RStar a => run_star (run a) k (S (length c.2)) c
  | RBound w => if at_bound w c then k c else None
  | RBos => match c.1 with None => k c | Some _ => None end
  | REos => match c.2 with [] => k c | _ :: _ => None end
  end.
End Run.

(** The first position from [c] on where [r] matches. *)
Fixpoint search {A} (r : re) (pr : option N) (l : list N) (k : cursor → option A) : option A :=
  match run r (pr, l) k with
  | Some x => Some x
  | None => match l with
            | [] => None
            | x :: l' => search r (Some x) l' k
            end
  end.

(** [r.test(s)]. *)
Definition test (r : re) (s : list N) : bool :=
  bool_decide (is_Some (search r None s (λ _, Some ()))).

(** [s.replaceAll(r, sub)]: [sub] sees the matched text.  The expressions used here
    never match the empty string, so every replacement consumes input. *)
Fixpoint replace_all_go (fuel : nat) (r : re) (sub : list N → list N)
    (pr : option N) (l : list N) : list N :=
  match fuel with
  | O => l
  | S fuel =>
      match run r (pr, l) (λ c', if (length c'.2 <? length l)%nat then Some c' else None) with
      | Some (pr', l') =>
          sub (take (length l - length l') l) ++ replace_all_go fuel r sub pr' l'
      | None => match l with
                | [] => []
                | x :: l' => x :: replace_all_go fuel r sub (Some x) l'
                end
      end
  end.
Definition replace_all (r : re) (sub : list N → list N) (s : list N) : list N :=
  replace_all_go (S (length s)) r sub None s.

(** ** Building blocks *)

Definition ropt (a : re) : re := RAlt a REps.
Definition rplus (a : re) : re := RCat a (RStar a).
Fixpoint rrep (n : nat) (a : re) : re :=
  match n with O => REps | S n => RCat a (rrep n a) end.
Fixpoint rupto (n : nat) (a : re) : re :=
  match n with O => REps | S n => ropt (RCat a (rupto n a)) end.
Fixpoint rlit_with (f : N → N → bool) (l : list N) : re :=
  match l with [] => REps | x :: l => RCat (RChr (f x)) (rlit_with f l) end.
Fixpoint ralts (l : list re) : re :=
  match l with [] => RChr (λ _, false) | [a] => a | a :: l => RAlt a (ralts l) end.
Fixpoint rcats (l : list re) : re :=
  match l with [] => REps | [a] => a | a :: l => RCat a (rcats l) end.

Definition between (a b c : N) : bool := ((a <=? c) && (c <=? b))%N.
Definition one_of (l : list N) (c : N) : bool := existsb (N.eqb c) l.

(** ** The matcher decides the relation *)

(** What a match consumes is a prefix of the input, and the cursor moves past it. *)
Lemma rmatch_suffix r c c' :
  rmatch r c c' → ∃ w, c.2 = w ++ c'.2 ∧ c'.1 = match last w with Some x => Some x | None => c.1 end.
Proof.
  induction 1 as [c|p pr x l Hp|a b c c1 c2 _ (w1 & Hs1 & Hp1) _ (w2 & Hs2 & Hp2)
    |a b c c1 _ IH|a b c c1 _ IH|a c|a c c1 c2 _ (w1 & Hs1 & Hp1) _ (w2 & Hs2 & Hp2)
    |w c _|l|pr]; simpl; try done; try (by exists []).
  - by exists [x].
  - exists (w1 ++ w2). rewrite Hs1, Hs2, app_assoc. split; [done|].
    rewrite last_app, Hp2, Hp1. by destruct (last w2).
  - exists (w1 ++ w2). rewrite Hs1, Hs2, app_assoc. split; [done|].
    rewrite last_app, Hp2, Hp1. by destruct (last w2).
Qed.

Lemma rmatch_length r c c' : rmatch r c c' → length c'.2 ≤ length c.2.
Proof. intros (w & -> & _)%rmatch_suffix. rewrite length_app. lia. Qed.

Lemma rmatch_stay r c c' : rmatch r c c' → length c.2 ≤ length c'.2 → c' = c.
Proof.
  intros (w & Hs & Hp)%rmatch_suffix Hle. rewrite Hs, length_app in Hle.
  destruct w; simpl in *; [|lia]. destruct c, c'; naive_solver.
Qed.

(** A repetition never needs an iteration that consumes nothing. *)
Lemma star_progress a c c' :
  rmatch (RStar a) c c' →
  c' = c ∨ ∃ c1, rmatch a c c1 ∧ length c1.2 < length c.2 ∧ rmatch (RStar a) c1 c'.
Proof.
  remember (RStar a) as r eqn:Hr. induction 1 as [| | | | |?|? c c1 c2 H1 _ H2 IH| | |];
    simplify_eq; [by left|].
  destruct (decide (length c1.2 < length c.2)) as [Hlt|Hge]; [right; eauto|].
  apply rmatch_stay in H1; [|lia]. subst. auto.
Qed.

Section RunSpec.
Context {A : Type}.
Implicit Types k : cursor → option A.

Lemma run_star_sound a :
  (∀ c k x, run a c k = Some x → ∃ c', rmatch a c c' ∧ k c' = Some x) →
  ∀ fuel c k x, run_star (run a) k fuel c = Some x →
    ∃ c', rmatch (RStar a) c c' ∧ k c' = Some x.
Proof.
  intros Ha fuel. induction fuel as [|fuel IH]; simpl; intros c k x Hx.
  - exists c. split; [constructor|done].
  - destruct (run a c _) as [y|] eqn:Hrun.
    + simplify_eq. apply Ha in Hrun as (c1 & Hm & Hk). case_match; [|done].
      apply IH in Hk as (c2 & Hm2 & Hk2). exists c2. split; [|done].
      by eapply m_star_step.
    + exists c. split; [constructor|done].
Qed.

Lemma run_sound r c k x : run r c k = Some x → ∃ c', rmatch r c c' ∧ k c' = Some x.
Proof.
  revert c k x; induction r as [|p|a IHa b IHb|a IHa b IHb|a IHa|w| |]; cbn [run]; intros c k x Hx.
  - exists c. split; [constructor|done].
  - destruct c as [pr [|y l]]; simpl in *; [done|]. case_match; [|done].
    eexists; split; [by constructor|done].
  - apply IHa in Hx as (c1 & ? & (c2 & ? & ?)%IHb). exists c2. split; [by eapply m_cat|done].
  - destruct (run a c k) eqn:Ha.
    + simplify_eq. apply IHa in Ha as (c1 & ? & ?). exists c1. split; [by apply m_alt_l|done].
    + apply IHb in Hx as (c1 & ? & ?). exists c1. split; [by apply m_alt_r|done].
  - by eapply run_star_sound.
  - case_match; [|done]. exists c. split; [by constructor|done].
  - destruct c as [[y|] l]; simpl in *; [done|]. eexists; split; [constructor|done].
  - destruct c as [pr [|y l]]; simpl in *; [|done]. eexists; split; [constructor|done].
Qed.

Lemma run_star_complete a :
  (∀ c c' k, rmatch a c c' → is_Some (k c') → is_Some (run a c k)) →
  ∀ fuel c c' k, length c.2 < fuel → rmatch (RStar a) c c' → is_Some (k c') →
    is_Some (run_star (run a) k fuel c).
Proof.
  intros Ha fuel. induction fuel as [|fuel IH]; intros c c' k Hf Hm Hk; [lia|].
  cbn [run_star].
  destruct (run a c _) as [y|] eqn:Hrun; [by eexists|].
  apply star_progress in Hm as [->|(c1 & Hm & Hlt & Hstar)]; [done|].
  exfalso. apply eq_None_not_Some in Hrun. apply Hrun.
  eapply Ha; [exact Hm|]. cbv beta. apply Nat.ltb_lt in Hlt as Hb. rewrite Hb.
  eapply IH; [lia|exact Hstar|done].
Qed.

Lemma run_complete r c c' k : rmatch r c c' → is_Some (k c') → is_Some (run r c k).
Proof.
  revert c c' k; induction r as [|p|a IHa b IHb|a IHa b IHb|a IHa|w| |]; cbn [run];
    intros c c' k Hm Hk.
  - by inversion Hm; subst.
  - inversion Hm; subst; simpl. by match goal with H : p _ = true |- _ => rewrite H end.
  - inversion Hm; subst. eauto.
  - inversion Hm; subst; destruct (run a c k) eqn:Ha; try (by eexists); [|eauto].
    apply eq_None_not_Some in Ha. destruct Ha. eauto.
  - eapply run_star_complete; eauto.
  - inversion Hm; subst. by match goal with H : at_bound _ _ = true |- _ => rewrite H end.
  - by inversion Hm; subst.
  - by inversion Hm; subst.
Qed.

(** A search succeeds exactly when some split of the input has a match at it. *)
Lemma search_spec r pr l k :
  is_Some (search r pr l k) ↔
  ∃ l1 l2 c', l = l1 ++ l2 ∧ is_Some (k c') ∧
    rmatch r (match last l1 with Some x => Some x | None => pr end, l2) c'.
Proof.
  revert pr; induction l as [|x l IH]; intros pr; cbn [search].
  - destruct (run r (pr, []) k) as [y|] eqn:Hrun.
    + split; [|by eexists]. intros _. apply run_sound in Hrun as (c' & Hm & Hk).
      exists [], [], c'. split_and!; [done|by eexists|done].
    + split; [by intros [? ?]|]. intros (l1 & l2 & c' & Heq & Hk & Hm).
      destruct l1, l2; simplify_eq/=. apply eq_None_not_Some in Hrun. destruct Hrun.
      by eapply run_complete.
  - destruct (run r (pr, x :: l) k) as [y|] eqn:Hrun.
    + split; [|by eexists]. intros _. apply run_sound in Hrun as (c' & Hm & Hk).
      exists [], (x :: l), c'. split_and!; [done|by eexists|done].
    + rewrite IH. split.
      * intros (l1 & l2 & c' & -> & Hk & Hm). exists (x :: l1), l2, c'.
        split_and!; [done..|]. rewrite last_cons. by destruct (last l1).
      * intros (l1 & l2 & c' & Heq & Hk & Hm). destruct l1 as [|y l1]; simplify_eq/=.
        -- apply eq_None_not_Some in Hrun. destruct Hrun. by eapply run_complete.
        -- exists l1, l2, c'. split_and!; [done..|]. rewrite last_cons in Hm.
           by destruct (last l1).
Qed.
End RunSpec.

(** [test] holds exactly when the expression matches somewhere in the input. *)
Lemma test_spec r s :
  test r s = true ↔ ∃ l1 l2 c', s = l1 ++ l2 ∧ rmatch r (last l1, l2) c'.
Proof.
  unfold test. rewrite bool_decide_eq_true, search_spec. split.
  - intros (l1 & l2 & c' & -> & _ & Hm). exists l1, l2, c'. split; [done|].
    by destruct (last l1).
  - intros (l1 & l2 & c' & -> & Hm). exists l1, l2, c'. split_and!; [done|by eexists|].
    by destruct (last l1).
Qed.

(** ** What the building blocks match *)

Lemma rmatch_chr p c c' :
  rmatch (RChr p) c c' ↔ ∃ x, c.2 = x :: c'.2 ∧ p x = true ∧ c'.1 = Some x.
Proof.
  split.
  - inversion 1; subst. simpl. eauto.
  - destruct c as [pr l], c' as [pr' l']; simpl. intros (x & -> & Hp & ->). by constructor.
Qed.

Lemma rmatch_cat a b c c' :
  rmatch (RCat a b) c c' ↔ ∃ c1, rmatch a c c1 ∧ rmatch b c1 c'.
Proof.
  split; [inversion 1; subst; eauto|]. intros (c1 & ? & ?). by eapply m_cat.
Qed.

Lemma rmatch_rep_chr n p c c' :
  rmatch (rrep n (RChr p)) c c' →
  ∃ w, length w = n ∧ Forall (λ x, p x = true) w ∧ c.2 = w ++ c'.2.
Proof.
  revert c; induction n as [|n IH]; cbn [rrep]; intros c Hm.
  - inversion Hm; subst. by exists [].
  - apply rmatch_cat in Hm as (c1 & (x & Hx & Hp & _)%rmatch_chr & (w & Hl & Hw & Hs)%IH).
    exists (x :: w). simpl. split_and!; [by f_equal|by constructor|by rewrite Hx, Hs].
Qed.

(** A single set is found exactly when some character of the input is in it. *)
Lemma test_chr p s : test (RChr p) s = existsb p s.
Proof.
  apply eq_true_iff_eq. rewrite test_spec, existsb_exists. split.
  - intros (l1 & l2 & c' & -> & (x & Hx & Hp & _)%rmatch_chr); simpl in *. subst.
    exists x. split; [|done]. apply in_app_iff. right. by left.
  - intros (x & Hin & Hp). apply in_split in Hin as (l1 & l2 & ->).
    exists l1, (x :: l2), (Some x, l2). split; [done|]. by constructor.
Qed.

Create HintDb regex discriminated.
#[export] Hint Constructors rmatch : regex.
