(* ===== verification/Catalog.v ===== *)
(** * The control-plane catalog

    The constants of [ui/shared/src/generated/protocol.ts]: the protocol versions, the
    operations with the kind of each, and the event types.  The lists are transcribed in
    the order of the source; the lemmas at the end check that the two operation tables
    agree, which is what the [satisfies Record<Operation, RequestKind>] annotation asks. *)
From stdpp Require Import base list strings.
From Stdlib Require Import ZArith NArith.
From S2P Require Import Prelude JsString.

Inductive RequestKind : Type := query | command.

#[export] Instance RequestKind_eq_dec : EqDecision RequestKind.
Proof. solve_decision. Defined.

Definition kind_name (k : RequestKind) : string :=
  match k with query => "query" | command => "command" end.

Definition PROTOCOL_VERSION : string := "ion.controlplane.v1".
Definition WORKSPACE_HOST_VERSION : string := "ion.workspace-host.v1".
Definition COMPUTER_EVENT_VERSION : string := "ion.computer-event.v1".
Definition DISPLAY_MODEL_VERSION : string := "ion.display-model.v1".

Definition OPERATIONS : list string := [
  "approval.respond";
  "artifact.list";
  "artifact.record";
  "artifact.verify";
  "automatrix.approve";
  "automatrix.list";
  "automatrix.reject";
  "autonomy.get";
  "autonomy.update";
  "browser.credential.list";
  "browser.workflow.cancel";
  "browser.workflow.handoff";
  "browser.workflow.list";
  "browser.workflow.pause";
  "browser.workflow.resume";
  "channel.health";
  "channel.list";
  "channel.retry";
  "channel.skip";
  "citation.verify";
  "commands.catalog";
  "computer.browser.interact";
  "computer.browser.navigate";
  "computer.browser.observe";
  "computer.browser.submit";
  "computer.control.acquire";
  "computer.control.get";
  "computer.control.release";
  "computer.control.renew";
  "config.get";
  "config.patch";
  "continuity.brief";
  "curiosity.targets";
  "dreamweaver.beliefs";
  "events.acknowledge";
  "events.replay";
  "integrity.latest";
  "integrity.run";
  "integrity.verify";
  "liveness.get";
  "logs.query";
  "mcp.reload";
  "mcp.servers";
  "mcp.tools";
  "memory.activation";
  "memory.get";
  "memory.graph";
  "memory.pin";
  "memory.recover";
  "memory.search";
  "plugin.lifecycle";
  "plugin.list";
  "policy.events";
  "policy.explain";
  "prediction.list";
  "premise.list";
  "project.attach";
  "project.ci.patch.plan";
  "project.citation.verify";
  "project.clone";
  "project.create";
  "project.delivery.get";
  "project.dependencies.install";
  "project.dependencies.plan";
  "project.deployment.apply";
  "project.deployment.plan";
  "project.deployment.reconcile";
  "project.deployment.rollback";
  "project.environment.put";
  "project.get";
  "project.git.blame";
  "project.git.branch.create";
  "project.git.checkpoint";
  "project.git.commit";
  "project.git.diff";
  "project.git.force-with-lease";
  "project.git.get";
  "project.git.merge";
  "project.git.preview.close";
  "project.git.preview.start";
  "project.git.provider.changes";
  "project.git.provider.checks";
  "project.git.provider.draft";
  "project.git.provider.grant";
  "project.git.provider.issues";
  "project.git.provider.mergeability";
  "project.git.provider.repositories";
  "project.git.provider.review";
  "project.git.pull";
  "project.git.push";
  "project.git.restore.plan";
  "project.git.review.comment";
  "project.git.review.comments";
  "project.git.review.get";
  "project.git.review.resolve";
  "project.git.stage";
  "project.git.stage.hunks";
  "project.git.sync";
  "project.git.tag.create";
  "project.import";
  "project.index.get";
  "project.index.refresh";
  "project.list";
  "project.migration.apply";
  "project.migration.plan";
  "project.migration.rollback";
  "project.patch.apply";
  "project.patch.history";
  "project.patch.rollback";
  "project.portable.export";
  "project.process.start";
  "project.release.prepare";
  "project.resource.apply";
  "project.resource.plan";
  "project.runtime.annotate";
  "project.runtime.get";
  "project.runtime.inspect";
  "project.runtime.list";
  "project.runtime.phase";
  "project.runtime.plan";
  "project.runtime.problems";
  "project.runtime.reload";
  "project.runtime.report";
  "project.runtime.restart";
  "project.runtime.start";
  "project.runtime.stop";
  "project.runtime.style.propose";
  "project.search";
  "project.terminal.cancel";
  "project.terminal.input";
  "project.terminal.replay";
  "project.terminal.resize";
  "project.terminal.signal";
  "project.toolchain.get";
  "project.verification.manifest.derive";
  "project.verification.manifest.get";
  "project.verification.run";
  "project.verification.runs";
  "project.verification.waiver.create";
  "project.verification.waivers";
  "provider.list";
  "provider.usage";
  "receipt.list";
  "receipt.verify";
  "relationship.update";
  "review.plan";
  "schedule.list";
  "schedule.update";
  "session.archive";
  "session.branch";
  "session.close";
  "session.create";
  "session.delete";
  "session.export";
  "session.list";
  "session.rename";
  "session.resume";
  "skill.get";
  "skill.lifecycle";
  "skill.list";
  "skill.refine";
  "skill.rollback";
  "skill.save";
  "soul.get";
  "soul.propose";
  "studio.completion.check";
  "studio.context.plan";
  "studio.correlation.record";
  "studio.drift.get";
  "studio.intent.compile";
  "studio.intent.get";
  "studio.intent.list";
  "studio.proposal.apply";
  "studio.proposal.decide";
  "studio.scope.propose";
  "supervisor.cancel";
  "supervisor.get";
  "supervisor.list";
  "supervisor.start";
  "supervisor.steer";
  "swarm.abort";
  "swarm.list";
  "system.health";
  "system.metrics";
  "system.snapshot";
  "taskgraph.get";
  "taskgraph.todo";
  "tool.invoke";
  "tool.readiness";
  "tool.surface";
  "turn.cancel";
  "turn.retry";
  "turn.steer";
  "turn.submit";
  "work.brief";
  "work.contract.complete";
  "work.contract.put";
  "workflow.advance";
  "workflow.list";
  "workflow.start";
  "workspace.capabilities";
  "workspace.lifecycle"]%string.

Definition OPERATION_KINDS_table : list (string * RequestKind) := [
  ("approval.respond", command);
  ("artifact.list", query);
  ("artifact.record", command);
  ("artifact.verify", command);
  ("automatrix.approve", command);
  ("automatrix.list", query);
  ("automatrix.reject", command);
  ("autonomy.get", query);
  ("autonomy.update", command);
  ("browser.credential.list", query);
  ("browser.workflow.cancel", command);
  ("browser.workflow.handoff", command);
  ("browser.workflow.list", query);
  ("browser.workflow.pause", command);
  ("browser.workflow.resume", command);
  ("channel.health", query);
  ("channel.list", query);
  ("channel.retry", command);
  ("channel.skip", command);
  ("citation.verify", query);
  ("commands.catalog", query);
  ("computer.browser.interact", command);
  ("computer.browser.navigate", command);
  ("computer.browser.observe", query);
  ("computer.browser.submit", command);
  ("computer.control.acquire", command);
  ("computer.control.get", query);
  ("computer.control.release", command);
  ("computer.control.renew", command);
  ("config.get", query);
  ("config.patch", command);
  ("continuity.brief", query);
  ("curiosity.targets", query);
  ("dreamweaver.beliefs", query);
  ("events.acknowledge", command);
  ("events.replay", query);
  ("integrity.latest", query);
  ("integrity.run", command);
  ("integrity.verify", query);
  ("liveness.get", query);
  ("logs.query", query);
  ("mcp.reload", command);
  ("mcp.servers", query);
  ("mcp.tools", query);
  ("memory.activation", query);
  ("memory.get", query);
  ("memory.graph", query);
  ("memory.pin", command);
  ("memory.recover", command);
  ("memory.search", query);
  ("plugin.lifecycle", command);
  ("plugin.list", query);
  ("policy.events", query);
  ("policy.explain", query);
  ("prediction.list", query);
  ("premise.list", query);
  ("project.attach", command);
  ("project.ci.patch.plan", query);
  ("project.citation.verify", query);
  ("project.clone", command);
  ("project.create", command);
  ("project.delivery.get", query);
  ("project.dependencies.install", command);
  ("project.dependencies.plan", query);
  ("project.deployment.apply", command);
  ("project.deployment.plan", command);
  ("project.deployment.reconcile", command);
  ("project.deployment.rollback", command);
  ("project.environment.put", command);
  ("project.get", query);
  ("project.git.blame", query);
  ("project.git.branch.create", command);
  ("project.git.checkpoint", command);
  ("project.git.commit", command);
  ("project.git.diff", query);
  ("project.git.force-with-lease", command);
  ("project.git.get", query);
  ("project.git.merge", command);
  ("project.git.preview.close", command);
  ("project.git.preview.start", command);
  ("project.git.provider.changes", query);
  ("project.git.provider.checks", query);
  ("project.git.provider.draft", command);
  ("project.git.provider.grant", command);
  ("project.git.provider.issues", query);
  ("project.git.provider.mergeability", query);
  ("project.git.provider.repositories", query);
  ("project.git.provider.review", query);
  ("project.git.pull", command);
  ("project.git.push", command);
  ("project.git.restore.plan", query);
  ("project.git.review.comment", command);
  ("project.git.review.comments", query);
  ("project.git.review.get", query);
  ("project.git.review.resolve", command);
  ("project.git.stage", command);
  ("project.git.stage.hunks", command);
  ("project.git.sync", command);
  ("project.git.tag.create", command);
  ("project.import", command);
  ("project.index.get", query);
  ("project.index.refresh", command);
  ("project.list", query);
  ("project.migration.apply", command);
  ("project.migration.plan", command);
  ("project.migration.rollback", command);
  ("project.patch.apply", command);
  ("project.patch.history", query);
  ("project.patch.rollback", command);
  ("project.portable.export", command);
  ("project.process.start", command);
  ("project.release.prepare", command);
  ("project.resource.apply", command);
  ("project.resource.plan", command);
  ("project.runtime.annotate", command);
  ("project.runtime.get", query);
  ("project.runtime.inspect", query);
  ("project.runtime.list", query);
  ("project.runtime.phase", command);
  ("project.runtime.plan", query);
  ("project.runtime.problems", query);
  ("project.runtime.reload", command);
  ("project.runtime.report", command);
  ("project.runtime.restart", command);
  ("project.runtime.start", command);
  ("project.runtime.stop", command);
  ("project.runtime.style.propose", command);
  ("project.search", query);
  ("project.terminal.cancel", command);
  ("project.terminal.input", command);
  ("project.terminal.replay", query);
  ("project.terminal.resize", command);
  ("project.terminal.signal", command);
  ("project.toolchain.get", query);
  ("project.verification.manifest.derive", command);
  ("project.verification.manifest.get", query);
  ("project.verification.run", command);
  ("project.verification.runs", query);
  ("project.verification.waiver.create", command);
  ("project.verification.waivers", query);
  ("provider.list", query);
  ("provider.usage", query);
  ("receipt.list", query);
  ("receipt.verify", query);
  ("relationship.update", command);
  ("review.plan", query);
  ("schedule.list", query);
  ("schedule.update", command);
  ("session.archive", command);
  ("session.branch", command);
  ("session.close", command);
  ("session.create", command);
  ("session.delete", command);
  ("session.export", query);
  ("session.list", query);
  ("session.rename", command);
  ("session.resume", command);
  ("skill.get", query);
  ("skill.lifecycle", query);
  ("skill.list", query);
  ("skill.refine", command);
  ("skill.rollback", command);
  ("skill.save", command);
  ("soul.get", query);
  ("soul.propose", command);
  ("studio.completion.check", query);
  ("studio.context.plan", query);
  ("studio.correlation.record", command);
  ("studio.drift.get", query);
  ("studio.intent.compile", command);
  ("studio.intent.get", query);
  ("studio.intent.list", query);
  ("studio.proposal.apply", command);
  ("studio.proposal.decide", command);
  ("studio.scope.propose", command);
  ("supervisor.cancel", command);
  ("supervisor.get", query);
  ("supervisor.list", query);
  ("supervisor.start", command);
  ("supervisor.steer", command);
  ("swarm.abort", command);
  ("swarm.list", query);
  ("system.health", query);
  ("system.metrics", query);
  ("system.snapshot", query);
  ("taskgraph.get", query);
  ("taskgraph.todo", query);
  ("tool.invoke", command);
  ("tool.readiness", query);
  ("tool.surface", query);
  ("turn.cancel", command);
  ("turn.retry", command);
  ("turn.steer", command);
  ("turn.submit", command);
  ("work.brief", query);
  ("work.contract.complete", command);
  ("work.contract.put", command);
  ("workflow.advance", command);
  ("workflow.list", query);
  ("workflow.start", command);
  ("workspace.capabilities", query);
  ("workspace.lifecycle", command)]%string.

Definition EVENT_TYPES : list string := [
  "connection.ready";
  "connection.degraded";
  "connection.recovered";
  "turn.started";
  "turn.delta";
  "turn.completed";
  "turn.incomplete";
  "turn.recovery";
  "turn.failed";
  "reasoning.summary";
  "tool.requested";
  "tool.awaiting_approval";
  "tool.started";
  "tool.delta";
  "tool.completed";
  "tool.failed";
  "tool.denied";
  "tool.interrupted";
  "tool.outcome_unknown";
  "computer.control.acquired";
  "computer.control.renewed";
  "computer.control.released";
  "approval.requested";
  "approval.resolved";
  "approval.expired";
  "premise.created";
  "premise.cited";
  "premise.refuted";
  "prediction.created";
  "prediction.matched";
  "prediction.mismatched";
  "task.changed";
  "convergence.warning";
  "agent.spawned";
  "agent.progress";
  "agent.completed";
  "agent.aborted";
  "memory.committed";
  "memory.tombstoned";
  "memory.recovered";
  "emotional.changed";
  "relationship.changed";
  "temporal.changed";
  "liveness.decision";
  "repair.learned";
  "aesthetic.changed";
  "soul.changed";
  "circuit.opened";
  "circuit.closed";
  "heartbeat.pulse";
  "automatrix.queued";
  "automatrix.completed";
  "curiosity.targeted";
  "dreamweaver.derived";
  "policy.decision";
  "security.alert";
  "integrity.generated";
  "workspace.operation.queued";
  "workspace.operation.started";
  "workspace.operation.progress";
  "workspace.operation.completed";
  "workspace.operation.failed";
  "workspace.operation.cancelled";
  "journal.gap"]%string.

(** [new Set(names).has(s)]. *)
Definition in_names (s : jstr) (names : list string) : bool :=
  existsb (λ n, jeqb s (js n)) names.

Definition operationSet_has (s : jstr) : bool := in_names s OPERATIONS.
Definition eventTypeSet_has (s : jstr) : bool := in_names s EVENT_TYPES.

(** [OPERATION_KINDS[op]]; [undefined] for a name that is not in the catalog. *)
Definition OPERATION_KINDS (op : jstr) : option RequestKind :=
  snd <$> find (λ row, jeqb op (js row.1)) OPERATION_KINDS_table.

(** ** The tables agree *)

Lemma in_names_spec s names : in_names s names = true ↔ ∃ n, n ∈ names ∧ s = js n.
Proof.
  unfold in_names. rewrite existsb_exists. split.
  - intros (n & Hin & ->%jeqb_eq). exists n. by rewrite list_elem_of_In.
  - intros (n & Hin & ->). exists n. rewrite <-list_elem_of_In, jeqb_refl. done.
Qed.

Lemma operation_rows : OPERATION_KINDS_table.*1 = OPERATIONS.
Proof. vm_compute. reflexivity. Qed.

Lemma find_Some_existsb {A} (f : A → bool) (l : list A) :
  is_Some (find f l) ↔ existsb f l = true.
Proof.
  induction l as [|x l IH]; simpl; [by split; [intros [? ?]|]|].
  destruct (f x); simpl; [split; [done|by eexists]|done].
Qed.

(** Every catalogued operation has a kind, and nothing else has one. *)
Lemma operation_kind_total op : is_Some (OPERATION_KINDS op) ↔ operationSet_has op = true.
Proof.
  unfold OPERATION_KINDS, operationSet_has, in_names. rewrite fmap_is_Some, find_Some_existsb.
  rewrite <-operation_rows. induction OPERATION_KINDS_table as [|row t IH]; simpl; [done|].
  rewrite !orb_true_iff, IH. done.
Qed.

Lemma operation_names_nodup : NoDup (map js OPERATIONS).
Proof. apply (bool_decide_eq_true_1 (NoDup (map js OPERATIONS))). vm_compute. reflexivity. Qed.

Lemma event_names_nodup : NoDup (map js EVENT_TYPES).
Proof. apply (bool_decide_eq_true_1 (NoDup (map js EVENT_TYPES))). vm_compute. reflexivity. Qed.
