(* ===== verification/Protocol.v ===== *)
(** * Control-plane data and elementary validators

    The interfaces and the small type guards of [ui/shared/src/generated/protocol.ts].
    Values that arrive over the wire are [json]; the guards are boolean functions on an
    optional value ([None] is [undefined]).  The records are the typed views the clients
    work with once a guard has accepted a value. *)
From stdpp Require Import base list strings.
From Stdlib Require Import ZArith NArith.
From S2P Require Import Prelude JsString JsValue Regex Catalog.

Abbreviation UUID := jstr (only parsing).

(** The host functions the guards call: [Date.parse] (the format of a date string is
    implementation-defined beyond the ISO subset), the WHATWG [URL] parser and the
    Unicode case tables. *)
Record URL : Type := {
  url_protocol : jstr;
  url_username : jstr;
  url_password : jstr;
  url_hostname : jstr;
  url_searchParams : list (jstr * jstr);
}.

Class Platform := {
  Date_parse : jstr → option Z;
  URL_parse : jstr → option URL;
  case_table :: CaseTable;
}.

(** [!Number.isNaN(Date.parse(s))]. *)
Definition date_ok `{Platform} (s : jstr) : bool := bool_decide (is_Some (Date_parse s)).

(** ** Data *)

Record Scope : Type := {
  scope_actor_id : UUID;
  scope_session_id : option UUID;
  scope_profile : option jstr;
  scope_channel : option jstr;
}.

Record RequestEnvelope : Type := {
  req_protocol_version : jstr;
  req_request_id : UUID;
  req_kind : RequestKind;
  req_operation : jstr;
  req_scope : Scope;
  req_idempotency_key : option jstr;
  req_expected_revision : option num;
  req_payload : json;
}.

Record ProtocolError : Type := {
  err_code : jstr;
  err_message : jstr;
  err_retryable : bool;
}.

Record ResponseEnvelope : Type := {
  resp_request_id : UUID;
  resp_revision : Z;
  resp_result : option json;
  resp_error : option ProtocolError;
}.

Record Correlation : Type := {
  cor_actor_id : UUID;
  cor_session_id : option UUID;
  cor_turn_id : option UUID;
  cor_task_id : option UUID;
  cor_tool_id : option UUID;
}.

Inductive ComputerPhase : Type :=
  | requested | awaiting_approval | started | progress
  | completed | failed | denied | interrupted | outcome_unknown.

#[export] Instance ComputerPhase_eq_dec : EqDecision ComputerPhase.
Proof. solve_decision. Defined.

Definition all_phases : list ComputerPhase :=
  [requested; awaiting_approval; started; progress; completed; failed; denied;
   interrupted; outcome_unknown].

Definition phase_name (p : ComputerPhase) : string :=
  match p with
  | requested => "requested"
  | awaiting_approval => "awaiting_approval"
  | started => "started"
  | progress => "progress"
  | completed => "completed"
  | failed => "failed"
  | denied => "denied"
  | interrupted => "interrupted"
  | outcome_unknown => "outcome_unknown"
  end.

(** [computerPhases.has(s)], with the phase it names. *)
Definition phase_of (s : jstr) : option ComputerPhase :=
  find (λ p, jeqb s (js (phase_name p))) all_phases.

(** [computerTerminalStatuses]. *)
Definition phase_terminal (p : ComputerPhase) : bool :=
  match p with
  | completed | failed | denied | interrupted | outcome_unknown => true
  | _ => false
  end.

(** [computerEventTypeByPhase]. *)
Definition computerEventTypeByPhase (p : ComputerPhase) : string :=
  match p with
  | requested => "tool.requested"
  | awaiting_approval => "tool.awaiting_approval"
  | started => "tool.started"
  | progress => "tool.delta"
  | completed => "tool.completed"
  | failed => "tool.failed"
  | denied => "tool.denied"
  | interrupted => "tool.interrupted"
  | outcome_unknown => "tool.outcome_unknown"
  end.

(** [computerEventTypes]. *)
Definition computerEventTypes_has (ty : jstr) : bool :=
  in_names ty (map computerEventTypeByPhase all_phases).

Record ComputerScope : Type := {
  cs_actor_id : UUID;
  cs_session_id : option UUID;
  cs_turn_id : option UUID;
  cs_task_id : option UUID;
  cs_outcome_id : option UUID;
  cs_agent_id : jstr;
}.

Record ComputerSourceReference : Type := { sr_kind : jstr; sr_id : jstr }.

Record ComputerResultSummary : Type := {
  crs_available : bool;
  crs_bytes : Z;
  crs_error_code : option jstr;
  crs_error : option jstr;
}.

Record ComputerEventPayload : Type := {
  cp_tool_event_id : UUID;
  cp_provider_tool_call_id : jstr;
  cp_tool : jstr;
  cp_operation : jstr;
  cp_scope : ComputerScope;
  cp_risk_class : jstr;
  cp_phase : ComputerPhase;
  cp_timestamp : jstr;
  cp_display_kind : jstr;
  cp_source_references : list ComputerSourceReference;
  cp_terminal_status : option ComputerPhase;
  cp_progress : option json;
  cp_result : option ComputerResultSummary;
  cp_display_model : option json;
}.

Record EventEnvelope : Type := {
  ev_sequence : Z;
  ev_event_id : UUID;
  ev_type : jstr;
  ev_occurred_at : jstr;
  ev_correlation : Correlation;
  ev_payload : json;
}.

Record ReplayEnvelope : Type := {
  rp_after_sequence : Z;
  rp_earliest_sequence : Z;
  rp_latest_sequence : Z;
  rp_head_sequence : Z;
  rp_gap : bool;
  rp_events : list EventEnvelope;
}.

Record GapMarker : Type := {
  gm_requested_after : Z;
  gm_available_from : Z;
  gm_latest : Z;
}.

Record RecoveryEnvelope : Type := {
  rec_replay : ReplayEnvelope;
  rec_gap_marker : option GapMarker;
  rec_snapshot : option json;
}.

Record CommandDescriptor : Type := {
  cd_operation : jstr;
  cd_kind : RequestKind;
  cd_available : bool;
  cd_description : jstr;
}.

(** ** Elementary guards *)

Definition is_hex (c : N) : bool :=
  let c := lower_ascii c in between 48 57 c || between 97 102 c.

(** [UUID_PATTERN]: hexadecimal groups of 8, 4, 4, 4 and 12 digits, a version digit 1 to
    8 and a variant digit 8, 9, a or b, either case, over the whole string. *)
Definition dash : re := RChr (N.eqb 45).
Definition hexes (n : nat) : re := rrep n (RChr is_hex).
Definition uuid_with_version (hi : N) : re :=
  rcats [RBos; hexes 8; dash; hexes 4; dash;
         RChr (between 49 hi); hexes 3; dash;
         RChr (λ c, one_of [56; 57; 97; 98]%N (lower_ascii c)); hexes 3; dash;
         hexes 12; REos].
Definition UUID_PATTERN : re := uuid_with_version 56.

Definition isUUID_string (s : jstr) : bool := test UUID_PATTERN s.

Definition isUUID (v : option json) : bool :=
  match asString v with Some s => isUUID_string s | None => false end.

(** The non-negative safe integer a value is, when it is one. *)
Definition asNonNegativeSafeInteger (v : option json) : option Z :=
  match asNum v with
  | Some n => if isSafeInteger n then
                match num_to_Z n with
                | Some z => if (0 <=? z)%Z then Some z else None
                | None => None
                end
              else None
  | None => None
  end.
Definition isNonNegativeSafeInteger (v : option json) : bool :=
  bool_decide (is_Some (asNonNegativeSafeInteger v)).

(** [v === undefined || guard(v)]. *)
Definition optional (guard : option json → bool) (v : option json) : bool :=
  match v with None => true | Some _ => guard v end.

(** Property access through an optional value. *)
Definition getO (k : string) (v : option json) : option json :=
  match v with Some x => get k x | None => None end.

Definition isScope (v : option json) : bool :=
  isRecord v && isUUID (getO "actor_id" v) &&
  optional isUUID (getO "session_id" v) &&
  optional isString (getO "profile" v) &&
  optional isString (getO "channel" v).

Definition isCorrelation (v : option json) : bool :=
  isRecord v && isUUID (getO "actor_id" v) &&
  forallb (λ k, optional isUUID (getO k v))
    ["session_id"; "turn_id"; "task_id"; "tool_id"]%string.

(** A string property that is present and not empty. *)
Definition nonEmptyString (v : option json) : bool :=
  match asString v with Some (_ :: _) => true | _ => false end.

(** [String(v)] of an optional value. *)
Definition toStrO (v : option json) : jstr :=
  match v with Some x => toStr x | None => js "undefined" end.

(** ['GREEN', 'YELLOW', 'RED'].includes(String(v)). *)
Definition isRiskClass (v : option json) : bool :=
  in_names (toStrO v) ["GREEN"; "YELLOW"; "RED"]%string.

(** ** Typed reads after a guard *)

Definition str_field (k : string) (v : json) : jstr := default [] (asString (get k v)).

Definition correlation_of (v : json) : Correlation := {|
  cor_actor_id := str_field "actor_id" v;
  cor_session_id := asString (get "session_id" v);
  cor_turn_id := asString (get "turn_id" v);
  cor_task_id := asString (get "task_id" v);
  cor_tool_id := asString (get "tool_id" v);
|}.

(** ** Lemmas *)

Lemma isRecord_get v : isRecord v = true → ∃ o, v = Some (JObj o).
Proof. destruct v as [[]|]; try done. eauto. Qed.

Lemma phase_of_name p : phase_of (js (phase_name p)) = Some p.
Proof. destruct p; vm_compute; reflexivity. Qed.

Lemma phase_of_Some s p : phase_of s = Some p → s = js (phase_name p).
Proof.
  unfold phase_of. intros [_ H%jeqb_eq]%find_some. done.
Qed.

(** The event type of a phase names no other phase. *)
Lemma computerEventTypeByPhase_inj p q :
  js (computerEventTypeByPhase p) = js (computerEventTypeByPhase q) → p = q.
Proof.
  intros H. apply (f_equal (λ s, jeqb s (js (computerEventTypeByPhase q)))) in H.
  rewrite jeqb_refl in H. revert H. destruct p, q; vm_compute; done.
Qed.

Lemma computerEventTypes_has_phase p :
  computerEventTypes_has (js (computerEventTypeByPhase p)) = true.
Proof. destruct p; vm_compute; reflexivity. Qed.

Lemma asNonNegativeSafeInteger_bounds v z :
  asNonNegativeSafeInteger v = Some z → (0 <= z <= max_safe_integer)%Z.
Proof.
  unfold asNonNegativeSafeInteger, isSafeInteger. destruct (asNum v) as [n|]; [|done].
  destruct (num_to_Z n) as [y|]; [|done]. repeat case_match; intros; simplify_eq.
  bools. lia.
Qed.

Lemma isUUID_asString v : isUUID v = true → ∃ s, asString v = Some s ∧ isUUID_string s = true.
Proof. unfold isUUID. destruct (asString v); [eauto|done]. Qed.

Lemma optional_isUUID v :
  optional isUUID v = true → v = None ∨ ∃ s, v = Some (JStr s) ∧ isUUID_string s = true.
Proof.
  destruct v as [[]|]; unfold optional, isUUID; simpl; try done; eauto.
Qed.

(** Every accepted identifier has 36 units. *)
Lemma isUUID_length s : isUUID_string s = true → length s = 36.
Proof.
  unfold isUUID_string, UUID_PATTERN, uuid_with_version, rcats, hexes, dash.
  intros (l1 & l2 & c' & -> & Hm)%test_spec.
  repeat match goal with
  | H : rmatch (RCat _ _) _ _ |- _ => apply rmatch_cat in H as (? & ? & ?)
  | H : rmatch (RChr _) _ _ |- _ => apply rmatch_chr in H as (? & ? & _ & _)
  | H : rmatch (rrep _ _) _ _ |- _ => apply rmatch_rep_chr in H as (? & ? & _ & ?)
  end.
  match goal with H : rmatch RBos _ _ |- _ => inversion H; subst end.
  match goal with H : rmatch REos _ _ |- _ => inversion H; subst end.
  simpl in *. destruct l1 as [|y l1] using rev_ind; [|by rewrite last_snoc in *].
  simpl. repeat match goal with H : _ = _ ++ _ |- _ => apply (f_equal length) in H
                | H : _ = _ :: _ |- _ => apply (f_equal length) in H end.
  rewrite ?length_app in *. simpl in *. lia.
Qed.

Example uuid_ok : isUUID_string (js "0190c0de-0000-7000-8000-00000000000A") = true.
Proof. vm_compute. reflexivity. Qed.
