(* ===== verification/Display.v ===== *)
(** * Display models

    The display-model guards of [ui/shared/src/generated/protocol.ts]: what text, links
    and paths may be shown, the structure and size of a model, the compatibility verdict
    and the migration of the previous version. *)
From stdpp Require Import base list strings.
From Stdlib Require Import ZArith NArith.
From S2P Require Import Prelude JsString JsValue Regex Catalog Protocol.

Inductive DisplayCompatibility : Type := current | migrated | unsupported | invalid.

#[export] Instance DisplayCompatibility_eq_dec : EqDecision DisplayCompatibility.
Proof. solve_decision. Defined.

Definition displayKinds : list string :=
  ["search"; "reader"; "navigation"; "repository"; "code"; "terminal"; "diff";
   "process"; "table"; "chart"; "document"; "artifact"; "task"; "agent";
   "approval"; "error"; "degraded"].
Definition displayTruths : list string :=
  ["observed"; "generated"; "summarized"; "inferred"; "unavailable"].
Definition displayFormats : list string :=
  ["text"; "url"; "path"; "integer"; "number"; "boolean"; "timestamp"; "status";
   "code"; "terminal"; "diff"].
Definition displayBlockKinds : list string :=
  ["text"; "list"; "code"; "terminal"; "diff"; "table"; "chart"; "document"; "empty"].

(** [typeof v === 'string' && set.has(v)]. *)
Definition isName (names : list string) (v : option json) : bool :=
  match asString v with Some s => in_names s names | None => false end.

(** ** Text *)

(** Simple case folding of the [iu] flags on the letters the patterns mention: the ASCII
    capitals, the long s and the Kelvin sign. *)
Definition fold_iu (c : N) : N :=
  if (c =? 383)%N then 115%N else if (c =? 8490)%N then 107%N else lower_ascii c.

Definition ci (p : N → bool) (c : N) : bool := p (fold_iu c).
Definition is_lower (c : N) : bool := between 97 122 c.
Definition is_digit (c : N) : bool := between 48 57 c.
Definition lit_ci (s : string) : re := rlit_with (λ x c, (fold_iu c =? x)%N) (js s).
Definition lit_cs (s : string) : re := rlit_with (λ x c, (c =? x)%N) (js s).
Definition spaces : re := RStar (RChr is_space).
Definition word_iu (c : N) : bool := ci (λ c, is_lower c || is_digit c || (c =? 95)%N) c.
Definition at_least (n : nat) (p : N → bool) : re := RCat (rrep n (RChr p)) (RStar (RChr p)).

(** The control characters that are never shown: all of C0 but tab, line feed and
    carriage return, and DEL. *)
Definition is_control (c : N) : bool :=
  (between 0 8 c || (c =? 11) || (c =? 12) || between 14 31 c || (c =? 127) || (c =? 27))%N.
Definition control_re : re := RChr is_control.

Definition markup_re : re :=
  rcats [RChr (N.eqb 60); spaces;
         ralts (map lit_ci ["script"; "style"; "iframe"; "object"; "embed"; "link"; "meta"]
                ++ [RCat (RChr (ci is_lower))
                      (RStar (RChr (ci (λ c, is_lower c || is_digit c || (c =? 58)%N || (c =? 45)%N))))]);
         ropt (RCat (RChr is_space) (RStar (RChr (λ c, negb (c =? 62)%N))));
         RChr (N.eqb 62)].

Definition private_key_re : re :=
  rcats [lit_ci "-----begin ";
         RStar (RChr (ci (λ c, is_lower c || is_digit c || (c =? 32)%N)));
         lit_ci "private key-----"].

Definition bearer_re : re :=
  rcats [RBound word_iu; lit_ci "bearer"; rplus (RChr is_space);
         at_least 8 (ci (λ c, is_lower c || is_digit c || one_of [46; 95; 126; 43; 47; 45]%N c));
         RStar (RChr (N.eqb 61))].

Definition sep_opt : re := ropt (RChr (one_of [95; 45]%N)).
Definition secret_re : re :=
  rcats [RBound word_iu;
         ralts [rcats [lit_ci "api"; sep_opt; lit_ci "key"];
                rcats [lit_ci "access"; sep_opt; lit_ci "token"];
                rcats [lit_ci "auth"; sep_opt; lit_ci "token"];
                lit_ci "password"; lit_ci "passwd"; lit_ci "secret"];
         RBound word_iu; spaces; RChr (one_of [58; 61]%N); spaces;
         ropt (RChr (one_of [34; 39]%N));
         at_least 4 (λ c, negb (is_space c || one_of [34; 39; 44; 59]%N c))].

Definition displayTextIsSafe (value : jstr) (maximum : N) : bool :=
  let credentialCheck := removeAll (js "[REDACTED]") value in
  let text := code_points value in
  let credentials := code_points credentialCheck in
  (0 <? jlen (trim value))%N &&
  (utf8_length value <=? maximum)%N &&
  negb (test control_re text) &&
  negb (test markup_re text) &&
  negb (test private_key_re text) &&
  negb (test bearer_re credentials) &&
  negb (test secret_re credentials).

(** The default bound on a text. *)
Definition displayTextMaximum : N := 16384.

(** ** Links and paths *)

Definition sensitive_key_re : re :=
  rcats [RAlt RBos (RChr (N.eqb 95));
         ralts [rcats [lit_ci "api"; ropt (RChr (N.eqb 95)); lit_ci "key"];
                lit_ci "access_token"; lit_ci "token"; lit_ci "secret"; lit_ci "password";
                lit_ci "passwd"; lit_ci "authorization"; lit_ci "signature"; lit_ci "sig"];
         REos].

(** [value.slice(0, value.indexOf(':'))]; a negative index counts from the end. *)
Definition before_colon (value : jstr) : jstr :=
  match indexOf 58 value with
  | Some i => take i value
  | None => take (length value - 1) value
  end.

Definition displayURLIsSafe `{Platform} (value : jstr) : bool :=
  if (2048 <? jlen value)%N || includes (js "#") value then false else
  match URL_parse value with
  | None => false
  | Some parsed =>
      let sensitiveQuery :=
        existsb (λ kv, test sensitive_key_re (code_points kv.1) &&
                       negb (jeqb kv.2 (js "[REDACTED]")))
          (url_searchParams parsed) in
      (jeqb (url_protocol parsed) (js "http:") || jeqb (url_protocol parsed) (js "https:")) &&
      jeqb (url_username parsed) [] && jeqb (url_password parsed) [] &&
      jeqb (url_hostname parsed) (toLowerCase (url_hostname parsed)) &&
      jeqb (before_colon value) (toLowerCase (before_colon value)) &&
      negb sensitiveQuery
  end.

Definition displayPathIsSafe (value : jstr) : bool :=
  if (jlen value =? 0)%N || startsWith (js "/") value || includes [92%N] value then false else
  let parts := splitOn 47 value in
  forallb (λ part, negb (jeqb part (js "..")) && negb (jeqb part []) && negb (jeqb part (js ".")))
    parts || jeqb value (js ".").

(** ** Structure *)

(** The source index a value is: a safe integer inside the reference list. *)
Definition sourceIndex (sourceCount : Z) (v : json) : option Z :=
  match v with
  | JNum n =>
      if isSafeInteger n then
        match num_to_Z n with
        | Some z => if (0 <=? z)%Z && (z <? sourceCount)%Z then Some z else None
        | None => None
        end
      else None
  | _ => None
  end.

Definition arrayBetween (lo hi : nat) (l : list json) : bool :=
  (lo <=? length l) && (length l <=? hi).

(** All elements are in-range source indices and no index occurs twice. *)
Definition sourcesOk (sourceCount : Z) (l : list json) : bool :=
  match mapM (sourceIndex sourceCount) l with
  | Some zs => bool_decide (NoDup zs)
  | None => false
  end.

Definition textOk (maximum : N) (v : option json) : bool :=
  match asString v with Some s => displayTextIsSafe s maximum | None => false end.

Section Guards.
Context `{Platform}.
Variable sourceCount : Z.

Definition isDisplayDatum (v : option json) : bool :=
  isRecord v && textOk displayTextMaximum (getO "value" v) &&
  isName displayTruths (getO "truth" v) && isName displayFormats (getO "format" v) &&
  match isArray (getO "sources" v) with
  | Some sources => arrayBetween 1 8 sources && sourcesOk sourceCount sources
  | None => false
  end &&
  (let value := default [] (asString (getO "value" v)) in
   (negb (isLit "url" (getO "format" v)) || displayURLIsSafe value) &&
   (negb (isLit "path" (getO "format" v)) || displayPathIsSafe value)).

Definition isDisplayField (v : option json) : bool :=
  isRecord v && textOk 128 (getO "label" v) && isDisplayDatum (getO "value" v).

(** [Array.isArray(v) && lo <= v.length <= hi && v.every(guard)]. *)
Definition arrayOf (lo hi : nat) (guard : option json → bool) (v : option json) : bool :=
  match isArray v with
  | Some l => arrayBetween lo hi l && forallb (λ x, guard (Some x)) l
  | None => false
  end.

Definition isDisplayItem (v : option json) : bool :=
  isRecord v && arrayOf 1 32 isDisplayField (getO "fields" v).

(** An optional label: a string, empty or safe. *)
Definition labelOk (maximum : N) : option json → bool :=
  optional (λ v, match asString v with
                 | Some s => jeqb s [] || displayTextIsSafe s maximum
                 | None => false
                 end).

Definition isDisplayRow (columns : option json) (v : option json) : bool :=
  match isArray v with
  | Some row =>
      arrayBetween 1 16 row &&
      match columns with
      | None => true
      | Some (JArr cs) => (length row =? length cs)
      | Some _ => false
      end &&
      forallb (λ x, isDisplayDatum (Some x)) row
  | None => false
  end.

Definition isDisplayBlock (v : option json) : bool :=
  isRecord v && isName displayBlockKinds (getO "kind" v) &&
  labelOk 128 (getO "label" v) && labelOk 64 (getO "language" v) &&
  optional isDisplayDatum (getO "content" v) &&
  optional (arrayOf 0 32 isDisplayField) (getO "fields" v) &&
  optional (arrayOf 0 64 isDisplayItem) (getO "items" v) &&
  optional (arrayOf 0 16 (textOk 128)) (getO "columns" v) &&
  optional (arrayOf 0 64 (isDisplayRow (getO "columns" v))) (getO "rows" v).

(** [new TextEncoder().encode(JSON.stringify(v)).length]. *)
Definition encodedBytes (v : json) : N := utf8_length (stringify v).

Definition displayModelMaximum : N := 65536.

Definition isDisplayModel (v : json) : bool :=
  isRecord (Some v) && isLit DISPLAY_MODEL_VERSION (get "protocol_version" v) &&
  isName displayKinds (get "kind" v) && isDisplayDatum (get "title" v) &&
  optional (arrayOf 0 32 isDisplayField) (get "fields" v) &&
  optional (arrayOf 0 16 isDisplayBlock) (get "blocks" v) &&
  (encodedBytes v <=? displayModelMaximum)%N.

(** The datum a migrated text becomes. *)
Definition migratedDatum (text : jstr) (truth : string) (source : Z) : json :=
  JObj [(js "value", JStr text); (js "truth", JStr (js truth)); (js "format", JStr (js "text"));
        (js "sources", JArr [JNum (num_of_Z source)])].

Definition DISPLAY_MODEL_V0 : string := "ion.display-model.v0".

Definition migrateDisplayModel (v : json) : option json :=
  if isDisplayModel v then Some v else
  if isRecord (Some v) && isLit DISPLAY_MODEL_V0 (get "protocol_version" v) &&
     isName displayKinds (get "kind" v) && textOk displayTextMaximum (get "title" v) &&
     optional (textOk displayTextMaximum) (get "summary" v)
  then
    match get "source" v ≫= sourceIndex sourceCount with
    | None => None
    | Some source =>
        let m := JObj
          ([(js "protocol_version", JStr (js DISPLAY_MODEL_VERSION));
            (js "kind", JStr (str_field "kind" v));
            (js "title", migratedDatum (str_field "title" v) "observed" source)] ++
           match asString (get "summary" v) with
           | Some summary =>
               [(js "blocks",
                 JArr [JObj [(js "kind", JStr (js "text"));
                             (js "content", migratedDatum summary "summarized" source)]])]
           | None => []
           end) in
        if isDisplayModel m then Some m else None
    end
  else None.

Definition displayModelCompatibility (v : json) : DisplayCompatibility :=
  match asString (if isRecord (Some v) then get "protocol_version" v else None) with
  | None => invalid
  | Some version =>
      if (jlen version =? 0)%N || (128 <? jlen version)%N then invalid
      else if (displayModelMaximum <? encodedBytes v)%N then invalid
      else if jeqb version (js DISPLAY_MODEL_VERSION)
        then if isDisplayModel v then current else invalid
      else if jeqb version (js DISPLAY_MODEL_V0)
        then match migrateDisplayModel v with Some _ => migrated | None => invalid end
      else unsupported
  end.
End Guards.

(** ** Every datum of a model

    [model_data] lists the data a client can render: the title, the field values, and
    for every block its content, its field values, its items' field values and its
    cells. *)
Definition elements (v : option json) : list json := default [] (isArray v).
Definition opt_list {A} (o : option A) : list A := match o with Some x => [x] | None => [] end.
Definition fields_data (v : option json) : list json :=
  flat_map (λ f, opt_list (get "value" f)) (elements v).
Definition block_data (b : json) : list json :=
  opt_list (get "content" b) ++ fields_data (get "fields" b) ++
  flat_map (λ i, fields_data (get "fields" i)) (elements (get "items" b)) ++
  flat_map (λ r, elements (Some r)) (elements (get "rows" b)).
Definition model_data (v : json) : list json :=
  opt_list (get "title" v) ++ fields_data (get "fields" v) ++
  flat_map block_data (elements (get "blocks" v)).

(** A datum a reader can trust to be attributable: it shows a safe text and cites at
    least one source, every one of them inside the reference list. *)
Definition attributable (sourceCount : Z) (d : json) : Prop :=
  ∃ text l zs,
    get "value" d = Some (JStr text) ∧ displayTextIsSafe text displayTextMaximum = true ∧
    get "sources" d = Some (JArr l) ∧ mapM (sourceIndex sourceCount) l = Some zs ∧
    zs ≠ [] ∧ NoDup zs ∧ Forall (λ z, (0 <= z < sourceCount)%Z) zs.

Section DisplayLemmas.
Context `{Platform}.
Variable n : Z.

Lemma asString_Some v s : asString v = Some s → v = Some (JStr s).
Proof. destruct v as [[]|]; simpl; naive_solver. Qed.

Lemma sourceIndex_bounds v z : sourceIndex n v = Some z → (0 <= z < n)%Z.
Proof.
  destruct v; simpl; try done. destruct (isSafeInteger n0); [|done].
  destruct (num_to_Z n0); [|done]. case_match; [|done]. intros [= <-]. bools. lia.
Qed.

Lemma isDisplayDatum_attributable d : isDisplayDatum n (Some d) = true → attributable n d.
Proof.
  unfold isDisplayDatum. intros Hd. bools. simpl in *.
  unfold textOk in *. destruct (asString (get "value" d)) as [text|] eqn:Ht; [|done].
  destruct (isArray (get "sources" d)) as [l|] eqn:Hl; [|done]. bools.
  unfold sourcesOk in *. destruct (mapM (sourceIndex n) l) as [zs|] eqn:Hz; [|done]. bools.
  exists text, l, zs. split_and!; try done.
  - by apply asString_Some in Ht.
  - destruct (get "sources" d) as [[]|]; simpl in *; naive_solver.
  - unfold arrayBetween in *. bools. apply length_mapM in Hz. destruct zs, l; simpl in *; [lia|done..].
  - apply mapM_Some_1 in Hz. apply Forall_forall. intros z Hin.
    apply list_elem_of_lookup in Hin as [i Hi].
    destruct (Forall2_lookup_r _ _ _ _ _ Hz Hi) as (x & _ & Hx).
    by eapply sourceIndex_bounds.
Qed.

Lemma arrayOf_elements lo hi guard v :
  optional (arrayOf lo hi guard) v = true → Forall (λ x, guard (Some x) = true) (elements v).
Proof.
  destruct v as [v|]; [|constructor]. unfold optional, arrayOf, elements.
  destruct (isArray (Some v)) as [l|]; simpl; [|done]. intros Hb. bools.
  apply Forall_forall. intros x Hx. rewrite forallb_forall in *. rewrite list_elem_of_In in Hx. auto.
Qed.

Lemma Forall_flat_map {A B} (P : B → Prop) (f : A → list B) l :
  Forall (λ x, Forall P (f x)) l → Forall P (flat_map f l).
Proof. induction 1; simpl; [constructor|]. by apply Forall_app. Qed.

Lemma fields_data_ok v :
  optional (arrayOf 0 32 (isDisplayField n)) v = true →
  Forall (λ d, isDisplayDatum n (Some d) = true) (fields_data v).
Proof.
  intros Hf%arrayOf_elements. apply Forall_flat_map. eapply Forall_impl; [exact Hf|].
  intros f Hd. unfold isDisplayField in Hd. bools. simpl in *.
  destruct (get "value" f); simpl; [by repeat constructor|constructor].
Qed.

Lemma arrayOf_weaken lo hi guard v :
  arrayOf lo hi guard v = true → optional (arrayOf 0 hi guard) v = true.
Proof.
  destruct v as [v|]; [|done]. unfold optional, arrayOf.
  destruct (isArray (Some v)); [|done]. unfold arrayBetween. intros Hb.
  rewrite !andb_true_iff in *. tauto.
Qed.

Lemma block_data_ok b :
  isDisplayBlock n (Some b) = true → Forall (λ d, isDisplayDatum n (Some d) = true) (block_data b).
Proof.
  unfold isDisplayBlock, block_data. intros Hb. bools. simpl in *.
  rewrite !Forall_app; split_and!.
  - destruct (get "content" b); simpl; [by repeat constructor|constructor].
  - by apply fields_data_ok.
  - apply Forall_flat_map.
    match goal with Hi : optional (arrayOf 0 64 (isDisplayItem n)) _ = true |- _ =>
      apply arrayOf_elements in Hi; eapply Forall_impl; [exact Hi|] end.
    intros i Hi. unfold isDisplayItem in Hi. bools. simpl in *.
    apply fields_data_ok. by eapply arrayOf_weaken.
  - apply Forall_flat_map.
    match goal with Hr : optional (arrayOf 0 64 (isDisplayRow n _)) _ = true |- _ =>
      apply arrayOf_elements in Hr; eapply Forall_impl; [exact Hr|] end.
    intros r Hr. unfold isDisplayRow in Hr. unfold elements.
    destruct (isArray (Some r)) as [row|]; [|done]. bools. simpl.
    apply Forall_forall. intros x Hx. rewrite forallb_forall in *.
    rewrite list_elem_of_In in Hx. auto.
Qed.

Lemma isDisplayModel_data v :
  isDisplayModel n v = true → Forall (λ d, isDisplayDatum n (Some d) = true) (model_data v).
Proof.
  unfold isDisplayModel, model_data. intros Hv. bools.
  rewrite !Forall_app; split_and!.
  - destruct (get "title" v); simpl; [by repeat constructor|constructor].
  - by apply fields_data_ok.
  - apply Forall_flat_map.
    match goal with Hb : optional (arrayOf 0 16 (isDisplayBlock n)) _ = true |- _ =>
      apply arrayOf_elements in Hb; eapply Forall_impl; [exact Hb|] end.
    intros b. apply block_data_ok.
Qed.

Lemma migrate_valid v m : migrateDisplayModel n v = Some m → isDisplayModel n m = true.
Proof.
  unfold migrateDisplayModel. destruct (isDisplayModel n v) eqn:Hv; [naive_solver|].
  case_match; [|done]. destruct (get "source" v ≫= sourceIndex n); [|done].
  simpl. case_match; naive_solver.
Qed.

Lemma migrate_current v : isDisplayModel n v = true → migrateDisplayModel n v = Some v.
Proof. unfold migrateDisplayModel. by intros ->. Qed.

Lemma isDisplayModel_version v :
  isDisplayModel n v = true → get "protocol_version" v = Some (JStr (js DISPLAY_MODEL_VERSION)).
Proof.
  unfold isDisplayModel. intros Hv. bools. unfold isLit in *.
  destruct (get "protocol_version" v) as [[]|]; try done.
  match goal with Hj : jeqb _ _ = true |- _ => apply jeqb_eq in Hj; by subst end.
Qed.

(** What the verdict promises about the migration. *)
Lemma compatibility_migrate v :
  match displayModelCompatibility n v with
  | current => migrateDisplayModel n v = Some v
  | migrated => ∃ m, migrateDisplayModel n v = Some m ∧
      get "protocol_version" v = Some (JStr (js DISPLAY_MODEL_V0))
  | unsupported => isDisplayModel n v = false
  | invalid => isDisplayModel n v = false
  end.
Proof.
  unfold displayModelCompatibility.
  assert (∀ s, get "protocol_version" v = Some (JStr s) → s ≠ js DISPLAY_MODEL_VERSION →
    isDisplayModel n v = false) as Hne.
  { intros s Hs Hne. destruct (isDisplayModel n v) eqn:Hv; [|done].
    apply isDisplayModel_version in Hv. congruence. }
  destruct (isRecord (Some v)) eqn:Hr.
  2: { simpl. unfold isDisplayModel. by rewrite Hr. }
  destruct (asString (get "protocol_version" v)) as [s|] eqn:Hs.
  2: { destruct (isDisplayModel n v) eqn:Hv; [|done]. apply isDisplayModel_version in Hv.
       by rewrite Hv in Hs. }
  apply asString_Some in Hs.
  destruct ((jlen s =? 0)%N || (128 <? jlen s)%N) eqn:Hlen.
  { apply (Hne s Hs). intros ->. vm_compute in Hlen. done. }
  destruct (displayModelMaximum <? encodedBytes v)%N eqn:Hbig.
  { unfold isDisplayModel. bools. apply andb_false_intro2. by apply N.leb_gt. }
  destruct (jeqb s (js DISPLAY_MODEL_VERSION)) eqn:Hcur.
  { destruct (isDisplayModel n v) eqn:Hv; [by apply migrate_current|done]. }
  apply jeqb_neq in Hcur.
  destruct (jeqb s (js DISPLAY_MODEL_V0)) eqn:Hold; [|by apply (Hne s)].
  apply jeqb_eq in Hold as ->.
  destruct (migrateDisplayModel n v) as [m|] eqn:Hm; [by exists m|].
  by apply (Hne _ Hs).
Qed.
End DisplayLemmas.
