(* ===== verification/Envelope.v ===== *)
(** * Wire envelopes

    The guards for computer-event payloads, requests, responses, events and workspace
    operations of [ui/shared/src/generated/protocol.ts], the typed view of an accepted
    payload and event, and the throwing [assert*] variants. *)
From stdpp Require Import base list strings.
From Stdlib Require Import ZArith NArith.
From S2P Require Import Prelude JsString JsValue Regex Catalog Protocol Display.

(** An exception the code throws or an [Error] it passes on, by its message. *)
Record Error : Type := mkError { error_message : jstr }.
Definition TypeError (s : string) : Error := mkError (js s).

(** ** Computer-event payloads *)

Definition isSourceReference (v : json) : bool :=
  isRecord (Some v) && nonEmptyString (get "kind" v) && nonEmptyString (get "id" v).

(** Strict equality of two optional values when one of them is known to be a string. *)
Definition sameString (a b : option json) : bool :=
  match asString a, asString b with Some s, Some t => jeqb s t | _, _ => false end.

Definition isResultSummary (r : json) : bool :=
  isBoolean (get "available" r) && isNonNegativeSafeInteger (get "bytes" r) &&
  optional isString (get "error_code" r) &&
  optional (λ e, match asString e with Some s => (jlen s <=? 1024)%N | None => false end)
    (get "error" r).

Section Guards.
Context `{Platform}.

Definition isComputerEventPayload (v : json) : bool :=
  isRecord (Some v) && isLit COMPUTER_EVENT_VERSION (get "protocol_version" v) &&
  isUUID (get "tool_event_id" v) && nonEmptyString (get "provider_tool_call_id" v) &&
  nonEmptyString (get "tool" v) && nonEmptyString (get "operation" v) &&
  (let scope := get "scope" v in
   isRecord scope && isUUID (getO "actor_id" scope) && nonEmptyString (getO "agent_id" scope) &&
   forallb (λ k, optional isUUID (getO k scope))
     ["session_id"; "turn_id"; "task_id"; "outcome_id"]%string &&
   (bool_decide (is_Some (getO "task_id" scope)) ||
    bool_decide (is_Some (getO "outcome_id" scope)))) &&
  isRiskClass (get "risk_class" v) &&
  match asString (get "phase" v) ≫= phase_of with
  | None => false
  | Some phase =>
      match asString (get "timestamp" v) with Some t => date_ok t | None => false end &&
      nonEmptyString (get "display_kind" v) &&
      match isArray (get "source_references" v) with
      | None => false
      | Some references =>
          arrayBetween 1 8 references && forallb isSourceReference references &&
          existsb (λ r, isLit "tool_event" (get "kind" r) &&
                        sameString (get "id" r) (get "tool_event_id" v)) references &&
          (let terminal := phase_terminal phase in
           Bool.eqb terminal (sameString (get "terminal_status" v) (get "phase" v)) &&
           Bool.eqb terminal (isRecord (get "result" v))) &&
          match get "result" v with
          | Some (JObj r) => isResultSummary (JObj r)
          | _ => true
          end &&
          match get "progress" v with
          | Some p => bool_decide (phase = progress) && (jlen (stringify p) <=? 16384)%N
          | None => negb (bool_decide (phase = progress))
          end &&
          match get "display_model" v with
          | None => true
          | Some m =>
              negb (bool_decide (displayModelCompatibility (Z.of_nat (length references)) m
                                 = invalid))
          end
      end
  end.

(** ** Requests and responses *)

Definition kind_of (v : option json) : option RequestKind :=
  if isLit "query" v then Some query else if isLit "command" v then Some command else None.

Definition isRequestEnvelope (v : json) : bool :=
  isRecord (Some v) && isLit PROTOCOL_VERSION (get "protocol_version" v) &&
  isUUID (get "request_id" v) && isScope (get "scope" v) &&
  match kind_of (get "kind" v), asString (get "operation" v) with
  | Some kind, Some operation =>
      operationSet_has operation &&
      bool_decide (OPERATION_KINDS operation = Some kind) &&
      (negb (bool_decide (kind = command)) || nonEmptyString (get "idempotency_key" v))
  | _, _ => false
  end &&
  optional isNonNegativeSafeInteger (get "expected_revision" v) &&
  hasOwn "payload" v.

Definition validCodes : list string :=
  ["invalid"; "unauthorized"; "forbidden"; "not_found"; "conflict"; "rate_limited";
   "unavailable"; "internal"].

Definition isResponseEnvelope (v : json) : bool :=
  isRecord (Some v) && isLit PROTOCOL_VERSION (get "protocol_version" v) &&
  isUUID (get "request_id" v) && isNonNegativeSafeInteger (get "revision" v) &&
  match get "error" v with
  | None => hasOwn "result" v
  | Some e =>
      isRecord (Some e) && isName validCodes (get "code" e) && isString (get "message" e) &&
      isBoolean (get "retryable" e)
  end.

(** ** Events *)

(** The end of [isEventEnvelope]: a tool-phase event whose payload claims the current
    version carries a valid payload for its own tool call, actor and phase. *)
Definition toolPayloadMatches (ty : jstr) (correlation : option json) (payload : json) : bool :=
  if negb (computerEventTypes_has ty) then true
  else if negb (isRecord (Some payload)) ||
          negb (isLit COMPUTER_EVENT_VERSION (get "protocol_version" payload))
  then true
  else
    isComputerEventPayload payload &&
    sameString (getO "tool_id" correlation) (get "tool_event_id" payload) &&
    sameString (getO "actor_id" correlation) (getO "actor_id" (get "scope" payload)) &&
    match asString (get "phase" payload) ≫= phase_of with
    | Some phase => jeqb (js (computerEventTypeByPhase phase)) ty
    | None => false
    end.

Definition isEventEnvelope (v : json) : bool :=
  isRecord (Some v) && isNonNegativeSafeInteger (get "sequence" v) &&
  isUUID (get "event_id" v) && isCorrelation (get "correlation" v) &&
  match asString (get "type" v) with
  | None => false
  | Some ty =>
      eventTypeSet_has ty &&
      match asString (get "occurred_at" v) with Some t => date_ok t | None => false end &&
      match get "payload" v with
      | None => false
      | Some payload => toolPayloadMatches ty (get "correlation" v) payload
      end
  end.

(** ** Workspace operations *)

Definition workspaceOperations : list string :=
  ["workspace.provision"; "workspace.readiness"; "workspace.pause"; "workspace.resume";
   "workspace.stop"; "workspace.archive"; "workspace.destroy"].

Definition isSecretGrant (v : json) : bool :=
  isRecord (Some v) && isUUID (get "id" v) && nonEmptyString (get "reference" v) &&
  nonEmptyString (get "grant_token" v) &&
  match asString (get "expires_at" v) with Some t => date_ok t | None => false end.

Definition isWorkspaceOperationEnvelope (v : json) : bool :=
  isRecord (Some v) && isLit WORKSPACE_HOST_VERSION (get "version" v) &&
  isName workspaceOperations (get "operation" v) &&
  isUUID (get "actor_id" v) && isUUID (get "project_id" v) && isUUID (get "request_id" v) &&
  isUUID (get "correlation_id" v) && isNonNegativeSafeInteger (get "workspace_revision" v) &&
  nonEmptyString (get "idempotency_key" v) && isRiskClass (get "policy_classification" v) &&
  match asString (get "deadline" v) with Some t => date_ok t | None => false end &&
  optional (λ g, match isArray g with Some l => forallb isSecretGrant l | None => false end)
    (get "secret_grants" v).

(** ** Throwing variants *)

Definition assertRequestEnvelope (v : json) : Error + unit :=
  if isRequestEnvelope v then inr () else inl (TypeError "invalid control-plane request").
Definition assertResponseEnvelope (v : json) : Error + unit :=
  if isResponseEnvelope v then inr () else inl (TypeError "invalid control-plane response").
Definition assertEventEnvelope (v : json) : Error + unit :=
  if isEventEnvelope v then inr () else inl (TypeError "invalid control-plane event").

(** ** Typed views *)

Definition computer_scope_of (v : json) : ComputerScope := {|
  cs_actor_id := str_field "actor_id" v;
  cs_session_id := asString (get "session_id" v);
  cs_turn_id := asString (get "turn_id" v);
  cs_task_id := asString (get "task_id" v);
  cs_outcome_id := asString (get "outcome_id" v);
  cs_agent_id := str_field "agent_id" v;
|}.

Definition reference_of (v : json) : ComputerSourceReference :=
  {| sr_kind := str_field "kind" v; sr_id := str_field "id" v |}.

Definition bool_field (k : string) (v : json) : bool :=
  match get k v with Some (JBool b) => b | _ => false end.

Definition result_summary_of (v : json) : ComputerResultSummary := {|
  crs_available := bool_field "available" v;
  crs_bytes := default 0%Z (asNonNegativeSafeInteger (get "bytes" v));
  crs_error_code := asString (get "error_code" v);
  crs_error := asString (get "error" v);
|}.

(** The payload as the clients read it once [isComputerEventPayload] holds. *)
Definition computer_payload_of (v : json) : option ComputerEventPayload :=
  if isComputerEventPayload v then
    match asString (get "phase" v) ≫= phase_of with
    | None => None
    | Some phase => Some {|
        cp_tool_event_id := str_field "tool_event_id" v;
        cp_provider_tool_call_id := str_field "provider_tool_call_id" v;
        cp_tool := str_field "tool" v;
        cp_operation := str_field "operation" v;
        cp_scope := computer_scope_of (default JNull (get "scope" v));
        cp_risk_class := toStrO (get "risk_class" v);
        cp_phase := phase;
        cp_timestamp := str_field "timestamp" v;
        cp_display_kind := str_field "display_kind" v;
        cp_source_references := map reference_of (elements (get "source_references" v));
        cp_terminal_status := asString (get "terminal_status" v) ≫= phase_of;
        cp_progress := get "progress" v;
        cp_result := match get "result" v with
                     | Some (JObj r) => Some (result_summary_of (JObj r))
                     | _ => None
                     end;
        cp_display_model := get "display_model" v;
      |}
    end
  else None.

(** The event as the clients read it once [isEventEnvelope] holds. *)
Definition event_of (v : json) : option EventEnvelope :=
  if isEventEnvelope v then Some {|
    ev_sequence := default 0%Z (asNonNegativeSafeInteger (get "sequence" v));
    ev_event_id := str_field "event_id" v;
    ev_type := str_field "type" v;
    ev_occurred_at := str_field "occurred_at" v;
    ev_correlation := correlation_of (default JNull (get "correlation" v));
    ev_payload := default JNull (get "payload" v);
  |} else None.

Definition error_of (v : json) : ProtocolError := {|
  err_code := str_field "code" v;
  err_message := str_field "message" v;
  err_retryable := bool_field "retryable" v;
|}.

Definition response_of (v : json) : option ResponseEnvelope :=
  if isResponseEnvelope v then Some {|
    resp_request_id := str_field "request_id" v;
    resp_revision := default 0%Z (asNonNegativeSafeInteger (get "revision" v));
    resp_result := get "result" v;
    resp_error := error_of <$> get "error" v;
  |} else None.

(** ** What the views of accepted values hold *)

Lemma computer_payload_of_Some v :
  isComputerEventPayload v = true →
  ∃ p, computer_payload_of v = Some p ∧
    cp_tool_event_id p = str_field "tool_event_id" v ∧
    cs_actor_id (cp_scope p) = str_field "actor_id" (default JNull (get "scope" v)) ∧
    asString (get "phase" v) ≫= phase_of = Some (cp_phase p).
Proof.
  intros Hv. unfold computer_payload_of. rewrite Hv. unfold isComputerEventPayload in Hv. bools.
  destruct (asString (get "phase" v) ≫= phase_of) as [ph|]; [|done].
  eexists. by split_and!.
Qed.

Lemma sameString_get a b :
  sameString a b = true → ∃ s, asString a = Some s ∧ asString b = Some s.
Proof.
  unfold sameString. destruct (asString a) as [s|], (asString b) as [t|]; try done.
  intros ->%jeqb_eq. eauto.
Qed.

Lemma toolPayloadMatches_spec ty c payload :
  toolPayloadMatches ty (Some c) payload = true → computerEventTypes_has ty = true →
  get "protocol_version" payload = Some (JStr (js COMPUTER_EVENT_VERSION)) →
  ∃ p id, computer_payload_of payload = Some p ∧
    cor_tool_id (correlation_of c) = Some id ∧ cp_tool_event_id p = id ∧
    cs_actor_id (cp_scope p) = cor_actor_id (correlation_of c) ∧
    js (computerEventTypeByPhase (cp_phase p)) = ty.
Proof.
  unfold toolPayloadMatches. intros Hm Hty Hver. rewrite Hty, Hver in Hm.
  assert (isRecord (Some payload) = true) as Hr by (by destruct payload).
  rewrite Hr in Hm. unfold isLit in Hm. rewrite jeqb_refl in Hm. simpl negb in Hm.
  cbn [orb] in Hm. bools.
  match goal with Hx : isComputerEventPayload _ = true |- _ =>
    apply computer_payload_of_Some in Hx as (p & Hp & Htool & Hactor & Hph) end.
  rewrite Hph in *.
  repeat match goal with Hx : sameString _ _ = true |- _ =>
    apply sameString_get in Hx as (? & ? & ?) end.
  exists p. eexists. split_and!; [done|simpl in *; done| | |by apply jeqb_eq].
  - rewrite Htool. unfold str_field. by simplify_option_eq.
  - rewrite Hactor. unfold str_field, correlation_of. cbn [cor_actor_id getO] in *.
    unfold getO in *. destruct (get "scope" payload); [|done].
    unfold str_field. by simplify_option_eq.
Qed.

Lemma isEventEnvelope_fields v :
  isEventEnvelope v = true →
  ∃ ty c payload, asString (get "type" v) = Some ty ∧ get "correlation" v = Some c ∧
    get "payload" v = Some payload ∧ toolPayloadMatches ty (Some c) payload = true.
Proof.
  unfold isEventEnvelope. intros Hv. bools.
  destruct (asString (get "type" v)) as [ty|]; [|done]. bools.
  destruct (get "payload" v) as [payload|]; [|done].
  destruct (get "correlation" v) as [c|]; [|done]. by exists ty, c, payload.
Qed.

(** An accepted event of a tool phase with a payload of the current version. *)
Lemma event_of_computer v e :
  event_of v = Some e → computerEventTypes_has (ev_type e) = true →
  get "protocol_version" (ev_payload e) = Some (JStr (js COMPUTER_EVENT_VERSION)) →
  ∃ p id, computer_payload_of (ev_payload e) = Some p ∧
    cor_tool_id (ev_correlation e) = Some id ∧ cp_tool_event_id p = id ∧
    cs_actor_id (cp_scope p) = cor_actor_id (ev_correlation e) ∧
    js (computerEventTypeByPhase (cp_phase p)) = ev_type e.
Proof.
  unfold event_of. destruct (isEventEnvelope v) eqn:Hv; [|done]. intros [= <-].
  apply isEventEnvelope_fields in Hv as (ty & c & payload & Hty & Hc & Hp & Hm).
  cbn [ev_type ev_payload ev_correlation]. assert (str_field "type" v = ty) as -> by (unfold str_field; by rewrite Hty). rewrite Hc, Hp.
  by apply toolPayloadMatches_spec.
Qed.
End Guards.
