(* ===== verification/Events.v ===== *)
(** * The operator state

    [ui/shared/src/state/events.ts]: the state every operator client derives from the
    event stream, how one event changes it, and how a recovery frame rebuilds it.

    The [Record<UUID, _>] members are ordered association lists (insertion order, as
    [Object.values] enumerates them; identifiers are neither array indices nor
    [__proto__], whose treatment differs).  The source copies the containers of the
    previous state before it mutates them, so the previous state is never changed and
    the functions below return the new state. *)
From stdpp Require Import base list strings.
From Stdlib Require Import ZArith NArith.
From S2P Require Import Prelude JsString JsValue Regex Catalog Protocol Display Envelope.

Inductive TurnStatus : Type :=
  | Running | Recovering | Incomplete | Completed | Failed | Cancelled | Interrupted.

#[export] Instance TurnStatus_eq_dec : EqDecision TurnStatus.
Proof. solve_decision. Defined.

Record TurnState : Type := {
  t_id : UUID;
  t_session_id : option UUID;
  t_status : TurnStatus;
  t_last_sequence : Z;
}.

Record ApprovalState : Type := {
  a_id : UUID;
  a_session_id : option UUID;
  a_turn_id : option UUID;
  a_payload : json;
  a_last_sequence : Z;
}.

(** [ca_phase] is [None] for the phase 'unsupported'. *)
Record ComputerActivity : Type := {
  ca_id : UUID;
  ca_provider_tool_call_id : option jstr;
  ca_tool : option jstr;
  ca_operation : option jstr;
  ca_agent_id : option jstr;
  ca_phase : option ComputerPhase;
  ca_terminal : bool;
  ca_unsupported : bool;
  ca_conflict : bool;
  ca_first_sequence : Z;
  ca_last_sequence : Z;
  ca_latest_event_id : UUID;
  ca_payload : option ComputerEventPayload;
}.

Abbreviation turn_map := (list (jstr * TurnState)).
Abbreviation approval_map := (list (jstr * ApprovalState)).
Abbreviation activity_map := (list (jstr * ComputerActivity)).

Record OperatorState : Type := {
  last_sequence : Z;
  gap : bool;
  snapshot : option json;
  recent_events : list EventEnvelope;
  turns : turn_map;
  pending_approvals : approval_map;
  computer_activities : activity_map;
  computer_order : list jstr;
}.

Definition emptyOperatorState : OperatorState := {|
  last_sequence := 0; gap := false; snapshot := None; recent_events := []; turns := [];
  pending_approvals := []; computer_activities := []; computer_order := [];
|}.

Definition asRecord (v : json) : option json :=
  match v with JObj o => Some (JObj o) | _ => None end.
Definition asUUID (v : option json) : option UUID := asString v.

(** The last [k] elements, [l.slice(-k)]. *)
Definition slice_last {A} (k : nat) (l : list A) : list A := drop (length l - k) l.

(** ** Computer activities *)

Definition isTerminalComputerPhase (p : ComputerPhase) : bool :=
  match p with
  | completed | failed | denied | interrupted | outcome_unknown => true
  | _ => false
  end.

Definition boundedComputerOrder (previous : list jstr) (activities : activity_map)
    (toolID : jstr) : list jstr * activity_map :=
  let order := if bool_decide (toolID ∈ previous) then previous else previous ++ [toolID] in
  if (length order <=? 1000) then (order, activities) else
  match find (λ id, match assoc_get id activities with
                    | Some a => ca_terminal a
                    | None => false
                    end) order with
  | None => (slice_last 1000 order, activities)
  | Some removable => (filter (.≠ removable) order, assoc_del removable activities)
  end.

Section WithPlatform.
Context `{Platform}.

Definition unsupportedActivity (toolID : UUID) (event : EventEnvelope) : ComputerActivity := {|
  ca_id := toolID; ca_provider_tool_call_id := None; ca_tool := None; ca_operation := None;
  ca_agent_id := None; ca_phase := None; ca_terminal := false; ca_unsupported := true;
  ca_conflict := false; ca_first_sequence := ev_sequence event;
  ca_last_sequence := ev_sequence event; ca_latest_event_id := ev_event_id event;
  ca_payload := None;
|}.

Definition supportedActivity (toolID : UUID) (event : EventEnvelope)
    (payload : ComputerEventPayload) (existing : option ComputerActivity) : ComputerActivity := {|
  ca_id := toolID;
  ca_provider_tool_call_id := Some (cp_provider_tool_call_id payload);
  ca_tool := Some (cp_tool payload);
  ca_operation := Some (cp_operation payload);
  ca_agent_id := Some (cs_agent_id (cp_scope payload));
  ca_phase := Some (cp_phase payload);
  ca_terminal := isTerminalComputerPhase (cp_phase payload);
  ca_unsupported := false;
  ca_conflict := default false (ca_conflict <$> existing);
  ca_first_sequence := default (ev_sequence event) (ca_first_sequence <$> existing);
  ca_last_sequence := ev_sequence event;
  ca_latest_event_id := ev_event_id event;
  ca_payload := Some payload;
|}.

Definition withConflict (a : ComputerActivity) : ComputerActivity := {|
  ca_id := ca_id a; ca_provider_tool_call_id := ca_provider_tool_call_id a;
  ca_tool := ca_tool a; ca_operation := ca_operation a; ca_agent_id := ca_agent_id a;
  ca_phase := ca_phase a; ca_terminal := ca_terminal a; ca_unsupported := ca_unsupported a;
  ca_conflict := true; ca_first_sequence := ca_first_sequence a;
  ca_last_sequence := ca_last_sequence a; ca_latest_event_id := ca_latest_event_id a;
  ca_payload := ca_payload a;
|}.

(** Sets the activity and moves its identifier into the bounded order. *)
Definition recordActivity (order : list jstr) (activities : activity_map) (toolID : jstr)
    (a : ComputerActivity) : list jstr * activity_map :=
  boundedComputerOrder order (assoc_set toolID a activities) toolID.

Definition applyComputerEvent (order : list jstr) (activities : activity_map)
    (event : EventEnvelope) : list jstr * activity_map :=
  if negb (computerEventTypes_has (ev_type event)) then (order, activities) else
  match cor_tool_id (ev_correlation event) with
  | None => (order, activities)
  | Some toolID =>
      let existing := assoc_get toolID activities in
      match computer_payload_of (ev_payload event) with
      | None =>
          match existing with
          | Some _ => (order, activities)
          | None => recordActivity order activities toolID (unsupportedActivity toolID event)
          end
      | Some payload =>
          if negb (jeqb (cp_tool_event_id payload) toolID) ||
             negb (jeqb (cs_actor_id (cp_scope payload)) (cor_actor_id (ev_correlation event)))
          then (order, activities)
          else
            match existing with
            | Some a =>
                if ca_terminal a then
                  if isTerminalComputerPhase (cp_phase payload) &&
                     negb (bool_decide (ca_phase a = Some (cp_phase payload)))
                  then (order, assoc_set toolID (withConflict a) activities)
                  else (order, activities)
                else recordActivity order activities toolID
                       (supportedActivity toolID event payload existing)
            | None => recordActivity order activities toolID
                        (supportedActivity toolID event payload None)
            end
      end
  end.

(** ** Turns *)

(** The status a terminal or recovery event gives to its turn. *)
Definition turnEventStatus (ty : jstr) (payload : option json) : option TurnStatus :=
  if jeqb ty (js "turn.recovery") then Some Recovering
  else if jeqb ty (js "turn.incomplete") then
    Some (match getO "final_honest_partial" payload with
          | Some (JBool false) => Recovering
          | _ => Incomplete
          end)
  else if jeqb ty (js "turn.completed") then Some Completed
  else if jeqb ty (js "turn.failed") then Some Failed
  else None.

Definition applyTurnEvent (ts : turn_map) (event : EventEnvelope) : turn_map :=
  match cor_turn_id (ev_correlation event) with
  | None => ts
  | Some turnID =>
      if jeqb (ev_type event) (js "turn.started") then
        assoc_set turnID
          {| t_id := turnID; t_session_id := cor_session_id (ev_correlation event);
             t_status := Running; t_last_sequence := ev_sequence event |} ts
      else
        match turnEventStatus (ev_type event) (asRecord (ev_payload event)) with
        | None => ts
        | Some status =>
            assoc_set turnID
              {| t_id := turnID;
                 t_session_id := assoc_get turnID ts ≫= t_session_id;
                 t_status := status; t_last_sequence := ev_sequence event |} ts
        end
  end.

(** ** Approvals *)

Definition applyApprovalEvent (m : approval_map) (event : EventEnvelope) : approval_map :=
  match asRecord (ev_payload event) with
  | None => m
  | Some payload =>
      match asUUID (get "approval_id" payload) with
      | None => m
      | Some approvalID =>
          if jeqb (ev_type event) (js "approval.requested") then
            assoc_set approvalID
              {| a_id := approvalID; a_session_id := cor_session_id (ev_correlation event);
                 a_turn_id := cor_turn_id (ev_correlation event); a_payload := payload;
                 a_last_sequence := ev_sequence event |} m
          else if jeqb (ev_type event) (js "approval.resolved") ||
                  jeqb (ev_type event) (js "approval.expired")
          then assoc_del approvalID m
          else m
      end
  end.

(** ** One event *)

(** The new state, or [None] when the function returns the previous state object itself
    because the event was already applied. *)
Definition applyEvent_fresh (previous : OperatorState) (event : EventEnvelope)
    : option OperatorState :=
  if (ev_sequence event <=? last_sequence previous)%Z then None else
  let '(order, activities) :=
    applyComputerEvent (computer_order previous) (computer_activities previous) event in
  Some {|
    last_sequence := ev_sequence event;
    gap := gap previous;
    snapshot := snapshot previous;
    recent_events := slice_last 999 (recent_events previous) ++ [event];
    turns := applyTurnEvent (turns previous) event;
    pending_approvals := applyApprovalEvent (pending_approvals previous) event;
    computer_activities := activities;
    computer_order := order;
  |}.

Definition applyEvent (previous : OperatorState) (event : EventEnvelope) : OperatorState :=
  default previous (applyEvent_fresh previous event).

Definition applyEvents (s : OperatorState) (l : list EventEnvelope) : OperatorState :=
  fold_left applyEvent l s.

(** ** Recovery *)

Definition statusOfName (s : jstr) : TurnStatus :=
  if jeqb s (js "recovering") then Recovering
  else if jeqb s (js "incomplete") then Incomplete
  else if jeqb s (js "completed") then Completed
  else if jeqb s (js "failed") then Failed
  else if jeqb s (js "cancelled") then Cancelled
  else if jeqb s (js "interrupted") then Interrupted
  else Running.

(** The identifier and state one entry of [active_turns] stands for. *)
Definition activeTurn (sequence : Z) (value : json) : option (jstr * TurnState) :=
  match asRecord value with
  | None => None
  | Some record =>
      match asUUID (get "turn_id" record) with
      | None => None
      | Some turnID => Some (turnID, {|
          t_id := turnID; t_session_id := asUUID (get "session_id" record);
          t_status := match asString (get "status" record) with
                      | Some s => statusOfName s
                      | None => Running
                      end;
          t_last_sequence := sequence |})
      end
  end.

Definition is_live (st : TurnStatus) : bool :=
  match st with Running | Recovering => true | _ => false end.

Definition snapshotArray (k : string) (snap : option json) : option (list json) :=
  isArray (getO k (snap ≫= asRecord)).

Definition reconcileActiveTurns (state : OperatorState) (snap : option json) (sequence : Z)
    : OperatorState :=
  match snapshotArray "active_turns" snap with
  | None => state
  | Some active =>
      let rows := omap (activeTurn sequence) active in
      let authoritative := rows.*1 in
      let ts := fold_left (λ m row, assoc_set row.1 row.2 m) rows (turns state) in
      {| last_sequence := last_sequence state; gap := gap state; snapshot := snapshot state;
         recent_events := recent_events state;
         turns := filter (λ kv, is_live (t_status kv.2) = false ∨ kv.1 ∈ authoritative) ts;
         pending_approvals := pending_approvals state;
         computer_activities := computer_activities state;
         computer_order := computer_order state |}
  end.

Definition pendingApproval (sequence : Z) (value : json) : option (jstr * ApprovalState) :=
  match asRecord value with
  | None => None
  | Some record =>
      let approvalID := match asUUID (get "id" record) with
                        | Some id => Some id
                        | None => asUUID (get "approval_id" record)
                        end in
      match approvalID with
      | None => None
      | Some id => Some (id, {|
          a_id := id; a_session_id := asUUID (get "session_id" record);
          a_turn_id := asUUID (get "turn_id" record); a_payload := record;
          a_last_sequence := sequence |})
      end
  end.

Definition reconcilePendingApprovals (state : OperatorState) (snap : option json)
    (sequence : Z) : OperatorState :=
  match snapshotArray "pending_approvals" snap with
  | None => state
  | Some pending =>
      {| last_sequence := last_sequence state; gap := gap state; snapshot := snapshot state;
         recent_events := recent_events state; turns := turns state;
         pending_approvals :=
           fold_left (λ m row, assoc_set row.1 row.2 m)
             (omap (pendingApproval sequence) pending) [];
         computer_activities := computer_activities state;
         computer_order := computer_order state |}
  end.

(** What a recovery starts from: the previous state, or an empty one carrying the
    snapshot. *)
Definition recoveryBase (previous : OperatorState) (recovery : RecoveryEnvelope)
    : OperatorState :=
  match rec_snapshot recovery with
  | None => previous
  | Some snap => {|
      last_sequence := 0; gap := bool_decide (is_Some (rec_gap_marker recovery));
      snapshot := Some snap; recent_events := []; turns := []; pending_approvals := [];
      computer_activities := []; computer_order := [] |}
  end.

Definition withLastSequence (s : OperatorState) (z : Z) : OperatorState := {|
  last_sequence := z; gap := gap s; snapshot := snapshot s; recent_events := recent_events s;
  turns := turns s; pending_approvals := pending_approvals s;
  computer_activities := computer_activities s; computer_order := computer_order s |}.

Definition applyRecovery (previous : OperatorState) (recovery : RecoveryEnvelope)
    : OperatorState :=
  let replay := rec_replay recovery in
  let latest := rp_latest_sequence replay in
  let s0 := applyEvents (recoveryBase previous recovery) (rp_events replay) in
  let s1 := reconcileActiveTurns s0 (rec_snapshot recovery) latest in
  let s2 := reconcilePendingApprovals s1 (rec_snapshot recovery) latest in
  withLastSequence s2 (Z.max (last_sequence s2) latest).
End WithPlatform.
