(* ===== verification/EventsFacts.v ===== *)
(** * The operator state: invariant and stream lemmas

    The well-formedness invariant of the state of [Events.v], its preservation by every
    operation, and the lemmas on streams of events the properties are proved from. *)
From stdpp Require Import base list strings sorting.
From Stdlib Require Import ZArith NArith.
From S2P Require Import Prelude JsString JsValue Regex Catalog Protocol Display Envelope Events.

(** ** The invariant *)

Definition turn_ok (b : Z) (kv : jstr * TurnState) : Prop :=
  t_id kv.2 = kv.1 ∧ (t_last_sequence kv.2 <= b)%Z.

Definition approval_ok (b : Z) (kv : jstr * ApprovalState) : Prop :=
  a_id kv.2 = kv.1 ∧ (a_last_sequence kv.2 <= b)%Z.

(** An activity is stored under its identifier, its terminal flag is the one of its
    phase, and it is unsupported exactly when it has no payload. *)
Definition activity_ok (b : Z) (kv : jstr * ComputerActivity) : Prop :=
  let a := kv.2 in
  ca_id a = kv.1 ∧
  ca_terminal a = match ca_phase a with Some p => isTerminalComputerPhase p | None => false end ∧
  ca_unsupported a = match ca_payload a with Some _ => false | None => true end ∧
  ca_phase a = cp_phase <$> ca_payload a ∧
  (ca_first_sequence a <= ca_last_sequence a <= b)%Z.

Record activities_wf (b : Z) (order : list jstr) (m : activity_map) : Prop := {
  aw_keys : NoDup m.*1;
  aw_entries : Forall (activity_ok b) m;
  aw_order : NoDup order;
  aw_bound : length order ≤ 1000;
  aw_known : ∀ id, id ∈ order → id ∈ m.*1;
}.

Record wf_at (b : Z) (s : OperatorState) : Prop := {
  wf_recent_bound : length (recent_events s) ≤ 1000;
  wf_recent_sorted : StronglySorted Z.lt (map ev_sequence (recent_events s));
  wf_recent_seq : Forall (λ e, (ev_sequence e <= b)%Z) (recent_events s);
  wf_turn_keys : NoDup (turns s).*1;
  wf_turns : Forall (turn_ok b) (turns s);
  wf_approval_keys : NoDup (pending_approvals s).*1;
  wf_approvals : Forall (approval_ok b) (pending_approvals s);
  wf_activities : activities_wf b (computer_order s) (computer_activities s);
}.

Definition wf (s : OperatorState) : Prop := wf_at (last_sequence s) s.

(** ** Generic lemmas *)

Lemma slice_last_length {A} k (l : list A) : length (slice_last k l) ≤ k.
Proof. unfold slice_last. rewrite length_drop. lia. Qed.

Lemma slice_last_suffix {A} k (l : list A) : ∃ l0, l = l0 ++ slice_last k l.
Proof. exists (take (length l - k) l). unfold slice_last. by rewrite take_drop. Qed.

Lemma slice_last_sub {A} k (l : list A) x : x ∈ slice_last k l → x ∈ l.
Proof.
  destruct (slice_last_suffix k l) as [l0 Hl]. intros Hx. rewrite Hl. apply elem_of_app. auto.
Qed.

Lemma slice_last_Forall {A} (P : A → Prop) k l : Forall P l → Forall P (slice_last k l).
Proof. apply Forall_drop. Qed.

Lemma slice_last_NoDup {A} k (l : list A) : NoDup l → NoDup (slice_last k l).
Proof.
  destruct (slice_last_suffix k l) as [l0 Hl]. intros Hnd. rewrite Hl in Hnd.
  by apply NoDup_app in Hnd as (_ & _ & ?).
Qed.

Lemma StronglySorted_drop {A} (R : A → A → Prop) k l :
  StronglySorted R l → StronglySorted R (drop k l).
Proof.
  revert k; induction l as [|x l IH]; intros [|k] Hs; simpl; try done.
  inversion Hs; subst. auto.
Qed.

Lemma StronglySorted_snoc {A} (R : A → A → Prop) l x :
  StronglySorted R l → Forall (λ y, R y x) l → StronglySorted R (l ++ [x]).
Proof.
  induction 1 as [|y l Hs IH Hy]; intros Hx; simpl; [repeat constructor|].
  inversion Hx; subst. constructor; [auto|]. apply Forall_app. by repeat constructor.
Qed.

Lemma find_Some_elem {A} (f : A → bool) l x : find f l = Some x → x ∈ l ∧ f x = true.
Proof. intros [Hin ?]%find_some. by rewrite list_elem_of_In. Qed.

Lemma filter_ne_length {A} `{EqDecision A} (x : A) l :
  x ∈ l → length (filter (.≠ x) l) < length l.
Proof.
  induction l as [|y l IH]; intros Hin; [inversion Hin|].
  rewrite filter_cons. pose proof (length_filter (.≠ x) l).
  destruct (decide (y ≠ x)) as [Hne|He]; simpl; [|lia].
  apply elem_of_cons in Hin as [->|Hin]; [done|]. apply IH in Hin. lia.
Qed.

Lemma filter_keys_nodup {K V} (P : K * V → Prop) `{!∀ x, Decision (P x)} (m : list (K * V)) :
  NoDup m.*1 → NoDup (filter P m).*1.
Proof.
  induction m as [|[k v] m IH]; [done|]. rewrite fmap_cons, NoDup_cons. intros [Hk Hnd].
  rewrite filter_cons. case_decide; [|auto]. rewrite fmap_cons. apply NoDup_cons. split; [|auto].
  intros (kv & Heq & [_ Hin]%list_elem_of_filter)%list_elem_of_fmap. apply Hk.
  rewrite Heq. by apply list_elem_of_fmap_2.
Qed.

(** ** Bounds only grow *)

Lemma turn_ok_mono b b' kv : (b <= b')%Z → turn_ok b kv → turn_ok b' kv.
Proof. unfold turn_ok. intros ? [? ?]. split; [done|lia]. Qed.
Lemma approval_ok_mono b b' kv : (b <= b')%Z → approval_ok b kv → approval_ok b' kv.
Proof. unfold approval_ok. intros ? [? ?]. split; [done|lia]. Qed.
Lemma activity_ok_mono b b' kv : (b <= b')%Z → activity_ok b kv → activity_ok b' kv.
Proof. unfold activity_ok. intros ? (? & ? & ? & ? & ?). split_and!; try done; lia. Qed.

Lemma activities_wf_mono b b' o m : (b <= b')%Z → activities_wf b o m → activities_wf b' o m.
Proof.
  intros Hb []. constructor; try done.
  eapply Forall_impl; [done|]. intros kv. by apply activity_ok_mono.
Qed.

Lemma wf_at_mono b b' s : (b <= b')%Z → wf_at b s → wf_at b' s.
Proof.
  intros Hb []. constructor; try done.
  - eapply Forall_impl; [done|]. simpl; intros; lia.
  - eapply Forall_impl; [done|]. intros kv. by apply turn_ok_mono.
  - eapply Forall_impl; [done|]. intros kv. by apply approval_ok_mono.
  - by eapply activities_wf_mono.
Qed.

(** ** Preservation *)

Lemma boundedComputerOrder_wf b order m id :
  NoDup m.*1 → Forall (activity_ok b) m → NoDup order → length order ≤ 1000 →
  (∀ i, i ∈ order → i ∈ m.*1) → id ∈ m.*1 →
  activities_wf b (boundedComputerOrder order m id).1 (boundedComputerOrder order m id).2.
Proof.
  intros Hk Hm Ho Hl Hsub Hid. unfold boundedComputerOrder.
  set (order' := if bool_decide (id ∈ order) then order else order ++ [id]).
  assert (NoDup order' ∧ length order' ≤ 1001 ∧ ∀ i, i ∈ order' → i ∈ m.*1) as (Ho' & Hl' & Hs').
  { unfold order'. case_bool_decide; [split_and!; [done|lia|done]|].
    rewrite length_app; simpl. split_and!; [|lia|].
    - apply NoDup_app. split_and!; [done| |apply NoDup_singleton].
      by intros x Hx ->%list_elem_of_singleton.
    - intros i [Hi| ->%list_elem_of_singleton]%elem_of_app; auto. }
  clearbody order'. destruct (Nat.leb_spec (length order') 1000).
  { constructor; done. }
  destruct (find _ order') as [r|] eqn:Hf.
  - apply find_Some_elem in Hf as [Hr _].
    constructor; simpl.
    + by apply assoc_del_nodup.
    + by apply assoc_del_Forall.
    + by apply NoDup_filter.
    + apply filter_ne_length in Hr. lia.
    + intros i [Hne Hi]%list_elem_of_filter. rewrite assoc_del_keys.
      apply list_elem_of_filter. auto.
  - constructor; simpl; try done.
    + by apply slice_last_NoDup.
    + apply slice_last_length.
    + intros i Hi%slice_last_sub. auto.
Qed.

Lemma recordActivity_wf b order m id a :
  activities_wf b order m → activity_ok b (id, a) →
  activities_wf b (recordActivity order m id a).1 (recordActivity order m id a).2.
Proof.
  intros [] Ha. apply boundedComputerOrder_wf; auto.
  - by apply assoc_set_nodup.
  - by apply assoc_set_Forall.
  - intros i Hi. apply aw_known0 in Hi. apply assoc_set_keys_elem. auto.
  - apply assoc_set_keys_elem. auto.
Qed.

Section WithPlatform.
Context `{Platform}.

Lemma applyComputerEvent_wf b order m e :
  activities_wf b order m → (b <= ev_sequence e)%Z →
  activities_wf (ev_sequence e) (applyComputerEvent order m e).1 (applyComputerEvent order m e).2.
Proof.
  intros Hwf Hb. assert (activities_wf (ev_sequence e) order m) as Hwf'
    by (by eapply activities_wf_mono).
  unfold applyComputerEvent. case_match; [done|].
  destruct (cor_tool_id (ev_correlation e)) as [id|]; [|done].
  destruct (computer_payload_of (ev_payload e)) as [p|].
  - case_match; [done|].
    destruct (assoc_get id m) as [a|] eqn:Hget.
    + apply assoc_get_elem in Hget as Hin.
      destruct Hwf as [Hk He _ _ _]. rewrite Forall_forall in He.
      pose proof (He _ Hin) as (Hid & Ht & Hu & Hp & Hs); simpl in *.
      destruct (ca_terminal a) eqn:Hterm.
      * destruct (_ && _); [|done]. destruct Hwf'. constructor; try done; simpl.
        -- by apply assoc_set_nodup.
        -- apply assoc_set_Forall; [|done]. unfold activity_ok; simpl. split_and!; try congruence; lia.
        -- intros i Hi. apply assoc_set_keys_elem. auto.
      * apply recordActivity_wf; [done|]. unfold activity_ok; simpl. split_and!; try done; lia.
    + apply recordActivity_wf; [done|]. unfold activity_ok; simpl. split_and!; try done; lia.
  - case_match; [done|]. apply recordActivity_wf; [done|].
    unfold activity_ok; simpl. split_and!; try done; lia.
Qed.

Lemma applyTurnEvent_wf b ts e :
  NoDup ts.*1 → Forall (turn_ok b) ts → (b <= ev_sequence e)%Z →
  NoDup (applyTurnEvent ts e).*1 ∧ Forall (turn_ok (ev_sequence e)) (applyTurnEvent ts e).
Proof.
  intros Hk Ht Hb. assert (Forall (turn_ok (ev_sequence e)) ts) as Ht'.
  { eapply Forall_impl; [exact Ht|]. intros kv. by apply turn_ok_mono. }
  unfold applyTurnEvent. repeat case_match; try done.
  all: split; [by apply assoc_set_nodup|].
  all: apply assoc_set_Forall; [|done].
  all: unfold turn_ok; simpl; split; [done|lia].
Qed.

Lemma applyApprovalEvent_wf b m e :
  NoDup m.*1 → Forall (approval_ok b) m → (b <= ev_sequence e)%Z →
  NoDup (applyApprovalEvent m e).*1 ∧ Forall (approval_ok (ev_sequence e)) (applyApprovalEvent m e).
Proof.
  intros Hk Ht Hb. assert (Forall (approval_ok (ev_sequence e)) m) as Ht'.
  { eapply Forall_impl; [exact Ht|]. intros kv. by apply approval_ok_mono. }
  unfold applyApprovalEvent. repeat case_match; try done.
  - split; [by apply assoc_set_nodup|]. apply assoc_set_Forall; [|done].
    unfold approval_ok; simpl; split; [done|lia].
  - split; [by apply assoc_del_nodup|by apply assoc_del_Forall].
Qed.

Lemma applyEvent_wf s e : wf s → wf (applyEvent s e).
Proof.
  intros Hwf. unfold applyEvent, applyEvent_fresh.
  destruct (Z.leb_spec (ev_sequence e) (last_sequence s)) as [|Hlt]; [done|].
  unfold wf in *. destruct Hwf.
  destruct (applyComputerEvent _ _ e) as [o m] eqn:Hc. simpl.
  constructor; simpl.
  - rewrite length_app; simpl. pose proof (slice_last_length 999 (recent_events s)). lia.
  - rewrite map_app. simpl. apply StronglySorted_snoc.
    + unfold slice_last. rewrite <- skipn_map. by apply StronglySorted_drop.
    + apply Forall_map. apply slice_last_Forall. eapply Forall_impl; [done|].
      simpl; intros; lia.
  - apply Forall_app; split; [|repeat constructor; lia].
    apply slice_last_Forall. eapply Forall_impl; [done|]. simpl; intros; lia.
  - eapply applyTurnEvent_wf; [done..|lia].
  - eapply applyTurnEvent_wf; [done..|lia].
  - eapply applyApprovalEvent_wf; [done..|lia].
  - eapply applyApprovalEvent_wf; [done..|lia].
  - pose proof (applyComputerEvent_wf (last_sequence s) _ _ e wf_activities0) as Hw.
    rewrite Hc in Hw. apply Hw. lia.
Qed.

Lemma applyEvents_wf l s : wf s → wf (applyEvents s l).
Proof.
  revert s; induction l as [|e l IH]; intros s Hs; [done|]. apply IH. by apply applyEvent_wf.
Qed.

Lemma emptyOperatorState_wf : wf emptyOperatorState.
Proof. repeat constructor; simpl; try lia. intros id Hid; inversion Hid. Qed.

(** ** Recovery *)

Lemma fold_set_wf {V} (P : jstr * V → Prop) rows m :
  NoDup m.*1 → Forall P m → Forall P rows →
  NoDup (fold_left (λ m row, assoc_set row.1 row.2 m) rows m).*1 ∧
  Forall P (fold_left (λ m row, assoc_set row.1 row.2 m) rows m).
Proof.
  intros Hk Hm Hr. revert m Hk Hm. induction Hr as [|[k v] rows Hrow Hr IH]; intros m Hk Hm; [done|].
  simpl. apply IH; [by apply assoc_set_nodup|by apply assoc_set_Forall].
Qed.

Lemma omap_Forall {A B} (P : B → Prop) (f : A → option B) l :
  (∀ x y, f x = Some y → P y) → Forall P (omap f l).
Proof. intros Hf. apply Forall_forall. intros y (x & _ & Hx)%list_elem_of_omap. eauto. Qed.

Lemma reconcileActiveTurns_wf b s snap z :
  wf_at b s → (z <= b)%Z → wf_at b (reconcileActiveTurns s snap z).
Proof.
  intros [] Hz. unfold reconcileActiveTurns. destruct (snapshotArray _ _) as [active|]; [|done].
  destruct (fold_set_wf (turn_ok b) (omap (activeTurn z) active) (turns s)) as [Hk Hm]; try done.
  { apply omap_Forall. intros v [k t] Hv. unfold activeTurn in Hv.
    repeat case_match; simplify_eq; unfold turn_ok; simpl; split; done. }
  constructor; try done; simpl.
  - by apply filter_keys_nodup.
  - apply Forall_forall. intros kv [_ Hin]%list_elem_of_filter. rewrite Forall_forall in Hm. auto.
Qed.

Lemma reconcilePendingApprovals_wf b s snap z :
  wf_at b s → (z <= b)%Z → wf_at b (reconcilePendingApprovals s snap z).
Proof.
  intros [] Hz. unfold reconcilePendingApprovals.
  destruct (snapshotArray _ _) as [pending|]; [|done].
  destruct (fold_set_wf (approval_ok b) (omap (pendingApproval z) pending) []) as [Hk Hm];
    [apply NoDup_nil_2|done| |].
  { apply omap_Forall. intros v [k t] Hv. unfold pendingApproval in Hv.
    repeat case_match; simplify_eq; unfold approval_ok; simpl; split; done. }
  by constructor.
Qed.

Lemma reconcile_last_sequence s snap z :
  last_sequence (reconcilePendingApprovals (reconcileActiveTurns s snap z) snap z)
  = last_sequence s.
Proof. unfold reconcilePendingApprovals, reconcileActiveTurns. by repeat case_match. Qed.

Lemma recoveryBase_wf s r : wf s → wf (recoveryBase s r).
Proof.
  intros Hs. unfold recoveryBase. case_match; [|done].
  repeat constructor; simpl; try lia. intros id Hid; inversion Hid.
Qed.

Lemma applyRecovery_wf s r : wf s → wf (applyRecovery s r).
Proof.
  intros Hs. unfold applyRecovery.
  set (s0 := applyEvents _ _). set (z := rp_latest_sequence _).
  assert (wf s0) as H0 by (by apply applyEvents_wf, recoveryBase_wf).
  set (b := Z.max (last_sequence s0) z).
  assert (wf_at b (reconcilePendingApprovals
    (reconcileActiveTurns s0 (rec_snapshot r) z) (rec_snapshot r) z)) as Hw.
  { apply reconcilePendingApprovals_wf; [|unfold b; lia].
    apply reconcileActiveTurns_wf; [|unfold b; lia].
    eapply wf_at_mono; [|exact H0]. unfold b; lia. }
  rewrite reconcile_last_sequence. fold b. destruct Hw. constructor; done.
Qed.

(** ** Streams *)

Lemma applyEvent_stale s e : (ev_sequence e <= last_sequence s)%Z → applyEvent s e = s.
Proof.
  intros Hle. unfold applyEvent, applyEvent_fresh.
  destruct (Z.leb_spec (ev_sequence e) (last_sequence s)); [done|lia].
Qed.

Lemma applyEvent_last s e : last_sequence (applyEvent s e) = Z.max (last_sequence s) (ev_sequence e).
Proof.
  unfold applyEvent, applyEvent_fresh.
  destruct (Z.leb_spec (ev_sequence e) (last_sequence s)); simpl; [lia|].
  destruct (applyComputerEvent _ _ e). simpl. lia.
Qed.

Lemma applyEvents_app s l1 l2 : applyEvents s (l1 ++ l2) = applyEvents (applyEvents s l1) l2.
Proof. apply fold_left_app. Qed.

Lemma applyEvents_stale s l :
  Forall (λ e, (ev_sequence e <= last_sequence s)%Z) l → applyEvents s l = s.
Proof.
  induction 1 as [|e l He Hl IH]; [done|]. unfold applyEvents in *. simpl.
  by rewrite applyEvent_stale.
Qed.

Lemma applyEvents_last_ge s l : (last_sequence s <= last_sequence (applyEvents s l))%Z.
Proof.
  revert s; induction l as [|e l IH]; intros s; [done|].
  unfold applyEvents in *; simpl. specialize (IH (applyEvent s e)).
  rewrite applyEvent_last in IH. lia.
Qed.

Lemma applyEvents_last_elem s l e :
  e ∈ l → (ev_sequence e <= last_sequence (applyEvents s l))%Z.
Proof.
  intros (l1 & l2 & ->)%list_elem_of_split. rewrite applyEvents_app.
  change (e :: l2) with ([e] ++ l2). rewrite applyEvents_app.
  etransitivity; [|apply applyEvents_last_ge]. unfold applyEvents at 1; simpl.
  rewrite applyEvent_last. lia.
Qed.

(** The events a stream of deliveries really applies: those above everything seen. *)
Fixpoint accepted (z : Z) (l : list EventEnvelope) : list EventEnvelope :=
  match l with
  | [] => []
  | e :: l' => if (ev_sequence e <=? z)%Z then accepted z l'
               else e :: accepted (ev_sequence e) l'
  end.

Lemma applyEvents_accepted s l :
  applyEvents s l = applyEvents s (accepted (last_sequence s) l).
Proof.
  revert s; induction l as [|e l IH]; intros s; [done|]. simpl.
  destruct (Z.leb_spec (ev_sequence e) (last_sequence s)) as [Hle|Hgt].
  - unfold applyEvents in *. simpl. by rewrite applyEvent_stale.
  - unfold applyEvents in *. simpl. rewrite IH. rewrite applyEvent_last.
    rewrite Z.max_r by lia. done.
Qed.

(** A stream strictly above [z]. *)
Fixpoint increasing (z : Z) (l : list EventEnvelope) : Prop :=
  match l with
  | [] => True
  | e :: l' => (z < ev_sequence e)%Z ∧ increasing (ev_sequence e) l'
  end.

Lemma accepted_increasing z l : increasing z (accepted z l).
Proof.
  revert z; induction l as [|e l IH]; intros z; simpl; [done|].
  destruct (Z.leb_spec (ev_sequence e) z); simpl; auto.
Qed.

Lemma accepted_id z l : increasing z l → accepted z l = l.
Proof.
  revert z; induction l as [|e l IH]; intros z; simpl; [done|]. intros [Hlt Hi].
  destruct (Z.leb_spec (ev_sequence e) z); [lia|]. by rewrite IH.
Qed.

Lemma increasing_Forall z l : increasing z l → Forall (λ e, (z < ev_sequence e)%Z) l.
Proof.
  revert z; induction l as [|e l IH]; intros z; simpl; [constructor|]. intros [Hlt Hi].
  constructor; [done|]. eapply Forall_impl; [by apply IH|]. simpl; intros; lia.
Qed.

(** On an increasing stream each member evolves by its own handler alone. *)
Lemma applyEvents_proj {A} (proj : OperatorState → A) (step : A → EventEnvelope → A) s l :
  (∀ s e, (last_sequence s < ev_sequence e)%Z → proj (applyEvent s e) = step (proj s) e) →
  increasing (last_sequence s) l → proj (applyEvents s l) = fold_left step l (proj s).
Proof.
  intros Hstep. revert s; induction l as [|e l IH]; intros s; simpl; [done|]. intros [Hlt Hi].
  unfold applyEvents in *; simpl. rewrite IH, Hstep; [done|done|].
  rewrite applyEvent_last, Z.max_r by lia. done.
Qed.

Lemma applyEvent_approvals s e :
  (last_sequence s < ev_sequence e)%Z →
  pending_approvals (applyEvent s e) = applyApprovalEvent (pending_approvals s) e.
Proof.
  intros Hlt. unfold applyEvent, applyEvent_fresh.
  destruct (Z.leb_spec (ev_sequence e) (last_sequence s)); [lia|].
  by destruct (applyComputerEvent _ _ e).
Qed.

Lemma applyEvent_turns s e :
  (last_sequence s < ev_sequence e)%Z → turns (applyEvent s e) = applyTurnEvent (turns s) e.
Proof.
  intros Hlt. unfold applyEvent, applyEvent_fresh.
  destruct (Z.leb_spec (ev_sequence e) (last_sequence s)); [lia|].
  by destruct (applyComputerEvent _ _ e).
Qed.

Lemma applyEvent_computer s e :
  (last_sequence s < ev_sequence e)%Z →
  (computer_order (applyEvent s e), computer_activities (applyEvent s e)) =
  applyComputerEvent (computer_order s) (computer_activities s) e.
Proof.
  intros Hlt. unfold applyEvent, applyEvent_fresh.
  destruct (Z.leb_spec (ev_sequence e) (last_sequence s)); [lia|].
  by destruct (applyComputerEvent _ _ e).
Qed.
End WithPlatform.
