(* ===== verification/Store.v ===== *)
(** * The operator event store

    [ui/shared/src/state/store.ts]: the holder of the operator state that clients
    subscribe to.  A listener is its identity; [listeners] is the [Set] in insertion
    order.  [update] compares object identities: [applyEvent] returns the previous
    object for an event that was already applied, so [applyEvent_fresh] decides whether
    listeners run; [applyRecovery] always builds a new object. *)
From stdpp Require Import base list strings.
From Stdlib Require Import ZArith NArith.
From S2P Require Import Prelude JsString JsValue Regex Catalog Protocol Display Envelope Events EventsFacts.

Abbreviation listener := nat (only parsing).

Record OperatorEventStore : Type := {
  state : OperatorState;
  listeners : list listener;
}.

Definition newStore : OperatorEventStore :=
  {| state := emptyOperatorState; listeners := [] |}.

Definition getSnapshot (st : OperatorEventStore) : OperatorState := state st.

Definition subscribe (f : listener) (st : OperatorEventStore) : OperatorEventStore :=
  {| state := state st;
     listeners := if bool_decide (f ∈ listeners st) then listeners st else listeners st ++ [f] |}.

(** What the function returned by [subscribe] does. *)
Definition unsubscribe (f : listener) (st : OperatorEventStore) : OperatorEventStore :=
  {| state := state st; listeners := filter (.≠ f) (listeners st) |}.

(** The new store and the listeners called, in order; [None] is the same object. *)
Definition update (next : option OperatorState) (st : OperatorEventStore)
    : OperatorEventStore * list listener :=
  match next with
  | None => (st, [])
  | Some s => ({| state := s; listeners := listeners st |}, listeners st)
  end.

Section WithPlatform.
Context `{Platform}.

Definition recover (r : RecoveryEnvelope) (st : OperatorEventStore) :=
  update (Some (applyRecovery (state st) r)) st.

Definition accept (e : EventEnvelope) (st : OperatorEventStore) :=
  update (applyEvent_fresh (state st) e) st.

(** One thing that happens to a store. *)
Inductive store_step : OperatorEventStore → OperatorEventStore → Prop :=
  | step_accept e st : store_step st (accept e st).1
  | step_recover r st : store_step st (recover r st).1
  | step_subscribe f st : store_step st (subscribe f st)
  | step_unsubscribe f st : store_step st (unsubscribe f st).

(** The stores a client can reach. *)
Inductive reachable : OperatorEventStore → Prop :=
  | reach_new : reachable newStore
  | reach_step st st' : reachable st → store_step st st' → reachable st'.

Definition store_wf (st : OperatorEventStore) : Prop := wf (state st) ∧ NoDup (listeners st).

Lemma accept_state e st : state (accept e st).1 = applyEvent (state st) e.
Proof. unfold accept, update, applyEvent. by destruct (applyEvent_fresh _ _). Qed.

Lemma accept_listeners e st : listeners (accept e st).1 = listeners st.
Proof. unfold accept, update. by destruct (applyEvent_fresh _ _). Qed.

Lemma store_step_wf st st' : store_step st st' → store_wf st → store_wf st'.
Proof.
  intros Hstep [Hs Hl]. destruct Hstep as [e st|r st|f st|f st]; unfold store_wf.
  - rewrite accept_state, accept_listeners. split; [by apply applyEvent_wf|done].
  - simpl. split; [by apply applyRecovery_wf|done].
  - simpl. split; [done|]. case_bool_decide; [done|]. apply NoDup_app.
    split_and!; [done| |apply NoDup_singleton]. by intros x Hx ->%list_elem_of_singleton.
  - simpl. split; [done|]. by apply NoDup_filter.
Qed.

Lemma reachable_wf st : reachable st → store_wf st.
Proof.
  induction 1 as [|st st' _ IH Hs]; [|by eapply store_step_wf].
  split; [apply emptyOperatorState_wf|apply NoDup_nil_2].
Qed.

(** A run of events through a store. *)
Fixpoint accept_all (l : list EventEnvelope) (st : OperatorEventStore) : OperatorEventStore :=
  match l with
  | [] => st
  | e :: l => accept_all l (accept e st).1
  end.

Lemma accept_all_state l st : state (accept_all l st) = applyEvents (state st) l.
Proof.
  revert st; induction l as [|e l IH]; intros st; simpl; [done|].
  rewrite IH, accept_state. done.
Qed.
End WithPlatform.
