(* ===== verification/EventsProps.v ===== *)
(** * Properties of the operator state

    The theorems on [events.ts] and [store.ts]: the invariant of every reachable store,
    at-least-once delivery, what turns and approvals mean in terms of the event log, the
    finality of computer activities, and what a recovery establishes. *)
From stdpp Require Import base list strings sorting.
From Stdlib Require Import ZArith NArith.
From S2P Require Import Prelude JsString JsValue Regex Catalog Protocol Display Envelope Events EventsFacts Store.

(** ** A concrete platform and concrete events for the witnesses *)

Definition test_platform : Platform :=
  {| Date_parse _ := Some 0%Z; URL_parse _ := None; case_table := ascii_only |}.

Definition uuid (c : string) : jstr := js ("0190c0de-0000-7000-8000-00000000000" +:+ c).

Definition correlate (turn tool : option jstr) : Correlation := {|
  cor_actor_id := uuid "a"; cor_session_id := Some (uuid "b"); cor_turn_id := turn;
  cor_task_id := None; cor_tool_id := tool |}.

Definition mk_event (seq : Z) (ty : string) (turn tool : option jstr) (payload : json)
    : EventEnvelope := {|
  ev_sequence := seq; ev_event_id := uuid "e"; ev_type := js ty; ev_occurred_at := js "t";
  ev_correlation := correlate turn tool; ev_payload := payload |}.

Definition approval_json (id : string) : json := JObj [(js "approval_id", JStr (uuid id))].

Definition phase_json (p : ComputerPhase) : json :=
  JObj ([(js "protocol_version", JStr (js COMPUTER_EVENT_VERSION));
         (js "tool_event_id", JStr (uuid "1")); (js "provider_tool_call_id", JStr (js "call"));
         (js "tool", JStr (js "browser")); (js "operation", JStr (js "open"));
         (js "scope", JObj [(js "actor_id", JStr (uuid "a")); (js "agent_id", JStr (js "ion"));
                            (js "task_id", JStr (uuid "2"))]);
         (js "risk_class", JStr (js "GREEN")); (js "phase", JStr (js (phase_name p)));
         (js "timestamp", JStr (js "now")); (js "display_kind", JStr (js "page"));
         (js "source_references",
          JArr [JObj [(js "kind", JStr (js "tool_event")); (js "id", JStr (uuid "1"))]])]
        ++ (if phase_terminal p
            then [(js "terminal_status", JStr (js (phase_name p)));
                  (js "result", JObj [(js "available", JBool true); (js "bytes", JNum (NFin 3 0))])]
            else [])).

Definition tool_event (seq : Z) (p : ComputerPhase) : EventEnvelope :=
  mk_event seq (computerEventTypeByPhase p) None (Some (uuid "1")) (phase_json p).

Example phase_json_ok :
  map (λ p, @isComputerEventPayload test_platform (phase_json p))
    [requested; started; completed; failed; denied] = [true; true; true; true; true].
Proof. vm_compute. reflexivity. Qed.

Section Properties.
Context `{Platform}.

(** ** Invariant *)

(** [C1] In every store a client can reach by accepting events, recovering,
    subscribing and unsubscribing in any order, the state is well formed: at most 1000
    recent events with strictly increasing sequence numbers below the last one, every
    turn, approval and activity stored once under its own identifier with a sequence
    number that was seen, activities whose terminal flag is that of their phase, and an
    activity order without duplicates, of at most 1000 known identifiers. *)
Theorem reachable_store_invariant (st : OperatorEventStore) :
  reachable st → wf (state st) ∧ NoDup (listeners st).
Proof. apply reachable_wf. Qed.

(** ** At-least-once delivery *)

(** [C2] Replaying a suffix of the log that overlaps what was already applied leads
    to the same state as applying the log once: for a log [l1 ++ l2 ++ l3], a client that
    saw [l1 ++ l2] and then receives [l2 ++ l3] ends where one that saw the log once
    ends. *)
Theorem overlapping_replay_is_exactly_once (s : OperatorState) (l1 l2 l3 : list EventEnvelope) :
  applyEvents (applyEvents s (l1 ++ l2)) (l2 ++ l3) = applyEvents s (l1 ++ l2 ++ l3).
Proof.
  rewrite (app_assoc l1 l2 l3), (applyEvents_app s (l1 ++ l2) l3), (applyEvents_app _ l2 l3).
  rewrite (applyEvents_stale (applyEvents s (l1 ++ l2)) l2); [done|]. apply Forall_forall. intros e He.
  apply applyEvents_last_elem. apply elem_of_app. by right.
Qed.

(** [C3] However deliveries are repeated or reordered, the state is the one of the
    strictly increasing subsequence of events above everything seen before them, and
    that subsequence is what the store's listeners are told about: an event below it
    changes nothing and notifies nobody. *)
Theorem deliveries_filter_to_increasing (st : OperatorEventStore) (l : list EventEnvelope) :
  state (accept_all l st) = applyEvents (state st) (accepted (last_sequence (state st)) l) ∧
  increasing (last_sequence (state st)) (accepted (last_sequence (state st)) l) ∧
  (∀ e, (ev_sequence e <= last_sequence (state st))%Z → accept e st = (st, [])) ∧
  (∀ e, (last_sequence (state st) < ev_sequence e)%Z → (accept e st).2 = listeners st).
Proof.
  split_and!.
  - rewrite accept_all_state. apply applyEvents_accepted.
  - apply accepted_increasing.
  - intros e He. unfold accept, applyEvent_fresh.
    destruct (Z.leb_spec (ev_sequence e) (last_sequence (state st))); [done|lia].
  - intros e He. unfold accept, applyEvent_fresh.
    destruct (Z.leb_spec (ev_sequence e) (last_sequence (state st))); [lia|].
    by destruct (applyComputerEvent _ _ e).
Qed.

(** ** Approvals as a function of the log *)

(** What an event says about the approval [id]: nothing, that it is pending with a
    given state, or that it is settled. *)
Definition approval_verdict (id : jstr) (e : EventEnvelope) : option (option ApprovalState) :=
  match asRecord (ev_payload e) with
  | None => None
  | Some payload =>
      if bool_decide (asUUID (get "approval_id" payload) = Some id) then
        if jeqb (ev_type e) (js "approval.requested") then
          Some (Some {| a_id := id; a_session_id := cor_session_id (ev_correlation e);
                        a_turn_id := cor_turn_id (ev_correlation e); a_payload := payload;
                        a_last_sequence := ev_sequence e |})
        else if jeqb (ev_type e) (js "approval.resolved") ||
                jeqb (ev_type e) (js "approval.expired")
        then Some None else None
      else None
  end.

(** The last verdict of the log, or the initial one. *)
Definition latest {A} (verdicts : list A) (initial : A) : A := default initial (last verdicts).

Lemma applyApprovalEvent_get id m e :
  assoc_get id (applyApprovalEvent m e) =
  default (assoc_get id m) (approval_verdict id e).
Proof.
  unfold applyApprovalEvent, approval_verdict.
  destruct (asRecord (ev_payload e)) as [p|]; [|done].
  destruct (asUUID (get "approval_id" p)) as [id'|]; [|by rewrite bool_decide_false].
  case_bool_decide as Hid; simplify_eq.
  - destruct (jeqb (ev_type e) (js "approval.requested")); simpl.
    + apply assoc_get_set_eq.
    + destruct (_ || _); simpl; [apply assoc_get_del_eq|done].
  - assert (id ≠ id') by congruence.
    destruct (jeqb (ev_type e) (js "approval.requested")); simpl.
    + by apply assoc_get_set_ne.
    + destruct (_ || _); simpl; [by apply assoc_get_del_ne|done].
Qed.

Lemma fold_verdicts {M A} (f : M → EventEnvelope → M) (get : M → A)
    (verdict : EventEnvelope → option A) l m :
  (∀ m e, get (f m e) = default (get m) (verdict e)) →
  get (fold_left f l m) = latest (omap verdict l) (get m).
Proof.
  intros Hf. unfold latest. revert m; induction l as [|e l IH]; intros m; [done|].
  simpl. rewrite IH, Hf. destruct (verdict e) as [v|]; [|done].
  rewrite last_cons. by destruct (last _).
Qed.

(** [C7] An approval is pending exactly when the last event of the log that speaks
    about it is its request, and then the state holds the data of that request. *)
Theorem pending_approvals_follow_log (s : OperatorState) (l : list EventEnvelope) (id : jstr) :
  assoc_get id (pending_approvals (applyEvents s l)) =
  latest (omap (approval_verdict id) (accepted (last_sequence s) l))
         (assoc_get id (pending_approvals s)).
Proof.
  rewrite applyEvents_accepted.
  rewrite (applyEvents_proj pending_approvals applyApprovalEvent)
    by (try apply applyEvent_approvals; apply accepted_increasing).
  apply (fold_verdicts applyApprovalEvent (assoc_get id)). apply applyApprovalEvent_get.
Qed.

(** ** Turns as a function of the log *)

(** What each event of a turn says of it, event by event. *)
Definition turn_statuses : list (string * TurnStatus) :=
  [("turn.started", Running); ("turn.recovery", Recovering); ("turn.completed", Completed);
   ("turn.failed", Failed)]%string.

Definition status_given (e : EventEnvelope) : option TurnStatus :=
  if jeqb (ev_type e) (js "turn.incomplete") then
    Some (match asRecord (ev_payload e) ≫= get "final_honest_partial" with
          | Some (JBool false) => Recovering
          | _ => Incomplete
          end)
  else snd <$> find (λ r, jeqb (ev_type e) (js r.1)) turn_statuses.

Definition turn_verdict (id : jstr) (e : EventEnvelope) : option (option TurnStatus) :=
  if bool_decide (cor_turn_id (ev_correlation e) = Some id) then Some <$> status_given e else None.

Lemma status_given_spec e :
  status_given e = if jeqb (ev_type e) (js "turn.started") then Some Running
                   else turnEventStatus (ev_type e) (asRecord (ev_payload e)).
Proof.
  unfold status_given, turnEventStatus, turn_statuses. cbn [find fst snd].
  destruct (jeqb (ev_type e) (js "turn.incomplete")) eqn:Hi.
  - apply jeqb_eq in Hi. rewrite Hi.
    change (jeqb (js "turn.incomplete") (js "turn.started")) with false.
    change (jeqb (js "turn.incomplete") (js "turn.recovery")) with false. cbn [fmap option_fmap option_map].
    reflexivity.
  - by destruct (jeqb (ev_type e) (js "turn.started")), (jeqb (ev_type e) (js "turn.recovery")),
      (jeqb (ev_type e) (js "turn.completed")), (jeqb (ev_type e) (js "turn.failed")).
Qed.

Lemma applyTurnEvent_get id ts e :
  t_status <$> assoc_get id (applyTurnEvent ts e) =
  default (t_status <$> assoc_get id ts) (turn_verdict id e).
Proof.
  unfold applyTurnEvent, turn_verdict. rewrite status_given_spec.
  destruct (cor_turn_id (ev_correlation e)) as [id'|]; [|by rewrite bool_decide_false].
  case_bool_decide as Hid; simplify_eq.
  - destruct (jeqb (ev_type e) (js "turn.started")); simpl.
    + by rewrite assoc_get_set_eq.
    + destruct (turnEventStatus _ _); simpl; [by rewrite assoc_get_set_eq|done].
  - assert (id ≠ id') by congruence.
    destruct (jeqb (ev_type e) (js "turn.started")); simpl.
    + by rewrite assoc_get_set_ne.
    + destruct (turnEventStatus _ _); simpl; [by rewrite assoc_get_set_ne|done].
Qed.

(** [C8] The status of a turn is the one its last event gives it: running for a start,
    recovering for a recovery and for an incomplete end that says it is not the final
    partial, incomplete for any other incomplete end, completed and failed for those;
    events of other types or turns do not change it. *)
Theorem turn_status_follows_log (s : OperatorState) (l : list EventEnvelope) (id : jstr) :
  t_status <$> assoc_get id (turns (applyEvents s l)) =
  latest (omap (turn_verdict id) (accepted (last_sequence s) l))
         (t_status <$> assoc_get id (turns s)).
Proof.
  rewrite applyEvents_accepted.
  rewrite (applyEvents_proj turns applyTurnEvent)
    by (try apply applyEvent_turns; apply accepted_increasing).
  apply (fold_verdicts applyTurnEvent (λ m, t_status <$> assoc_get id m)).
  apply applyTurnEvent_get.
Qed.

(** ** Computer activities *)

(** Eviction removes at most one activity, and only a terminal one. *)
Lemma boundedComputerOrder_get order m id i :
  assoc_get i (boundedComputerOrder order m id).2 = assoc_get i m ∨
  assoc_get i (boundedComputerOrder order m id).2 = None ∧
    ∃ a, assoc_get i m = Some a ∧ ca_terminal a = true.
Proof.
  unfold boundedComputerOrder. case_match; [by left|].
  destruct (find _ _) as [r|] eqn:Hf; [|by left].
  apply find_Some_elem in Hf as [_ Hr]. simpl. rewrite assoc_get_del.
  destruct (decide (i = r)) as [->|]; [|by left]. right. split; [done|].
  destruct (assoc_get r m) as [a|]; [eauto|done].
Qed.

(** Activities are evicted for room only: recording the activity [t] of an event when the
    order is full evicts the first finished activity of the order. *)
Definition evicts (order : list jstr) (m : activity_map) (t id : jstr) : Prop :=
  t ≠ id ∧ 1000 ≤ length order ∧
  ∃ before after, order = before ++ id :: after ∧
    Forall (λ i, ∀ b, assoc_get i m = Some b → ca_terminal b = false) before ∧
    ∃ a, assoc_get id m = Some a ∧ ca_terminal a = true.

(** The first element that passes a test, with what comes before it. *)
Lemma find_split {A} (f : A → bool) l x :
  find f l = Some x → ∃ before after, l = before ++ x :: after ∧ Forall (λ y, f y = false) before ∧ f x = true.
Proof.
  induction l as [|y l IH]; [done|]. cbn [find]. destruct (f y) eqn:Hy.
  - intros [= ->]. by exists [], l.
  - intros (before & after & -> & Hb & Hx)%IH. exists (y :: before), after. split_and!; [done|by constructor|done].
Qed.

(** Recording evicts at most one activity: one it has no report of. *)
Lemma recordActivity_get order m t a i :
  i ≠ t → (∀ b, assoc_get t m = Some b → ca_terminal b = false) →
  assoc_get i (recordActivity order m t a).2 = assoc_get i m ∨
  assoc_get i (recordActivity order m t a).2 = None ∧ evicts order m t i.
Proof.
  intros Hne Ht. unfold recordActivity, boundedComputerOrder.
  set (full := if bool_decide (t ∈ order) then order else order ++ [t]).
  destruct (length full <=? 1000) eqn:Hlen; [left; by apply assoc_get_set_ne|].
  destruct (find _ full) as [r|] eqn:Hf; [|left; by apply assoc_get_set_ne]. cbn [snd].
  rewrite assoc_get_del. destruct (decide (i = r)) as [->|]; [|left; by apply assoc_get_set_ne].
  right. split; [done|]. split; [congruence|].
  apply Nat.leb_gt in Hlen. apply find_split in Hf as (before & after & Hfull & Hb & Hr).
  rewrite assoc_get_set_ne in Hr by done.
  assert (∃ after', order = before ++ r :: after') as [after' ->].
  { unfold full in Hfull. case_bool_decide; [by exists after|].
    destruct after as [|y after _] using rev_ind.
    - apply app_inj_tail in Hfull as [_ ?]. congruence.
    - change (before ++ r :: after ++ [y]) with (before ++ (r :: after) ++ [y]) in Hfull. rewrite app_assoc in Hfull.
      apply app_inj_tail in Hfull as [-> _]. by exists after. }
  split; [unfold full in Hlen; case_bool_decide; rewrite ?length_app in *; cbn [length] in *; lia|].
  exists before, after'. split_and!; [done| |].
  - eapply Forall_impl; [exact Hb|]. intros j Hj b Hjb. destruct (decide (j = t)) as [->|]; [by apply Ht|].
    cbn beta in Hj. rewrite assoc_get_set_ne, Hjb in Hj by done. done.
  - destruct (assoc_get r m) as [b|]; [by exists b|done].
Qed.

(** A new event leaves the other activities alone, except that recording its own may evict
    a finished one. *)
Lemma applyComputerEvent_other order m e i :
  cor_tool_id (ev_correlation e) ≠ Some i →
  assoc_get i (applyComputerEvent order m e).2 = assoc_get i m ∨
  assoc_get i (applyComputerEvent order m e).2 = None ∧ computerEventTypes_has (ev_type e) = true ∧
    ∃ t, cor_tool_id (ev_correlation e) = Some t ∧ evicts order m t i.
Proof.
  intros Hne. unfold applyComputerEvent.
  destruct (computerEventTypes_has (ev_type e)); [|by left]. cbn [negb].
  destruct (cor_tool_id (ev_correlation e)) as [id|]; [|by left].
  assert (i ≠ id) as Hi by congruence.
  assert (∀ a, (∀ b, assoc_get id m = Some b → ca_terminal b = false) →
    assoc_get i (recordActivity order m id a).2 = assoc_get i m ∨
    assoc_get i (recordActivity order m id a).2 = None ∧ true = true ∧ ∃ t, Some id = Some t ∧ evicts order m t i) as Hrec.
  { intros a Ht. destruct (recordActivity_get order m id a i Hi Ht) as [?|[? ?]]; [by left|right]. eauto. }
  destruct (computer_payload_of (ev_payload e)) as [p|].
  - destruct (_ || _); [by left|]. destruct (assoc_get id m) as [b|] eqn:Hb; [|by apply Hrec].
    destruct (ca_terminal b) eqn:Hterm; [|apply Hrec; by intros ? [= <-]].
    destruct (_ && _); left; [by apply assoc_get_set_ne|done].
  - destruct (assoc_get id m) eqn:Hb; [by left|by apply Hrec].
Qed.

(** An activity that is still running is never lost: whatever event about another
    tool call arrives, it stays as it was. *)
Theorem live_activity_is_kept (s : OperatorState) (e : EventEnvelope) (id : jstr)
    (a : ComputerActivity) :
  assoc_get id (computer_activities s) = Some a → ca_terminal a = false →
  cor_tool_id (ev_correlation e) ≠ Some id →
  assoc_get id (computer_activities (applyEvent s e)) = Some a.
Proof.
  intros Ha Ht Hne. destruct (Z.le_gt_cases (ev_sequence e) (last_sequence s)) as [Hle|Hgt].
  - by rewrite applyEvent_stale.
  - pose proof (applyEvent_computer s e ltac:(lia)) as Hc.
    destruct (applyComputerEvent_other (computer_order s) (computer_activities s) e id Hne)
      as [Hs|(_ & _ & t & _ & _ & _ & _ & _ & _ & _ & a' & Ha' & Ht')]; [|congruence].
    rewrite <-Hc in Hs. simpl in Hs. congruence.
Qed.


(** ** Valid events reach their activity *)

(** The consistency tests of the state agree with the wire guard: an accepted
    event of a tool phase whose payload has the current version always carries a valid
    payload for its own tool call and actor, in the phase its type names, and unless the
    call is already final the event is recorded with that phase (or, when the call is
    over and the bounded order is full, evicted at once). *)
Theorem accepted_tool_event_is_recorded (s : OperatorState) (v payload : json)
    (e : EventEnvelope) :
  event_of v = Some e → ev_payload e = payload →
  computerEventTypes_has (ev_type e) = true →
  get "protocol_version" payload = Some (JStr (js COMPUTER_EVENT_VERSION)) →
  ∃ p id, computer_payload_of payload = Some p ∧
    cor_tool_id (ev_correlation e) = Some id ∧
    cp_tool_event_id p = id ∧ cs_actor_id (cp_scope p) = cor_actor_id (ev_correlation e) ∧
    js (computerEventTypeByPhase (cp_phase p)) = ev_type e ∧
    ((last_sequence s < ev_sequence e)%Z →
     (∀ a, assoc_get id (computer_activities s) = Some a → ca_terminal a = false) →
     assoc_get id (computer_activities (applyEvent s e)) =
       Some (supportedActivity id e p (assoc_get id (computer_activities s))) ∨
     assoc_get id (computer_activities (applyEvent s e)) = None ∧
       isTerminalComputerPhase (cp_phase p) = true).
Proof.
  intros Hev <- Hty Hver.
  destruct (event_of_computer _ _ Hev Hty Hver) as (p & id & Hp & Hid & Htool & Hactor & Htype).
  exists p, id. split_and!; try done. intros Hlt Hlive.
  pose proof (applyEvent_computer s e ltac:(lia)) as Hc.
  apply (f_equal snd) in Hc. simpl in Hc. rewrite Hc.
  unfold applyComputerEvent. rewrite Hty, Hid, Hp, Htool, Hactor, !jeqb_refl. simpl.
  assert (∀ a, ca_terminal a = isTerminalComputerPhase (cp_phase p) →
    assoc_get id (recordActivity (computer_order s) (computer_activities s) id a).2 = Some a ∨
    assoc_get id (recordActivity (computer_order s) (computer_activities s) id a).2 = None ∧
      isTerminalComputerPhase (cp_phase p) = true) as Hrec.
  { intros a Ha. unfold recordActivity.
    destruct (boundedComputerOrder_get (computer_order s)
      (assoc_set id a (computer_activities s)) id id) as [->|(-> & a' & Ha' & ?)].
    - left. apply assoc_get_set_eq.
    - right. rewrite assoc_get_set_eq in Ha'. simplify_eq. split; [done|congruence]. }
  destruct (assoc_get id (computer_activities s)) as [a|] eqn:Hget.
  - rewrite (Hlive a eq_refl). by apply Hrec.
  - by apply Hrec.
Qed.

(** ** Recovery *)

Lemma fold_set_get {V} rows (m : list (jstr * V)) k :
  assoc_get k (fold_left (λ m row, assoc_set row.1 row.2 m) rows m) =
  default (assoc_get k m)
    (last (omap (λ row, if decide (row.1 = k) then Some (Some row.2) else None) rows)).
Proof.
  revert m; induction rows as [|[k' v'] rows IH]; intros m; [done|]. simpl.
  rewrite IH, assoc_get_set. simpl. destruct (decide (k' = k)) as [->|Hne].
  - rewrite decide_True by done. rewrite last_cons. by destruct (last _).
  - rewrite decide_False by done. done.
Qed.

Lemma fold_set_keys {V} rows (m : list (jstr * V)) k :
  k ∈ (fold_left (λ m row, assoc_set row.1 row.2 m) rows m).*1 ↔ k ∈ rows.*1 ∨ k ∈ m.*1.
Proof.
  revert m; induction rows as [|[k' v'] rows IH]; intros m; simpl.
  - split; [by right|]. intros [Hin|?]; [inversion Hin|done].
  - rewrite IH, assoc_set_keys_elem, elem_of_cons. tauto.
Qed.

Lemma reconcile_projs s snap z :
  let s' := reconcilePendingApprovals (reconcileActiveTurns s snap z) snap z in
  turns s' = turns (reconcileActiveTurns s snap z) ∧
  pending_approvals s' = pending_approvals (reconcilePendingApprovals s snap z).
Proof. unfold reconcilePendingApprovals, reconcileActiveTurns. by repeat case_match. Qed.

(** After a recovery whose snapshot lists the active turns, the listed turns are
    known and no other turn is shown as running or recovering, whatever the client
    believed before and whatever the replay contained. *)
Theorem recovery_live_turns_are_authoritative (s : OperatorState) (r : RecoveryEnvelope)
    (active : list json) (id : jstr) :
  snapshotArray "active_turns" (rec_snapshot r) = Some active →
  let listed := (omap (activeTurn (rp_latest_sequence (rec_replay r))) active).*1 in
  (id ∈ listed → is_Some (assoc_get id (turns (applyRecovery s r)))) ∧
  (∀ t, assoc_get id (turns (applyRecovery s r)) = Some t → is_live (t_status t) = true →
        id ∈ listed).
Proof.
  intros Hsnap listed. unfold applyRecovery. cbn [withLastSequence turns].
  destruct (reconcile_projs (applyEvents (recoveryBase s r) (rp_events (rec_replay r)))
    (rec_snapshot r) (rp_latest_sequence (rec_replay r))) as [-> _].
  unfold reconcileActiveTurns. rewrite Hsnap. cbn [turns]. fold listed. split.
  - intros Hin. apply assoc_get_is_Some.
    assert (id ∈ (fold_left (λ m row, assoc_set row.1 row.2 m)
      (omap (activeTurn (rp_latest_sequence (rec_replay r))) active)
      (turns (applyEvents (recoveryBase s r) (rp_events (rec_replay r))))).*1) as Hk
      by (apply fold_set_keys; by left).
    apply list_elem_of_fmap in Hk as ([k t] & -> & Hkt). apply list_elem_of_fmap.
    exists (k, t). split; [done|]. apply list_elem_of_filter. split; [by right|done].
  - intros t Hget Hlive. apply assoc_get_elem, list_elem_of_filter in Hget as [[Hf|Hin] _];
      simpl in *; [congruence|done].
Qed.

(** After a recovery whose snapshot lists the pending approvals, the pending
    approvals are exactly the listed ones. *)
Theorem recovery_approvals_are_authoritative (s : OperatorState) (r : RecoveryEnvelope)
    (pending : list json) (id : jstr) :
  snapshotArray "pending_approvals" (rec_snapshot r) = Some pending →
  is_Some (assoc_get id (pending_approvals (applyRecovery s r))) ↔
  id ∈ (omap (pendingApproval (rp_latest_sequence (rec_replay r))) pending).*1.
Proof.
  intros Hsnap. unfold applyRecovery. cbn [withLastSequence pending_approvals].
  destruct (reconcile_projs (applyEvents (recoveryBase s r) (rp_events (rec_replay r)))
    (rec_snapshot r) (rp_latest_sequence (rec_replay r))) as [_ ->].
  unfold reconcilePendingApprovals. rewrite Hsnap. cbn [pending_approvals].
  rewrite assoc_get_is_Some, fold_set_keys. split; [|by left].
  intros [?|Hin]; [done|inversion Hin].
Qed.

(** A recovery that carries a snapshot forgets the previous state: two clients
    with different histories agree after it.  A recovery without a snapshot is the
    replay of its events on the previous state, and in both cases the client then
    ignores every event up to the recovered position. *)
Theorem recovery_is_determined_by_its_frame (s s' : OperatorState) (r : RecoveryEnvelope) :
  (is_Some (rec_snapshot r) → applyRecovery s r = applyRecovery s' r) ∧
  (rec_snapshot r = None →
   applyRecovery s r =
   withLastSequence (applyEvents s (rp_events (rec_replay r)))
     (Z.max (last_sequence (applyEvents s (rp_events (rec_replay r))))
            (rp_latest_sequence (rec_replay r)))) ∧
  (∀ e, (ev_sequence e <= rp_latest_sequence (rec_replay r))%Z →
        applyEvent (applyRecovery s r) e = applyRecovery s r).
Proof.
  split_and!.
  - intros [snap Hs]. unfold applyRecovery, recoveryBase. by rewrite Hs.
  - intros Hs. unfold applyRecovery, recoveryBase. rewrite Hs. done.
  - intros e He. apply applyEvent_stale. unfold applyRecovery. cbn [withLastSequence last_sequence].
    lia.
Qed.

(** ** What the bound on activities does not bound *)

(** A stream of tool events of an unknown payload version, one per tool call. *)
Definition unversioned (k : nat) : EventEnvelope :=
  mk_event (Z.of_nat k) "tool.started" None (Some (replicate k 120%N)) JNull.

Lemma unversioned_step n s :
  last_sequence s = Z.of_nat n →
  Forall (λ kv, ca_terminal kv.2 = false ∧ length kv.1 ≤ n) (computer_activities s) →
  let s' := applyEvent s (unversioned (S n)) in
  last_sequence s' = Z.of_nat (S n) ∧
  Forall (λ kv, ca_terminal kv.2 = false ∧ length kv.1 ≤ S n) (computer_activities s') ∧
  length (computer_activities s') = S (length (computer_activities s)).
Proof.
  intros Hl Hall s'.
  pose proof (applyEvent_last s (unversioned (S n))) as Hlast.
  pose proof (applyEvent_computer s (unversioned (S n))) as Hc.
  cbn [unversioned mk_event ev_sequence] in *. specialize (Hc ltac:(lia)).
  apply (f_equal snd) in Hc. cbn [snd] in Hc. fold s' in Hc, Hlast.
  split; [lia|].
  set (m := computer_activities s) in *. set (k := replicate (S n) 120%N).
  assert (k ∉ m.*1) as Hk.
  { intros ([k' a] & Heq & Hin)%list_elem_of_fmap. rewrite Forall_forall in Hall.
    apply Hall in Hin as [_ Hlen]. cbn [fst snd] in *. subst k'. unfold k in Hlen.
    rewrite length_replicate in Hlen. lia. }
  set (a := unsupportedActivity k (unversioned (S n))).
  assert (Forall (λ kv, ca_terminal kv.2 = false ∧ length kv.1 ≤ S n) (assoc_set k a m)) as Hall'.
  { apply assoc_set_Forall.
    - cbn [fst snd]. split; [done|]. unfold k. rewrite length_replicate. done.
    - eapply Forall_impl; [exact Hall|]. simpl. intros kv [? ?]. split; [done|lia]. }
  assert (computer_activities s' = assoc_set k a m) as ->.
  { rewrite Hc. unfold applyComputerEvent.
    replace (computerEventTypes_has (ev_type (unversioned (S n)))) with true by (vm_compute; done).
    change (cor_tool_id (ev_correlation (unversioned (S n)))) with (Some k).
    change (computer_payload_of (ev_payload (unversioned (S n)))) with (@None ComputerEventPayload).
    cbn [negb]. apply assoc_get_None in Hk as ->.
    unfold recordActivity, boundedComputerOrder. fold a. case_match; [done|].
    destruct (find _ _) as [r|] eqn:Hf; [|done]. exfalso.
    apply find_Some_elem in Hf as [_ Hr].
    destruct (assoc_get r (assoc_set k a m)) as [b|] eqn:Hb; [|done].
    apply assoc_get_elem in Hb. rewrite Forall_forall in Hall'. apply Hall' in Hb as [Hb _].
    simpl in Hb. congruence. }
  split; [done|]. rewrite assoc_set_length. by rewrite decide_False.
Qed.

(** The limit of 1000 applies to the order, not to the activities: a stream of [n]
    tool events in an unsupported payload version leaves [n] activities in memory, for
    every [n], while the order stays bounded; the identifiers dropped from the order are
    not deleted. *)
Theorem unfinished_activities_accumulate (n : nat) :
  let s := applyEvents emptyOperatorState (map unversioned (seq 1 n)) in
  length (computer_activities s) = n ∧ length (computer_order s) ≤ 1000.
Proof.
  assert (∀ n, let s := applyEvents emptyOperatorState (map unversioned (seq 1 n)) in
    last_sequence s = Z.of_nat n ∧
    Forall (λ kv, ca_terminal kv.2 = false ∧ length kv.1 ≤ n) (computer_activities s) ∧
    length (computer_activities s) = n) as Hind.
  { clear n. induction n as [|n IH]; [repeat split; constructor|].
    rewrite seq_S, map_app, applyEvents_app. destruct IH as (Hl & Hall & Hn).
    destruct (unversioned_step n _ Hl Hall) as (Hl' & Hall' & Hn').
    simpl. split_and!; [done..|]. rewrite Hn in Hn'. exact Hn'. }
  destruct (Hind n) as (_ & _ & Hn). split; [done|].
  pose proof (applyEvents_wf (map unversioned (seq 1 n)) _ emptyOperatorState_wf) as Hw.
  destruct Hw as [_ _ _ _ _ _ _ []]. done.
Qed.
End Properties.

(** ** Witnesses *)

Definition state_after (l : list EventEnvelope) : OperatorState :=
  @applyEvents test_platform emptyOperatorState l.

(** A store that accepted one event. *)
Lemma reachable_store_invariant_witness :
  wf (state (@accept test_platform (tool_event 1 started) newStore).1) ∧
  NoDup (listeners (@accept test_platform (tool_event 1 started) newStore).1).
Proof.
  apply (@reachable_store_invariant test_platform).
  eapply reach_step; [apply reach_new|apply step_accept].
Defined.

(** A tool call that is running while another one is denied. *)
Lemma live_activity_is_kept_witness :
  ∃ a, assoc_get (uuid "1") (computer_activities (@applyEvent test_platform
    (state_after [tool_event 1 started])
    (mk_event 2 "tool.denied" None (Some (uuid "9")) JNull))) = Some a ∧
  ca_phase a = Some started.
Proof.
  eexists. split.
  - apply (@live_activity_is_kept test_platform (state_after [tool_event 1 started])
      (mk_event 2 "tool.denied" None (Some (uuid "9")) JNull) (uuid "1")).
    + vm_compute. reflexivity.
    + vm_compute. reflexivity.
    + vm_compute. discriminate.
  - vm_compute. reflexivity.
Defined.


Definition wire_event (seq : Z) (p : ComputerPhase) : json :=
  JObj [(js "sequence", JNum (NFin seq 0)); (js "event_id", JStr (uuid "e"));
        (js "type", JStr (js (computerEventTypeByPhase p)));
        (js "occurred_at", JStr (js "now"));
        (js "correlation", JObj [(js "actor_id", JStr (uuid "a")); (js "tool_id", JStr (uuid "1"))]);
        (js "payload", phase_json p)].

Lemma accepted_tool_event_is_recorded_witness :
  ∃ e, @event_of test_platform (wire_event 7 started) = Some e ∧
  ∃ p id, @computer_payload_of test_platform (phase_json started) = Some p ∧
    cor_tool_id (ev_correlation e) = Some id ∧ cp_tool_event_id p = id.
Proof.
  eexists. split; [vm_compute; reflexivity|].
  edestruct (@accepted_tool_event_is_recorded test_platform emptyOperatorState
    (wire_event 7 started) (phase_json started)) as (p & id & Hp & Hid & Ht & _).
  - vm_compute. reflexivity.
  - vm_compute. reflexivity.
  - vm_compute. reflexivity.
  - vm_compute. reflexivity.
  - exists p, id. split; [exact Hp|]. split; [exact Hid|exact Ht].
Defined.

Definition recovery_frame : RecoveryEnvelope := {|
  rec_replay := {| rp_after_sequence := 0; rp_earliest_sequence := 1; rp_latest_sequence := 9;
                   rp_head_sequence := 9; rp_gap := false;
                   rp_events := [mk_event 8 "turn.started" (Some (uuid "7")) None JNull] |};
  rec_gap_marker := None;
  rec_snapshot := Some (JObj [
    (js "active_turns", JArr [JObj [(js "turn_id", JStr (uuid "5"))]]);
    (js "pending_approvals", JArr [approval_json "6"])]);
|}.

(** The turn started in the replay is not active according to the snapshot. *)
Lemma recovery_live_turns_are_authoritative_witness :
  let s := @applyRecovery test_platform emptyOperatorState recovery_frame in
  is_Some (assoc_get (uuid "5") (turns s)) ∧ assoc_get (uuid "7") (turns s) = None.
Proof.
  intros s. split; [|vm_compute; reflexivity].
  eapply (@recovery_live_turns_are_authoritative test_platform emptyOperatorState recovery_frame
    [JObj [(js "turn_id", JStr (uuid "5"))]] (uuid "5")).
  - vm_compute. reflexivity.
  - vm_compute. left.
Defined.

Lemma recovery_approvals_are_authoritative_witness :
  is_Some (assoc_get (uuid "6")
    (pending_approvals (@applyRecovery test_platform emptyOperatorState recovery_frame))).
Proof.
  apply (@recovery_approvals_are_authoritative test_platform emptyOperatorState recovery_frame
    [approval_json "6"] (uuid "6")).
  - vm_compute. reflexivity.
  - vm_compute. left.
Defined.

