(* ===== verification/LocalClient.v ===== *)
(** * The local control-plane transport

    [ui/tui/src/local-client.ts]: one newline-framed connection over a Unix socket.  The
    state of the object is [Transport]; what it does to the outside (bytes written,
    promises settled, callbacks run, the socket destroyed or ended) is the list of
    [effect]s a method returns, in order.  A pending request is the identity of its
    promise.

    [JSON.parse] is the parameter [JSON_parse] ([None]: it throws). *)
From stdpp Require Import base list strings.
From Stdlib Require Import ZArith NArith Wf_nat.
From S2P Require Import Prelude JsString JsValue Regex Catalog Protocol Display Envelope.

Abbreviation promise := nat (only parsing).

Inductive effect : Type :=
  | Write (line : jstr)
  | Resolve (p : promise) (response : json)
  | Reject (p : promise) (error : Error)
  | OnRecovery (recovery : json)
  | OnEvent (event : json)
  | OnDegraded (error : Error)
  | Destroy
  | EndSocket
  | Uncaught (error : Error).

Record Transport : Type := {
  actorID : json;
  pending : list promise;
  buffer : jstr;
  closed : bool;
}.

Definition newTransport (actor : json) : Transport :=
  {| actorID := actor; pending := []; buffer := []; closed := false |}.

Definition setBuffer (b : jstr) (t : Transport) : Transport :=
  {| actorID := actorID t; pending := pending t; buffer := b; closed := closed t |}.

Definition newline : N := 10.

(** A JSON object with literal keys. *)
Definition jobj (fields : list (string * json)) : json :=
  JObj (map (λ kv, (js kv.1, kv.2)) fields).

(** [`${JSON.stringify(v)}\n`]. *)
Definition frame_line (v : json) : jstr := stringify v ++ [newline].

(** ** Outgoing frames *)

(** [rpc(request)] with the promise it returns; a closed transport rejects at once. *)
Definition rpc (p : promise) (request : json) (t : Transport) : Transport * list effect :=
  if closed t then (t, [Reject p (mkError (js "local transport is closed"))])
  else ({| actorID := actorID t; pending := pending t ++ [p]; buffer := buffer t;
           closed := closed t |},
        [Write (frame_line (jobj [("type", JStr (js "rpc")); ("request", request)]%string))]).

Definition subscribe (afterSequence : Z) (t : Transport) : Transport * list effect :=
  (t, [Write (frame_line (jobj [("type", JStr (js "subscribe"));
                                ("after_sequence", JNum (num_of_Z afterSequence))]%string))]).

Definition acknowledge (clientID : jstr) (sequence : Z) (t : Transport)
    : Transport * list effect :=
  (t, [Write (frame_line (jobj [("type", JStr (js "ack")); ("client_id", JStr clientID);
                                ("sequence", JNum (num_of_Z sequence))]%string))]).

(** ** Closing and failing *)

(** [rejectPending(error)]: the settled promises, in order. *)
Definition rejectPending (error : Error) (t : Transport) : list effect :=
  map (λ p, Reject p error) (pending t).

Definition shut (t : Transport) : Transport :=
  {| actorID := actorID t; pending := []; buffer := buffer t; closed := true |}.

Definition close (t : Transport) : Transport * list effect :=
  (shut t, EndSocket :: rejectPending (mkError (js "local transport closed")) t).

Definition fail (error : Error) (t : Transport) : Transport * list effect :=
  if closed t then (t, [])
  else (shut t, Destroy :: rejectPending error t ++ [OnDegraded error]).

(** The socket's 'error' and 'close' listeners. *)
Definition onSocketError (error : Error) (t : Transport) := fail error t.
Definition onSocketClose (t : Transport) : Transport * list effect :=
  if closed t then (t, []) else fail (mkError (js "local control plane disconnected")) t.

(** ** Incoming frames *)

Section Incoming.
Context `{Platform}.
Variable JSON_parse : jstr → option json.

(** [new Error(frame.error?.message ?? fallback)]. *)
Definition frameError (frame : json) (fallback : string) : Error :=
  match getO "message" (get "error" frame) with
  | None | Some JNull => mkError (js fallback)
  | Some m => mkError (toStr m)
  end.

(** [acceptFrame] once the line is parsed.  Reading a property of [null] throws; the
    exception is not caught. *)
Definition handleFrame (frame : json) (t : Transport) : Error + (Transport * list effect) :=
  if match frame with JNull => true | _ => false end then inl (TypeError "null frame") else
  let type := get "type" frame in
  if negb (isLit PROTOCOL_VERSION (get "protocol_version" frame)) then
    inr (fail (mkError (js "local control-plane protocol mismatch")) t)
  else
  match isLit "rpc" type, get "response" frame with
  | true, Some response =>
      if isResponseEnvelope response then
        match pending t with
        | [] => inr (fail (mkError (js "unsolicited local RPC response")) t)
        | p :: rest =>
            inr ({| actorID := actorID t; pending := rest; buffer := buffer t;
                    closed := closed t |}, [Resolve p response])
        end
      else inr (fail (mkError (js "invalid local RPC response")) t)
  | _, _ =>
  match isLit "recovery" type, get "recovery" frame with
  | true, Some recovery => inr (t, [OnRecovery recovery])
  | _, _ =>
  match isLit "event" type, get "event" frame with
  | true, Some event =>
      if isEventEnvelope event then inr (t, [OnEvent event])
      else inr (fail (mkError (js "invalid local event frame")) t)
  | _, _ =>
      if isLit "ack" type then inr (t, [])
      else if isLit "error" type then inr (fail (frameError frame "local control-plane error") t)
      else inr (fail (mkError (js "incomplete local control-plane frame")) t)
  end end end.

Definition acceptFrame (line : jstr) (t : Transport) : Error + (Transport * list effect) :=
  match JSON_parse line with
  | None => inr (fail (mkError (js "malformed local control-plane frame")) t)
  | Some frame => handleFrame frame t
  end.

(** The loop of [accept]: takes complete lines off the buffer.  Each iteration removes
    at least the newline, so the length of the buffer bounds the iterations. *)
Fixpoint drain (fuel : nat) (t : Transport) : Transport * list effect :=
  match fuel with
  | O => (t, [])
  | S fuel =>
      match indexOf newline (buffer t) with
      | None => (t, [])
      | Some i =>
          let line := take i (buffer t) in
          let t := setBuffer (drop (S i) (buffer t)) t in
          if jeqb (trim line) [] then drain fuel t
          else
            match acceptFrame line t with
            | inl error => (t, [Uncaught error])
            | inr (t, out1) =>
                let '(t, out2) := drain fuel t in
                (t, out1 ++ out2)
            end
      end
  end.

Definition accept (chunk : jstr) (t : Transport) : Transport * list effect :=
  let t := setBuffer (buffer t ++ chunk) t in
  drain (S (length (buffer t))) t.

(** ** Connecting *)

(** The startup of [connect]: the ready frame is awaited on a private buffer. *)
Inductive Handshake : Type :=
  | Waiting (hbuffer : jstr)
  | Refused (error : Error)
  | Ready (t : Transport).

Definition hello (capability : jstr) : jstr := frame_line (jobj [("capability"%string, JStr capability)]).

(** The [ready] data listener; a refused startup has rejected its promise, and the
    listener stays installed (later data is read again, the promise is settled). *)
Definition onReadyData (chunk : jstr) (hbuffer : jstr) : Handshake * list effect :=
  let b := hbuffer ++ chunk in
  match indexOf newline b with
  | None => (Waiting b, [])
  | Some i =>
      let line := take i b in
      let trailing := drop (S i) b in
      match JSON_parse line with
      | None => (Refused (mkError (js "invalid local ready frame")), [])
      | Some JNull => (Waiting b, [Uncaught (TypeError "null frame")])
      | Some frame =>
          match isLit "ready" (get "type" frame) &&
                isLit PROTOCOL_VERSION (get "protocol_version" frame), get "actor_id" frame with
          | true, Some actor =>
              let t := newTransport actor in
              if jeqb trailing [] then (Ready t, [])
              else let '(t, out) := accept trailing t in (Ready t, out)
          | _, _ => (Refused (frameError frame "local capability rejected"), [])
          end
      end
  end.
End Incoming.
