(* ===== verification/LocalClientFacts.v ===== *)
(** * Lemmas on the local transport

    The receive loop as a function of the stream: what a frame does, fuel, chunks, and
    the frames a peer writes. *)
From stdpp Require Import base list strings sets.
From Stdlib Require Import ZArith NArith Wf_nat.
From S2P Require Import Prelude JsString JsValue Regex Catalog Protocol Display Envelope.
From S2P Require Import Events EventsFacts Store EventsProps LocalClient.

(** ** Serialised frames are not blank *)

Definition solid (s : jstr) : Prop := ∃ c s', s = c :: s' ∧ is_space c = false.

Lemma solid_app s t : solid s → solid (s ++ t).
Proof. intros (c & s' & -> & Hc). by exists c, (s' ++ t). Qed.

Lemma digit_not_space c : (48 <= c <= 57)%N → is_space c = false.
Proof.
  intros Hc.
  assert (c = 48 ∨ c = 49 ∨ c = 50 ∨ c = 51 ∨ c = 52 ∨ c = 53 ∨ c = 54 ∨ c = 55 ∨ c = 56 ∨ c = 57)%N
    as Hd by lia.
  by repeat destruct Hd as [->|Hd]; subst.
Qed.

Lemma digits_go_solid f n acc : (∃ c s, acc = c :: s ∧ (48 <= c <= 57)%N) ∨ 0 < f →
  ∃ c s, digits_go f n acc = c :: s ∧ (48 <= c <= 57)%N.
Proof.
  revert n acc; induction f as [|f IH]; intros n acc Hacc; simpl; [destruct Hacc; [done|lia]|].
  assert (∃ c s, (48 + n mod 10)%N :: acc = c :: s ∧ (48 <= c <= 57)%N) as Hd.
  { eexists _, _. split; [done|]. pose proof (N.mod_lt n 10 ltac:(lia)).
    pose proof (N.le_add_r 48 (n mod 10)). lia. }
  case_match; [done|]. apply IH. by left.
Qed.

Lemma digits_head n : ∃ c s, digits n = c :: s ∧ (48 <= c <= 57)%N.
Proof. apply digits_go_solid. right. lia. Qed.

Lemma num_toString_solid x : solid (num_toString x).
Proof.
  destruct x as [m e|[]]; [|by (eexists _, _; split; vm_compute; reflexivity)..].
  unfold num_toString. case_match; [by eexists _, _; split; vm_compute; reflexivity|].
  destruct (m <? 0)%Z; [by eexists _, _; split; [reflexivity|reflexivity]|].
  destruct (digits_head (Z.to_N (Z.abs m))) as (c & s & -> & Hc%digit_not_space).
  cbn [app]. set (n := (_ + e)%Z).
  destruct ((_ <=? n)%Z && _); [by eexists _, _|].
  destruct ((0 <? n)%Z && _) eqn:Hn.
  { bools. destruct (Z.to_nat n) eqn:?; [lia|]. by eexists _, _. }
  destruct ((-6 <? n)%Z && _); [by eexists _, _; split; [reflexivity|reflexivity]|].
  destruct s; by eexists _, _.
Qed.

(** A serialised value starts with a unit that is not white space. *)
Lemma stringify_solid v : solid (stringify v).
Proof.
  destruct v as [|[]|[m e|]|s|l|o]; try (by eexists _, _; split; [reflexivity|reflexivity]).
  apply (num_toString_solid (NFin m e)).
Qed.

Lemma trimStart_solid s : solid s → trimStart s = s.
Proof. intros (c & s' & -> & Hc). simpl. by rewrite Hc. Qed.

Lemma trimStart_app_solid s c t : is_space c = false → trimStart (s ++ c :: t) ≠ [].
Proof.
  intros Hc. induction s as [|x s IH]; simpl; [by rewrite Hc|]. by destruct (is_space x).
Qed.

Lemma trim_solid s : solid s → trim s ≠ [].
Proof.
  intros Hs. unfold trim. rewrite (trimStart_solid s Hs).
  destruct Hs as (c & s' & -> & Hc). rewrite reverse_cons. intros He.
  apply (f_equal reverse) in He. rewrite reverse_involutive in He.
  by eapply (trimStart_app_solid _ c []).
Qed.

(** ** The receive loop *)

Section Loop.
Context `{Platform}.
Variable JSON_parse : jstr → option json.
Abbreviation drain := (drain JSON_parse).
Abbreviation accept := (accept JSON_parse).
Abbreviation acceptFrame := (acceptFrame JSON_parse).

Lemma fail_buffer e t t' out : fail e t = (t', out) → buffer t' = buffer t.
Proof. unfold fail. destruct (closed t); by intros [= <- <-]. Qed.

(** A frame handler depends on the buffer in no way. *)
Lemma fail_setBuffer e b t :
  fail e (setBuffer b t) = (setBuffer b (fail e t).1, (fail e t).2).
Proof. unfold fail. simpl. by destruct (closed t). Qed.

Lemma setBuffer_twice b b' t : setBuffer b (setBuffer b' t) = setBuffer b t.
Proof. done. Qed.
Lemma setBuffer_same t : setBuffer (buffer t) t = t.
Proof. by destruct t. Qed.

(** What a parsed frame does: raise, fail the transport, run one callback (or none), or
    answer the oldest request. *)
Inductive frame_action (v : json) : Prop :=
  | act_raise e : (∀ t, handleFrame v t = inl e) → frame_action v
  | act_fail e : (∀ t, handleFrame v t = inr (fail e t)) → frame_action v
  | act_ack : (∀ t, handleFrame v t = inr (t, [])) → frame_action v
  | act_recovery r : (∀ t, handleFrame v t = inr (t, [OnRecovery r])) → frame_action v
  | act_event ev : isEventEnvelope ev = true → (∀ t, handleFrame v t = inr (t, [OnEvent ev])) → frame_action v
  | act_response r : isResponseEnvelope r = true →
      (∀ t, handleFrame v t =
        match pending t with
        | [] => inr (fail (mkError (js "unsolicited local RPC response")) t)
        | p :: rest =>
            inr ({| actorID := actorID t; pending := rest; buffer := buffer t;
                    closed := closed t |}, [Resolve p r])
        end) → frame_action v.

Ltac frame_eval :=
  intros t; unfold handleFrame;
  repeat match goal with H : ?l = _ |- context [?l] => rewrite H; cbn [negb] end; reflexivity.

Lemma handleFrame_action v : frame_action v.
Proof.
  destruct (match v with JNull => true | _ => false end) eqn:Hnull.
  { eapply act_raise. frame_eval. }
  destruct (isLit PROTOCOL_VERSION (get "protocol_version" v)) eqn:Hv.
  2:{ eapply act_fail. frame_eval. }
  destruct (isLit "rpc" (get "type" v)) eqn:Hrpc; destruct (get "response" v) as [r|] eqn:Hr;
  [destruct (isResponseEnvelope r) eqn:Hok;
    [eapply (act_response _ r Hok)|eapply act_fail]; frame_eval|..];
  (destruct (isLit "recovery" (get "type" v)) eqn:Hrec;
   destruct (get "recovery" v) as [rec|] eqn:Hre;
   [eapply act_recovery; frame_eval|..];
   (destruct (isLit "event" (get "type" v)) eqn:Hev; destruct (get "event" v) as [ev|] eqn:He;
    [destruct (isEventEnvelope ev) eqn:Hok;
      [eapply (act_event _ ev Hok)|eapply act_fail]; frame_eval|..];
    (destruct (isLit "ack" (get "type" v)) eqn:Hack;
      [eapply act_ack; frame_eval|];
     destruct (isLit "error" (get "type" v)) eqn:Herr;
      eapply act_fail; frame_eval))).
Qed.

(** *** Frame handlers and the buffer *)

Lemma frame_keeps_buffer v t t' out : handleFrame v t = inr (t', out) → buffer t' = buffer t.
Proof.
  destruct (handleFrame_action v) as [e Hf|e Hf|Hf|r Hf|ev _ Hf|r _ Hf];
    rewrite Hf; [done|..]; [|by intros [= <- <-]..|].
  - intros [= He]. by eapply fail_buffer.
  - destruct (pending t); [|by intros [= <- <-]].
    intros [= He]. by eapply fail_buffer.
Qed.

(** A handler depends on the buffer in no way. *)
Lemma handleFrame_setBuffer v b t :
  handleFrame v (setBuffer b t) =
  match handleFrame v t with
  | inl e => inl e
  | inr (t', out) => inr (setBuffer b t', out)
  end.
Proof.
  destruct (handleFrame_action v) as [e Hf|e Hf|Hf|r Hf|ev _ Hf|r _ Hf]; rewrite !Hf; [done|..];
    [|done..|]; cbn [pending setBuffer]; [|destruct (pending t); [|done]];
    rewrite fail_setBuffer; by destruct (fail _ t).
Qed.

Lemma acceptFrame_setBuffer line b t :
  acceptFrame line (setBuffer b t) =
  match acceptFrame line t with
  | inl e => inl e
  | inr (t', out) => inr (setBuffer b t', out)
  end.
Proof.
  unfold LocalClient.acceptFrame. destruct (JSON_parse line); [apply handleFrame_setBuffer|].
  rewrite fail_setBuffer. by destruct (fail _ t).
Qed.

Lemma acceptFrame_buffer line t t' out : acceptFrame line t = inr (t', out) → buffer t' = buffer t.
Proof.
  unfold LocalClient.acceptFrame. destruct (JSON_parse line); [apply frame_keeps_buffer|].
  intros [= He]. by eapply fail_buffer.
Qed.

(** *** Fuel *)

Lemma indexOf_lt c s i : indexOf c s = Some i → i < length s.
Proof.
  intros Hi. apply indexOf_Some in Hi as [Hs _].
  destruct (decide (i < length s)) as [|Hge]; [done|].
  rewrite take_ge in Hs by lia. apply (f_equal length) in Hs.
  rewrite length_app in Hs. simpl in Hs. lia.
Qed.

(** The buffer's length bounds the iterations: more fuel changes nothing. *)
Lemma drain_fuel f f' t :
  length (buffer t) < f → length (buffer t) < f' → drain f t = drain f' t.
Proof.
  revert f' t; induction f as [|f IH]; intros [|f'] t Hf Hf'; try lia. simpl.
  destruct (indexOf newline (buffer t)) as [i|] eqn:Hi; [|done].
  pose proof (indexOf_lt _ _ _ Hi) as Hlt.
  assert (length (buffer (setBuffer (drop (S i) (buffer t)) t)) < length (buffer t)) as Hd.
  { simpl. rewrite length_drop. lia. }
  destruct (jeqb _ _); [by apply IH; lia|].
  destruct (LocalClient.acceptFrame _ _ _) as [e|[t' out]] eqn:Ha; [done|].
  apply acceptFrame_buffer in Ha. rewrite (IH f' t'); [done|rewrite Ha; lia..].
Qed.

(** *** Chunks *)

Definition raises (out : list effect) : Prop := ∃ e, Uncaught e ∈ out.

Lemma raises_app a b : raises (a ++ b) ↔ raises a ∨ raises b.
Proof.
  unfold raises. setoid_rewrite elem_of_app. split.
  - intros (e & [He|He]); [left|right]; by exists e.
  - intros [[e He]|[e He]]; exists e; auto.
Qed.

Lemma indexOf_app c s s' i : indexOf c s = Some i → indexOf c (s ++ s') = Some i.
Proof.
  revert i; induction s as [|x s IH]; intros i; [done|]. simpl.
  destruct (x =? c)%N; [done|]. destruct (indexOf c s) as [j|]; simpl; [|done].
  intros [= <-]. by rewrite (IH j eq_refl).
Qed.

(** Bytes that arrive after the receive loop has stopped are read as if they had been
    there from the start, unless a frame raised; then the longer input raises too. *)
Lemma drain_app f f1 f2 t t1 out1 b :
  drain f t = (t1, out1) → length (buffer t) < f →
  length (buffer t) + length b < f1 → length (buffer t) + length b < f2 →
  raises out1 ∧ raises (drain f1 (setBuffer (buffer t ++ b) t)).2 ∨
  drain f1 (setBuffer (buffer t ++ b) t) =
    ((drain f2 (setBuffer (buffer t1 ++ b) t1)).1,
     out1 ++ (drain f2 (setBuffer (buffer t1 ++ b) t1)).2).
Proof.
  revert f1 t t1 out1; induction f as [|f IH]; intros f1 t t1 out1 Hdr Hf Hf1 Hf2; [lia|].
  simpl in Hdr. destruct (indexOf newline (buffer t)) as [i|] eqn:Hi.
  2:{ right. injection Hdr as <- <-. cbn [app].
      rewrite (drain_fuel f1 f2); [by destruct (drain f2 _)|simpl; rewrite length_app; lia..]. }
  pose proof (indexOf_lt _ _ _ Hi) as Hlt.
  destruct f1 as [|f1]; [lia|]. cbn [LocalClient.drain buffer setBuffer].
  rewrite (indexOf_app _ _ _ _ Hi), take_app_le, drop_app_le by lia.
  destruct (jeqb (trim (take i (buffer t))) []) eqn:Hblank.
  { specialize (IH f1 (setBuffer (drop (S i) (buffer t)) t) t1 out1 Hdr).
    cbn [buffer setBuffer] in IH. rewrite length_drop in IH. apply IH; lia. }
  rewrite setBuffer_twice, (acceptFrame_setBuffer _ (_ ++ b)).
  rewrite (acceptFrame_setBuffer _ (drop _ _)) in Hdr.
  destruct (LocalClient.acceptFrame _ _ t) as [e|[t' out]] eqn:Ha.
  { injection Hdr as <- <-. left. split; exists e; set_solver. }
  destruct (LocalClient.drain _ f _) as [t'' out'] eqn:Hdr'. injection Hdr as <- <-.
  specialize (IH f1 _ _ _ Hdr'). cbn [buffer setBuffer] in IH. rewrite length_drop in IH.
  rewrite setBuffer_twice in IH. destruct IH as [[[e He] [e' He']]| ->]; [lia..| |].
  - left. split; [exists e; set_solver|exists e'].
    destruct (LocalClient.drain _ f1 _). simpl in *. set_solver.
  - right. by rewrite app_assoc.
Qed.

Lemma drain_quiet f t t1 out1 :
  drain f t = (t1, out1) → length (buffer t) < f → raises out1 ∨ indexOf newline (buffer t1) = None.
Proof.
  revert t t1 out1; induction f as [|f IH]; intros t t1 out1 Hdr Hf; [lia|]. simpl in Hdr.
  destruct (indexOf newline (buffer t)) as [i|] eqn:Hi; [|right; by injection Hdr as <- <-].
  pose proof (indexOf_lt _ _ _ Hi) as Hlt.
  destruct (jeqb _ _); [eapply IH; [done|simpl; rewrite length_drop; lia]|].
  destruct (LocalClient.acceptFrame _ _ _) as [e|[t' out]] eqn:Ha.
  { left. injection Hdr as <- <-. exists e. set_solver. }
  destruct (LocalClient.drain _ f t') as [t'' out'] eqn:Hdr'. injection Hdr as <- <-.
  apply IH in Hdr' as [[e He]|Hq]; [left; exists e; set_solver|by right|].
  rewrite (acceptFrame_buffer _ _ _ _ Ha). simpl. rewrite length_drop. lia.
Qed.

(** A stream delivered in chunks. *)
Fixpoint feed (chunks : list jstr) (t : Transport) : Transport * list effect :=
  match chunks with
  | [] => (t, [])
  | c :: cs =>
      let '(t1, out1) := accept c t in
      let '(t2, out2) := feed cs t1 in (t2, out1 ++ out2)
  end.

Lemma accept_app c d t t1 out1 :
  accept c t = (t1, out1) →
  raises out1 ∧ raises (accept (c ++ d) t).2 ∨
  accept (c ++ d) t = ((accept d t1).1, out1 ++ (accept d t1).2).
Proof.
  unfold LocalClient.accept. intros Ha. cbn [buffer setBuffer] in *.
  set (f2 := S (length (buffer t ++ c ++ d) + length (buffer t1 ++ d))).
  pose proof (drain_app _ (S (length (buffer t ++ c ++ d))) f2 _ _ _ d Ha) as Happ.
  cbn [buffer setBuffer] in Happ. rewrite <- app_assoc, !setBuffer_twice in Happ.
  rewrite (drain_fuel (S (length (buffer t1 ++ d))) f2) by (cbn [buffer setBuffer]; lia).
  apply Happ; subst f2; rewrite ?length_app; lia.
Qed.

Lemma feed_concat chunks t :
  indexOf newline (buffer t) = None → ¬ raises (accept (concat chunks) t).2 →
  feed chunks t = accept (concat chunks) t.
Proof.
  revert t; induction chunks as [|c cs IH]; intros t Hq Hno.
  { simpl. unfold LocalClient.accept. rewrite app_nil_r, setBuffer_same. simpl. by rewrite Hq. }
  cbn [feed concat] in *. destruct (accept c t) as [t1 out1] eqn:Ha.
  destruct (accept_app c (concat cs) t t1 out1 Ha) as [[_ Hr]|Heq]; [done|].
  rewrite Heq in Hno |- *. cbn [snd] in Hno.
  unfold LocalClient.accept in Ha.
  pose proof (drain_quiet _ _ _ _ Ha ltac:(lia)) as Hq1. clear Ha. rewrite IH.
  - by destruct (accept (concat cs) t1).
  - destruct Hq1 as [Hr|]; [destruct Hno; apply raises_app; by left|done].
  - intros Hr. apply Hno, raises_app. by right.
Qed.

(** *** Frames written by a peer *)

(** The frames of a stream handled one after the other. *)
Fixpoint handleFrames (vs : list json) (t : Transport) : Transport * list effect :=
  match vs with
  | [] => (t, [])
  | v :: vs =>
      match handleFrame v t with
      | inl e => (t, [Uncaught e])
      | inr (t1, out1) => let '(t2, out2) := handleFrames vs t1 in (t2, out1 ++ out2)
      end
  end.

Lemma indexOf_frame v s : indexOf newline (frame_line v ++ s) = Some (length (stringify v)).
Proof.
  unfold frame_line. pose proof (stringify_no_newline v) as Hn.
  induction (stringify v) as [|x l IH]; [done|]. simpl.
  apply not_elem_of_cons in Hn as [Hx Hl]. destruct (N.eqb_spec x newline) as [->|_]; [done|].
  by rewrite (IH Hl).
Qed.

Lemma take_frame v s : take (length (stringify v)) (frame_line v ++ s) = stringify v.
Proof. unfold frame_line. by rewrite <- app_assoc, take_app_length. Qed.

Lemma drop_frame v s : drop (S (length (stringify v))) (frame_line v ++ s) = s.
Proof.
  unfold frame_line. rewrite <- app_assoc, drop_app_ge, Nat.sub_succ_l, Nat.sub_diag by lia. done.
Qed.

Lemma handleFrames_buffer vs t : buffer (handleFrames vs t).1 = buffer t.
Proof.
  revert t; induction vs as [|v vs IH]; intros t; [done|]. cbn [handleFrames].
  destruct (handleFrame v t) as [e|[t' out]] eqn:Hh; [done|].
  specialize (IH t'). destruct (handleFrames vs t'). simpl in *.
  by rewrite IH, (frame_keeps_buffer _ _ _ _ Hh).
Qed.

Lemma handleFrame_total v t : v ≠ JNull → ∃ r, handleFrame v t = inr r.
Proof.
  intros Hv. unfold handleFrame.
  replace (match v with JNull => true | _ => false end) with false by by destruct v.
  repeat (match goal with |- ∃ r, inr ?x = inr r => by exists x
    | |- context [match ?b with _ => _ end] => destruct b end).
Qed.

Lemma fail_quiet e t : ¬ raises (fail e t).2.
Proof. intros [e' He]. unfold fail, rejectPending in He. destruct (closed t); set_solver. Qed.

Lemma handleFrame_quiet v t t' out : handleFrame v t = inr (t', out) → ¬ raises out.
Proof.
  assert (∀ e, inr (fail e t) = inr (A := Error) (t', out) → ¬ raises out) as Hfail.
  { intros e [= Hf]. pose proof (fail_quiet e t) as Hq. by rewrite Hf in Hq. }
  destruct (handleFrame_action v) as [e' Hf'|e' Hf'|Hf'|r Hf'|ev _ Hf'|r _ Hf'];
    rewrite Hf'; [done|eauto| | | |]; unfold raises;
    [by intros [= <- <-] (e & He); set_solver..|].
  destruct (pending t); [eauto|]. intros [= <- <-] (e & He); set_solver.
Qed.

Definition transmissible (v : json) : Prop := v ≠ JNull ∧ JSON_parse (stringify v) = Some v.

Lemma drain_frames vs f t :
  buffer t = [] → Forall transmissible vs → length (concat (map frame_line vs)) < f →
  drain f (setBuffer (concat (map frame_line vs)) t) = handleFrames vs t ∧
  ¬ raises (handleFrames vs t).2.
Proof.
  revert f t; induction vs as [|v vs IH]; intros [|f] t Hb Hvs Hf; try lia.
  { simpl. rewrite <- Hb, setBuffer_same. split; [done|]. intros [e He]. set_solver. }
  apply Forall_cons in Hvs as [[Hnull Hparse] Hvs]. cbn [map concat] in *.
  cbn [LocalClient.drain buffer setBuffer]. rewrite indexOf_frame.
  rewrite take_frame, drop_frame.
  destruct (jeqb (trim (stringify v)) []) eqn:He.
  { apply jeqb_eq in He. by apply (trim_solid _ (stringify_solid v)) in He. }
  unfold LocalClient.acceptFrame. rewrite Hparse, setBuffer_twice, handleFrame_setBuffer.
  destruct (handleFrame_total v t Hnull) as [[t' out] Hh]. cbn [handleFrames]. rewrite Hh.
  destruct (IH f t') as [-> Hno]; [by rewrite (frame_keeps_buffer _ _ _ _ Hh)|done| |].
  { rewrite length_app in Hf. unfold frame_line at 1 in Hf. rewrite length_app in Hf.
    simpl in Hf. lia. }
  split; [done|]. destruct (handleFrames vs t') as [t2 out2]. cbn [snd] in *.
  rewrite raises_app. intros [Hr|Hr]; [by apply (handleFrame_quiet _ _ _ _ Hh)|done].
Qed.

Lemma accept_frames vs t :
  buffer t = [] → Forall transmissible vs →
  accept (concat (map frame_line vs)) t = handleFrames vs t ∧ ¬ raises (handleFrames vs t).2.
Proof.
  intros Hb Hvs. unfold LocalClient.accept. rewrite Hb. cbn [app buffer setBuffer].
  apply drain_frames; [done..|lia].
Qed.

Lemma feed_frames chunks vs t :
  buffer t = [] → Forall transmissible vs → concat chunks = concat (map frame_line vs) →
  feed chunks t = handleFrames vs t.
Proof.
  intros Hb Hvs Hc. destruct (accept_frames vs t Hb Hvs) as [Ha Hno].
  rewrite feed_concat; [by rewrite Hc|by rewrite Hb|by rewrite Hc, Ha].
Qed.
End Loop.
