(* ===== verification/LocalClientProps.v ===== *)
(** * Properties of the local transport

    Framing is independent of how the stream is cut into chunks, every request is
    settled exactly once and in order, and a failure is reported once. *)
From stdpp Require Import base list strings.
From Stdlib Require Import ZArith NArith.
From S2P Require Import Prelude JsString JsValue Regex Catalog Protocol Display Envelope.
From S2P Require Import EventsProps LocalClient LocalClientFacts.

(** ** Frames of the server *)

Definition server_frame (type key : string) (v : json) : json :=
  jobj [("protocol_version", JStr (js PROTOCOL_VERSION)); ("type", JStr (js type)); (key, v)]%string.

(** ** A transport over time *)

(** What can happen to a transport, and a run of such operations. *)
Inductive op : Type :=
  | OpRpc (p : promise) (request : json)
  | OpSubscribe (afterSequence : Z)
  | OpAcknowledge (clientID : jstr) (sequence : Z)
  | OpData (chunk : jstr)
  | OpError (error : Error)
  | OpSocketClose
  | OpClose.

(** A [JSON.parse] that knows some values by their serialisation. *)
Definition parse_of (vs : list json) (s : jstr) : option json :=
  head (filter (λ v, stringify v = s) vs).

Section Transport.
Context `{Platform}.
Variable JSON_parse : jstr → option json.

Definition perform (o : op) (t : Transport) : Transport * list effect :=
  match o with
  | OpRpc p request => rpc p request t
  | OpSubscribe n => subscribe n t
  | OpAcknowledge c n => acknowledge c n t
  | OpData chunk => accept JSON_parse chunk t
  | OpError e => onSocketError e t
  | OpSocketClose => onSocketClose t
  | OpClose => close t
  end.

Fixpoint run (ops : list op) (t : Transport) : Transport * list effect :=
  match ops with
  | [] => (t, [])
  | o :: ops =>
      let '(t1, out1) := perform o t in
      let '(t2, out2) := run ops t1 in (t2, out1 ++ out2)
  end.

Definition issued (ops : list op) : list promise :=
  omap (λ o, match o with OpRpc p _ => Some p | _ => None end) ops.

Definition settles (e : effect) : option promise :=
  match e with Resolve p _ | Reject p _ => Some p | _ => None end.
Definition settled (out : list effect) : list promise := omap settles out.

Definition is_degraded (e : effect) : bool := match e with OnDegraded _ => true | _ => false end.
Definition degraded_count (out : list effect) : nat := length (filter is_degraded out).

Definition resolutions (out : list effect) : list (promise * json) :=
  omap (λ e, match e with Resolve p r => Some (p, r) | _ => None end) out.

Lemma settled_app a b : settled (a ++ b) = settled a ++ settled b.
Proof. apply omap_app. Qed.
Lemma degraded_app a b : degraded_count (a ++ b) = degraded_count a + degraded_count b.
Proof. unfold degraded_count. by rewrite filter_app, length_app. Qed.
Lemma settled_rejects e ps : settled (map (λ p, Reject p e) ps) = ps.
Proof. unfold settled. induction ps as [|p ps IH]; [done|]. cbn. by rewrite IH. Qed.
Lemma degraded_rejects e ps : degraded_count (map (λ p, Reject p e) ps) = 0.
Proof. unfold degraded_count. by induction ps. Qed.
Lemma resolutions_app a b : resolutions (a ++ b) = resolutions a ++ resolutions b.
Proof. apply omap_app. Qed.
Lemma resolutions_rejects e ps : resolutions (map (λ p, Reject p e) ps) = [].
Proof. unfold resolutions. by induction ps. Qed.

(** The bookkeeping of one step: what it settles is taken off the front of the pending
    requests, it reports a failure at most once, only when it closes the transport, and a
    closed transport holds no pending request. *)
Definition quiet (t : Transport) : Prop := closed t = true → pending t = [].

Record accounted (t t' : Transport) (out : list effect) (new : list promise) (self : bool) : Prop := {
  acc_settled : settled out ++ pending t' = pending t ++ new;
  acc_quiet : quiet t';
  acc_closed : closed t = true → closed t' = true ∧ degraded_count out = 0 ∧ resolutions out = [];
  acc_once : degraded_count out ≤ 1;
  acc_degraded : degraded_count out = 1 → closed t' = true;
  acc_reported : self = false → closed t = false → closed t' = true → degraded_count out = 1;
}.

Ltac account := cbn; rewrite ?app_nil_r; intros; split_and?; (done || lia || congruence || auto).

Lemma accounted_nil t self : quiet t → accounted t t [] [] self.
Proof. intros Hq. split; account. Qed.

Lemma accounted_trans t1 t2 t3 out1 out2 n1 n2 s1 s2 :
  accounted t1 t2 out1 n1 s1 → accounted t2 t3 out2 n2 s2 →
  accounted t1 t3 (out1 ++ out2) (n1 ++ n2) (s1 || s2).
Proof.
  intros [Hs1 Hq1 Hc1 Hd1 Hdc1 Hr1] [Hs2 Hq2 Hc2 Hd2 Hdc2 Hr2].
  split; rewrite ?settled_app, ?degraded_app, ?resolutions_app.
  - by rewrite <- app_assoc, Hs2, app_assoc, Hs1, app_assoc.
  - done.
  - intros (Ht2 & -> & ->)%Hc1. destruct (Hc2 Ht2) as (? & -> & ->). done.
  - destruct (decide (degraded_count out1 = 1)) as [He|]; [|lia].
    destruct (Hc2 (Hdc1 He)) as (_ & -> & _). lia.
  - intros Hd. destruct (decide (degraded_count out1 = 1)) as [He|].
    + by destruct (Hc2 (Hdc1 He)).
    + apply Hdc2. lia.
  - intros [-> ->]%orb_false_iff Hc Hc3. destruct (closed t2) eqn:Ht2.
    + destruct (Hc2 eq_refl) as (_ & -> & _). rewrite Hr1; auto.
    + rewrite (Hr2 eq_refl eq_refl Hc3).
      destruct (decide (degraded_count out1 = 1)) as [He|]; [|lia]. by specialize (Hdc1 He).
Qed.

Lemma fail_accounted e t self : quiet t → accounted t (fail e t).1 (fail e t).2 [] self.
Proof.
  intros Hq. unfold fail. destruct (closed t) eqn:Hc; [by apply accounted_nil|].
  unfold rejectPending. cbn [fst snd]. change (Destroy :: ?l) with ([Destroy] ++ l).
  split; rewrite ?settled_app, ?degraded_app, ?settled_rejects, ?degraded_rejects; account.
Qed.

Lemma acceptFrame_accounted line t t' out :
  quiet t → acceptFrame JSON_parse line t = inr (t', out) → accounted t t' out [] false.
Proof.
  intros Hq. unfold acceptFrame.
  assert (∀ e, inr (A := Error) (fail e t) = inr (t', out) → accounted t t' out [] false) as Hfail.
  { intros e [= Hf]. pose proof (fail_accounted e t false Hq) as Ha. by rewrite Hf in Ha. }
  destruct (JSON_parse line) as [v|]; [|by apply Hfail].
  destruct (handleFrame_action v) as [e Hf|e Hf|Hf|r Hf|ev _ Hf|r _ Hf]; rewrite Hf; [done|eauto|..];
    [intros [= <- <-]; split; account..|].
  destruct (pending t) as [|p rest] eqn:Hp; [eauto|]. intros [= <- <-].
  destruct (closed t) eqn:Hc; [by rewrite (Hq Hc) in Hp|].
  split; unfold quiet; cbn; rewrite ?Hp, ?Hc; account.
Qed.

Lemma drain_accounted f t :
  quiet t → accounted t (drain JSON_parse f t).1 (drain JSON_parse f t).2 [] false.
Proof.
  revert t; induction f as [|f IH]; intros t Hq; [by apply accounted_nil|]. simpl.
  destruct (indexOf newline (buffer t)) as [i|]; [|by apply accounted_nil].
  set (t0 := setBuffer (drop (S i) (buffer t)) t). assert (quiet t0) as Hq0 by done.
  assert (∀ t' out, accounted t0 t' out [] false → accounted t t' out [] false) as Hbuf
    by (intros t' out []; by split).
  destruct (jeqb _ _); [by apply Hbuf, IH|]. apply Hbuf.
  destruct (acceptFrame _ _ _) as [e|[t' out]] eqn:Ha.
  { split; account. }
  apply acceptFrame_accounted in Ha; [|done].
  pose proof (IH t' (acc_quiet _ _ _ _ _ Ha)) as Ht. destruct (drain JSON_parse f t') as [t'' out'].
  exact (accounted_trans _ _ _ _ _ _ _ _ _ Ha Ht).
Qed.

Definition is_close (o : op) : bool := match o with OpClose => true | _ => false end.

Lemma write_accounted t l self : quiet t → accounted t t [Write l] [] self.
Proof. intros Hq. split; account. Qed.

Lemma rpc_accounted p r t self : quiet t → accounted t (rpc p r t).1 (rpc p r t).2 [p] self.
Proof.
  intros Hq. unfold rpc. destruct (closed t) eqn:Hc; cbn [fst snd].
  - generalize (mkError (js "local transport is closed")). intros e. pose proof (Hq Hc) as Hp.
    split; unfold quiet; cbn; rewrite ?Hp; account.
  - generalize (frame_line (jobj [("type", JStr (js "rpc")); ("request", r)]%string)). intros l.
    split; unfold quiet; cbn; account.
Qed.

Lemma perform_accounted o t :
  quiet t → accounted t (perform o t).1 (perform o t).2 (issued [o]) (is_close o).
Proof.
  intros Hq. destruct o as [p r|n|c n|chunk|e| |]; cbn [perform is_close issued omap list_omap].
  - by apply rpc_accounted.
  - by apply write_accounted.
  - by apply write_accounted.
  - unfold accept. destruct (drain_accounted (S (length (buffer (setBuffer (buffer t ++ chunk) t))))
      (setBuffer (buffer t ++ chunk) t) Hq) as []. by split.
  - by apply fail_accounted.
  - unfold onSocketClose. destruct (closed t) eqn:Hc; [by apply accounted_nil|].
    by apply fail_accounted.
  - unfold close, rejectPending. cbn [fst snd]. change (EndSocket :: ?l) with ([EndSocket] ++ l).
    split; rewrite ?settled_app, ?degraded_app, ?resolutions_app, ?settled_rejects,
      ?degraded_rejects, ?resolutions_rejects; account.
Qed.

Lemma run_accounted ops t :
  quiet t → accounted t (run ops t).1 (run ops t).2 (issued ops) (existsb is_close ops).
Proof.
  revert t; induction ops as [|o ops IH]; intros t Hq; [by apply accounted_nil|].
  cbn [run existsb]. pose proof (perform_accounted o t Hq) as Ho.
  change (issued (o :: ops)) with (issued ([o] ++ ops)). unfold issued. rewrite omap_app.
  destruct (perform o t) as [t1 out1]. pose proof (IH t1 (acc_quiet _ _ _ _ _ Ho)) as Hr.
  destruct (run ops t1) as [t2 out2]. exact (accounted_trans _ _ _ _ _ _ _ _ _ Ho Hr).
Qed.

(** ** Response frames *)

Definition response_frame (r : json) : json := server_frame "rpc" "response" r.
Definition event_frame (e : json) : json := server_frame "event" "event" e.

Lemma handleFrame_event e t :
  isEventEnvelope e = true → handleFrame (event_frame e) t = inr (t, [OnEvent e]).
Proof.
  intros He. unfold handleFrame.
  assert (get "protocol_version" (event_frame e) = Some (JStr (js PROTOCOL_VERSION))) as -> by reflexivity.
  assert (get "type" (event_frame e) = Some (JStr (js "event"))) as -> by reflexivity.
  assert (get "event" (event_frame e) = Some e) as -> by reflexivity.
  cbn [event_frame server_frame jobj isLit]. rewrite jeqb_refl. cbn [negb].
  assert (jeqb (js "event") (js "rpc") = false) as -> by reflexivity.
  assert (jeqb (js "event") (js "recovery") = false) as -> by reflexivity.
  rewrite jeqb_refl. by rewrite He.
Qed.

Lemma handleFrame_response r t p rest :
  isResponseEnvelope r = true → pending t = p :: rest →
  handleFrame (response_frame r) t =
    inr ({| actorID := actorID t; pending := rest; buffer := buffer t; closed := closed t |},
         [Resolve p r]).
Proof.
  intros Hr Hp. unfold handleFrame.
  assert (get "protocol_version" (response_frame r) = Some (JStr (js PROTOCOL_VERSION))) as -> by reflexivity.
  assert (get "type" (response_frame r) = Some (JStr (js "rpc"))) as -> by reflexivity.
  assert (get "response" (response_frame r) = Some r) as -> by reflexivity.
  cbn [response_frame server_frame jobj isLit]. rewrite !jeqb_refl. cbn [negb].
  by rewrite Hr, Hp.
Qed.

Lemma handleFrames_responses ps rs rest t :
  Forall (λ r, isResponseEnvelope r = true) rs → length ps = length rs → pending t = ps ++ rest →
  handleFrames (map response_frame rs) t =
    ({| actorID := actorID t; pending := rest; buffer := buffer t; closed := closed t |},
     zip_with Resolve ps rs).
Proof.
  revert rs t; induction ps as [|p ps IH]; intros [|r rs] t Hrs Hlen Hp; try done.
  { cbn in *. subst. by destruct t. }
  apply Forall_cons in Hrs as [Hr Hrs]. cbn [map handleFrames zip_with].
  rewrite (handleFrame_response r t p (ps ++ rest) Hr Hp).
  erewrite IH; [|done|by simpl in Hlen; lia|done]. done.
Qed.

Lemma handleFrames_events es t :
  Forall (λ e, isEventEnvelope e = true) es →
  handleFrames (map event_frame es) t = (t, map OnEvent es).
Proof.
  revert t; induction es as [|e es IH]; intros t Hes; [done|].
  apply Forall_cons in Hes as [He Hes]. cbn [map handleFrames].
  by rewrite (handleFrame_event e t He), (IH t Hes).
Qed.

(** ** Claims *)

(** Framing round trip: whatever chunks the operating system delivers the bytes of
    a sequence of serialised frames in, an idle transport handles exactly those frames,
    once each and in order, and keeps no byte. *)
Theorem framed_stream_is_received (chunks : list jstr) (vs : list json) (t : Transport) :
  buffer t = [] → Forall (transmissible JSON_parse) vs →
  concat chunks = concat (map frame_line vs) →
  feed JSON_parse chunks t = handleFrames vs t ∧ buffer (feed JSON_parse chunks t).1 = [].
Proof.
  intros Hb Hvs Hc. rewrite (feed_frames JSON_parse chunks vs t Hb Hvs Hc).
  by rewrite handleFrames_buffer.
Qed.

(** Pipelined requests: when the server answers the oldest pending requests in
    order, in any chunking, each response resolves its own request, nothing else happens,
    and the later requests stay pending. *)
Theorem pipelined_responses_resolve_their_requests
    (chunks : list jstr) (ps rest : list promise) (rs : list json) (t : Transport) :
  buffer t = [] → pending t = ps ++ rest → length ps = length rs →
  Forall (λ r, isResponseEnvelope r = true) rs →
  Forall (transmissible JSON_parse) (map response_frame rs) →
  concat chunks = concat (map frame_line (map response_frame rs)) →
  (feed JSON_parse chunks t).2 = zip_with Resolve ps rs ∧
  pending (feed JSON_parse chunks t).1 = rest ∧
  closed (feed JSON_parse chunks t).1 = closed t.
Proof.
  intros Hb Hp Hlen Hrs Htr Hc. rewrite (feed_frames JSON_parse chunks _ t Hb Htr Hc).
  by rewrite (handleFrames_responses ps rs rest t).
Qed.

(** [C5] Exactly-once settlement: over any run of a fresh transport (requests, socket
    data, errors, closing, in any order) the requests settled so far followed by those
    still pending are the requests issued, in the order they were issued; and a closed
    transport leaves none pending, so every request issued before or after it closed is
    settled. *)
Theorem requests_settle_once_in_order (actor : json) (ops : list op) :
  let '(t, out) := run ops (newTransport actor) in
  settled out ++ pending t = issued ops ∧ (closed t = true → settled out = issued ops).
Proof.
  pose proof (run_accounted ops (newTransport actor) ltac:(done)) as [Hs Hq _ _ _ _].
  destruct (run ops (newTransport actor)) as [t out]. cbn [fst snd] in *. simpl app in Hs.
  split; [done|]. intros Hc. by rewrite (Hq Hc), app_nil_r in Hs.
Qed.

(** Failure reporting: over any run of a fresh transport the [degraded] callback
    runs at most once, and only if the transport is closed at the end; when the owner did
    not call [close] it runs exactly once if the transport is closed. *)
Theorem degradation_is_reported_once (actor : json) (ops : list op) :
  let '(t, out) := run ops (newTransport actor) in
  degraded_count out ≤ 1 ∧ (degraded_count out = 1 → closed t = true) ∧
  (OpClose ∉ ops → closed t = true → degraded_count out = 1).
Proof.
  pose proof (run_accounted ops (newTransport actor) ltac:(done)) as [_ _ _ Ho Hd Hr].
  destruct (run ops (newTransport actor)) as [t out]. cbn [fst snd] in *.
  split_and!; [done|done|]. intros Hn. apply Hr; [|done].
  apply not_true_is_false. intros (o & Ho' & Hc)%existsb_exists.
  destruct o; try done. apply Hn. by apply list_elem_of_In.
Qed.

(** Closing is final: a transport that is closed never resolves a request, never
    reports a failure, and stays closed, whatever arrives afterwards. *)
Theorem closed_transport_stays_silent (ops1 ops2 : list op) (actor : json) :
  closed (run ops1 (newTransport actor)).1 = true →
  let '(t, out) := run ops2 (run ops1 (newTransport actor)).1 in
  closed t = true ∧ resolutions out = [] ∧ degraded_count out = 0.
Proof.
  pose proof (run_accounted ops1 (newTransport actor) ltac:(done)) as [_ Hq _ _ _ _].
  intros Hc. pose proof (run_accounted ops2 _ Hq) as [_ _ Hcl _ _ _]. specialize (Hcl Hc).
  destruct (run ops2 _) as [t out]. cbn [fst snd] in *. naive_solver.
Qed.

(** The handshake loses no byte: when the ready frame arrives together with the
    beginning of the event stream, the events behind it in the same chunk are delivered,
    in order, by the new transport. *)
Theorem handshake_delivers_trailing_events (actor : json) (es : list json) (hb c : jstr) :
  hb ++ c = frame_line (server_frame "ready" "actor_id" actor) →
  transmissible JSON_parse (server_frame "ready" "actor_id" actor) →
  Forall (λ e, isEventEnvelope e = true) es →
  Forall (transmissible JSON_parse) (map event_frame es) →
  onReadyData JSON_parse (c ++ concat (map frame_line (map event_frame es))) hb =
    (Ready (newTransport actor), map OnEvent es).
Proof.
  intros Hready [_ Hparse] Hes Htr. unfold onReadyData.
  rewrite app_assoc, Hready, indexOf_frame, take_frame, drop_frame, Hparse.
  cbn [server_frame jobj map].
  repeat match goal with
  | |- context [isLit ?s ?x] => replace (isLit s x) with true by reflexivity
  | |- context [get "actor_id" ?x] => replace (get "actor_id" x) with (Some actor) by reflexivity
  end.
  cbn [andb].
  destruct es as [|e es]; [done|].
  destruct (jeqb _ []) eqn:Hb.
  { apply jeqb_eq in Hb. cbn [map concat] in Hb. apply app_eq_nil in Hb as [Hb _].
    unfold frame_line in Hb. by apply app_eq_nil in Hb as [_ Hb]. }
  destruct (accept_frames JSON_parse (map event_frame (e :: es)) (newTransport actor) eq_refl Htr)
    as [-> _].
  by rewrite handleFrames_events.
Qed.

End Transport.

(** ** Witnesses *)

Definition sample_response (id : string) : json :=
  jobj [("protocol_version", JStr (js PROTOCOL_VERSION)); ("request_id", JStr (uuid id));
        ("revision", JNum (NFin 4 0)); ("result", JBool true)]%string.

Definition sample_responses : list json := [sample_response "1"; sample_response "2"].
Definition sample_frames : list json := map response_frame sample_responses.
Definition ready_frame : json := server_frame "ready" "actor_id" (JStr (uuid "a")).
Definition sample_event : json :=
  jobj [("protocol_version", JStr (js PROTOCOL_VERSION)); ("sequence", JNum (NFin 1 0));
        ("event_id", JStr (uuid "e")); ("type", JStr (js "turn.started"));
        ("occurred_at", JStr (js "2025-01-01T00:00:00Z"));
        ("correlation", jobj [("actor_id", JStr (uuid "a"))]%string);
        ("payload", jobj [])]%string.
Definition sample_parse : jstr → option json :=
  parse_of (ready_frame :: event_frame sample_event :: sample_frames).

(** The stream cut after its 40th unit. *)
Definition cut (s : jstr) : list jstr := [take 40 s; drop 40 s].
Definition sample_stream : jstr := concat (map frame_line sample_frames).
Definition waiting : Transport :=
  {| actorID := JNull; pending := [7; 8; 9]; buffer := []; closed := false |}.

#[local] Existing Instance test_platform.

Lemma sample_transmissible : Forall (transmissible sample_parse) sample_frames.
Proof. repeat constructor; (discriminate || (vm_compute; reflexivity)). Qed.

Lemma cut_concat s : concat (cut s) = s.
Proof. cbn. rewrite app_nil_r. apply take_drop. Qed.

Lemma framed_stream_is_received_witness :
  feed sample_parse (cut sample_stream) waiting = handleFrames sample_frames waiting ∧
  buffer (feed sample_parse (cut sample_stream) waiting).1 = [].
Proof.
  apply (framed_stream_is_received sample_parse (cut sample_stream) sample_frames waiting).
  - reflexivity.
  - apply sample_transmissible.
  - apply cut_concat.
Defined.

Lemma pipelined_responses_resolve_their_requests_witness :
  (feed sample_parse (cut sample_stream) waiting).2 = zip_with Resolve [7; 8] sample_responses ∧
  pending (feed sample_parse (cut sample_stream) waiting).1 = [9] ∧
  closed (feed sample_parse (cut sample_stream) waiting).1 = false.
Proof.
  apply (pipelined_responses_resolve_their_requests sample_parse (cut sample_stream) [7; 8] [9]
           sample_responses waiting).
  - reflexivity.
  - reflexivity.
  - reflexivity.
  - repeat constructor.
  - apply sample_transmissible.
  - apply cut_concat.
Defined.

Lemma closed_transport_stays_silent_witness :
  let '(t, out) := run sample_parse [OpRpc 3 JNull; OpData sample_stream]
                     (run sample_parse [OpRpc 1 JNull; OpSocketClose] (newTransport JNull)).1 in
  closed t = true ∧ resolutions out = [] ∧ degraded_count out = 0.
Proof.
  apply (closed_transport_stays_silent sample_parse [OpRpc 1 JNull; OpSocketClose]).
  reflexivity.
Defined.

Lemma handshake_delivers_trailing_events_witness :
  onReadyData sample_parse
    (drop 9 (frame_line ready_frame) ++ concat (map frame_line (map event_frame [sample_event])))
    (take 9 (frame_line ready_frame)) =
  (Ready (newTransport (JStr (uuid "a"))), [OnEvent sample_event]).
Proof.
  apply (handshake_delivers_trailing_events sample_parse (JStr (uuid "a")) [sample_event]).
  - apply take_drop.
  - split; [discriminate|vm_compute; reflexivity].
  - repeat constructor.
  - repeat constructor; (discriminate || (vm_compute; reflexivity)).
Defined.

(** ** After a failure *)

(** The loop does not stop at a frame that fails the transport: an event behind it in the
    same chunk reaches the event callback after the degraded callback. *)
Theorem events_delivered_after_degradation :
  (accept sample_parse
     (js "garbage" ++ [newline] ++ frame_line (event_frame sample_event)) (newTransport JNull)).2 =
  [Destroy; OnDegraded (mkError (js "malformed local control-plane frame")); OnEvent sample_event].
Proof. vm_compute. reflexivity. Qed.
