(* ===== verification/Client.v ===== *)
(** * The control-plane clients

    [ui/shared/src/client/core.ts] (the request builder shared by the transports) and
    [ui/shared/src/client/browser.ts] (the HTTP and WebSocket client).

    A request is the [json] value handed to the transport; [crypto.randomUUID()] is the
    argument [id].  [RequestTransport] is the interface the builder is written against,
    and the local transport is an instance of it. *)
From stdpp Require Import base list strings.
From Stdlib Require Import ZArith NArith.
From S2P Require Import Prelude JsString JsValue Regex Catalog Protocol Display Envelope.
From S2P Require Import LocalClient.

(** ** Building requests *)

(** [Omit<Scope, 'actor_id'>]: an absent member is not a property of the object. *)
Record ScopeArgs : Type := {
  sa_session_id : option UUID;
  sa_profile : option jstr;
  sa_channel : option jstr;
}.

Definition noScope : ScopeArgs := {| sa_session_id := None; sa_profile := None; sa_channel := None |}.

Definition field (k : string) (v : option json) : list (jstr * json) :=
  match v with Some x => [(js k, x)] | None => [] end.

(** [{ actor_id, ...scope }]. *)
Definition request_scope (actor : jstr) (scope : ScopeArgs) : json :=
  JObj ([(js "actor_id", JStr actor)] ++
        field "session_id" (JStr <$> sa_session_id scope) ++
        field "profile" (JStr <$> sa_profile scope) ++
        field "channel" (JStr <$> sa_channel scope)).

Definition query_request (id actor operation : jstr) (payload : json) (scope : ScopeArgs) : json :=
  JObj [(js "protocol_version", JStr (js PROTOCOL_VERSION)); (js "request_id", JStr id);
        (js "kind", JStr (js "query")); (js "operation", JStr operation);
        (js "scope", request_scope actor scope); (js "payload", payload)].

Definition command_request (id actor operation : jstr) (payload : json) (key : jstr)
    (scope : ScopeArgs) (expectedRevision : option num) : json :=
  JObj ([(js "protocol_version", JStr (js PROTOCOL_VERSION)); (js "request_id", JStr id);
         (js "kind", JStr (js "command")); (js "operation", JStr operation);
         (js "scope", request_scope actor scope); (js "idempotency_key", JStr key);
         (js "payload", payload)] ++
        field "expected_revision" (JNum <$> expectedRevision)).

(** ** The shared client *)

Class RequestTransport (T : Type) := {
  transport_rpc : promise → json → T → T * list effect;
}.

#[export] Instance local_transport : RequestTransport Transport := {| transport_rpc := rpc |}.

Section ControlPlaneClient.
Context {T : Type} `{RequestTransport T}.

Record ControlPlaneClient : Type := { actor_id : jstr; transport : T }.

Definition withTransport (c : ControlPlaneClient) (r : T * list effect)
    : ControlPlaneClient * list effect :=
  ({| actor_id := actor_id c; transport := r.1 |}, r.2).

(** An operation of the wrong kind throws before anything is sent. *)
Definition client_query (p : promise) (id operation : jstr) (payload : json) (scope : ScopeArgs)
    (c : ControlPlaneClient) : Error + (ControlPlaneClient * list effect) :=
  if bool_decide (OPERATION_KINDS operation = Some query) then
    inr (withTransport c
           (transport_rpc p (query_request id (actor_id c) operation payload scope) (transport c)))
  else inl (mkError (operation ++ js " is not a query")).

Definition client_command (p : promise) (id operation : jstr) (payload : json) (key : jstr)
    (scope : ScopeArgs) (expectedRevision : option num) (c : ControlPlaneClient)
    : Error + (ControlPlaneClient * list effect) :=
  if bool_decide (OPERATION_KINDS operation = Some command) then
    inr (withTransport c
           (transport_rpc p
              (command_request id (actor_id c) operation payload key scope expectedRevision)
              (transport c)))
  else inl (mkError (operation ++ js " is not a command")).
End ControlPlaneClient.
Arguments ControlPlaneClient : clear implicits.

(** ** The browser client *)

Record BrowserControlPlaneClient : Type := {
  b_actor_id : jstr;
  b_baseURL : jstr;
  b_websocketURL : jstr;
}.

(** What [location] holds in a browser; [None] where it is not defined. *)
Record Location : Type := { location_protocol : jstr; location_host : jstr }.

(** [deriveWebSocketURL]; [with_protocol url p] is the serialisation of [new URL(url)]
    with its protocol set to [p], [None] when the constructor throws. *)
Section WebSocketURL.
Variable url_protocol_of : jstr → option jstr.
Variable with_protocol : jstr → jstr → jstr.
Variable location : option Location.

Definition ws_protocol (p : jstr) : jstr := if jeqb p (js "https:") then js "wss:" else js "ws:".

Definition deriveWebSocketURL (baseURL : jstr) : option jstr :=
  if negb (jeqb baseURL []) then
    p ← url_protocol_of baseURL; Some (with_protocol baseURL (ws_protocol p))
  else
    match location with
    | None => Some (js "ws://127.0.0.1")
    | Some l => Some (ws_protocol (location_protocol l) ++ js "//" ++ location_host l)
    end.

(** The constructor's defaults. *)
Definition newBrowserClient (actorID : jstr) (base_url websocket_url : option jstr)
    : option BrowserControlPlaneClient :=
  let baseURL := default [] base_url in
  match websocket_url with
  | Some w => Some {| b_actor_id := actorID; b_baseURL := baseURL; b_websocketURL := w |}
  | None =>
      w ← deriveWebSocketURL baseURL;
      Some {| b_actor_id := actorID; b_baseURL := baseURL; b_websocketURL := w |}
  end.
End WebSocketURL.

Definition browser_query (id operation : jstr) (payload : json) (scope : ScopeArgs)
    (c : BrowserControlPlaneClient) : json :=
  query_request id (b_actor_id c) operation payload scope.

Definition browser_command (id operation : jstr) (payload : json) (key : jstr)
    (scope : ScopeArgs) (expectedRevision : option num) (c : BrowserControlPlaneClient) : json :=
  command_request id (b_actor_id c) operation payload key scope expectedRevision.

(** [readCookie(name)]; [cookies] is [document.cookie], [None] where there is no
    document.  [decodeURIComponent] is a parameter ([None]: it throws). *)
Section Http.
Variable decodeURIComponent : jstr → option jstr.

Definition readCookie (cookies : option jstr) (name : jstr) : option jstr :=
  match cookies with
  | None => Some []
  | Some c =>
      let prefix := name ++ js "=" in
      match find (startsWith prefix) (map trim (splitOn 59 c)) with
      | Some value => decodeURIComponent (drop (length prefix) value)
      | None => Some []
      end
  end.

(** A request to the gateway; cookies are always included. *)
Record HttpRequest : Type := {
  http_url : jstr;
  http_method : jstr;
  http_headers : list (jstr * jstr);
  http_body : option jstr;
}.

Definition csrf_cookie : jstr := js "__Host-ion_csrf".

Definition rpc_http (cookies : option jstr) (request : json) (c : BrowserControlPlaneClient)
    : option HttpRequest :=
  csrf ← (if isLit "command" (get "kind" request)
          then v ← readCookie cookies csrf_cookie; Some [(js "X-Ion-CSRF", v)]
          else Some []);
  Some {| http_url := b_baseURL c ++ js "/v1/rpc"; http_method := js "POST";
          http_headers := (js "Content-Type", js "application/json") :: csrf;
          http_body := Some (stringify request) |}.

(** What [rpc] makes of the parsed body of the answer, whatever its status. *)
Definition rpc_result (payload : json) : Error + json :=
  match assertResponseEnvelope payload with
  | inl e => inl e
  | inr () => inr payload
  end.

Definition ticket_http (cookies : option jstr) (c : BrowserControlPlaneClient)
    : option HttpRequest :=
  csrf ← readCookie cookies csrf_cookie;
  Some {| http_url := b_baseURL c ++ js "/v1/ws-ticket"; http_method := js "POST";
          http_headers := [(js "X-Ion-CSRF", csrf)]; http_body := None |}.

Definition ticket_result (ok : bool) (value : json) : Error + (jstr * jstr) :=
  if negb ok then inl (mkError (js "WebSocket ticket request failed"))
  else
    match isRecord (Some value), asString (get "ticket" value), asString (get "expires_at" value) with
    | true, Some ticket, Some expires => inr (ticket, expires)
    | _, _, _ => inl (TypeError "invalid WebSocket ticket response")
    end.
End Http.

(** ** The event stream *)

Definition isRecovery `{Platform} (value : option json) : bool :=
  match value with
  | Some v =>
      isRecord (Some v) &&
      match get "replay" v with
      | Some replay =>
          isRecord (Some replay) &&
          isNumber (get "after_sequence" replay) && isNumber (get "earliest_sequence" replay) &&
          isNumber (get "latest_sequence" replay) && isNumber (get "head_sequence" replay) &&
          isBoolean (get "gap" replay) &&
          match isArray (get "events" replay) with
          | Some events => forallb isEventEnvelope events
          | None => false
          end
      | None => false
      end
  | None => false
  end.

(** The integer a number is, where the client computes with sequence numbers. *)
Definition int_field (k : string) (v : json) : option Z := asNum (get k v) ≫= num_to_Z.

Definition gap_marker_of (v : json) : GapMarker := {|
  gm_requested_after := default 0%Z (int_field "requested_after" v);
  gm_available_from := default 0%Z (int_field "available_from" v);
  gm_latest := default 0%Z (int_field "latest" v);
|}.

(** The recovery as the store reads it; defined when its sequence numbers are integers. *)
Definition recovery_of `{Platform} (v : json) : option RecoveryEnvelope :=
  if isRecovery (Some v) then
    replay ← get "replay" v;
    after ← int_field "after_sequence" replay;
    earliest ← int_field "earliest_sequence" replay;
    latest ← int_field "latest_sequence" replay;
    head ← int_field "head_sequence" replay;
    events ← isArray (get "events" replay) ≫= mapM event_of;
    Some {|
      rec_replay := {|
        rp_after_sequence := after; rp_earliest_sequence := earliest;
        rp_latest_sequence := latest; rp_head_sequence := head;
        rp_gap := bool_field "gap" replay; rp_events := events |};
      rec_gap_marker := gap_marker_of <$> get "gap_marker" v;
      rec_snapshot := get "snapshot" v;
    |}
  else None.

(** What a message of the stream is: a recovery or an event, with the position to
    acknowledge, or the error its handler throws. *)
Inductive delivery : Type :=
  | DRecovery (recovery : json)
  | DEvent (event : json).

Section Stream.
Context `{Platform}.
Variable JSON_parse : jstr → Error + json.

Definition decode_message (data : jstr) : Error + delivery :=
  match JSON_parse data with
  | inl e => inl e
  | inr frame =>
      if negb (isRecord (Some frame)) || negb (isString (get "type" frame))
      then inl (TypeError "invalid event stream frame")
      else
        let type := get "type" frame in
        match isLit "recovery" type && isRecovery (get "recovery" frame), get "recovery" frame with
        | true, Some r => inr (DRecovery r)
        | _, _ =>
        match isLit "event" type, get "event" frame with
        | true, Some e => if isEventEnvelope e then inr (DEvent e)
                          else inl (TypeError "incomplete event stream frame")
        | _, _ =>
        match isLit "error" type, get "error" frame with
        | true, Some JNull => inl (TypeError "null error")
        | true, Some e => inl (mkError (match get "message" e with Some m => toStr m | None => [] end))
        | _, _ => inl (TypeError "incomplete event stream frame")
        end end end
  end.

(** The position a delivery is acknowledged with. *)
Definition ack_sequence (d : delivery) : option json :=
  match d with
  | DRecovery r => getO "latest_sequence" (get "replay" r)
  | DEvent e => get "sequence" e
  end.

Definition ack_message (clientID : jstr) (sequence : json) : jstr :=
  stringify (jobj [("type", JStr (js "ack")); ("client_id", JStr clientID); ("sequence", sequence)]%string).
End Stream.
