(* ===== verification/ClientProps.v ===== *)
(** * Properties of the control-plane clients

    The requests the builders produce are the ones the protocol accepts, commands carry
    the cross-site token, and the cookie reader inverts the cookie string. *)
From stdpp Require Import base list strings sets.
From Stdlib Require Import ZArith NArith.
From S2P Require Import Prelude JsString JsValue Regex Catalog Protocol Display Envelope.
From S2P Require Import EventsProps LocalClient LocalClientFacts Client.

(** ** Requests *)

Definition scope_ok (s : ScopeArgs) : bool :=
  match sa_session_id s with Some id => isUUID_string id | None => true end.

Definition revision_ok (r : option num) : bool := optional isNonNegativeSafeInteger (JNum <$> r).

Lemma get_scope actor s :
  get "actor_id" (request_scope actor s) = Some (JStr actor) ∧
  get "session_id" (request_scope actor s) = JStr <$> sa_session_id s ∧
  get "profile" (request_scope actor s) = JStr <$> sa_profile s ∧
  get "channel" (request_scope actor s) = JStr <$> sa_channel s.
Proof. destruct s as [[] [] []]; split_and!; reflexivity. Qed.

Lemma request_scope_ok actor s :
  isUUID_string actor = true → scope_ok s = true →
  isScope (Some (request_scope actor s)) = true.
Proof.
  intros Ha Hs. unfold isScope. destruct (get_scope actor s) as (H1 & H2 & H3 & H4).
  cbn [getO]. rewrite H1, H2, H3, H4.
  assert (isUUID (Some (JStr actor)) = true) as -> by done.
  assert (optional isUUID (JStr <$> sa_session_id s) = true) as ->.
  { unfold scope_ok in Hs. by destruct (sa_session_id s). }
  by destruct (sa_profile s), (sa_channel s).
Qed.

Lemma get_query id actor op payload scope :
  let r := query_request id actor op payload scope in
  get "protocol_version" r = Some (JStr (js PROTOCOL_VERSION)) ∧ get "request_id" r = Some (JStr id) ∧
  get "kind" r = Some (JStr (js "query")) ∧ get "operation" r = Some (JStr op) ∧
  get "scope" r = Some (request_scope actor scope) ∧ get "payload" r = Some payload ∧
  get "expected_revision" r = None.
Proof. split_and!; reflexivity. Qed.

Lemma get_command id actor op payload key scope rev :
  let r := command_request id actor op payload key scope rev in
  get "protocol_version" r = Some (JStr (js PROTOCOL_VERSION)) ∧ get "request_id" r = Some (JStr id) ∧
  get "kind" r = Some (JStr (js "command")) ∧ get "operation" r = Some (JStr op) ∧
  get "scope" r = Some (request_scope actor scope) ∧ get "idempotency_key" r = Some (JStr key) ∧
  get "payload" r = Some payload ∧ get "expected_revision" r = JNum <$> rev.
Proof. destruct rev; split_and!; reflexivity. Qed.

Lemma kind_in_catalog op k : OPERATION_KINDS op = Some k → operationSet_has op = true.
Proof. intros Hk. apply operation_kind_total. by rewrite Hk. Qed.

Lemma query_request_valid id actor op payload scope :
  isUUID_string id = true → isUUID_string actor = true → scope_ok scope = true →
  isRequestEnvelope (query_request id actor op payload scope) =
    bool_decide (OPERATION_KINDS op = Some query).
Proof.
  intros Hid Ha Hs. unfold isRequestEnvelope.
  destruct (get_query id actor op payload scope) as (-> & -> & -> & -> & -> & Hp & ->).
  unfold hasOwn. rewrite Hp, request_scope_ok by done. cbn [isLit isRecord query_request asString].
  rewrite jeqb_refl. assert (isUUID (Some (JStr id)) = true) as -> by done. cbn [andb optional].
  assert (kind_of (Some (JStr (js "query"))) = Some query) as -> by reflexivity. cbv iota beta.
  rewrite (bool_decide_true (is_Some (Some payload))) by eauto. rewrite !andb_true_r.
  case_bool_decide as Hk; [|by rewrite andb_false_r].
  by rewrite (kind_in_catalog _ _ Hk).
Qed.

Lemma command_request_valid id actor op payload key scope rev :
  isUUID_string id = true → isUUID_string actor = true → scope_ok scope = true →
  key ≠ [] → revision_ok rev = true →
  isRequestEnvelope (command_request id actor op payload key scope rev) =
    bool_decide (OPERATION_KINDS op = Some command).
Proof.
  intros Hid Ha Hs Hkey Hrev. unfold isRequestEnvelope.
  destruct (get_command id actor op payload key scope rev) as (-> & -> & -> & -> & -> & -> & Hp & ->).
  unfold hasOwn. rewrite Hp, request_scope_ok by done. cbn [isLit isRecord command_request asString].
  rewrite jeqb_refl. assert (isUUID (Some (JStr id)) = true) as -> by done. cbn [andb].
  assert (kind_of (Some (JStr (js "command"))) = Some command) as -> by reflexivity. cbv iota beta.
  unfold revision_ok in Hrev. rewrite Hrev.
  rewrite (bool_decide_true (is_Some (Some payload))) by eauto. rewrite !andb_true_r.
  assert (nonEmptyString (Some (JStr key)) = true) as -> by (by destruct key).
  rewrite andb_true_r. case_bool_decide as Hk; [|by rewrite andb_false_r].
  by rewrite (kind_in_catalog _ _ Hk).
Qed.

(** ** Cookies *)

(** What [document.cookie] shows of a list of cookies. *)
Definition cookie_pair (c : jstr * jstr) : jstr := c.1 ++ js "=" ++ c.2.
Definition cookie_string (cs : list (jstr * jstr)) : jstr := join (js "; ") (map cookie_pair cs).

(** The characters a cookie name and value cannot hold. *)
Definition cookie_ok (c : jstr * jstr) : Prop :=
  (61%N ∉ c.1) ∧ (59%N ∉ c.1) ∧ (59%N ∉ c.2) ∧ trim (cookie_pair c) = cookie_pair c.

Lemma cookie_pieces cs : Forall cookie_ok cs → cs ≠ [] → map trim (splitOn 59 (cookie_string cs)) = map cookie_pair cs.
Proof.
  intros Hcs Hne. apply join_pieces; [|by destruct cs]. apply Forall_map. eapply Forall_impl; [exact Hcs|].
  intros c (H1 & H2 & H3 & H4). split; [|done]. unfold cookie_pair. rewrite !not_elem_of_app.
  split_and!; [done| |done]. apply indexOf_None. reflexivity.
Qed.

Lemma startsWith_cookie name c :
  61%N ∉ name → 61%N ∉ c.1 →
  startsWith (name ++ js "=") (cookie_pair c) = true ↔ name = c.1.
Proof.
  intros Hn Hc. rewrite startsWith_spec. unfold cookie_pair. change (js "=") with [61%N]. split.
  - intros [r Hr]. rewrite <- app_assoc in Hr. cbn [app] in Hr.
    apply (f_equal (indexOf 61)) in Hr as Hi.
    rewrite !indexOf_app_notin in Hi by done. injection Hi as Hl.
    by apply (f_equal (take (length name))) in Hr; rewrite <- Hl in Hr at 1; rewrite !take_app_length in Hr.
  - intros ->. exists c.2. by rewrite <- app_assoc.
Qed.

Lemma find_cookie name cs :
  61%N ∉ name → Forall cookie_ok cs →
  find (startsWith (name ++ js "=")) (map cookie_pair cs) =
    (λ v, cookie_pair (name, v)) <$> assoc_get name cs.
Proof.
  intros Hn. induction 1 as [|[n v] cs (H1 & H2 & H3 & H4) _ IH]; [done|]. cbn [map find assoc_get].
  destruct (startsWith _ (cookie_pair (n, v))) eqn:Hs.
  - apply startsWith_cookie in Hs; [|done..]. simpl in Hs. subst. by rewrite decide_True.
  - rewrite decide_False; [done|]. intros ->. apply not_true_iff_false in Hs. apply Hs.
    by apply startsWith_cookie.
Qed.

Lemma csrf_no_equals : 61%N ∉ csrf_cookie.
Proof. apply indexOf_None. reflexivity. Qed.

(** ** Claims *)

(** A request with these members; [None] is a member that is left out. *)
Definition carries (request : json) (k : RequestKind) (id actor op : jstr) (payload : json) (scope : ScopeArgs)
    (key : option jstr) (rev : option num) : Prop :=
  get "protocol_version" request = Some (JStr (js "ion.controlplane.v1")) ∧
  get "request_id" request = Some (JStr id) ∧
  get "kind" request = Some (JStr (js match k with query => "query" | command => "command" end)) ∧
  get "operation" request = Some (JStr op) ∧
  get "payload" request = Some payload ∧
  get "idempotency_key" request = JStr <$> key ∧
  get "expected_revision" request = JNum <$> rev ∧
  ∃ v, get "scope" request = Some v ∧ get "actor_id" v = Some (JStr actor) ∧
       get "session_id" v = JStr <$> sa_session_id scope ∧ get "profile" v = JStr <$> sa_profile scope ∧
       get "channel" v = JStr <$> sa_channel scope.

Lemma query_request_carries id actor op payload scope :
  carries (query_request id actor op payload scope) query id actor op payload scope None None.
Proof. split_and!; try reflexivity. eexists. split; [reflexivity|apply get_scope]. Qed.

Lemma command_request_carries id actor op payload key scope rev :
  carries (command_request id actor op payload key scope rev) command id actor op payload scope (Some key) rev.
Proof.
  split_and!; try reflexivity; [by destruct rev|]. eexists. split; [reflexivity|apply get_scope].
Qed.

(** [C24] The shared client against the local transport.  On an open transport a query of a
    query operation, or a command of a command operation, writes exactly one frame and adds
    its promise to the pending ones.  The request in the frame carries the protocol
    version, the request id, the kind, the operation and the payload that were given, the
    client's actor with the given session, profile and channel, and for a command the given
    idempotency key and, when there is one, the expected revision; the protocol's own
    guard accepts it, provided the request, actor and session ids are UUIDs, the key is not
    empty and the revision is a non-negative safe integer.  An operation of the other kind,
    or outside the catalog, throws and sends nothing. *)
Theorem client_sends_valid_requests (c : ControlPlaneClient Transport) (p : promise)
    (id op : jstr) (payload : json) (key : jstr) (scope : ScopeArgs) (rev : option num) :
  isUUID_string id = true → isUUID_string (actor_id c) = true → scope_ok scope = true →
  key ≠ [] → revision_ok rev = true → closed (transport c) = false →
  let sends := λ (r : Error + (ControlPlaneClient Transport * list effect)) (k : RequestKind)
                 (key : option jstr) (rev : option num),
    match r with
    | inl _ => OPERATION_KINDS op ≠ Some k
    | inr (c', out) => OPERATION_KINDS op = Some k ∧ ∃ request,
        carries request k id (actor_id c) op payload scope key rev ∧ isRequestEnvelope request = true ∧
        out = [Write (frame_line (jobj [("type", JStr (js "rpc")); ("request", request)]%string))] ∧
        pending (transport c') = pending (transport c) ++ [p]
    end in
  sends (client_query p id op payload scope c) query None None ∧
  sends (client_command p id op payload key scope rev c) command (Some key) rev.
Proof.
  intros Hid Ha Hs Hk Hr Hc. cbv zeta. unfold client_query, client_command.
  split; case_bool_decide as Hop; try done;
    cbn [transport_rpc local_transport withTransport]; unfold rpc; rewrite Hc; (split; [done|]); eexists.
  - split; [apply query_request_carries|]. split; [|split; reflexivity].
    rewrite query_request_valid by done. by rewrite bool_decide_true.
  - split; [apply command_request_carries|]. split; [|split; reflexivity].
    rewrite command_request_valid by done. by rewrite bool_decide_true.
Qed.

(** The browser client does not look at the catalog: the request it builds is valid
    exactly when the operation has the kind of the method that was called. *)
Theorem browser_request_valid_iff_kind (c : BrowserControlPlaneClient)
    (id op : jstr) (payload : json) (key : jstr) (scope : ScopeArgs) (rev : option num) :
  isUUID_string id = true → isUUID_string (b_actor_id c) = true → scope_ok scope = true →
  key ≠ [] → revision_ok rev = true →
  (isRequestEnvelope (browser_query id op payload scope c) = true ↔
     OPERATION_KINDS op = Some query) ∧
  (isRequestEnvelope (browser_command id op payload key scope rev c) = true ↔
     OPERATION_KINDS op = Some command).
Proof.
  intros Hid Ha Hs Hk Hr. unfold browser_query, browser_command.
  rewrite query_request_valid, command_request_valid by done. by rewrite !bool_decide_eq_true.
Qed.

(** The cookie reader inverts the cookie string: it gives the decoded value of the
    first cookie with the name, and the empty string when there is none or no document.
    Every command, and no query, carries that token as its cross-site header. *)
Theorem commands_carry_the_csrf_cookie (decode : jstr → option jstr) (cs : list (jstr * jstr))
    (c : BrowserControlPlaneClient) (id op : jstr) (payload : json) (key : jstr)
    (scope : ScopeArgs) (rev : option num) :
  Forall cookie_ok cs →
  readCookie decode (Some (cookie_string cs)) csrf_cookie =
    match assoc_get csrf_cookie cs with Some v => decode v | None => Some [] end ∧
  (http_headers <$> rpc_http decode (Some (cookie_string cs)) (browser_query id op payload scope c) c =
    Some [(js "Content-Type", js "application/json")]) ∧
  (http_headers <$> rpc_http decode (Some (cookie_string cs))
                      (browser_command id op payload key scope rev c) c =
    (λ token, [(js "Content-Type", js "application/json"); (js "X-Ion-CSRF", token)]) <$>
    readCookie decode (Some (cookie_string cs)) csrf_cookie).
Proof.
  intros Hcs. split_and!.
  - unfold readCookie. destruct (decide (cs = [])) as [->|Hne]; [reflexivity|].
    rewrite (cookie_pieces cs Hcs Hne), find_cookie; [|by apply csrf_no_equals|done].
    destruct (assoc_get csrf_cookie cs) as [v|]; [|done]. cbn [fmap option_fmap option_map].
    unfold cookie_pair. cbn [fst snd]. by rewrite app_assoc, drop_app_length.
  - reflexivity.
  - unfold rpc_http, browser_command.
    replace (isLit "command" (get "kind" (command_request id (b_actor_id c) op payload key scope rev)))
      with true by reflexivity.
    by destruct (readCookie decode (Some (cookie_string cs)) csrf_cookie).
Qed.

(** ** Witnesses *)

Definition sample_client : ControlPlaneClient Transport :=
  {| actor_id := uuid "a"; transport := newTransport (JStr (uuid "a")) |}.
Definition sample_scope : ScopeArgs :=
  {| sa_session_id := Some (uuid "b"); sa_profile := None; sa_channel := Some (js "tui") |}.
Definition sample_browser : BrowserControlPlaneClient :=
  {| b_actor_id := uuid "a"; b_baseURL := []; b_websocketURL := js "ws://127.0.0.1" |}.

Lemma client_sends_valid_requests_witness :
  match client_command 1 (uuid "1") (js "turn.submit") JNull (js "key") sample_scope (Some (NFin 3 0))
          sample_client with
  | inl _ => False
  | inr (c', _) => pending (transport c') = [1]
  end.
Proof.
  destruct (client_sends_valid_requests sample_client 1 (uuid "1") (js "turn.submit") JNull
              (js "key") sample_scope (Some (NFin 3 0))) as [_ Hc];
    [vm_compute; reflexivity..|discriminate|vm_compute; reflexivity|reflexivity|].
  destruct (client_command 1 _ _ _ _ _ _ sample_client) as [e|[c' out]].
  - apply Hc. vm_compute. reflexivity.
  - destruct Hc as (_ & _ & _ & _ & _ & Hp). exact Hp.
Defined.

Lemma browser_request_valid_iff_kind_witness :
  isRequestEnvelope (browser_query (uuid "1") (js "turn.submit") JNull sample_scope sample_browser)
  = false.
Proof.
  destruct (browser_request_valid_iff_kind sample_browser (uuid "1") (js "turn.submit") JNull
              (js "key") sample_scope None) as [Hq _];
    [vm_compute; reflexivity..|discriminate|reflexivity|].
  apply not_true_is_false. intros Hv. apply Hq in Hv. vm_compute in Hv. discriminate.
Defined.

Lemma commands_carry_the_csrf_cookie_witness :
  readCookie Some (Some (cookie_string [(js "theme", js "dark"); (csrf_cookie, js "t0k")])) csrf_cookie
  = Some (js "t0k").
Proof.
  destruct (commands_carry_the_csrf_cookie Some [(js "theme", js "dark"); (csrf_cookie, js "t0k")]
              sample_browser (uuid "1") (js "turn.submit") JNull (js "key") noScope None) as [Hr _].
  - repeat constructor; cbn [fst snd]; (reflexivity || (apply indexOf_None; reflexivity)).
  - rewrite Hr. vm_compute. reflexivity.
Defined.
