(* ===== verification/Operator.v ===== *)
(** * The web operator provider

    [ui/web/src/app/operator-context.tsx]: the effect that keeps one event stream open,
    feeds the operator store and reconnects with a bounded back-off; the socket listeners
    it installs through [connect] of [ui/shared/src/client/browser.ts]; and the selectors
    of [ui/web/src/features/computer/visibility.ts].

    [Provider] is the state of one run of the effect: the variables of its closure, the
    React state it sets, the sockets created so far and the pending timers.  [perform]
    is one thing the host does: a ticket request settles, a socket opens, delivers a
    message, fails or closes, a timer fires, the component unmounts.  It is [None] when
    the host cannot do it in that state (a message on a socket that is not open, a timer
    that is not pending). *)
From stdpp Require Import base list strings.
From Stdlib Require Import ZArith NArith.
From S2P Require Import Prelude JsString JsValue Regex Catalog Protocol Display Envelope.
From S2P Require Import Events EventsFacts Store Client.

(** ** Connections *)

Inductive ReadyState : Type := CONNECTING | OPEN | CLOSING | CLOSED.
#[export] Instance ReadyState_eq_dec : EqDecision ReadyState.
Proof. solve_decision. Defined.

(** A socket, and the flag [closed] of the connection that owns it. *)
Record Conn : Type := { c_ready : ReadyState; c_closed : bool }.

(** [socket.close()]: the close event comes later. *)
Definition closing (r : ReadyState) : ReadyState :=
  match r with CLOSED => CLOSED | _ => CLOSING end.
Definition socket_close (c : Conn) : Conn := {| c_ready := closing (c_ready c); c_closed := c_closed c |}.

(** [close()] of the connection. *)
Definition conn_close (c : Conn) : Conn := {| c_ready := closing (c_ready c); c_closed := true |}.

Inductive ConnectionStatus : Type := Connecting | ReadyStatus | Degraded.

Record Provider : Type := {
  p_store : OperatorEventStore;
  p_connection : ConnectionStatus;
  p_error : option jstr;
  p_disposed : bool;
  p_conns : list Conn;
  p_active : option nat;
  p_inflight : nat;
  p_timers : list (nat * Z);
  p_retry : option nat;
  p_next_timer : nat;
  p_attempts : nat;
}.

(** Field updates. *)
Definition setStore s p := {| p_store := s; p_connection := p_connection p; p_error := p_error p;
  p_disposed := p_disposed p; p_conns := p_conns p; p_active := p_active p;
  p_inflight := p_inflight p; p_timers := p_timers p; p_retry := p_retry p;
  p_next_timer := p_next_timer p; p_attempts := p_attempts p |}.
Definition setStatus c e p := {| p_store := p_store p; p_connection := c; p_error := e;
  p_disposed := p_disposed p; p_conns := p_conns p; p_active := p_active p;
  p_inflight := p_inflight p; p_timers := p_timers p; p_retry := p_retry p;
  p_next_timer := p_next_timer p; p_attempts := p_attempts p |}.
Definition setConns cs a p := {| p_store := p_store p; p_connection := p_connection p;
  p_error := p_error p; p_disposed := p_disposed p; p_conns := cs; p_active := a;
  p_inflight := p_inflight p; p_timers := p_timers p; p_retry := p_retry p;
  p_next_timer := p_next_timer p; p_attempts := p_attempts p |}.
Definition setInflight n p := {| p_store := p_store p; p_connection := p_connection p;
  p_error := p_error p; p_disposed := p_disposed p; p_conns := p_conns p; p_active := p_active p;
  p_inflight := n; p_timers := p_timers p; p_retry := p_retry p;
  p_next_timer := p_next_timer p; p_attempts := p_attempts p |}.
Definition setTimers ts p := {| p_store := p_store p; p_connection := p_connection p;
  p_error := p_error p; p_disposed := p_disposed p; p_conns := p_conns p; p_active := p_active p;
  p_inflight := p_inflight p; p_timers := ts; p_retry := p_retry p;
  p_next_timer := p_next_timer p; p_attempts := p_attempts p |}.
Definition setAttempts n p := {| p_store := p_store p; p_connection := p_connection p;
  p_error := p_error p; p_disposed := p_disposed p; p_conns := p_conns p; p_active := p_active p;
  p_inflight := p_inflight p; p_timers := p_timers p; p_retry := p_retry p;
  p_next_timer := p_next_timer p; p_attempts := n |}.

Definition updateConn (f : Conn → Conn) (i : nat) (p : Provider) : Provider :=
  setConns (alter f i (p_conns p)) (p_active p) p.

(** [active?.close()]. *)
Definition closeActive (p : Provider) : Provider :=
  match p_active p with Some i => updateConn conn_close i p | None => p end.

(** ** The effect *)

Definition maxAttempts : nat := 5.

(** [Math.min(500 * 2 ** attempts, 5_000)]. *)
Definition backoff (attempts : nat) : Z := Z.min (500 * 2 ^ Z.of_nat attempts) 5000.

(** Schedules [connect] unless the attempts are used up. *)
Definition scheduleRetry (p : Provider) : Provider :=
  if maxAttempts <=? p_attempts p then p else {|
    p_store := p_store p; p_connection := p_connection p; p_error := p_error p;
    p_disposed := p_disposed p; p_conns := p_conns p; p_active := p_active p;
    p_inflight := p_inflight p;
    p_timers := p_timers p ++ [(p_next_timer p, backoff (p_attempts p))];
    p_retry := Some (p_next_timer p); p_next_timer := S (p_next_timer p);
    p_attempts := S (p_attempts p) |}.

(** [connect()] up to its await. *)
Definition connect (p : Provider) : Provider :=
  if p_disposed p then p
  else setInflight (S (p_inflight p)) (setStatus Connecting (p_error p) p).

(** The effect as it is mounted. *)
Definition mount : Provider := connect {|
  p_store := newStore; p_connection := Connecting; p_error := None; p_disposed := false;
  p_conns := []; p_active := None; p_inflight := 0; p_timers := []; p_retry := None;
  p_next_timer := 0; p_attempts := 0 |}.

(** The await of [connect] resolves with a new connection. *)
Definition connected (p : Provider) : Provider :=
  let p := setConns (p_conns p ++ [{| c_ready := CONNECTING; c_closed := false |}])
             (Some (length (p_conns p))) (setInflight (pred (p_inflight p)) p) in
  if p_disposed p then closeActive p else p.

(** The await throws. *)
Definition connectFailed (error : Error) (p : Provider) : Provider :=
  let p := setInflight (pred (p_inflight p)) p in
  if p_disposed p then p
  else scheduleRetry (setStatus Degraded (Some (error_message error)) p).

(** ** The callbacks *)

Definition degraded (error : Error) (p : Provider) : Provider :=
  if p_disposed p then p
  else scheduleRetry (closeActive (setStatus Degraded (Some (error_message error)) p)).

Section WithPlatform.
Context `{Platform}.
Variable JSON_parse : jstr → Error + json.

Definition onRecovery (r : RecoveryEnvelope) (p : Provider) : Provider :=
  setAttempts 0 (setStatus ReadyStatus None (setStore (Store.recover r (p_store p)).1 p)).

Definition onEvent (e : EventEnvelope) (p : Provider) : Provider :=
  setStatus ReadyStatus (p_error p) (setStore (Store.accept e (p_store p)).1 p).

(** [acknowledge(socket, clientID, sequence)]: the positions sent. *)
Definition acknowledge (i : nat) (sequence : Z) (p : Provider) : list Z :=
  match p_conns p !! i with
  | Some c => if bool_decide (c_ready c = OPEN) then [sequence] else []
  | None => []
  end.

(** The 'message' listener of connection [i]: the new state and the positions it
    acknowledges.  Sequence numbers of a recovery are integers here. *)
Definition onMessage (i : nat) (data : jstr) (p : Provider) : option (Provider * list Z) :=
  match decode_message JSON_parse data with
  | inr (DRecovery v) =>
      r ← recovery_of v;
      let p := onRecovery r p in
      Some (p, acknowledge i (rp_latest_sequence (rec_replay r)) p)
  | inr (DEvent v) =>
      e ← event_of v;
      let p := onEvent e p in
      Some (p, acknowledge i (ev_sequence e) p)
  | inl error => Some (updateConn socket_close i (degraded error p), [])
  end.

(** The 'close' and 'error' listeners. *)
Definition onClose (i : nat) (p : Provider) : Provider :=
  match p_conns p !! i with
  | Some c => if c_closed c then p else degraded (mkError (js "event stream closed")) p
  | None => p
  end.

Definition onError (i : nat) (p : Provider) : Provider :=
  match p_conns p !! i with
  | Some c => if c_closed c then p else degraded (mkError (js "event stream transport error")) p
  | None => p
  end.

(** The cleanup of the effect. *)
Definition dispose (p : Provider) : Provider :=
  let p := {| p_store := p_store p; p_connection := p_connection p; p_error := p_error p;
    p_disposed := true; p_conns := p_conns p; p_active := p_active p;
    p_inflight := p_inflight p; p_timers := p_timers p; p_retry := p_retry p;
    p_next_timer := p_next_timer p; p_attempts := p_attempts p |} in
  let p := closeActive p in
  match p_retry p with
  | Some t => setTimers (filter (λ x, x.1 ≠ t) (p_timers p)) p
  | None => p
  end.

(** ** What the host does *)

Inductive input : Type :=
  | Connected
  | ConnectFailed (error : Error)
  | SocketOpened (i : nat)
  | SocketMessage (i : nat) (data : jstr)
  | SocketFailed (i : nat)
  | SocketClosed (i : nat)
  | TimerFired (t : nat)
  | Unmounted.

Definition readyOf (i : nat) (p : Provider) : option ReadyState := c_ready <$> p_conns p !! i.

Definition setReady (r : ReadyState) (c : Conn) : Conn := {| c_ready := r; c_closed := c_closed c |}.

Definition perform (x : input) (p : Provider) : option (Provider * list Z) :=
  match x with
  | Connected => if p_inflight p =? 0 then None else Some (connected p, [])
  | ConnectFailed e => if p_inflight p =? 0 then None else Some (connectFailed e p, [])
  | SocketOpened i =>
      if bool_decide (readyOf i p = Some CONNECTING)
      then Some (updateConn (setReady OPEN) i p, []) else None
  | SocketMessage i data =>
      if bool_decide (readyOf i p = Some OPEN) then onMessage i data p else None
  | SocketFailed i =>
      if bool_decide (readyOf i p = None ∨ readyOf i p = Some CLOSED) then None
      else Some (onError i p, [])
  | SocketClosed i =>
      if bool_decide (readyOf i p = None ∨ readyOf i p = Some CLOSED) then None
      else Some (onClose i (updateConn (setReady CLOSED) i p), [])
  | TimerFired t =>
      if bool_decide (t ∈ (p_timers p).*1)
      then Some (connect (setTimers (filter (λ x, x.1 ≠ t) (p_timers p)) p), []) else None
  | Unmounted => if p_disposed p then None else Some (dispose p, [])
  end.

(** A run of the host, with every position acknowledged so far. *)
Inductive runs : Provider → list Z → Prop :=
  | runs_mount : runs mount []
  | runs_step p acks x p' out :
      runs p acks → perform x p = Some (p', out) → runs p' (acks ++ out).
End WithPlatform.
