(* ===== verification/OperatorProps.v ===== *)
(** * Properties of the operator provider

    The invariant of every state a mounted provider reaches (connects in flight, timers,
    sockets), and from it the exclusion, progress and acknowledgement theorems. *)
From stdpp Require Import base list strings.
From Stdlib Require Import ZArith NArith.
From S2P Require Import Prelude JsString JsValue Regex Catalog Protocol Display Envelope.
From S2P Require Import Events EventsFacts Store EventsProps Client Operator.

(** ** The invariant *)

(** The current connection has not been given up. *)
Definition live (p : Provider) : bool :=
  match p_active p with
  | Some i => match p_conns p !! i with Some c => negb (c_closed c) | None => false end
  | None => false
  end.

(** What keeps the provider going: connects in flight, retries scheduled, the live
    connection. *)
Definition tokens (p : Provider) : nat :=
  p_inflight p + length (p_timers p) + (if live p then 1 else 0).

Definition finished (r : ReadyState) : Prop := r = CLOSING ∨ r = CLOSED.

Record conns_ok (p : Provider) : Prop := {
  ok_open i c : p_conns p !! i = Some c → c_closed c = false → p_active p = Some i;
  ok_closed i c : p_conns p !! i = Some c → c_closed c = true → finished (c_ready c);
}.

Record inv (p : Provider) : Prop := {
  inv_conns : conns_ok p;
  inv_tokens : tokens p ≤ 1;
  inv_retry : Forall (λ x, p_retry p = Some x.1 ∧ x.2 = backoff (pred (p_attempts p)) ∧
                           0 < p_attempts p) (p_timers p);
  inv_attempts : p_attempts p ≤ 5;
  inv_disposed : p_disposed p = true → p_timers p = [] ∧ live p = false;
  inv_progress : p_disposed p = false → tokens p = 0 → p_attempts p = 5 ∧ p_connection p = Degraded;
}.

Lemma unclosed_live p i c :
  conns_ok p → p_conns p !! i = Some c → c_closed c = false → live p = true.
Proof.
  intros [Ho _] Hi Hc. unfold live. by rewrite (Ho i c Hi Hc), Hi, Hc.
Qed.

(** ** Changing a connection *)

Lemma updateConn_lookup f i p j c :
  p_conns (updateConn f i p) !! j = Some c →
  (j = i ∧ ∃ c0, p_conns p !! i = Some c0 ∧ c = f c0) ∨ (j ≠ i ∧ p_conns p !! j = Some c).
Proof.
  simpl. destruct (decide (j = i)) as [->|Hne].
  - rewrite list_lookup_alter_eq. destruct (p_conns p !! i) as [c0|] eqn:Hc0; [|done].
    intros [= <-]. left. eauto.
  - rewrite list_lookup_alter_ne by done. auto.
Qed.

Lemma closeActive_ok p : conns_ok p → conns_ok (closeActive p) ∧ live (closeActive p) = false.
Proof.
  intros [Ho Hc]. unfold closeActive. destruct (p_active p) as [a|] eqn:Ha.
  - split; [split|].
    + intros i c [[-> (c0 & _ & ->)]|[Hne Hi]]%updateConn_lookup Hcl; [done|].
      by pose proof (Ho i c Hi Hcl); simplify_eq.
    + intros i c [[-> (c0 & _ & ->)]|[Hne Hi]]%updateConn_lookup Hcl; [|by eapply Hc].
      simpl. unfold finished. destruct (c_ready c0); auto.
    + unfold live. simpl. rewrite Ha, list_lookup_alter_eq. by destruct (p_conns p !! a).
  - split; [split; [intros i c Hi Hcl; by discriminate (Ho i c Hi Hcl)|done]|].
    unfold live. by rewrite Ha.
Qed.

(** A change of a socket's state that respects the connection's flag. *)
Definition respects (f : Conn → Conn) (i : nat) (p : Provider) : Prop :=
  ∀ c, p_conns p !! i = Some c →
    c_closed (f c) = c_closed c ∧ (c_closed c = true → finished (c_ready (f c))).

Lemma updateConn_ok f i p : respects f i p → conns_ok p → conns_ok (updateConn f i p).
Proof.
  intros Hf [Ho Hc]. split; intros j c [[-> (c0 & Hc0 & ->)]|[Hne Hj]]%updateConn_lookup Hcl;
    try destruct (Hf c0 Hc0) as [Hcf Hrf]; [|by eapply Ho| |by eapply Hc].
  - eapply Ho; [exact Hc0|congruence].
  - apply Hrf. congruence.
Qed.

Lemma updateConn_live f i p : respects f i p → live (updateConn f i p) = live p.
Proof.
  intros Hf. unfold live. simpl. destruct (p_active p) as [a|]; [|done].
  destruct (decide (a = i)) as [->|Hne]; [|by rewrite list_lookup_alter_ne].
  rewrite list_lookup_alter_eq. destruct (p_conns p !! i) as [c|] eqn:Hc; [|done]. simpl.
  by rewrite (proj1 (Hf c Hc)).
Qed.

Lemma updateConn_inv f i p : respects f i p → inv p → inv (updateConn f i p).
Proof.
  intros Hf [H1 H2 H3 H4 H5 H6].
  assert (tokens (updateConn f i p) = tokens p) as Ht.
  { unfold tokens. by rewrite (updateConn_live f i p Hf). }
  split; rewrite ?Ht, ?(updateConn_live f i p Hf); try done. by apply updateConn_ok.
Qed.

(** ** Giving up and retrying *)

(** A provider with nothing going on schedules a retry or has used its attempts. *)
Lemma scheduleRetry_inv p :
  conns_ok p → tokens p = 0 → p_disposed p = false → p_attempts p ≤ 5 →
  p_connection p = Degraded → inv (scheduleRetry p).
Proof.
  intros Hok Ht Hd Ha Hcon. unfold tokens in Ht.
  assert (p_timers p = [] ∧ tokens p = 0) as [Htm Ht'].
  { unfold tokens. destruct (p_timers p); simpl in *; [split; [done|lia]|lia]. }
  unfold scheduleRetry. destruct (Nat.leb_spec maxAttempts (p_attempts p)) as [Hm|Hm];
    unfold maxAttempts in Hm.
  - split; [done|lia|by rewrite Htm|lia|by rewrite Hd|].
    intros _ _. split; [lia|done].
  - split; [by destruct Hok| | | |simpl; by rewrite Hd|].
    + unfold tokens in *. simpl. rewrite Htm in *. simpl in *. change (live _) with (live p). lia.
    + simpl. rewrite Htm. apply Forall_singleton. simpl. split_and!; [done..|lia].
    + simpl. lia.
    + intros _. unfold tokens. simpl. rewrite Htm. simpl. lia.
Qed.

Lemma degraded_inv e p : inv p → live p = true → inv (degraded e p).
Proof.
  intros Hinv Hl. unfold degraded. destruct (p_disposed p) eqn:Hd; [done|].
  destruct Hinv as [H1 H2 H3 H4 H5 H6].
  assert (conns_ok (setStatus Degraded (Some (error_message e)) p)) as Hok by (by destruct H1).
  destruct (closeActive_ok _ Hok) as [Hok' Hl'].
  unfold tokens in H2. rewrite Hl in H2.
  assert (p_timers p = []) as Htm by (destruct (p_timers p); [done|simpl in H2; lia]).
  assert (∀ q, p_inflight (closeActive q) = p_inflight q ∧ p_timers (closeActive q) = p_timers q ∧
    p_disposed (closeActive q) = p_disposed q ∧ p_attempts (closeActive q) = p_attempts q ∧
    p_connection (closeActive q) = p_connection q) as Hsame
    by (intros q; unfold closeActive; by destruct (p_active q)).
  destruct (Hsame (setStatus Degraded (Some (error_message e)) p)) as (E1 & E2 & E3 & E4 & E5).
  apply scheduleRetry_inv; [done| |by rewrite E3|by rewrite E4|by rewrite E5].
  unfold tokens. rewrite Hl', E1, E2. simpl. rewrite Htm. simpl. lia.
Qed.

(** ** Every step *)

Lemma mount_inv : inv mount.
Proof.
  split; simpl; try done; try lia; try constructor; intros i c Hi; by rewrite lookup_nil in Hi.
Qed.

Lemma all_closed p i c :
  conns_ok p → live p = false → p_conns p !! i = Some c → c_closed c = true.
Proof.
  intros Hok Hl Hi. destruct (c_closed c) eqn:Hc; [done|].
  by rewrite (unclosed_live p i c Hok Hi Hc) in Hl.
Qed.

Lemma connected_inv p : inv p → p_inflight p ≠ 0 → inv (connected p).
Proof.
  intros [H1 H2 H3 H4 H5 H6] Hn. unfold tokens in H2.
  assert (live p = false) as Hl by (destruct (live p); [lia|done]).
  assert (p_inflight p = 1 ∧ p_timers p = []) as [Hi Htm]
    by (destruct (p_timers p); simpl in H2; [split; [lia|done]|lia]).
  set (q := setConns (p_conns p ++ [{| c_ready := CONNECTING; c_closed := false |}])
             (Some (length (p_conns p))) (setInflight (pred (p_inflight p)) p)).
  assert (conns_ok q) as Hq.
  { split; intros i c Hc; subst q; simpl in *;
      apply lookup_app_Some in Hc as [Hc|[Hlen Hc]].
    - intros Hcl. pose proof (all_closed p i c H1 Hl Hc). congruence.
    - apply list_lookup_singleton_Some in Hc as [Hz _]. intros _. f_equal. lia.
    - intros Hcl. by eapply (ok_closed p H1).
    - by apply list_lookup_singleton_Some in Hc as [_ <-]. }
  unfold connected. fold q. destruct (p_disposed q) eqn:Hd.
  - destruct (closeActive_ok q Hq) as [Hok Hlq].
    split; [done| |exact H3|exact H4|by split|].
    + unfold tokens. rewrite Hlq. change (p_inflight (closeActive q)) with (pred (p_inflight p)).
      change (p_timers (closeActive q)) with (p_timers p). rewrite Hi, Htm. simpl. lia.
    + intros Hd'. change (p_disposed p = false) in Hd'. change (p_disposed p = true) in Hd. congruence.
  - assert (live q = true) as Hlq.
    { unfold live. subst q. simpl. by rewrite lookup_app_r, Nat.sub_diag by lia. }
    split; [done| |exact H3|exact H4|by rewrite Hd|].
    + unfold tokens. rewrite Hlq. simpl. rewrite Hi, Htm. simpl. lia.
    + intros _. unfold tokens. rewrite Hlq. lia.
Qed.

Lemma connectFailed_inv e p : inv p → p_inflight p ≠ 0 → inv (connectFailed e p).
Proof.
  intros [H1 H2 H3 H4 H5 H6] Hn. unfold tokens in H2.
  assert (live p = false) as Hl by (destruct (live p); [lia|done]).
  assert (p_inflight p = 1 ∧ p_timers p = []) as [Hi Htm]
    by (destruct (p_timers p); simpl in H2; [split; [lia|done]|lia]).
  unfold connectFailed. change (p_disposed (setInflight (pred (p_inflight p)) p)) with (p_disposed p).
  destruct (p_disposed p) eqn:Hd.
  - split; simpl; try done; try congruence; try (by destruct H1).
    unfold tokens. simpl. change (live _) with (live p). rewrite Hl, Hi, Htm. simpl. lia.
  - apply scheduleRetry_inv; try done; [by destruct H1|].
    unfold tokens. simpl. change (live _) with (live p). by rewrite Hl, Hi, Htm.
Qed.

Lemma dispose_inv p : inv p → inv (dispose p).
Proof.
  intros [H1 H2 H3 H4 H5 H6]. unfold dispose.
  set (q := {| p_store := p_store p; p_disposed := true; p_retry := p_retry p |}).
  assert (conns_ok q) as Hq by (by destruct H1).
  destruct (closeActive_ok q Hq) as [Hok Hl].
  assert (p_inflight (closeActive q) = p_inflight p ∧ p_timers (closeActive q) = p_timers p ∧
    p_disposed (closeActive q) = true ∧ p_attempts (closeActive q) = p_attempts p ∧
    p_retry (closeActive q) = p_retry p) as (E1 & E2 & E3 & E4 & E5)
    by (subst q; unfold closeActive; simpl; by destruct (p_active p)).
  rewrite E5, E2.
  assert (p_timers p = [] ∨ ∃ t d, p_retry p = Some t ∧ p_timers p = [(t, d)]) as Htm.
  { unfold tokens in H2. destruct (p_timers p) as [|[t d] [|]]; [by left| |simpl in H2; lia].
    right. exists t, d. apply Forall_cons in H3 as [(Hr & _) _]. done. }
  assert (∀ ts, ts = [] → inv (setTimers ts (closeActive q))) as Hgoal.
  { intros ts ->. split; simpl; try done; rewrite ?E3, ?E4; try done.
    - by destruct Hok.
    - unfold tokens in *. simpl. change (live (setTimers [] (closeActive q))) with (live (closeActive q)).
      rewrite Hl, E1. simpl. lia. }
  destruct (p_retry p) as [t|] eqn:Hr.
  - apply Hgoal. destruct Htm as [->|(t' & d & Ht & ->)]; [done|]. simplify_eq.
    rewrite filter_cons_False; [done|]. simpl. intros Hne. done.
  - assert (p_timers p = []) as Hnil by (destruct Htm as [|(?&?&?&?)]; done).
    specialize (Hgoal [] eq_refl). rewrite <- Hnil, <- E2 in Hgoal.
    by destruct (closeActive q).
Qed.

Lemma timer_inv t p :
  inv p → t ∈ (p_timers p).*1 →
  inv (connect (setTimers (filter (λ x, x.1 ≠ t) (p_timers p)) p)).
Proof.
  intros [H1 H2 H3 H4 H5 H6] Ht. unfold tokens in H2.
  destruct (p_timers p) as [|[t' d] [|]] eqn:Htm; [by apply not_elem_of_nil in Ht| |simpl in H2; lia].
  apply list_elem_of_singleton in Ht as ->. simpl in H2.
  assert (live p = false ∧ p_inflight p = 0) as [Hl Hi] by (destruct (live p); lia).
  rewrite filter_cons_False by (simpl; auto). rewrite filter_nil.
  unfold connect. change (p_disposed (setTimers [] p)) with (p_disposed p).
  destruct (p_disposed p) eqn:Hd; [by destruct (H5 eq_refl)|].
  split; simpl; try done; try congruence; try (by destruct H1).
  unfold tokens. simpl. change (live _) with (live p). rewrite Hl, Hi. lia.
Qed.

Section Steps.
Context `{Platform}.
Variable JSON_parse : jstr → Error + json.

Lemma listener_inv e i p :
  inv p → is_Some (p_conns p !! i) →
  inv (match p_conns p !! i with Some c => if c_closed c then p else degraded e p | None => p end).
Proof.
  intros Hinv [c Hc]. rewrite Hc. destruct (c_closed c) eqn:Hcl; [done|].
  apply degraded_inv; [done|]. eapply unclosed_live; [by destruct Hinv|done..].
Qed.

Lemma open_live i p : inv p → readyOf i p = Some OPEN → live p = true.
Proof.
  intros Hinv Hr. unfold readyOf in Hr. apply fmap_Some in Hr as (c & Hc & Ho).
  destruct (c_closed c) eqn:Hcl; [|eapply unclosed_live; [by destruct Hinv|done..]].
  destruct (ok_closed p (inv_conns p Hinv) i c Hc Hcl) as [E|E]; congruence.
Qed.

Lemma perform_inv x p p' out : inv p → perform JSON_parse x p = Some (p', out) → inv p'.
Proof.
  intros Hinv. destruct x as [|e|i|i data|i|i|t|]; cbn [perform].
  - destruct (Nat.eqb_spec (p_inflight p) 0); [done|]. intros [= <- <-]. by apply connected_inv.
  - destruct (Nat.eqb_spec (p_inflight p) 0); [done|]. intros [= <- <-]. by apply connectFailed_inv.
  - case_bool_decide as Hr; [|done]. intros [= <- <-]. apply updateConn_inv; [|done].
    intros c Hc. split; [done|]. intros Hcl. unfold readyOf in Hr. rewrite Hc in Hr.
    destruct (ok_closed p (inv_conns p Hinv) i c Hc Hcl); simpl in Hr; congruence.
  - case_bool_decide as Hr; [|done]. pose proof (open_live i p Hinv Hr) as Hl. unfold onMessage.
    destruct (decode_message JSON_parse data) as [e|[v|v]].
    + intros [= <- <-]. apply updateConn_inv; [|by apply degraded_inv].
      intros c _. split; [done|]. intros _. simpl. unfold finished. destruct (c_ready c); auto.
    + destruct (recovery_of v) as [r|]; [|done]. intros [= <- <-].
      destruct Hinv as [H1 H2 H3 H4 H5 H6]. unfold tokens in *. rewrite Hl in H2.
      assert (p_timers p = []) as Htm by (destruct (p_timers p); [done|simpl in H2; lia]).
      split; [by destruct H1|unfold tokens; simpl; change (live _) with (live p); rewrite Hl; lia
             |simpl; by rewrite Htm|simpl; lia|exact H5|].
      intros _. unfold tokens. simpl. change (live _) with (live p). rewrite Hl. lia.
    + destruct (event_of v) as [r|]; [|done]. intros [= <- <-].
      destruct Hinv as [H1 H2 H3 H4 H5 H6].
      split; [by destruct H1|exact H2|exact H3|exact H4|exact H5|].
      intros _. unfold tokens. simpl. change (live _) with (live p). rewrite Hl. lia.
  - case_bool_decide as Hr; [done|]. intros [= <- <-]. unfold onError. apply listener_inv; [done|].
    unfold readyOf in Hr. destruct (p_conns p !! i); [eauto|naive_solver].
  - case_bool_decide as Hr; [done|]. intros [= <- <-]. unfold onClose. apply listener_inv.
    + apply updateConn_inv; [|done]. intros c _. split; [done|]. intros _. by right.
    + unfold readyOf in Hr. simpl. rewrite list_lookup_alter_eq.
      destruct (p_conns p !! i); [simpl; eauto|naive_solver].
  - case_bool_decide as Ht; [|done]. intros [= <- <-]. by apply timer_inv.
  - destruct (p_disposed p); [done|]. intros [= <- <-]. by apply dispose_inv.
Qed.

Lemma runs_inv p acks : runs JSON_parse p acks → inv p.
Proof.
  induction 1 as [|p acks x p' out _ IH Hp]; [apply mount_inv|by eapply perform_inv].
Qed.

(** ** The store *)

Lemma scheduleRetry_store p : p_store (scheduleRetry p) = p_store p.
Proof. unfold scheduleRetry. by destruct (_ <=? _). Qed.

Lemma closeActive_store p : p_store (closeActive p) = p_store p.
Proof. unfold closeActive. by destruct (p_active p). Qed.

Lemma degraded_store e p : p_store (degraded e p) = p_store p.
Proof.
  unfold degraded. destruct (p_disposed p); [done|].
  by rewrite scheduleRetry_store, closeActive_store.
Qed.

(** A step leaves the store alone, or is the delivery of one event or recovery, and
    acknowledges at most the delivered position. *)
Lemma perform_store x p p' out :
  perform JSON_parse x p = Some (p', out) →
  (p_store p' = p_store p ∧ out = []) ∨
  (∃ e, p_store p' = (Store.accept e (p_store p)).1 ∧ Forall (eq (ev_sequence e)) out) ∨
  (∃ r, p_store p' = (Store.recover r (p_store p)).1 ∧
        Forall (eq (rp_latest_sequence (rec_replay r))) out).
Proof.
  assert (∀ i z q, Forall (eq z) (acknowledge i z q)) as Hack.
  { intros i z q. unfold acknowledge. destruct (p_conns q !! i); [|constructor].
    case_bool_decide; repeat constructor. }
  destruct x as [|e|i|i data|i|i|t|]; cbn [perform].
  - destruct (_ =? _); [done|]. intros [= <- <-]. left. split; [|done]. unfold connected.
    case_match; [by rewrite closeActive_store|done].
  - destruct (_ =? _); [done|]. intros [= <- <-]. left. split; [|done]. unfold connectFailed.
    case_match; [done|by rewrite scheduleRetry_store].
  - case_bool_decide; [|done]. intros [= <- <-]. by left.
  - case_bool_decide; [|done]. unfold onMessage.
    destruct (decode_message JSON_parse data) as [e|[v|v]].
    + intros [= <- <-]. left. split; [|done]. simpl. apply degraded_store.
    + destruct (recovery_of v) as [r|]; [|done]. intros [= <- <-]. right; right. exists r. auto.
    + destruct (event_of v) as [e|]; [|done]. intros [= <- <-]. right; left. exists e. auto.
  - case_bool_decide; [done|]. intros [= <- <-]. left. split; [|done]. unfold onError.
    case_match; [|done]. case_match; [done|apply degraded_store].
  - case_bool_decide; [done|]. intros [= <- <-]. left. split; [|done]. unfold onClose.
    case_match; [|done]. case_match; [done|by rewrite degraded_store].
  - case_bool_decide; [|done]. intros [= <- <-]. left. split; [|done]. unfold connect.
    by case_match.
  - destruct (p_disposed p); [done|]. intros [= <- <-]. left. split; [|done]. unfold dispose.
    case_match; simpl; by rewrite closeActive_store.
Qed.

Lemma runs_reachable p acks : runs JSON_parse p acks → reachable (p_store p).
Proof.
  induction 1 as [|p acks x p' out _ IH Hp]; [apply reach_new|].
  destruct (perform_store _ _ _ _ Hp) as [[-> _]|[(e & -> & _)|(r & -> & _)]]; [done|..];
    (eapply reach_step; [exact IH|constructor]).
Qed.

Lemma perform_disposed x p p' out :
  p_disposed p = true → perform JSON_parse x p = Some (p', out) → p_disposed p' = true.
Proof.
  assert (∀ q, p_disposed (closeActive q) = p_disposed q) as Hc
    by (intros q; unfold closeActive; by destruct (p_active q)).
  assert (∀ e q, p_disposed q = true → degraded e q = q) as Hdg
    by (intros e q; unfold degraded; by intros ->).
  intros Hd. destruct x as [|e|i|i data|i|i|t|]; cbn [perform].
  - destruct (_ =? _); [done|]. intros [= <- <-]. unfold connected.
    case_match; [by rewrite Hc|done].
  - destruct (_ =? _); [done|]. intros [= <- <-]. unfold connectFailed. simpl. by rewrite Hd.
  - case_bool_decide; [|done]. by intros [= <- <-].
  - case_bool_decide; [|done]. unfold onMessage.
    destruct (decode_message JSON_parse data) as [e|[v|v]].
    + rewrite Hdg by done. by intros [= <- <-].
    + destruct (recovery_of v); [|done]. by intros [= <- <-].
    + destruct (event_of v); [|done]. by intros [= <- <-].
  - case_bool_decide; [done|]. intros [= <- <-]. unfold onError. rewrite Hdg by done. by repeat case_match.
  - case_bool_decide; [done|]. intros [= <- <-]. unfold onClose. rewrite Hdg by done. by repeat case_match.
  - case_bool_decide; [|done]. intros [= <- <-]. unfold connect. simpl. by rewrite Hd.
  - by rewrite Hd.
Qed.

(** ** Claims *)

(** [C4] One stream at a time: in every state of a mounted provider at most one thing is
    going on among a connect in flight, a scheduled retry and a connection that was not
    given up; so two connections are never live together.  At most five retries follow
    each other without a recovery, and a scheduled retry waits half a second doubled per
    attempt, never more than five seconds. *)
Theorem provider_single_flight (p : Provider) (acks : list Z) :
  runs JSON_parse p acks →
  tokens p ≤ 1 ∧
  (∀ i j ci cj, p_conns p !! i = Some ci → p_conns p !! j = Some cj →
     c_closed ci = false → c_closed cj = false → i = j) ∧
  p_attempts p ≤ 5 ∧
  Forall (λ t, t.2 = Z.min (500 * 2 ^ Z.of_nat (pred (p_attempts p))) 5000 ∧
               (500 <= t.2 <= 5000)%Z) (p_timers p).
Proof.
  intros [[Ho _] H2 H3 H4 _ _]%runs_inv. split_and!; [done| |done|].
  - intros i j ci cj Hi Hj Hci Hcj. pose proof (Ho i ci Hi Hci) as E1.
    pose proof (Ho j cj Hj Hcj) as E2. congruence.
  - eapply Forall_impl; [exact H3|]. intros [t d] (_ & Hd & _). simpl in *. subst d. unfold backoff.
    split; [done|]. pose proof (Z.pow_pos_nonneg 2 (Z.of_nat (pred (p_attempts p)))). lia.
Qed.

(** [C25] The provider never stalls silently: while it is mounted either something is
    going on, or it shows the degraded status after its five attempts. *)
Theorem provider_keeps_going_or_gives_up (p : Provider) (acks : list Z) :
  runs JSON_parse p acks → p_disposed p = false →
  tokens p = 1 ∨ (p_attempts p = 5 ∧ p_connection p = Degraded).
Proof.
  intros [_ H2 _ _ _ H6]%runs_inv Hd. destruct (decide (tokens p = 0)); [right; auto|left; lia].
Qed.

(** Unmounting is final: afterwards no retry is scheduled and every connection is
    closed, also one whose ticket was still in flight when the component went away. *)
Theorem disposed_provider_is_quiet (p : Provider) (acks : list Z) :
  runs JSON_parse p acks → p_disposed p = true →
  p_timers p = [] ∧ Forall (λ c, c_closed c = true ∧ finished (c_ready c)) (p_conns p) ∧
  ∀ x p' out, perform JSON_parse x p = Some (p', out) → p_disposed p' = true.
Proof.
  intros Hr Hd. pose proof (runs_inv p acks Hr) as [H1 _ _ _ H5 _]. destruct (H5 Hd) as [Ht Hl].
  split_and!; [done| |intros x p' out; by apply perform_disposed].
  apply Forall_lookup. intros i c Hc. pose proof (all_closed p i c H1 Hl Hc) as Hcl.
  split; [done|by eapply ok_closed].
Qed.

(** [C26] The provider's store is always a reachable, well-formed store, and a position is
    acknowledged to the server only when the store has reached it. *)
Theorem acknowledged_positions_are_applied (p p' : Provider) (acks out : list Z) (x : input) :
  runs JSON_parse p acks → perform JSON_parse x p = Some (p', out) →
  store_wf (p_store p') ∧ Forall (λ z, (z <= last_sequence (state (p_store p')))%Z) out.
Proof.
  intros Hr Hp. split.
  - apply reachable_wf. eapply runs_reachable. by eapply runs_step.
  - destruct (perform_store _ _ _ _ Hp) as [[_ ->]|[(e & -> & Ho)|(r & -> & Ho)]]; [constructor|..];
      eapply Forall_impl; [exact Ho|intros z <-|exact Ho|intros z <-].
    + rewrite accept_state, applyEvent_last. lia.
    + simpl. unfold applyRecovery. simpl. lia.
Qed.
End Steps.

(** ** Witnesses *)

Section Play.
Context `{Platform}.
Variable JSON_parse : jstr → Error + json.

(** A run given by its inputs. *)
Fixpoint play (xs : list input) (p : Provider) (acks : list Z) : option (Provider * list Z) :=
  match xs with
  | [] => Some (p, acks)
  | x :: xs => match perform JSON_parse x p with
               | Some (p', out) => play xs p' (acks ++ out)
               | None => None
               end
  end.

Lemma play_runs xs p acks p' acks' :
  runs JSON_parse p acks → play xs p acks = Some (p', acks') → runs JSON_parse p' acks'.
Proof.
  revert p acks; induction xs as [|x xs IH]; intros p acks Hr; simpl; [by intros [= <- <-]|].
  destruct (perform JSON_parse x p) as [[p1 out]|] eqn:Hp; [|done]. apply IH. by eapply runs_step.
Qed.
End Play.

Definition sample_event : json :=
  JObj [(js "protocol_version", JStr (js PROTOCOL_VERSION)); (js "sequence", JNum (NFin 3 0));
        (js "event_id", JStr (uuid "e")); (js "type", JStr (js "turn.started"));
        (js "occurred_at", JStr (js "2025-01-01T00:00:00Z"));
        (js "correlation", JObj [(js "actor_id", JStr (uuid "a")); (js "turn_id", JStr (uuid "b"))]);
        (js "payload", JObj [])].
Definition sample_parse (s : jstr) : Error + json :=
  if jeqb s (js "event") then inr (JObj [(js "type", JStr (js "event")); (js "event", sample_event)])
  else inl (mkError (js "Unexpected token")).

#[local] Existing Instance test_platform.

(** A refused ticket, a retry, an open stream. *)
Definition to_stream : list input :=
  [ConnectFailed (mkError (js "offline")); TimerFired 0; Connected; SocketOpened 0].
Definition at_inputs (xs : list input) : Provider :=
  default mount (fst <$> play sample_parse xs mount []).
Definition acks_at (xs : list input) : list Z :=
  default [] (snd <$> play sample_parse xs mount []).

Lemma at_runs xs : is_Some (play sample_parse xs mount []) → runs sample_parse (at_inputs xs) (acks_at xs).
Proof.
  intros [[p acks] Hp]. unfold at_inputs, acks_at. rewrite Hp. simpl.
  eapply play_runs; [apply runs_mount|exact Hp].
Qed.

Definition broken : list input := to_stream ++ [SocketMessage 0 (js "noise")].

Lemma provider_single_flight_witness :
  tokens (at_inputs broken) ≤ 1 ∧ Forall (λ t, (500 <= t.2 <= 5000)%Z) (p_timers (at_inputs broken)) ∧
  length (p_timers (at_inputs broken)) = 1.
Proof.
  destruct (provider_single_flight sample_parse (at_inputs broken) (acks_at broken)) as (Ht & _ & _ & Hd).
  - apply at_runs. vm_compute. eauto.
  - split; [exact Ht|]. split; [|vm_compute; reflexivity].
    eapply Forall_impl; [exact Hd|]. intros t [_ Hb]. exact Hb.
Defined.

Definition gave_up : list input :=
  concat (map (λ t, [ConnectFailed (mkError (js "offline")); TimerFired t]) (seq 0 5))
  ++ [ConnectFailed (mkError (js "offline"))].

Lemma provider_keeps_going_or_gives_up_witness :
  tokens (at_inputs gave_up) = 1 ∨
  (p_attempts (at_inputs gave_up) = 5 ∧ p_connection (at_inputs gave_up) = Degraded).
Proof.
  apply (provider_keeps_going_or_gives_up sample_parse (at_inputs gave_up) (acks_at gave_up)).
  - apply at_runs. vm_compute. eauto.
  - vm_compute. reflexivity.
Defined.

Definition unmounted : list input := [Unmounted; Connected].

Lemma disposed_provider_is_quiet_witness :
  p_timers (at_inputs unmounted) = [] ∧
  Forall (λ c, c_closed c = true ∧ finished (c_ready c)) (p_conns (at_inputs unmounted)).
Proof.
  destruct (disposed_provider_is_quiet sample_parse (at_inputs unmounted) (acks_at unmounted))
    as (Ht & Hc & _).
  - apply at_runs. vm_compute. eauto.
  - vm_compute. reflexivity.
  - exact (conj Ht Hc).
Defined.

Lemma acknowledged_positions_are_applied_witness :
  ∃ p', perform sample_parse (SocketMessage 0 (js "event")) (at_inputs to_stream) = Some (p', [3%Z]) ∧
    (3 <= last_sequence (state (p_store p')))%Z.
Proof.
  destruct (perform sample_parse (SocketMessage 0 (js "event")) (at_inputs to_stream))
    as [[p' out]|] eqn:Hp; [|vm_compute in Hp; discriminate].
  assert (out = [3%Z]) as -> by (vm_compute in Hp; congruence).
  destruct (acknowledged_positions_are_applied sample_parse (at_inputs to_stream) p'
              (acks_at to_stream) [3%Z] (SocketMessage 0 (js "event"))) as [_ Ho].
  - apply at_runs. vm_compute. eauto.
  - exact Hp.
  - exists p'. split; [reflexivity|]. apply Forall_inv in Ho. exact Ho.
Defined.
