(* ===== verification/JsArray.v ===== *)
(** * Arrays

    [Array.prototype.sort] with a comparator: a stable sort.  [le a b] says that the
    comparator does not put [b] strictly before [a]. *)
From stdpp Require Import base list sorting.
From Stdlib Require Import ZArith.
From S2P Require Import Prelude.

Section Sort.
Context {A : Type}.
Variable le : A → A → bool.

Fixpoint insert_by (x : A) (l : list A) : list A :=
  match l with
  | [] => [x]
  | y :: l' => if le x y then x :: l else y :: insert_by x l'
  end.

Definition sort_by (l : list A) : list A := foldr insert_by [] l.

Lemma insert_by_perm x l : insert_by x l ≡ₚ x :: l.
Proof.
  induction l as [|y l IH]; simpl; [done|]. destruct (le x y); [done|]. rewrite IH. constructor.
Qed.

Lemma sort_by_perm l : sort_by l ≡ₚ l.
Proof. induction l as [|x l IH]; simpl; [done|]. by rewrite insert_by_perm, IH. Qed.

Lemma sort_by_elem x l : x ∈ sort_by l ↔ x ∈ l.
Proof. by rewrite sort_by_perm. Qed.

Hypothesis le_total : ∀ a b, le a b = false → le b a = true.
Hypothesis le_trans : ∀ a b c, le a b = true → le b c = true → le a c = true.

Definition ordered (l : list A) : Prop := StronglySorted (λ a b, le a b = true) l.

Lemma insert_by_ordered x l : ordered l → ordered (insert_by x l).
Proof.
  induction 1 as [|y l Hl IH Hy]; simpl; [repeat constructor|].
  destruct (le x y) eqn:Hxy.
  - constructor; [by constructor|]. constructor; [done|].
    eapply Forall_impl; [exact Hy|]. intros z Hz. by eapply le_trans.
  - constructor; [done|]. rewrite insert_by_perm. constructor; [by apply le_total|done].
Qed.

Lemma sort_by_ordered l : ordered (sort_by l).
Proof. induction l as [|x l IH]; simpl; [constructor|by apply insert_by_ordered]. Qed.

(** The first element that satisfies a test is a least one among those that do. *)
Lemma find_ordered (f : A → bool) l x :
  ordered l → find f l = Some x → ∀ y, y ∈ l → f y = true → y = x ∨ le x y = true.
Proof.
  induction 1 as [|z l Hl IH Hz]; simpl; [done|]. destruct (f z) eqn:Hf.
  - intros [= ->] y [->|Hy]%elem_of_cons _; [by left|right].
    rewrite Forall_forall in Hz. by apply Hz.
  - intros Hx y [->|Hy]%elem_of_cons Hfy; [congruence|by apply IH].
Qed.
End Sort.
