(* ===== verification/Visibility.v ===== *)
(** * Which computer activity is on screen

    The selectors of [ui/web/src/features/computer/visibility.ts] over the operator
    state, and what they select. *)
From stdpp Require Import base list strings.
From Stdlib Require Import ZArith NArith.
From S2P Require Import Prelude JsString JsValue JsArray Regex Catalog Protocol Display Envelope.
From S2P Require Import Events EventsFacts Store EventsProps.

Section Selectors.
Context `{Platform}.

Definition isComputerSurfaceTool (tool operation : option jstr) : bool :=
  existsb (λ candidate : option jstr,
    match candidate with
    | Some s =>
        let normalized := toLowerCase (trim s) in
        startsWith (js "browser_") normalized || startsWith (js "browser.") normalized ||
        startsWith (js "computer_") normalized || startsWith (js "computer.") normalized
    | None => false
    end) [tool; operation].

(** [sessionID === undefined || actual === sessionID]. *)
Definition inSession (sessionID actual : option jstr) : bool :=
  match sessionID with None => true | Some _ => bool_decide (actual = sessionID) end.

Definition isActiveActivity (sessionID : option jstr) (activity : ComputerActivity) : bool :=
  if ca_terminal activity || ca_unsupported activity then false else
  match ca_payload activity with
  | None => false
  | Some payload =>
      isComputerSurfaceTool (ca_tool activity) (ca_operation activity) &&
      inSession sessionID (cs_session_id (cp_scope payload))
  end.

Definition activeComputerActivities (state : OperatorState) (sessionID : option jstr)
    : list ComputerActivity :=
  List.filter (isActiveActivity sessionID) (computer_activities state).*2.

Definition hasActiveComputerActivity (state : OperatorState) (sessionID : option jstr) : bool :=
  0 <? length (activeComputerActivities state sessionID).

Definition activityTurn (a : ComputerActivity) : option jstr :=
  p ← ca_payload a; cs_turn_id (cp_scope p).

(** The comparator [right.last_sequence - left.last_sequence]. *)
Definition newer (a b : ComputerActivity) : bool := (ca_last_sequence b <=? ca_last_sequence a)%Z.

Definition activeComputerTurnID (state : OperatorState) (sessionID : option jstr) : option jstr :=
  find (λ a, bool_decide (is_Some (activityTurn a)))
    (sort_by newer (activeComputerActivities state sessionID)) ≫= activityTurn.

Definition hasComputerHistory (state : OperatorState) (sessionID : option jstr) : bool :=
  existsb (λ event, startsWith (js "tool.") (ev_type event) &&
                    inSession sessionID (cor_session_id (ev_correlation event)))
    (recent_events state).

(** ** What is selected *)

Lemma active_elem state sid a :
  a ∈ activeComputerActivities state sid ↔
  a ∈ (computer_activities state).*2 ∧ isActiveActivity sid a = true.
Proof. unfold activeComputerActivities. by rewrite !list_elem_of_In, filter_In. Qed.

Lemma newer_ordered l : ordered newer (sort_by newer l).
Proof.
  apply sort_by_ordered; unfold newer; intros; bools; apply Z.leb_le; lia.
Qed.

(** The turn on screen: the selector gives the turn of an unfinished browser or
    computer activity of the session with the largest sequence number among those that
    belong to a turn, and nothing exactly when no such activity belongs to one; it never
    gives a turn when the surface is reported idle. *)
Theorem active_turn_is_the_latest (state : OperatorState) (sid : option jstr) :
  match activeComputerTurnID state sid with
  | Some turn =>
      hasActiveComputerActivity state sid = true ∧
      ∃ a, a ∈ (computer_activities state).*2 ∧ isActiveActivity sid a = true ∧
        activityTurn a = Some turn ∧
        ∀ b, b ∈ (computer_activities state).*2 → isActiveActivity sid b = true →
          is_Some (activityTurn b) → (ca_last_sequence b <= ca_last_sequence a)%Z
  | None =>
      ∀ b, b ∈ (computer_activities state).*2 → isActiveActivity sid b = true → activityTurn b = None
  end.
Proof.
  unfold activeComputerTurnID. set (l := sort_by newer _).
  destruct (find _ l) as [a|] eqn:Hf; simpl.
  - pose proof Hf as Hfind. apply find_some in Hf as [Hin Hturn].
    rewrite bool_decide_eq_true in Hturn. destruct Hturn as [turn Hturn]. rewrite Hturn.
    rewrite <- list_elem_of_In in Hin. subst l. rewrite sort_by_elem in Hin.
    split.
    + unfold hasActiveComputerActivity. apply Nat.ltb_lt.
      destruct (activeComputerActivities state sid); [by apply not_elem_of_nil in Hin|simpl; lia].
    + apply active_elem in Hin as [Ha Hact]. exists a. split_and!; [done..|].
      intros b Hb Hbact Hbt.
      destruct (find_ordered newer _ _ a (newer_ordered _) Hfind b) as [->|Hle].
      * apply sort_by_elem, active_elem. done.
      * by apply bool_decide_eq_true.
      * lia.
      * unfold newer in Hle. bools. lia.
  - intros b Hb Hbact. pose proof (find_none _ _ Hf b) as Hn. subst l.
    rewrite <- list_elem_of_In, sort_by_elem, active_elem in Hn. specialize (Hn (conj Hb Hbact)).
    apply bool_decide_eq_false in Hn. destruct (activityTurn b); [|done]. destruct Hn; eauto.
Qed.
End Selectors.

(** A run with two turns on screen: the later one is selected. *)
#[local] Existing Instance test_platform.

Definition screen_payload (turn : string) : ComputerEventPayload := {|
  cp_tool_event_id := uuid "1"; cp_provider_tool_call_id := js "call"; cp_tool := js "Browser_open";
  cp_operation := js "open";
  cp_scope := {| cs_actor_id := uuid "a"; cs_session_id := Some (uuid "b");
                 cs_turn_id := Some (uuid turn); cs_task_id := None; cs_outcome_id := None;
                 cs_agent_id := js "ion" |};
  cp_risk_class := js "GREEN"; cp_phase := started; cp_timestamp := js "now";
  cp_display_kind := js "page"; cp_source_references := []; cp_terminal_status := None;
  cp_progress := None; cp_result := None; cp_display_model := None |}.

Definition screen_activity (id turn : string) (seq : Z) : jstr * ComputerActivity :=
  (uuid id, {| ca_id := uuid id; ca_provider_tool_call_id := None; ca_tool := Some (js "Browser_open");
    ca_operation := Some (js "open"); ca_agent_id := None; ca_phase := Some started;
    ca_terminal := false; ca_unsupported := false; ca_conflict := false;
    ca_first_sequence := seq; ca_last_sequence := seq; ca_latest_event_id := uuid "e";
    ca_payload := Some (screen_payload turn) |}).

Definition screen_state : OperatorState := {|
  last_sequence := 9; gap := false; snapshot := None; recent_events := []; turns := [];
  pending_approvals := [];
  computer_activities := [screen_activity "1" "c" 7; screen_activity "2" "d" 9];
  computer_order := [uuid "1"; uuid "2"] |}.

Example latest_turn_selected :
  activeComputerTurnID screen_state (Some (uuid "b")) = Some (uuid "d") ∧
  activeComputerTurnID screen_state (Some (uuid "f")) = None.
Proof. vm_compute. done. Qed.
