(* ===== verification/Shell.v ===== *)
(** * The web shell

    [OperatorExperience] of [ui/web/src/app/App.tsx]: when the computer stage opens by
    itself, and how it is dismissed; the panel separator of
    [ui/web/src/components/PanelResizeHandle.tsx]; the command palette of
    [ui/web/src/components/CommandPalette.tsx].

    Screen coordinates are rationals: the sums of small binary fractions that layout
    produces are exact in double precision. *)
From stdpp Require Import base list strings.
From Stdlib Require Import ZArith NArith QArith Qround Qminmax Lqa.
From S2P Require Import Prelude JsString JsValue JsArray Regex Catalog Protocol Display Envelope.
From S2P Require Import Events EventsFacts Store EventsProps Visibility.
#[local] Open Scope Z_scope.

(** ** The computer stage *)

Record Stage : Type := {
  reviewSession : option jstr;
  autoTurn : option jstr;
  dismissedTurn : option jstr;
}.

Definition initialStage : Stage := {| reviewSession := None; autoTurn := None; dismissedTurn := None |}.

(** What the component reads of its surroundings: the route, the session and the state. *)
Record Surroundings : Type := {
  sr_pathname : jstr;
  sr_session : option jstr;
  sr_state : OperatorState;
}.

Section Stage.
Context `{Platform}.

Definition chatActive (x : Surroundings) : bool :=
  jeqb (sr_pathname x) (js "/chat") || jeqb (sr_pathname x) (js "/").
Definition computerRoute (x : Surroundings) : bool := jeqb (sr_pathname x) (js "/computer").
Definition studioActive (x : Surroundings) : bool :=
  jeqb (sr_pathname x) (js "/studio") || startsWith (js "/studio/") (sr_pathname x).

Definition computerScope (x : Surroundings) : jstr := default (js "unscoped") (sr_session x).

Definition workingTurn (x : Surroundings) : option jstr :=
  if chatActive x then activeComputerTurnID (sr_state x) (sr_session x) else None.

Definition computerHistoryAvailable (x : Surroundings) : bool :=
  chatActive x && hasComputerHistory (sr_state x) (sr_session x).

(** [operatorState.turns[id]?.status] is running or recovering. *)
Definition turnLive (x : Surroundings) (id : jstr) : bool :=
  match assoc_get id (turns (sr_state x)) with Some t => is_live (t_status t) | None => false end.

Definition reviewOpen (x : Surroundings) (s : Stage) : bool :=
  chatActive x && bool_decide (reviewSession s = Some (computerScope x)).

Definition autoOpen (x : Surroundings) (s : Stage) : bool :=
  chatActive x &&
  match autoTurn s with
  | None => false
  | Some t => bool_decide (dismissedTurn s ≠ Some t) &&
              (bool_decide (workingTurn x = Some t) || turnLive x t)
  end.

Definition computerVisible (x : Surroundings) (s : Stage) : bool :=
  computerRoute x || (chatActive x && (autoOpen x s || reviewOpen x s)).

(** One run of the effect: its updates are queued and the last one of a variable wins. *)
Definition stageEffect (x : Surroundings) (s : Stage) : Stage :=
  if negb (chatActive x)
  then {| reviewSession := None; autoTurn := autoTurn s; dismissedTurn := dismissedTurn s |}
  else
    let opened := match workingTurn x with
                  | Some w => if bool_decide (Some w ≠ dismissedTurn s) then Some w else autoTurn s
                  | None => autoTurn s
                  end in
    {| reviewSession := reviewSession s;
       autoTurn := match autoTurn s with
                   | Some t => if bool_decide (workingTurn x ≠ Some t) && negb (turnLive x t)
                               then None else opened
                   | None => opened
                   end;
       dismissedTurn := match dismissedTurn s with
                        | Some t => if turnLive x t then Some t else None
                        | None => None
                        end |}.

Definition closeComputer (x : Surroundings) (s : Stage) : Stage := {|
  reviewSession := None; autoTurn := None;
  dismissedTurn := match autoTurn s with
                   | Some t => Some t
                   | None => match workingTurn x with Some w => Some w | None => dismissedTurn s end
                   end |}.

Definition toggleComputer (x : Surroundings) (s : Stage) : Stage :=
  if computerVisible x s && negb (computerRoute x) then closeComputer x s
  else {| reviewSession := Some (computerScope x); autoTurn := autoTurn s; dismissedTurn := None |}.

(** The effect runs again after every render in which one of its dependencies changed. *)
Fixpoint stageEffects (n : nat) (x : Surroundings) (s : Stage) : Stage :=
  match n with O => s | S n => stageEffects n x (stageEffect x s) end.

(** *** Claims *)

(** The dismissal is settled: absent, or of a turn that still runs. *)
Definition settledDismissal (x : Surroundings) (s : Stage) : Prop :=
  match dismissedTurn s with Some t => turnLive x t = true | None => True end.

Lemma stageEffect_settledDismissal x s : chatActive x = true → settledDismissal x (stageEffect x s).
Proof.
  intros Hc. unfold settledDismissal, stageEffect. rewrite Hc. cbn [negb dismissedTurn].
  destruct (dismissedTurn s) as [t|]; [|done]. by destruct (turnLive x t) eqn:Ht.
Qed.

Lemma stageEffect_dismissed x s :
  settledDismissal x s → dismissedTurn (stageEffect x s) = dismissedTurn s.
Proof.
  unfold settledDismissal, stageEffect. intros Hs. destruct (chatActive x); [|done]. cbn [negb dismissedTurn].
  destruct (dismissedTurn s) as [t|]; [by rewrite Hs|done].
Qed.

(** What a run makes of the turn shown, once the dismissal is settled. *)
Definition nextAuto (x : Surroundings) (d a : option jstr) : option jstr :=
  let opened := match workingTurn x with
                | Some w => if bool_decide (Some w ≠ d) then Some w else a
                | None => a
                end in
  match a with
  | Some t => if bool_decide (workingTurn x ≠ Some t) && negb (turnLive x t) then None else opened
  | None => opened
  end.

Lemma stageEffect_settled x s :
  chatActive x = true → settledDismissal x s →
  stageEffect x s = {| reviewSession := reviewSession s;
                       autoTurn := nextAuto x (dismissedTurn s) (autoTurn s);
                       dismissedTurn := dismissedTurn s |}.
Proof.
  intros Hc Hs. pose proof (stageEffect_dismissed x s Hs) as Hd. unfold stageEffect in *.
  rewrite Hc in *. cbn [negb dismissedTurn] in *. by rewrite Hd.
Qed.

Lemma nextAuto_working x d w :
  workingTurn x = Some w → Some w ≠ d →
  nextAuto x d (Some w) = Some w ∧ nextAuto x d None = Some w.
Proof.
  intros Hw Hd. unfold nextAuto. rewrite Hw, (bool_decide_true _ Hd).
  by rewrite (bool_decide_false (Some w ≠ Some w)) by naive_solver.
Qed.

Lemma nextAuto_settles x d a : nextAuto x d (nextAuto x d (nextAuto x d a)) = nextAuto x d (nextAuto x d a).
Proof.
  destruct (workingTurn x) as [w|] eqn:Hw; [destruct (decide (Some w = d)) as [Hd|Hd]|].
  2:{ destruct (nextAuto_working x d w Hw Hd) as [H1 H2].
      assert (nextAuto x d a = None ∨ nextAuto x d a = Some w) as [->| ->]; [|congruence..].
      unfold nextAuto. rewrite Hw, (bool_decide_true _ Hd).
      destruct a as [t|]; [|by right]. destruct (_ && _); [by left|by right]. }
  - unfold nextAuto. rewrite Hw, (bool_decide_false (Some w ≠ d)) by naive_solver.
    destruct a as [t|]; [|done].
    destruct (bool_decide (Some w ≠ Some t) && negb (turnLive x t)) eqn:Hb; [done|]. by rewrite !Hb.
  - unfold nextAuto. rewrite Hw. destruct a as [t|]; [|done].
    destruct (bool_decide (None ≠ Some t) && negb (turnLive x t)) eqn:Hb; [done|]. by rewrite !Hb.
Qed.

(** The effect of the shell settles: from every state of the stage and in every
    surroundings, three runs of the effect reach a state that a further run leaves as it
    is, so re-rendering on its own updates ends. *)
Theorem stage_effect_settles (x : Surroundings) (s : Stage) :
  stageEffect x (stageEffects 3 x s) = stageEffects 3 x s.
Proof.
  cbn [stageEffects]. destruct (chatActive x) eqn:Hc; [|unfold stageEffect; by rewrite Hc].
  pose proof (stageEffect_settledDismissal x s Hc) as Hs. set (s1 := stageEffect x s) in *. clearbody s1.
  rewrite (stageEffect_settled x s1 Hc Hs).
  assert (∀ a, stageEffect x {| reviewSession := reviewSession s1; autoTurn := a; dismissedTurn := dismissedTurn s1 |} =
    {| reviewSession := reviewSession s1; autoTurn := nextAuto x (dismissedTurn s1) a;
       dismissedTurn := dismissedTurn s1 |}) as Hstep by (intros a; by apply stageEffect_settled).
  rewrite !Hstep. by rewrite nextAuto_settles.
Qed.

Lemma stage_hidden x d :
  chatActive x = true →
  computerVisible x {| reviewSession := None; autoTurn := None; dismissedTurn := d |} = false.
Proof.
  intros Hc. unfold computerVisible, autoOpen, reviewOpen. cbn [autoTurn reviewSession]. rewrite Hc.
  rewrite bool_decide_false by done. cbn [andb orb]. rewrite orb_false_r.
  unfold chatActive, computerRoute in *. apply jeqb_neq. intros He. rewrite He in Hc. by vm_compute in Hc.
Qed.

(** A closed stage stays closed: closing the stage while the turn it shows still runs
    hides it, and however often the effect runs it stays hidden and the turn dismissed,
    as long as the surroundings do not change. *)
Theorem closed_stage_stays_closed (n : nat) (x : Surroundings) (s : Stage) (t : jstr) :
  chatActive x = true → autoTurn s = Some t ∨ (autoTurn s = None ∧ workingTurn x = Some t) →
  turnLive x t = true → workingTurn x = Some t ∨ workingTurn x = None →
  computerVisible x (stageEffects n x (closeComputer x s)) = false ∧
  dismissedTurn (stageEffects n x (closeComputer x s)) = Some t.
Proof.
  intros Hc Hs Ht Hw.
  assert (closeComputer x s = {| reviewSession := None; autoTurn := None; dismissedTurn := Some t |}) as ->.
  { unfold closeComputer. by destruct Hs as [->|[-> ->]]. }
  assert (stageEffects n x {| reviewSession := None; autoTurn := None; dismissedTurn := Some t |} =
          {| reviewSession := None; autoTurn := None; dismissedTurn := Some t |}) as ->.
  { induction n as [|n IH]; [done|]. cbn [stageEffects].
    rewrite stageEffect_settled by done. cbn [reviewSession autoTurn dismissedTurn].
    unfold nextAuto. destruct Hw as [->| ->]; [|done]. by rewrite bool_decide_false by naive_solver. }
  split; [by apply stage_hidden|done].
Qed.

(** Closing does not last when the turn of the activity is not a running one: the
    first run of the effect forgets the dismissal and the second opens the stage again,
    although nothing changed. *)
Theorem closed_stage_reopens (x : Surroundings) (s : Stage) (t : jstr) :
  chatActive x = true → workingTurn x = Some t → turnLive x t = false →
  autoTurn s = Some t ∨ autoTurn s = None →
  computerVisible x (closeComputer x s) = false ∧
  computerVisible x (stageEffects 2 x (closeComputer x s)) = true.
Proof.
  intros Hc Hw Ht Ha.
  assert (closeComputer x s = {| reviewSession := None; autoTurn := None; dismissedTurn := Some t |}) as ->.
  { unfold closeComputer. rewrite Hw. by destruct Ha as [->| ->]. }
  split.
  - by apply stage_hidden.
  - cbn [stageEffects]. unfold stageEffect at 2. rewrite Hc, Hw. cbn [negb reviewSession autoTurn dismissedTurn].
    rewrite Ht. rewrite bool_decide_false by naive_solver.
    rewrite stageEffect_settled by done. cbn [reviewSession autoTurn dismissedTurn].
    unfold nextAuto. rewrite Hw. rewrite bool_decide_true by done.
    unfold computerVisible, autoOpen. cbn [autoTurn dismissedTurn]. rewrite Hc, Hw.
    rewrite !bool_decide_true by done. cbn. by rewrite orb_true_r.
Qed.
End Stage.

(** ** The panel separator *)

Inductive Direction : Type := fromLeft | fromRight.

Record HandleProps : Type := {
  hp_default : Z;
  hp_direction : Direction;
  hp_max : Z;
  hp_min : Z;
  hp_opposite : Z;
}.

(** [getBoundingClientRect()] of the container, when it is mounted. *)
Record Bounds : Type := { b_left : Q; b_right : Q }.

Definition handleWidth : Z := 7.
Definition keyboardStep : Z := 24.

(** The value is the width in the parent's state, the flag what was last reported to it. *)
Record Handle : Type := {
  h_value : Z;
  h_pointer : option Z;
  h_resizing : bool;
}.

Definition Math_round (q : Q) : Z := Qfloor (q + (1 # 2)).

Section Handle.
Variable props : HandleProps.

Definition effectiveMaximum (bounds : option Bounds) : Q :=
  match bounds with
  | None => inject_Z (hp_max props)
  | Some b =>
      Qmax (inject_Z (hp_min props))
        (Qmin (inject_Z (hp_max props))
           (b_right b - b_left b - inject_Z (hp_opposite props) - inject_Z handleWidth))
  end.

Definition clampWidth (bounds : option Bounds) (next : Q) : Z :=
  Math_round (Qmax (inject_Z (hp_min props)) (Qmin (effectiveMaximum bounds) next)).

Definition setValue (v : Z) (h : Handle) : Handle :=
  {| h_value := v; h_pointer := h_pointer h; h_resizing := h_resizing h |}.

Definition resizeTo (bounds : option Bounds) (next : Q) (h : Handle) : Handle :=
  setValue (clampWidth bounds next) h.

Definition valueFromPointer (bounds : option Bounds) (clientX : Q) (h : Handle) : Q :=
  match bounds with
  | None => inject_Z (h_value h)
  | Some b => match hp_direction props with
              | fromLeft => clientX - b_left b
              | fromRight => b_right b - clientX
              end
  end.

Definition finishResize (pointerId : Z) (h : Handle) : Handle :=
  if bool_decide (h_pointer h = Some pointerId)
  then {| h_value := h_value h; h_pointer := None; h_resizing := false |} else h.

Definition pointerDown (bounds : option Bounds) (mouse : bool) (button pointerId : Z) (clientX : Q)
    (h : Handle) : Handle :=
  if mouse && negb (button =? 0) then h
  else resizeTo bounds (valueFromPointer bounds clientX h)
         {| h_value := h_value h; h_pointer := Some pointerId; h_resizing := true |}.

Definition pointerMove (bounds : option Bounds) (pointerId : Z) (clientX : Q) (h : Handle) : Handle :=
  if bool_decide (h_pointer h = Some pointerId)
  then resizeTo bounds (valueFromPointer bounds clientX h) h else h.

Definition handleKey (bounds : option Bounds) (key : string) (h : Handle) : Handle :=
  if String.eqb key "Home" then resizeTo bounds (inject_Z (hp_min props)) h
  else if String.eqb key "End" then resizeTo bounds (effectiveMaximum bounds) h
  else if String.eqb key "ArrowLeft" || String.eqb key "ArrowRight" then
    let leftward := String.eqb key "ArrowLeft" in
    let delta := match hp_direction props with
                 | fromLeft => if leftward then - keyboardStep else keyboardStep
                 | fromRight => if leftward then keyboardStep else - keyboardStep
                 end in
    resizeTo bounds (inject_Z (h_value h + delta)) h
  else h.

Inductive handle_input : Type :=
  | PointerDown (mouse : bool) (button pointerId : Z) (clientX : Q)
  | PointerMove (pointerId : Z) (clientX : Q)
  | PointerUp (pointerId : Z)
  | PointerCancel (pointerId : Z)
  | LostCapture
  | HandleKey (key : string)
  | DoubleClick.

Definition handleInput (bounds : option Bounds) (x : handle_input) (h : Handle) : Handle :=
  match x with
  | PointerDown mouse button id X => pointerDown bounds mouse button id X h
  | PointerMove id X => pointerMove bounds id X h
  | PointerUp id | PointerCancel id => finishResize id h
  | LostCapture => {| h_value := h_value h; h_pointer := None; h_resizing := false |}
  | HandleKey key => handleKey bounds key h
  | DoubleClick => resizeTo bounds (inject_Z (hp_default props)) h
  end.

Definition newHandle : Handle := {| h_value := hp_default props; h_pointer := None; h_resizing := false |}.

(** Inputs with the bounds of the container at their time. *)
Definition handleRun (xs : list (option Bounds * handle_input)) : Handle :=
  fold_left (λ h x, handleInput x.1 x.2 h) xs newHandle.

(** *** Claims *)

Lemma Math_round_Z z : Math_round (inject_Z z) = z.
Proof.
  unfold Math_round. apply Z.le_antisymm.
  - apply Z.lt_succ_r. rewrite Zlt_Qlt. eapply Qle_lt_trans; [apply Qfloor_le|].
    unfold Z.succ. rewrite inject_Z_plus. change (inject_Z 1) with 1%Q. lra.
  - rewrite <- (Qfloor_Z z) at 1. apply Qfloor_resp_le. lra.
Qed.

Lemma Math_round_mono a b : (a <= b)%Q → Math_round a <= Math_round b.
Proof. intros Hab. apply Qfloor_resp_le. lra. Qed.

Lemma effectiveMaximum_bounds bounds :
  hp_min props <= hp_max props →
  (inject_Z (hp_min props) <= effectiveMaximum bounds <= inject_Z (hp_max props))%Q.
Proof.
  intros Hm. rewrite Zle_Qle in Hm. unfold effectiveMaximum. destruct bounds as [b|]; [|split; [done|lra]].
  split; [apply Q.le_max_l|]. apply Q.max_lub; [done|apply Q.le_min_l].
Qed.

Lemma clampWidth_bounds bounds next :
  hp_min props <= hp_max props →
  hp_min props <= clampWidth bounds next <= hp_max props ∧
  (inject_Z (clampWidth bounds next) <= effectiveMaximum bounds + (1 # 2))%Q.
Proof.
  intros Hm. pose proof (effectiveMaximum_bounds bounds Hm) as [H1 H2]. unfold clampWidth.
  set (w := Qmax _ _).
  assert (inject_Z (hp_min props) <= w)%Q by apply Q.le_max_l.
  assert (w <= effectiveMaximum bounds)%Q by (apply Q.max_lub; [done|apply Q.le_min_l]).
  split; [split|].
  - rewrite <- (Math_round_Z (hp_min props)). by apply Math_round_mono.
  - rewrite <- (Math_round_Z (hp_max props)). apply Math_round_mono. lra.
  - unfold Math_round. eapply Qle_trans; [apply Qfloor_le|]. lra.
Qed.

Definition handleOk (h : Handle) : Prop :=
  hp_min props <= h_value h <= hp_max props ∧ h_resizing h = bool_decide (is_Some (h_pointer h)).

Lemma resizeTo_ok bounds next h :
  hp_min props <= hp_max props → h_resizing h = bool_decide (is_Some (h_pointer h)) →
  handleOk (resizeTo bounds next h).
Proof. intros Hm Hh. split; [|exact Hh]. by apply clampWidth_bounds. Qed.

Lemma handleInput_ok bounds x h :
  hp_min props <= hp_max props → handleOk h → handleOk (handleInput bounds x h).
Proof.
  intros Hm [Hv Hr]. destruct x; cbn [handleInput].
  - unfold pointerDown. destruct (_ && _); [done|]. by apply resizeTo_ok.
  - unfold pointerMove. destruct (bool_decide (h_pointer h = _)); [by apply resizeTo_ok|done].
  - unfold finishResize. by destruct (bool_decide (h_pointer h = _)).
  - unfold finishResize. by destruct (bool_decide (h_pointer h = _)).
  - done.
  - unfold handleKey. destruct (String.eqb key "Home"); [by apply resizeTo_ok|].
    destruct (String.eqb key "End"); [by apply resizeTo_ok|].
    destruct (_ || _); [by apply resizeTo_ok|done].
  - by apply resizeTo_ok.
Qed.

Lemma handleRun_ok (xs : list (option Bounds * handle_input)) h :
  hp_min props <= hp_max props → handleOk h → handleOk (fold_left (λ h x, handleInput x.1 x.2 h) xs h).
Proof.
  intros Hm. revert h; induction xs as [|x xs IH]; intros h Hh; [done|].
  cbn [fold_left]. apply IH. by apply handleInput_ok.
Qed.

(** The separator keeps its panel within its limits: whatever the pointer and the
    keyboard do and however the container changes, the width stays between the minimum
    and the maximum, the parent was last told that a resize is going on exactly while a
    pointer is held, and each new width exceeds the room the container leaves by at most
    the half pixel that rounding adds. *)
Theorem panel_width_stays_in_range (xs : list (option Bounds * handle_input)) :
  hp_min props <= hp_default props <= hp_max props →
  hp_min props <= h_value (handleRun xs) <= hp_max props ∧
  h_resizing (handleRun xs) = bool_decide (is_Some (h_pointer (handleRun xs))) ∧
  ∀ bounds next, (inject_Z (clampWidth bounds next) <= effectiveMaximum bounds + (1 # 2))%Q.
Proof.
  intros Hd. assert (hp_min props <= hp_max props) as Hm by lia.
  assert (handleOk (handleRun xs)) as [Hv Hr].
  { by apply handleRun_ok. }
  split; [exact Hv|]. split; [exact Hr|]. intros bounds next. by apply clampWidth_bounds.
Qed.
End Handle.

(** ** The command palette *)

Record PaletteCommand : Type := { pc_label : jstr; pc_path : jstr }.

Definition globalCommands : list PaletteCommand :=
  map (λ c : string * string, {| pc_label := js c.1; pc_path := js c.2 |})
    [("Start a conversation", "/chat"); ("Open system overview", "/overview");
     ("Manage conversations", "/sessions"); ("Review saved knowledge", "/knowledge");
     ("Review goals and active work", "/work"); ("Open Software Studio", "/studio");
     ("Review actions and decisions", "/execution"); ("Manage models and connections", "/extensions");
     ("Manage availability and schedules", "/presence"); ("Review preferences and identity", "/identity");
     ("Review safety decisions", "/security"); ("Check information integrity", "/integrity");
     ("Check system health", "/diagnostics")]%string.

Definition projectPanels : list (string * string) :=
  [("Plan", "plan"); ("Changes", "changes"); ("Code", "code"); ("Terminal", "terminal");
   ("Preview", "preview"); ("Problems", "problems"); ("Tests", "tests"); ("Security", "security");
   ("Data", "data"); ("Deploy", "deploy")]%string.

(** [/^\/studio\/([0-9a-f-]+)$/], case-sensitive here. *)
Definition studioMatch (pathname : jstr) : option jstr :=
  let prefix := js "/studio/" in
  let id := drop (length prefix) pathname in
  if startsWith prefix pathname && negb (jeqb id []) &&
     forallb (λ c, (is_digit c || ((97 <=? c) && (c <=? 102)) || (c =? 45))%N) id
  then Some id else None.

Definition panelCommand (project : jstr) (panel : string * string) : PaletteCommand := {|
  pc_label := js "Open project " ++ js panel.1;
  pc_path := js "/studio/" ++ project ++
             (if String.eqb panel.2 "plan" then [] else js "?panel=" ++ js panel.2) |}.

Definition paletteCommands (pathname : jstr) : list PaletteCommand :=
  match studioMatch pathname with
  | None => globalCommands
  | Some project => map (panelCommand project) projectPanels ++ globalCommands
  end.

Record Palette : Type := { pl_open : bool; pl_query : jstr }.

Section Palette.
Context `{CaseTable}.

Definition paletteFiltered (pathname : jstr) (p : Palette) : list PaletteCommand :=
  List.filter (λ c, includes (toLowerCase (pl_query p)) (toLowerCase (pc_label c))) (paletteCommands pathname).

(** The window's key listener: Ctrl or Meta with K toggles the palette. *)
Definition paletteKey (ctrl meta : bool) (key : jstr) (p : Palette) : Palette :=
  if (ctrl || meta) && jeqb (toLowerCase key) (js "k")
  then {| pl_open := negb (pl_open p); pl_query := pl_query p |} else p.

(** A click on a command: where the router goes, and the palette closed and empty. *)
Definition paletteChoose (c : PaletteCommand) (p : Palette) : Palette * jstr :=
  ({| pl_open := false; pl_query := [] |}, pc_path c).
End Palette.

(** Inside a project every panel of it is offered, before the global commands. *)
Example palette_in_project :
  map pc_path (take 3 (paletteCommands (js "/studio/0a-f"))) =
  [js "/studio/0a-f"; js "/studio/0a-f?panel=changes"; js "/studio/0a-f?panel=code"] ∧
  length (paletteCommands (js "/studio/0a-f")) = 23%nat ∧
  paletteCommands (js "/studio/0A-F") = globalCommands.
Proof. vm_compute. done. Qed.

(** ** Witnesses *)

#[local] Existing Instance test_platform.

Definition surface_json : json :=
  JObj [(js "protocol_version", JStr (js COMPUTER_EVENT_VERSION));
        (js "tool_event_id", JStr (uuid "1")); (js "provider_tool_call_id", JStr (js "call"));
        (js "tool", JStr (js "browser_open")); (js "operation", JStr (js "open"));
        (js "scope", JObj [(js "actor_id", JStr (uuid "a")); (js "agent_id", JStr (js "ion"));
                           (js "session_id", JStr (uuid "b")); (js "turn_id", JStr (uuid "7"));
                           (js "task_id", JStr (uuid "2"))]);
        (js "risk_class", JStr (js "GREEN")); (js "phase", JStr (js "started"));
        (js "timestamp", JStr (js "now")); (js "display_kind", JStr (js "page"));
        (js "source_references",
         JArr [JObj [(js "kind", JStr (js "tool_event")); (js "id", JStr (uuid "1"))]])].

(** A browser action of turn 7, with and without the turn's own event. *)
Definition surface_event (seq : Z) : EventEnvelope :=
  mk_event seq "tool.started" (Some (uuid "7")) (Some (uuid "1")) surface_json.
Definition browsing : OperatorState :=
  applyEvents emptyOperatorState [mk_event 1 "turn.started" (Some (uuid "7")) None JNull; surface_event 2].
Definition orphaned : OperatorState := applyEvents emptyOperatorState [surface_event 2].

Definition at_chat (st : OperatorState) : Surroundings :=
  {| sr_pathname := js "/chat"; sr_session := Some (uuid "b"); sr_state := st |}.

Lemma closed_stage_stays_closed_witness :
  computerVisible (at_chat browsing) (stageEffect (at_chat browsing) initialStage) = true ∧
  computerVisible (at_chat browsing) (stageEffects 5 (at_chat browsing)
    (closeComputer (at_chat browsing) (stageEffect (at_chat browsing) initialStage))) = false.
Proof.
  split; [vm_compute; reflexivity|].
  apply (closed_stage_stays_closed 5 (at_chat browsing) (stageEffect (at_chat browsing) initialStage) (uuid "7")).
  - vm_compute. reflexivity.
  - left. vm_compute. reflexivity.
  - vm_compute. reflexivity.
  - left. vm_compute. reflexivity.
Defined.

Lemma closed_stage_reopens_witness :
  computerVisible (at_chat orphaned) (stageEffects 2 (at_chat orphaned)
    (closeComputer (at_chat orphaned) (stageEffect (at_chat orphaned) initialStage))) = true.
Proof.
  apply (closed_stage_reopens (at_chat orphaned) (stageEffect (at_chat orphaned) initialStage) (uuid "7")).
  - vm_compute. reflexivity.
  - vm_compute. reflexivity.
  - vm_compute. reflexivity.
  - left. vm_compute. reflexivity.
Defined.

Definition studioHandle : HandleProps :=
  {| hp_default := 340; hp_direction := fromLeft; hp_max := 520; hp_min := 280; hp_opposite := 560 |}.
Definition drag : list (option Bounds * handle_input) :=
  [(Some {| b_left := 0; b_right := 1000 |}, PointerDown true 0 1 400);
   (Some {| b_left := 0; b_right := 1000 |}, PointerMove 1 (10001 # 10))].

Lemma panel_width_stays_in_range_witness :
  h_value (handleRun studioHandle drag) = 433 ∧ h_resizing (handleRun studioHandle drag) = true.
Proof.
  split; [vm_compute; reflexivity|].
  destruct (panel_width_stays_in_range studioHandle drag) as (_ & Hr & _).
  - vm_compute. split; discriminate.
  - rewrite Hr. vm_compute. reflexivity.
Defined.
