(* ===== verification/TuiFormat.v ===== *)
(** * Terminal formatting

    The functions at the end of [ui/tui/src/App.tsx] that turn server answers and events
    into lines of text, and the window of the computer timeline.  Server answers are
    [json] values ([Record<string, unknown>] reads of a value that is not an object give
    [undefined]). *)
From stdpp Require Import base list strings.
From Stdlib Require Import ZArith NArith.
From S2P Require Import Prelude JsString JsValue Regex Catalog Protocol Display Envelope Events.

(** [typeof v === 'object' && v !== null]. *)
Definition isObject (v : option json) : bool :=
  match v with Some (JObj _) | Some (JArr _) => true | _ => false end.

Definition ellipsis : jstr := js "…".
Definition underscore : N := 95.

(** [s.replaceAll('_', ' ')]. *)
Definition spaced (s : jstr) : jstr := replaceUnit underscore [32%N] s.

(** [s.length > maximum ? `${s.slice(0, cut)}…` : s]. *)
Definition clip (maximum cut : nat) (s : jstr) : jstr :=
  if maximum <? length s then take cut s ++ ellipsis else s.

(** ** Records *)

Definition arrayField (value : json) (key : string) : list json := default [] (isArray (get key value)).

Definition compactPayload (value : json) : jstr := clip 96 93 (stringify value).

Definition recordPart (record : json) (key : string) : list jstr :=
  match asString (get key record) with
  | Some ((_ :: _) as field) => [spaced (js key) ++ js ": " ++ field]
  | _ => []
  end.

Definition recordLine (value : json) (keys : list string) : jstr :=
  match value with
  | JObj _ =>
      match flat_map (recordPart value) keys with
      | [] => compactPayload value
      | parts => join (js " · ") parts
      end
  | _ => compactPayload value
  end.

Definition skillStatuses : list string :=
  ["imported"; "active"; "proposed"; "adopted"; "rejected"; "candidates"].

Definition objectKeys (v : json) : list jstr := match v with JObj o => o.*1 | _ => [] end.

Definition skillRows (value : json) : list jstr :=
  let rows := flat_map (λ status,
    map (λ item, js status ++ js ": " ++ recordLine item ["name"; "skill_name"; "status"; "revision"]%string)
      (arrayField value status)) skillStatuses in
  match rows, objectKeys value with
  | [], _ :: _ => [compactPayload value]
  | _, _ => rows
  end.

Definition briefItem (label : jstr) (item : json) : list jstr :=
  match item, asString (get "summary" item) with
  | JObj _, Some summary => [label ++ js ": " ++ summary]
  | _, _ => []
  end.

Definition briefSection (section : json) : list jstr :=
  match section, isArray (get "items" section) with
  | JObj _, Some items =>
      flat_map (briefItem (default (js "Update") (asString (get "label" section)))) items
  | _, _ => []
  end.

Definition returnBriefRows (value : json) : list jstr := flat_map briefSection (arrayField value "sections").

(** ** Summaries of the details pane *)

Definition nat_str (n : nat) : jstr := string_of_Z (Z.of_nat n).

Definition livingSummary (value : json) : jstr :=
  let relationships := length (arrayField value "relationships") in
  let signals := if isObject (get "signals" value) then get "signals" value else Some (JObj []) in
  nat_str relationships ++ js " relationship contexts · task " ++
  match asNum (getO "task_duration" signals) with
  | Some task => num_toString task ++ js "ns"
  | None => js "inactive"
  end.

Definition soulSummary (value : json) : jstr :=
  let current := if isObject (get "current" value) then get "current" value else Some (JObj []) in
  js "SOUL v" ++
  match asNum (getO "number" current) with Some version => num_toString version | None => js "—" end ++
  js " · " ++ nat_str (length (arrayField value "pending_proposals")) ++ js " proposals pending".

Definition workSummary (value : json) : jstr :=
  if isObject (get "contract" value) then
    let goal := default (js "Current outcome") (asString (getO "goal" (get "contract" value))) in
    let next := default (js "choose next action") (asString (get "next_action" value)) in
    let percent := default (NFin 0 0) (asNum (get "completion_percentage" value)) in
    clip 120 117 (goal ++ js " · next: " ++ next ++ js " · " ++ num_toString percent ++ js "% verified")
  else js "Next: set an outcome contract".

Definition projectSummary (value : json) : jstr :=
  let projects := arrayField value "projects" in
  let ready := length (List.filter (λ p, isLit "ready" (get "lifecycle" p)) projects) in
  nat_str (length projects) ++ js " software projects · " ++ nat_str ready ++ js " ready".

(** ** Software studio *)

Definition is_record (v : json) : bool := isRecord (Some v).

Definition studioEntries (value : json) : list json := List.filter is_record (arrayField value "intents").

(** An intent and one of its proposals, by their identifiers. *)
Definition proposalRef : Type := jstr * jstr.

Definition findProposal (accepts : json → bool) (value : json) : option proposalRef :=
  head (flat_map (λ intent,
    match asString (get "id" intent), isArray (get "proposals" intent) with
    | Some intentID, Some proposals =>
        omap (λ p, if is_record p && accepts p then (λ id, (intentID, id)) <$> asString (get "id" p)
                   else None) proposals
    | _, _ => []
    end) (studioEntries value)).

Definition isProposed (p : json) : bool := isLit "proposed" (get "status" p).
Definition isAcceptedUnapplied (p : json) : bool :=
  isLit "accepted" (get "status" p) && negb (hasOwn "applied_at" p).

Definition pendingStudioProposal : json → option proposalRef := findProposal isProposed.
Definition acceptedStudioProposal : json → option proposalRef := findProposal isAcceptedUnapplied.

Definition goalOf (intent : option json) : jstr :=
  default (js "Software change") (asString (getO "goal" intent)).

Definition studioSummary (value : json) : jstr :=
  match studioEntries value with
  | [] => js "No software specification is waiting"
  | latest :: _ =>
      goalOf (Some latest) ++ js " · " ++
      match pendingStudioProposal value, acceptedStudioProposal value with
      | Some _, _ => js "decision needed"
      | None, Some _ => js "accepted, ready to apply"
      | None, None => js "reviewed"
      end
  end.

(** [String(v ?? fallback)]. *)
Definition strOr (fallback : string) (v : option json) : jstr :=
  match v with None | Some JNull => js fallback | Some x => toStr x end.

Definition isTrue (v : option json) : bool := match v with Some (JBool true) => true | _ => false end.

Definition assumptionLines (item : json) : list jstr :=
  if negb (is_record item) then [] else
  let material := isTrue (get "material" item) in
  [(if material then js "Decision needed" else js "Assumption") ++ js ": " ++
   strOr "" (get "statement" item)] ++
  match material, asString (get "decision_needed" item) with
  | true, Some d => [js "  " ++ d]
  | _, _ => []
  end.

Definition deltaLines (delta : option json) : list jstr :=
  map (λ behavior, js "Change: " ++ toStr behavior)
    (default [] (isArray (getO "user_visible_behavior" delta))) ++
  flat_map (λ item, if is_record item
                    then [js "Success: " ++ strOr "" (get "description" item)] else [])
    (default [] (isArray (getO "acceptance_criteria" delta))).

Definition proposalLines (record : json) : list jstr :=
  [js "Specification v" ++ strOr "—" (get "version" record) ++ js " · " ++
   strOr "proposed" (get "status" record)] ++
  match asString (get "rationale" record) with Some r => [r] | None => [] end ++
  deltaLines (if isRecord (get "delta" record) then get "delta" record else None).

Definition studioDetails (value : json) : jstr :=
  match studioEntries value with
  | [] => js "No software specification is waiting. Tell Ion what you want to build or change."
  | intent :: _ =>
      join [10%N]
        ([goalOf (Some intent)] ++
         flat_map assumptionLines (arrayField intent "assumptions") ++
         match find is_record (arrayField intent "proposals") with
         | Some proposal => proposalLines proposal
         | None => []
         end)
  end.

(** ** Events *)

Section Events.
Context `{Platform}.

Definition titleText (model : json) : jstr :=
  toStrO (getO "value" (get "title" model)) ++ js " · " ++ toStrO (getO "truth" (get "title" model)).

Definition toolSummary (payload : ComputerEventPayload) : jstr :=
  let plain := spaced (cp_tool payload) ++ js " · " ++ js (phase_name (cp_phase payload)) in
  match cp_display_model payload with
  | None => plain
  | Some model =>
      let sources := Z.of_nat (length (cp_source_references payload)) in
      if bool_decide (displayModelCompatibility sources model = unsupported)
      then js "Display version is not supported"
      else match migrateDisplayModel sources model with
           | Some m => titleText m
           | None => plain
           end
  end.

Definition detailKeys : list string := ["content"; "message"; "consequence"; "status"; "name"].

Definition eventSummary (type : jstr) (value : json) : jstr :=
  if startsWith (js "tool.") type then
    match computer_payload_of value with
    | None => js "Retained tool activity uses an unsupported version"
    | Some payload => toolSummary payload
    end
  else
    match value with
    | JObj _ =>
        match head (flat_map (λ key, match asString (get key value) with
                                     | Some ((_ :: _) as detail) => [detail]
                                     | _ => []
                                     end) detailKeys) with
        | Some detail => clip 96 93 detail
        | None => js "Details recorded"
        end
    | JNull => js "Details recorded"
    | _ => toStr value
    end.

Definition eventLabels : list (string * string) :=
  [("agent.started", "Helper started"); ("agent.completed", "Helper finished");
   ("approval.requested", "Decision needed"); ("approval.responded", "Decision recorded");
   ("memory.activated", "Saved knowledge used"); ("policy.allowed", "Safety checks passed");
   ("policy.denied", "Action blocked"); ("prediction.created", "Forecast recorded");
   ("premise.created", "Assumption recorded"); ("reasoning.summary", "Reasoning summary");
   ("task.completed", "Task finished"); ("task.started", "Task started");
   ("tool.completed", "Action finished"); ("tool.failed", "Action failed");
   ("tool.started", "Action started"); ("turn.completed", "Response complete");
   ("turn.incomplete", "Work paused with progress saved");
   ("turn.recovery", "Work recovery started"); ("turn.failed", "Request failed");
   ("turn.started", "Request started");
   ("workspace.operation.queued", "Workspace operation queued");
   ("workspace.operation.started", "Workspace operation started");
   ("workspace.operation.progress", "Workspace operation progressing");
   ("workspace.operation.completed", "Workspace operation completed");
   ("workspace.operation.failed", "Workspace operation failed");
   ("workspace.operation.cancelled", "Workspace operation cancelled")]%string.

Definition humanize (value : jstr) : jstr :=
  let s := spaced value in toUpperCase (take 1 s) ++ drop 1 s.

Definition eventTitle (type : jstr) : jstr :=
  match find (λ row, jeqb type (js row.1)) eventLabels with
  | Some row => js row.2
  | None => join (js " · ") (map humanize (splitOn 46 type))
  end.
End Events.

Inductive Color : Type := yellow | red | magenta | cyan.

Definition eventColor (type : jstr) : Color :=
  if startsWith (js "approval.") type || startsWith (js "policy.") type then yellow
  else if startsWith (js "security.") type || endsWith (js ".failed") type then red
  else if startsWith (js "memory.") type || startsWith (js "premise.") type then magenta
  else cyan.

(** ** Sections *)

Inductive Section_ : Type :=
  | chat | tasks | approvals | projects | schedules | skills | memory | computer | system.
#[export] Instance Section_eq_dec : EqDecision Section_.
Proof. solve_decision. Defined.

Definition sections : list Section_ :=
  [chat; tasks; approvals; projects; schedules; skills; memory; computer; system].

Definition sectionTitle (section : Section_) : jstr :=
  match section with
  | chat => js "CHAT"
  | tasks => js "GOALS AND ACTIVE WORK"
  | approvals => js "APPROVALS"
  | projects => js "PROJECTS AND SOFTWARE STUDIO"
  | schedules => js "RECURRING TASKS"
  | skills => js "SKILLS"
  | memory => js "SAVED KNOWLEDGE AND SOURCES"
  | computer => js "COMPUTER"
  | system => js "SESSIONS, PROVIDERS, CHANNELS, SAFETY, AND LOGS"
  end.

Definition sectionPrefixes (section : Section_) : list string :=
  match section with
  | chat => ["turn."; "session."]
  | tasks => ["taskgraph."; "work."]
  | approvals => ["approval."]
  | projects => ["project."; "studio."]
  | schedules => ["schedule."]
  | skills => ["skill."]
  | memory => ["memory."]
  | computer => ["computer."]
  | system => ["system."; "provider."; "channel."; "policy."; "logs."]
  end%string.

Definition sectionSubtitle (section : Section_) (catalog : list CommandDescriptor) : jstr :=
  if bool_decide (section = computer)
  then js "Durable action history · [ and ] inspect · p pause view · l back to live"
  else
    let count := length (List.filter (λ d, cd_available d &&
      existsb (λ prefix, startsWith (js prefix) (cd_operation d)) (sectionPrefixes section)) catalog) in
    nat_str count ++ js " actions available · recent activity is kept within a safe limit".

(** ** The computer timeline *)

(** [computerIndex]: the selected event, the newest one while following. *)
Definition computerIndex (followLive : bool) (cursor : Z) (events : Z) : Z :=
  if followLive then (events - 1)%Z else Z.max 0 (Z.min cursor (events - 1)).

(** The window of five events around the selected one. *)
Definition windowStart (events index : Z) : Z := Z.max 0 (Z.min (events - 5) (index - 2)).
Definition visibleEvents {A} (events : list A) (index : Z) : list A :=
  take 5 (drop (Z.to_nat (windowStart (Z.of_nat (length events)) index)) events).
