(* ===== verification/TuiApp.v ===== *)
(** * The terminal application

    The component [App] of [ui/tui/src/App.tsx]: its state, its asynchronous operations
    and its key handler.

    An asynchronous operation runs up to its await and leaves a [Task]; [settle] is the
    rest of it once its request resolved or was rejected.  A handler runs on the state of
    the last render, so the updates it makes are applied to the state it was given.  The
    operator state the component is given as a property is the argument [st]. *)
From stdpp Require Import base list strings.
From Stdlib Require Import ZArith NArith.
From S2P Require Import Prelude JsString JsValue Regex Catalog Protocol Display Envelope Events.
From S2P Require Import LocalClient TuiFormat.

(** ** [JSON.stringify(v, null, 2)] *)

Definition indent (n : nat) : jstr := replicate n 32%N.

Fixpoint pretty_at (n : nat) (v : json) : jstr :=
  match v with
  | JArr (x :: l) =>
      js "[" ++ [10%N] ++
      join (js "," ++ [10%N]) (map (λ y, indent (n + 2) ++ pretty_at (n + 2) y) (x :: l)) ++
      [10%N] ++ indent n ++ js "]"
  | JObj (f :: o) =>
      js "{" ++ [10%N] ++
      join (js "," ++ [10%N])
        (map (λ kv, indent (n + 2) ++ quote kv.1 ++ js ": " ++ pretty_at (n + 2) kv.2) (f :: o)) ++
      [10%N] ++ indent n ++ js "}"
  | _ => stringify v
  end.
Definition pretty : json → jstr := pretty_at 0.

(** ** State *)

Inductive Focus : Type := nav | composer.
#[export] Instance Focus_eq_dec : EqDecision Focus.
Proof. solve_decision. Defined.

Inductive Decision_ : Type := approve | deny.

(** An asynchronous operation that awaits an answer. *)
Inductive Task : Type :=
  | TSendCreate (content : jstr)
  | TSendSubmit
  | TSlashNew
  | TSlashRun (operation : jstr)
  | TDecide (decision : Decision_)
  | TResume (id : json)
  | TStudioDecide (accept : bool)
  | TStudioApply
  | TStudioRefresh
  | TVerify.

Record Request : Type := {
  rq_kind : RequestKind;
  rq_operation : jstr;
  rq_payload : json;
  rq_session : option json;
}.

(** What an operation does besides changing the state: sends a request, or lets an
    exception escape from a promise nobody awaits. *)
Inductive output : Type :=
  | Send (r : Request)
  | Unhandled (error : Error)
  | OpenEditor (current : jstr).

Record App : Type := {
  section : Section_;
  sectionRef : Section_;
  focus : Focus;
  draft : jstr;
  sessionID : option json;
  notice : jstr;
  commandOutput : jstr;
  catalog : list CommandDescriptor;
  projectPortfolio : json;
  manifest : option json;
  verificationRuns : list json;
  studioState : json;
  sessions : list json;
  sessionCursor : Z;
  queue : list jstr;
  busy : bool;
  followLive : bool;
  computerCursor : Z;
  inflight : list Task;
  exited : bool;
}.

Definition initialApp : App := {|
  section := chat; sectionRef := chat; focus := composer; draft := []; sessionID := None;
  notice := js "What would you like to accomplish?"; commandOutput := []; catalog := [];
  projectPortfolio := JObj []; manifest := None; verificationRuns := []; studioState := JObj [];
  sessions := []; sessionCursor := 0; queue := []; busy := false; followLive := true;
  computerCursor := -1; inflight := []; exited := false |}.

(** Setters of the groups of fields that change together. *)
Definition setSections (s r : Section_) (a : App) : App := {|
  section := s; sectionRef := r; focus := focus a; draft := draft a; sessionID := sessionID a;
  notice := notice a; commandOutput := commandOutput a; catalog := catalog a;
  projectPortfolio := projectPortfolio a; manifest := manifest a;
  verificationRuns := verificationRuns a; studioState := studioState a; sessions := sessions a;
  sessionCursor := sessionCursor a; queue := queue a; busy := busy a; followLive := followLive a;
  computerCursor := computerCursor a; inflight := inflight a; exited := exited a |}.
Definition setFocus (f : Focus) (a : App) : App := {|
  section := section a; sectionRef := sectionRef a; focus := f; draft := draft a;
  sessionID := sessionID a; notice := notice a; commandOutput := commandOutput a;
  catalog := catalog a; projectPortfolio := projectPortfolio a; manifest := manifest a;
  verificationRuns := verificationRuns a; studioState := studioState a; sessions := sessions a;
  sessionCursor := sessionCursor a; queue := queue a; busy := busy a; followLive := followLive a;
  computerCursor := computerCursor a; inflight := inflight a; exited := exited a |}.
Definition setDraft (d : jstr) (a : App) : App := {|
  section := section a; sectionRef := sectionRef a; focus := focus a; draft := d;
  sessionID := sessionID a; notice := notice a; commandOutput := commandOutput a;
  catalog := catalog a; projectPortfolio := projectPortfolio a; manifest := manifest a;
  verificationRuns := verificationRuns a; studioState := studioState a; sessions := sessions a;
  sessionCursor := sessionCursor a; queue := queue a; busy := busy a; followLive := followLive a;
  computerCursor := computerCursor a; inflight := inflight a; exited := exited a |}.
Definition setSessionID (s : option json) (a : App) : App := {|
  section := section a; sectionRef := sectionRef a; focus := focus a; draft := draft a;
  sessionID := s; notice := notice a; commandOutput := commandOutput a;
  catalog := catalog a; projectPortfolio := projectPortfolio a; manifest := manifest a;
  verificationRuns := verificationRuns a; studioState := studioState a; sessions := sessions a;
  sessionCursor := sessionCursor a; queue := queue a; busy := busy a; followLive := followLive a;
  computerCursor := computerCursor a; inflight := inflight a; exited := exited a |}.
Definition setText (n o : jstr) (a : App) : App := {|
  section := section a; sectionRef := sectionRef a; focus := focus a; draft := draft a;
  sessionID := sessionID a; notice := n; commandOutput := o;
  catalog := catalog a; projectPortfolio := projectPortfolio a; manifest := manifest a;
  verificationRuns := verificationRuns a; studioState := studioState a; sessions := sessions a;
  sessionCursor := sessionCursor a; queue := queue a; busy := busy a; followLive := followLive a;
  computerCursor := computerCursor a; inflight := inflight a; exited := exited a |}.
Definition setNotice (n : jstr) (a : App) : App := setText n (commandOutput a) a.
Definition setCommandOutput (o : jstr) (a : App) : App := setText (notice a) o a.
Definition setData (c : list CommandDescriptor) (p : json) (m : option json) (rs : list json)
    (s : json) (ss : list json) (a : App) : App := {|
  section := section a; sectionRef := sectionRef a; focus := focus a; draft := draft a;
  sessionID := sessionID a; notice := notice a; commandOutput := commandOutput a;
  catalog := c; projectPortfolio := p; manifest := m; verificationRuns := rs; studioState := s;
  sessions := ss; sessionCursor := sessionCursor a; queue := queue a; busy := busy a;
  followLive := followLive a; computerCursor := computerCursor a; inflight := inflight a;
  exited := exited a |}.
Definition setCatalog c a := setData c (projectPortfolio a) (manifest a) (verificationRuns a) (studioState a) (sessions a) a.
Definition setPortfolio p a := setData (catalog a) p (manifest a) (verificationRuns a) (studioState a) (sessions a) a.
Definition setVerification m rs a := setData (catalog a) (projectPortfolio a) m rs (studioState a) (sessions a) a.
Definition setStudioState s a := setData (catalog a) (projectPortfolio a) (manifest a) (verificationRuns a) s (sessions a) a.
Definition setSessions ss a := setData (catalog a) (projectPortfolio a) (manifest a) (verificationRuns a) (studioState a) ss a.
Definition setCursors (sc : Z) (fl : bool) (cc : Z) (a : App) : App := {|
  section := section a; sectionRef := sectionRef a; focus := focus a; draft := draft a;
  sessionID := sessionID a; notice := notice a; commandOutput := commandOutput a;
  catalog := catalog a; projectPortfolio := projectPortfolio a; manifest := manifest a;
  verificationRuns := verificationRuns a; studioState := studioState a; sessions := sessions a;
  sessionCursor := sc; queue := queue a; busy := busy a; followLive := fl;
  computerCursor := cc; inflight := inflight a; exited := exited a |}.
Definition setSessionCursor sc a := setCursors sc (followLive a) (computerCursor a) a.
Definition setComputer fl cc a := setCursors (sessionCursor a) fl cc a.
Definition setWork (q : list jstr) (b : bool) (ts : list Task) (x : bool) (a : App) : App := {|
  section := section a; sectionRef := sectionRef a; focus := focus a; draft := draft a;
  sessionID := sessionID a; notice := notice a; commandOutput := commandOutput a;
  catalog := catalog a; projectPortfolio := projectPortfolio a; manifest := manifest a;
  verificationRuns := verificationRuns a; studioState := studioState a; sessions := sessions a;
  sessionCursor := sessionCursor a; queue := q; busy := b; followLive := followLive a;
  computerCursor := computerCursor a; inflight := ts; exited := x |}.
Definition setQueue q a := setWork q (busy a) (inflight a) (exited a) a.
Definition setBusy b a := setWork (queue a) b (inflight a) (exited a) a.
Definition setInflight ts a := setWork (queue a) (busy a) ts (exited a) a.
Definition exit a := setWork (queue a) (busy a) (inflight a) true a.

(** ** Requests *)

(** [client.query] and [client.command]: the kind is checked before anything is sent. *)
Definition issue (k : RequestKind) (operation : jstr) (payload : json) (session : option json)
    : Error + Request :=
  if bool_decide (OPERATION_KINDS operation = Some k)
  then inr {| rq_kind := k; rq_operation := operation; rq_payload := payload; rq_session := session |}
  else inl (mkError (operation ++ match k with
                                  | query => js " is not a query"
                                  | command => js " is not a command"
                                  end)).

(** Awaits a request whose failure escapes. *)
Definition await (r : Error + Request) (t : Task) (a : App) : App * list output :=
  match r with
  | inr request => (setInflight (inflight a ++ [t]) a, [Send request])
  | inl e => (a, [Unhandled e])
  end.

(** Awaits a request inside the [try] of [send] and [executeSlash]. *)
Definition awaitCaught (r : Error + Request) (t : Task) (a : App) : App * list output :=
  match r with
  | inr request => (setInflight (inflight a ++ [t]) a, [Send request])
  | inl e => (setBusy false (setNotice (error_message e) a), [])
  end.

(** ** What the component derives from the operator state *)

Definition pendingApproval (st : OperatorState) : option ApprovalState :=
  snd <$> head (pending_approvals st).

Definition isSession (sessionID : option json) (s : option UUID) : bool :=
  match sessionID with
  | None => true
  | Some (JStr id) => bool_decide (s = Some id)
  | Some _ => false
  end.

Definition runningTurns (st : OperatorState) (a : App) : list TurnState :=
  List.filter (λ t, is_live (t_status t) && isSession (sessionID a) (t_session_id t)) (turns st).*2.

Definition computerEvents (st : OperatorState) : list EventEnvelope :=
  List.filter (λ e, startsWith (js "tool.") (ev_type e)) (recent_events st).

Definition eventCount (st : OperatorState) : Z := Z.of_nat (length (computerEvents st)).

Definition selectedIndex (st : OperatorState) (a : App) : Z :=
  computerIndex (followLive a) (computerCursor a) (eventCount st).

Definition activeProjectID (a : App) : option jstr :=
  match head (arrayField (projectPortfolio a) "projects") with
  | Some (JObj o) => asString (get "id" (JObj o))
  | _ => None
  end.

Section Commands.
Context `{Platform}.
Variable JSON_parse : jstr → Error + json.

Record Suggestion : Type := { sg_operation : jstr; sg_description : jstr }.

Definition localCommands : list Suggestion :=
  [{| sg_operation := js "help"; sg_description := js "Show slash command help" |};
   {| sg_operation := js "settings"; sg_description := js "Show current settings" |};
   {| sg_operation := js "new"; sg_description := js "Start a new conversation" |}].

Definition slashSuggestions (a : App) : list Suggestion :=
  if negb (startsWith (js "/") (draft a)) || includes (js " ") (draft a) then [] else
  let prefix := toLowerCase (drop 1 (draft a)) in
  let discovered := map (λ d, {| sg_operation := cd_operation d; sg_description := cd_description d |})
    (List.filter cd_available (catalog a)) in
  take 7 (List.filter (λ s, startsWith prefix (toLowerCase (sg_operation s)))
            (localCommands ++ discovered)).

(** ** Slash commands *)

(** The operation and the raw payload of a slash command. *)
Definition parseSlash (value : jstr) : jstr * jstr :=
  match indexOf 32 value with
  | None => (trim (drop 1 value), [])
  | Some i => (trim (drop 1 (take i value)), trim (drop (S i) value))
  end.

Definition helpLine (d : CommandDescriptor) : jstr :=
  js "/" ++ cd_operation d ++ js "  [" ++
  match cd_kind d with query => js "query" | command => js "command" end ++
  js "]  " ++ cd_description d.

Definition helpText (available : list CommandDescriptor) : jstr :=
  join [10%N]
    ([js "Slash commands come from the live server catalog.";
      js "Run /operation or /operation {" ++ quote (js "field") ++ js ":" ++ quote (js "value") ++ js "}.";
      js "/settings shows current settings. /new starts a conversation.";
      []] ++ map helpLine available).

Definition offered (a : App) (operation : jstr) : option CommandDescriptor :=
  find (λ d, cd_available d && jeqb (cd_operation d) operation) (catalog a).

(** The payload argument: nothing, or a JSON object. *)
Definition slashPayload (raw : jstr) : Error + json :=
  if jeqb raw [] then inr (JObj [])
  else match JSON_parse raw with
       | inl e => inl e
       | inr (JObj o) => inr (JObj o)
       | inr _ => inl (mkError (js "slash command payload must be a JSON object"))
       end.

Definition createSession : Error + Request := issue command (js "session.create") (JObj []) None.

Definition slashFailed (e : Error) (a : App) : App * list output :=
  (setBusy false (setNotice (error_message e) a), []).

Definition executeSlash (value : jstr) (a : App) : App * list output :=
  let a := setCommandOutput [] (setDraft [] (setBusy true a)) in
  let '(operation, raw) := parseSlash value in
  if jeqb operation (js "help") then
    let available := List.filter cd_available (catalog a) in
    (setBusy false (setText (nat_str (length available) ++ js " server operations available.")
                      (helpText available) a), [])
  else if jeqb operation (js "new") then
    match offered a (js "session.create") with
    | None => slashFailed (mkError (js "session.create is not available")) a
    | Some _ => awaitCaught createSession TSlashNew a
    end
  else
    let resolved := if jeqb operation (js "settings") then js "config.get" else operation in
    match offered a resolved with
    | None => slashFailed (mkError (js "/" ++ operation ++ js " is not available; use /help")) a
    | Some descriptor =>
        match slashPayload raw with
        | inl e => slashFailed e a
        | inr payload =>
            awaitCaught (issue (cd_kind descriptor) (cd_operation descriptor) payload (sessionID a))
              (TSlashRun operation) a
        end
    end.

(** ** Sending *)

Definition submitTurn (content : jstr) (session : option json) : Error + Request :=
  issue command (js "turn.submit")
    (jobj [("content", JStr content); ("surface", JStr (js "general"))]%string) session.

Definition send (content : jstr) (a : App) : App * list output :=
  if jeqb content [] || busy a then (a, [])
  else if startsWith (js "/") content then executeSlash content a
  else
    let a := setDraft [] (setBusy true a) in
    match sessionID a with
    | None => awaitCaught createSession (TSendCreate content) a
    | Some session => awaitCaught (submitTurn content (Some session)) TSendSubmit a
    end.

(** [[...current.slice(-19), content]]. *)
Definition enqueue (content : jstr) (q : list jstr) : list jstr := slice_last 19 q ++ [content].

Definition submit (st : OperatorState) (value : jstr) (a : App) : App * list output :=
  let content := trim value in
  if jeqb content [] then (a, [])
  else if busy a || (0 <? length (runningTurns st a)) then
    (setNotice (js "Added to the queue. Ion will start it next.")
       (setDraft [] (setQueue (enqueue content (queue a)) a)), [])
  else send content a.

(** The effect that starts the next queued message. *)
Definition drainQueue (st : OperatorState) (a : App) : App * list output :=
  if busy a || (0 <? length (runningTurns st a)) then (a, [])
  else match queue a with
       | [] => (a, [])
       | next :: remaining => send next (setQueue remaining a)
       end.

(** ** Decisions *)

Definition decisionName (d : Decision_) : jstr :=
  match d with approve => js "approve" | deny => js "deny" end.

Definition decide_ (st : OperatorState) (d : Decision_) (a : App) : App * list output :=
  match pendingApproval st with
  | None => (a, [])
  | Some approval =>
      await (issue command (js "approval.respond")
               (jobj [("approval_id", JStr (a_id approval)); ("decision", JStr (decisionName d))]%string)
               (JStr <$> a_session_id approval)) (TDecide d) a
  end.

Definition resumeSelectedSession (cursor : Z) (a : App) : App * list output :=
  match sessions a !! Z.to_nat cursor with
  | Some (JObj o) =>
      match get "id" (JObj o) with
      | Some (JStr ((_ :: _) as id)) =>
          await (issue command (js "session.resume") (JObj []) (Some (JStr id))) (TResume (JStr id)) a
      | _ => (a, [])
      end
  | _ => (a, [])
  end.

Definition proposalPayload (r : proposalRef) : list (string * json) :=
  [("intent_id", JStr r.1); ("proposal_id", JStr r.2)]%string.

Definition decideStudio (accept : bool) (a : App) : App * list output :=
  match pendingStudioProposal (studioState a) with
  | None => (a, [])
  | Some r =>
      await (issue command (js "studio.proposal.decide")
               (jobj (proposalPayload r ++
                      [("accept", JBool accept);
                       ("reason", JStr (if accept then js "Approved in terminal Studio"
                                        else js "Rejected in terminal Studio"))]%string))
               (sessionID a)) (TStudioDecide accept) a
  end.

Definition applyStudio (a : App) : App * list output :=
  match acceptedStudioProposal (studioState a) with
  | None => (a, [])
  | Some r =>
      await (issue command (js "studio.proposal.apply") (jobj (proposalPayload r)) (sessionID a))
        TStudioApply a
  end.

Definition runProjectVerification (a : App) : App * list output :=
  match activeProjectID a, manifest a with
  | Some project, Some m =>
      await (issue command (js "project.verification.run")
               (jobj (("project_id"%string, JStr project) ::
                      match get "id" m with Some id => [("manifest_id"%string, id)] | None => [] end ++
                      [("full"%string, JBool true); ("max_attempts"%string, JNum (NFin 3 0))]))
               (sessionID a)) TVerify (setBusy true a)
  | _, _ => (setNotice (js "Prepare a verification manifest before running project gates.") a, [])
  end.
(** ** Answers *)

(** [response.error?.message ?? fallback]. *)
Definition errorOr (fallback : jstr) (r : ResponseEnvelope) : jstr :=
  match resp_error r with Some e => err_message e | None => fallback end.

(** The identifier of a created session. *)
Definition createdID (r : ResponseEnvelope) : Error + json :=
  match resp_error r, getO "id" (resp_result r) with
  | None, Some id => inr id
  | _, _ => inl (mkError (errorOr (js "session creation failed") r))
  end.

(** The studio operations end by reading the intents again. *)
Definition studioAnswered (text : jstr) (r : ResponseEnvelope) (a : App) : App * list output :=
  await (issue query (js "studio.intent.list") (JObj []) (sessionID a)) TStudioRefresh
    (setNotice (errorOr text r) a).

(** The rest of an operation once its request is settled. *)
Definition resume (t : Task) (outcome : Error + ResponseEnvelope) (a : App) : App * list output :=
  match t, outcome with
  | TSendCreate _, inl e | TSendSubmit, inl e | TSlashNew, inl e | TSlashRun _, inl e =>
      slashFailed e a
  | TSendCreate content, inr r =>
      match createdID r with
      | inl e => slashFailed e a
      | inr id => awaitCaught (submitTurn content (Some id)) TSendSubmit (setSessionID (Some id) a)
      end
  | TSendSubmit, inr r =>
      (setBusy false (setNotice (errorOr (js "Request started. Live updates will appear here.") r) a), [])
  | TSlashNew, inr r =>
      match createdID r with
      | inl e => slashFailed e a
      | inr id =>
          (setBusy false (setNotice (js "New encrypted conversation ready.") (setSessionID (Some id) a)), [])
      end
  | TSlashRun operation, inr r =>
      match resp_error r with
      | Some e => slashFailed (mkError (err_message e)) a
      | None =>
          let result := match resp_result r with None | Some JNull => JObj [] | Some v => v end in
          let a := setText (js "/" ++ operation ++ js " completed.") (pretty result) a in
          let a := if jeqb operation (js "settings") then setSections system (sectionRef a) a else a in
          (setBusy false a, [])
      end
  | TDecide d, inr r =>
      (setNotice (errorOr (js "Approval " ++ decisionName d ++ js " recorded.") r) a, [])
  | TResume id, inr r =>
      match resp_error r with
      | Some e => (setNotice (err_message e) a, [])
      | None =>
          (setText (js "Encrypted conversation resumed. New messages continue the same task.") []
             (setSections chat chat (setSessionID (Some id) a)), [])
      end
  | TStudioDecide accept, inr r =>
      studioAnswered (if accept then js "Specification accepted." else js "Specification rejected.") r a
  | TStudioApply, inr r =>
      studioAnswered (js "Accepted specification applied to authoritative KVX.") r a
  | TStudioRefresh, inr r =>
      (setStudioState (match resp_result r with None | Some JNull => JObj [] | Some v => v end) a, [])
  | TVerify, inr r =>
      match resp_error r, resp_result r with
      | Some e, _ => (setBusy false (setNotice (err_message e) a), [])
      | None, None => (setBusy false a, [])
      | None, Some run =>
          let a := setCommandOutput (pretty run)
                     (setVerification (manifest a) (verificationRuns a ++ [run]) a) in
          match asString (get "status" run) with
          | Some status =>
              (setBusy false (setNotice (js "Verification finished: " ++ spaced status ++ js ".") a), [])
          | None => (a, [Unhandled (TypeError "status is not a string")])
          end
      end
  | _, inl e => (a, [Unhandled e])
  end.

(** The [i]th operation in flight is settled. *)
Definition settle (i : nat) (outcome : Error + ResponseEnvelope) (a : App)
    : option (App * list output) :=
  t ← inflight a !! i;
  Some (resume t outcome (setInflight (delete i (inflight a)) a)).

(** ** Keys *)

Record Key : Type := {
  k_escape : bool; k_tab : bool; k_upArrow : bool; k_downArrow : bool; k_ctrl : bool;
}.
Definition noKey : Key := {| k_escape := false; k_tab := false; k_upArrow := false;
                             k_downArrow := false; k_ctrl := false |}.

(** Comparison of strings by code units. *)
Fixpoint jle (a b : jstr) : bool :=
  match a, b with
  | [], _ => true
  | _ :: _, [] => false
  | x :: a', y :: b' => if (x =? y)%N then jle a' b' else (x <? y)%N
  end.

(** [sections[Number(input) - 1]] for an input between '1' and '9'; [Number] gives the
    integer a string denotes, if it does. *)
Variable Number : jstr → option Z.

Definition digitSection (input : jstr) : option Section_ :=
  if jle (js "1") input && jle input (js "9") then
    n ← Number input;
    if (1 <=? n)%Z then sections !! Z.to_nat (n - 1) else None
  else None.

Definition nextSection (s : Section_) : Section_ :=
  match s with
  | chat => tasks | tasks => approvals | approvals => projects | projects => schedules
  | schedules => skills | skills => memory | memory => computer | computer => system
  | system => chat
  end.

(** Runs handlers one after the other. *)
Definition andThen (r : App * list output) (f : App → App * list output) : App * list output :=
  let '(a, out) := r in let '(a', out') := f a in (a', out ++ out').

Definition when (b : bool) (f : App → App * list output) (a : App) : App * list output :=
  if b then f a else (a, []).
Definition pureWhen (b : bool) (f : App → App) (a : App) : App * list output :=
  if b then (f a, []) else (a, []).

Definition is_key (c : string) (input : jstr) : bool := jeqb input (js c).

Definition inView (s : Section_) (a : App) : bool := bool_decide (sectionRef a = s).
Definition inNav (a : App) : bool := bool_decide (focus a = nav).

(** The handlers of the computer and the system view; [a0] is the rendered state. *)
Definition computerKeys (st : OperatorState) (a0 : App) (input : jstr) (key : Key) (a : App) : App :=
  let index := selectedIndex st a0 in
  let n := eventCount st in
  let a := if is_key "l" input then setComputer true (n - 1) a else a in
  let a := if is_key "p" input then setComputer false index a else a in
  let a := if k_upArrow key || is_key "[" input then setComputer false (Z.max 0 (index - 1)) a else a in
  if k_downArrow key || is_key "]" input then
    let next := Z.min (n - 1) (index + 1) in setComputer (next =? n - 1)%Z next a
  else a.

Definition systemKeys (a0 : App) (input : jstr) (key : Key) (a : App) : App * list output :=
  let n := Z.of_nat (length (sessions a0)) in
  let a := if (0 <? n)%Z && (k_upArrow key || is_key "[" input)
           then setSessionCursor (Z.max 0 (sessionCursor a0 - 1)) a else a in
  let a := if (0 <? n)%Z && (k_downArrow key || is_key "]" input)
           then setSessionCursor (Z.min (n - 1) (sessionCursor a0 + 1)) a else a in
  when (is_key "r" input) (resumeSelectedSession (sessionCursor a0)) a.

Definition toggleFocus (f : Focus) : Focus := match f with composer => nav | nav => composer end.

(** The handler after the completion of a slash command: the rendered state is [a0]. *)
Definition keyHandlers (st : OperatorState) (input : jstr) (key : Key) (a0 a : App)
    : App * list output :=
  let a := if k_tab key then setSections (nextSection (section a0)) (nextSection (section a0)) a else a in
  let a := match inNav a, digitSection input with
           | true, Some s => setSections s s a
           | _, _ => a
           end in
  let decided := bool_decide (is_Some (pendingApproval st)) in
  let r := when (is_key "a" input && decided) (decide_ st approve) a in
  let r := andThen r (when (is_key "d" input && decided) (decide_ st deny)) in
  let r := andThen r (λ a, when (inView projects a && is_key "y" input) (decideStudio true) a) in
  let r := andThen r (λ a, when (inView projects a && is_key "n" input) (decideStudio false) a) in
  let r := andThen r (λ a, when (inView projects a && is_key "p" input) applyStudio a) in
  let r := andThen r (λ a, when (inView projects a && is_key "v" input) runProjectVerification a) in
  let r := andThen r (λ a, pureWhen (inView computer a && inNav a) (computerKeys st a0 input key) a) in
  let r := andThen r (λ a, when (inView system a && inNav a) (systemKeys a0 input key) a) in
  andThen r (when (k_ctrl key && is_key "e" input) (λ a, (a, [OpenEditor (draft a0)]))).

(** The first part: quitting and the focus. *)
Definition focusKeys (input : jstr) (key : Key) (a0 : App) : App :=
  let a := if is_key "q" input && inNav a0 then exit a0 else a0 in
  if k_escape key then setFocus (toggleFocus (focus a)) a else a.

Definition useInput (st : OperatorState) (input : jstr) (key : Key) (a0 : App) : App * list output :=
  let a := focusKeys input key a0 in
  match k_tab key, bool_decide (focus a0 = composer), slashSuggestions a0 with
  | true, true, s :: _ => (setDraft (js "/" ++ sg_operation s ++ js " ") a, [])
  | _, _, _ => keyHandlers st input key a0 a
  end.

Definition updateDraft (value : jstr) (a : App) : App :=
  if inNav a && (length value =? 1) && jle (js "1") value && jle value (js "9")
  then match digitSection value with
       | Some s => setDraft [] (setSections s s a)
       | None => a
       end
  else setDraft value a.

(** ** Effects that follow the data *)

Definition clampCursor (a : App) : App :=
  setSessionCursor (Z.max 0 (Z.min (sessionCursor a) (Z.of_nat (length (sessions a)) - 1))) a.

Definition followCursor (st : OperatorState) (a : App) : App :=
  if followLive a then setComputer true (eventCount st - 1) a else a.

(** The queries of the refresh effect, with the period of the continuity brief. *)
Definition refreshQueries (session : option json) : list Request :=
  let q op payload scope := {| rq_kind := query; rq_operation := js op; rq_payload := payload; rq_session := scope |} in
  [q "session.list" (JObj []) None; q "soul.get" (JObj []) session; q "work.brief" (JObj []) session;
   q "continuity.brief" (jobj [("period", JStr (js "24h"))]) session;
   q "project.list" (JObj []) session; q "studio.intent.list" (JObj []) session;
   q "schedule.list" (JObj []) session; q "skill.lifecycle" (JObj []) session;
   q "provider.list" (JObj []) session]%string ++
  match session with
  | Some _ => [q "browser.workflow.list" (JObj []) session; q "liveness.get" (JObj []) session;
               q "taskgraph.todo" (JObj []) session]%string
  | None => []
  end.

(** ** The component over time *)

Inductive tui_input : Type :=
  | Pressed (input : jstr) (key : Key)
  | Edited (value : jstr)
  | Submitted (value : jstr)
  | QueueEffect
  | Settled (i : nat) (outcome : Error + ResponseEnvelope)
  | CatalogLoaded (items : list CommandDescriptor)
  | SessionsLoaded (items : list json)
  | StudioLoaded (value : json)
  | ProjectsLoaded (value : json)
  | VerificationLoaded (m : option json) (runs : list json)
  | EventsArrived
  | EditorClosed (text : jstr).

Definition perform (st : OperatorState) (x : tui_input) (a : App) : option (App * list output) :=
  match x with
  | Pressed input key => Some (useInput st input key a)
  | Edited value => Some (updateDraft value a, [])
  | Submitted value => Some (submit st value a)
  | QueueEffect => Some (drainQueue st a)
  | Settled i outcome => settle i outcome a
  | CatalogLoaded items => Some (setCatalog items a, [])
  | SessionsLoaded items => Some (clampCursor (setSessions items a), [])
  | StudioLoaded v => Some (setStudioState v a, [])
  | ProjectsLoaded v => Some (setPortfolio v a, [])
  | VerificationLoaded m runs => Some (setVerification m runs a, [])
  | EventsArrived => Some (followCursor st a, [])
  | EditorClosed text => Some (setDraft text a, [])
  end.

(** A run of the component; the operator state may change between two inputs. *)
Inductive tui_runs : App → list output → Prop :=
  | tui_start : tui_runs initialApp []
  | tui_step st a out x a' out' :
      tui_runs a out → perform st x a = Some (a', out') → tui_runs a' (out ++ out').
End Commands.
