(* ===== verification/TuiProps.v ===== *)
(** * Properties of the terminal application *)
From stdpp Require Import base list strings.
From Stdlib Require Import ZArith NArith.
From S2P Require Import Prelude JsString JsValue Regex Catalog Protocol Display DisplayProps Envelope.
From S2P Require Import Events EventsFacts EventsProps LocalClient TuiFormat TuiApp.

(** ** Lines of text *)

(** The window of the computer timeline shows at most five events in their order and
    always contains the selected one: for an index inside the history the selected event
    is at its offset in the window. *)
Theorem selected_event_is_visible {A} (events : list A) (index : Z) :
  (0 <= index < Z.of_nat (length events))%Z →
  let start := windowStart (Z.of_nat (length events)) index in
  length (visibleEvents events index) = Nat.min 5 (length events) ∧
  (0 <= index - start < 5)%Z ∧
  visibleEvents events index !! Z.to_nat (index - start) = events !! Z.to_nat index.
Proof.
  intros Hi. cbv zeta. unfold visibleEvents, windowStart.
  remember (Z.max 0 (Z.min (Z.of_nat (length events) - 5) (index - 2))) as start eqn:Hst.
  assert (0 <= index - start < 5)%Z as Hs by lia.
  assert (Z.to_nat start + 5 ≤ length events ∨ Z.to_nat start = 0) as Hw by lia.
  split_and!; [|lia..|].
  - rewrite length_take, length_drop. lia.
  - rewrite lookup_take_lt by lia. rewrite lookup_drop.
    by replace (Z.to_nat start + Z.to_nat (index - start)) with (Z.to_nat index) by lia.
Qed.

Lemma selected_event_is_visible_witness :
  visibleEvents [10; 11; 12; 13; 14; 15; 16; 17] 6 = [13; 14; 15; 16; 17] ∧
  visibleEvents [10; 11; 12; 13; 14; 15; 16; 17] 6 !! 3 = Some 16.
Proof.
  destruct (selected_event_is_visible [10; 11; 12; 13; 14; 15; 16; 17] 6) as (_ & _ & Hv).
  - simpl. lia.
  - split; [reflexivity|]. exact Hv.
Defined.

Lemma clip_length maximum cut s : cut < maximum → length (clip maximum cut s) ≤ maximum.
Proof.
  intros Hc. unfold clip. destruct (Nat.ltb_spec maximum (length s)) as [Hl|Hl]; [|lia].
  rewrite length_app, length_take. change (length ellipsis) with 1. lia.
Qed.

(** ** Studio proposals *)

(** A proposal of an intent of the studio state. *)
Definition has_proposal (value : json) (r : proposalRef) (p : json) : Prop :=
  ∃ intent proposals, intent ∈ studioEntries value ∧ get "id" intent = Some (JStr r.1) ∧
    get "proposals" intent = Some (JArr proposals) ∧ p ∈ proposals ∧ is_record p = true ∧
    get "id" p = Some (JStr r.2).

Lemma findProposal_spec accepts value :
  match findProposal accepts value with
  | Some r => ∃ p, has_proposal value r p ∧ accepts p = true
  | None => ∀ r p, has_proposal value r p → accepts p = false
  end.
Proof.
  unfold findProposal. set (f := λ intent, _). set (l := flat_map f (studioEntries value)).
  assert (∀ r, r ∈ l ↔ ∃ p, has_proposal value r p ∧ accepts p = true) as Hl.
  { intros r. subst l. rewrite list_elem_of_In, in_flat_map. setoid_rewrite <- list_elem_of_In.
    unfold has_proposal. split.
    - intros (intent & Hin & Hr). subst f. simpl in Hr.
      destruct (asString (get "id" intent)) as [i|] eqn:Hi; [|by apply not_elem_of_nil in Hr].
      destruct (isArray (get "proposals" intent)) as [ps|] eqn:Hps; [|by apply not_elem_of_nil in Hr].
      apply list_elem_of_omap in Hr as (p & Hp & Hr).
      destruct (is_record p && accepts p) eqn:Hb; [|done]. bools.
      destruct (asString (get "id" p)) as [j|] eqn:Hj; [|done]. injection Hr as <-.
      exists p. split; [|done]. exists intent, ps. apply asString_Some in Hi, Hj.
      destruct (get "proposals" intent) as [[]|]; naive_solver.
    - intros (p & (intent & ps & Hin & Hi & Hps & Hp & Hrec & Hj) & Ha).
      exists intent. split; [done|]. subst f. simpl. rewrite Hi, Hps. simpl.
      apply list_elem_of_omap. exists p. split; [done|]. rewrite Hrec, Ha, Hj. simpl. by destruct r. }
  destruct l as [|r l'] eqn:El; simpl.
  - intros r p Hp. apply not_true_is_false. intros Ha.
    assert (r ∈ @nil proposalRef) as Hin by (apply Hl; eauto). by apply not_elem_of_nil in Hin.
  - apply Hl. left.
Qed.

(** The studio keys act on the right proposal: the proposal offered for a decision
    exists, belongs to its intent and is still proposed, and none is offered only when
    none is proposed; the one offered for application is accepted and was not applied. *)
Theorem studio_proposals_are_the_open_ones (value : json) :
  match pendingStudioProposal value with
  | Some r => ∃ p, has_proposal value r p ∧ get "status" p = Some (JStr (js "proposed"))
  | None => ∀ r p, has_proposal value r p → get "status" p ≠ Some (JStr (js "proposed"))
  end ∧
  match acceptedStudioProposal value with
  | Some r => ∃ p, has_proposal value r p ∧ get "status" p = Some (JStr (js "accepted")) ∧
                   get "applied_at" p = None
  | None => ∀ r p, has_proposal value r p → get "status" p = Some (JStr (js "accepted")) →
                   is_Some (get "applied_at" p)
  end.
Proof.
  assert (∀ s v, isLit s v = true ↔ v = Some (JStr (js s))) as Hlit.
  { intros s v. unfold isLit. destruct v as [[]|]; try done. rewrite jeqb_eq. naive_solver. }
  unfold pendingStudioProposal, acceptedStudioProposal.
  pose proof (findProposal_spec isProposed value) as H1.
  pose proof (findProposal_spec isAcceptedUnapplied value) as H2.
  split.
  - destruct (findProposal isProposed value) as [r|].
    + destruct H1 as (p & Hp & Ha). exists p. by apply Hlit in Ha.
    + intros r p Hp Hs. specialize (H1 r p Hp). apply Hlit in Hs. unfold isProposed in H1. congruence.
  - destruct (findProposal isAcceptedUnapplied value) as [r|];
      unfold isAcceptedUnapplied, hasOwn in H2.
    + destruct H2 as (p & Hp & Ha). exists p. apply andb_true_iff in Ha as [Hs Hn].
      apply negb_true_iff, bool_decide_eq_false in Hn. apply Hlit in Hs. split_and!; [done..|].
      by apply eq_None_not_Some.
    + intros r p Hp Hs. specialize (H2 r p Hp). apply Hlit in Hs. rewrite Hs in H2.
      cbn [andb] in H2. apply negb_false_iff in H2. by apply bool_decide_eq_true in H2.
Qed.

(** ** What reaches the screen from a tool event *)

Section Screen.
Context `{Platform}.

(** The line a tool event is shown with, when it comes from its display model, is a
    text the display guard accepts followed by its truth label: no markup, no control
    character, no credential reaches the terminal through a model. *)
Theorem tool_title_is_safe (payload : ComputerEventPayload) (model m : json) :
  cp_display_model payload = Some model →
  displayModelCompatibility (Z.of_nat (length (cp_source_references payload))) model ≠ unsupported →
  migrateDisplayModel (Z.of_nat (length (cp_source_references payload))) model = Some m →
  ∃ text truth, toolSummary payload = text ++ js " · " ++ truth ∧
    displayTextIsSafe text displayTextMaximum = true ∧
    truth ∈ map js displayTruths.
Proof.
  intros Hm Hc Hmig. unfold toolSummary. rewrite Hm. rewrite bool_decide_false by done. rewrite Hmig.
  apply migrate_valid in Hmig. unfold isDisplayModel in Hmig. bools. unfold titleText.
  destruct (get "title" m) as [title|] eqn:Ht; [|done].
  match goal with Hd : isDisplayDatum _ _ = true |- _ => unfold isDisplayDatum in Hd end. bools.
  cbn [getO] in *. unfold textOk, isName in *.
  destruct (asString (get "value" title)) as [text|] eqn:Hv; [|done].
  destruct (asString (get "truth" title)) as [truth|] eqn:Htr; [|done].
  apply asString_Some in Hv as ->. apply asString_Some in Htr as ->. cbn [toStrO toStr].
  exists text, truth. split_and!; [done|done|].
  match goal with Hn : in_names truth _ = true |- _ => apply in_names_spec in Hn as (n & Hn & ->) end.
  by apply list_elem_of_fmap_2.
Qed.
End Screen.

#[local] Existing Instance test_platform.

Definition shown_payload : ComputerEventPayload := {|
  cp_tool_event_id := uuid "1"; cp_provider_tool_call_id := js "call"; cp_tool := js "web_search";
  cp_operation := js "search";
  cp_scope := {| cs_actor_id := uuid "a"; cs_session_id := None; cs_turn_id := None;
                 cs_task_id := None; cs_outcome_id := None; cs_agent_id := js "ion" |};
  cp_risk_class := js "GREEN"; cp_phase := completed; cp_timestamp := js "now";
  cp_display_kind := js "search";
  cp_source_references := [{| sr_kind := js "web"; sr_id := js "1" |}; {| sr_kind := js "web"; sr_id := js "2" |}];
  cp_terminal_status := Some completed; cp_progress := None; cp_result := None;
  cp_display_model := Some sample_model |}.

Lemma tool_title_is_safe_witness :
  ∃ text truth, toolSummary shown_payload = text ++ js " · " ++ truth ∧
    displayTextIsSafe text displayTextMaximum = true ∧ truth ∈ map js displayTruths.
Proof.
  apply (tool_title_is_safe shown_payload sample_model sample_model).
  - reflexivity.
  - vm_compute. discriminate.
  - vm_compute. reflexivity.
Defined.

Example shown_line : toolSummary shown_payload = js "Release notes · observed".
Proof. vm_compute. reflexivity. Qed.

(** Lines as the terminal shows them. *)
Example formatted_lines :
  recordLine (JObj [(js "name", JStr (js "Nightly")); (js "next_due_at", JStr (js "09:00"))])
    ["name"; "status"; "next_due_at"]%string = js "name: Nightly · next due at: 09:00" ∧
  eventTitle (js "memory.index_built") = js "Memory · Index built" ∧
  eventTitle (js "turn.started") = js "Request started" ∧
  workSummary (JObj [(js "contract", JObj [(js "goal", JStr (js "Ship"))]);
                     (js "completion_percentage", JNum (NFin 125 (-1)))])
    = js "Ship · next: choose next action · 12.5% verified" ∧
  parseSlash (js "/memory.search  {}") = (js "memory.search", js "{}") ∧
  pretty (JObj [(js "a", JArr [JNum (NFin 1 0); JNull]); (js "b", JObj [])])
    = js "{" ++ [10%N] ++ js "  " ++ quote (js "a") ++ js ": [" ++ [10%N] ++ js "    1," ++ [10%N] ++
      js "    null" ++ [10%N] ++ js "  ]," ++ [10%N] ++ js "  " ++ quote (js "b") ++ js ": {}" ++
      [10%N] ++ js "}".
Proof. vm_compute. repeat split. Qed.
