(* ===== verification/TuiAppProps.v ===== *)
(** * Properties of the terminal application over time

    The message queue, the exclusion between conversation calls, what the keys send, and
    which operations a slash command may run. *)
From stdpp Require Import base list strings.
From Stdlib Require Import ZArith NArith.
From S2P Require Import Prelude JsString JsValue Regex Catalog Protocol Display Envelope.
From S2P Require Import Events EventsFacts EventsProps LocalClient TuiFormat TuiApp.

(** ** The queue *)

Lemma slice_last_all {A} k (l : list A) : length l ≤ k → slice_last k l = l.
Proof. intros Hl. unfold slice_last. by replace (length l - k) with 0 by lia. Qed.

Lemma enqueue_slice c l : enqueue c (slice_last 20 l) = slice_last 20 (l ++ [c]).
Proof.
  unfold enqueue, slice_last. rewrite length_drop, drop_drop, length_app. simpl.
  rewrite drop_app_le by lia. f_equal. f_equal. lia.
Qed.

(** Queueing several messages one after the other keeps the last twenty. *)
Lemma enqueue_all cs q :
  length q ≤ 20 → fold_left (λ q c, enqueue c q) cs q = slice_last 20 (q ++ cs).
Proof.
  intros Hq. induction cs as [|c cs IH] using rev_ind.
  - simpl. by rewrite app_nil_r, slice_last_all.
  - rewrite fold_left_app. simpl. by rewrite IH, enqueue_slice, app_assoc.
Qed.

Lemma enqueue_length c q : length (enqueue c q) ≤ 20.
Proof. unfold enqueue. rewrite length_app. pose proof (slice_last_length 19 q). simpl. lia. Qed.

(** ** Conversation calls in flight *)

Definition conversational (t : Task) : bool :=
  match t with TSendCreate _ | TSendSubmit | TSlashNew | TSlashRun _ => true | _ => false end.

Definition calls (a : App) : nat := length (List.filter conversational (inflight a)).

Definition is_verify (o : output) : bool :=
  match o with
  | Send r => jeqb (rq_operation r) (js "project.verification.run")
  | _ => false
  end.
Definition no_verify (out : list output) : Prop := Forall (λ o, is_verify o = false) out.

(** The invariant: a bounded queue, and exactly one conversation call while busy. *)
Record tidy (a : App) : Prop := {
  tidy_queue : length (queue a) ≤ 20;
  tidy_calls : calls a = if busy a then 1 else 0;
  tidy_verify : TVerify ∉ inflight a;
}.

(** Nothing of the conversation is in flight. *)
Record idle (a : App) : Prop := {
  idle_queue : length (queue a) ≤ 20;
  idle_calls : calls a = 0;
  idle_verify : TVerify ∉ inflight a;
}.

(** What the other handlers leave alone. *)
Definition keeps (a a' : App) : Prop :=
  calls a' = calls a ∧ busy a' = busy a ∧ queue a' = queue a ∧
  (TVerify ∈ inflight a' → TVerify ∈ inflight a).

Lemma keeps_refl a : keeps a a.
Proof. done. Qed.
Lemma keeps_trans a b c : keeps a b → keeps b c → keeps a c.
Proof. unfold keeps. intros (?&?&?&?) (?&?&?&?). split_and!; (congruence || auto). Qed.
Lemma keeps_tidy a a' : keeps a a' → tidy a → tidy a'.
Proof. intros (Hc & Hb & Hq & Hv) [H1 H2 H3]. split; [by rewrite Hq|by rewrite Hc, Hb|auto]. Qed.

Lemma calls_snoc a t :
  length (List.filter conversational (inflight a ++ [t])) = calls a + (if conversational t then 1 else 0).
Proof. rewrite List.filter_app, length_app. simpl. by destruct (conversational t). Qed.

Definition calm (a : App) (r : App * list output) : Prop := no_verify r.2 → keeps a r.1.

Lemma await_calm q t a : conversational t = false → t ≠ TVerify → calm a (await q t a).
Proof.
  intros Ht Hv _. unfold await. destruct q; [done|]. split_and!; [|done..|].
  - unfold calls at 1. simpl. rewrite calls_snoc, Ht. lia.
  - simpl. intros [?|Hin%list_elem_of_singleton]%elem_of_app; [done|congruence].
Qed.

Lemma andThen_calm a r f :
  calm a r → (∀ b, calm b (f b)) → calm a (andThen r f).
Proof.
  intros Hr Hf. destruct r as [b out]. unfold andThen, calm in *. specialize (Hf b).
  destruct (f b) as [c out']. simpl in *. intros [H1 H2]%Forall_app.
  eapply keeps_trans; eauto.
Qed.

Lemma when_calm b f a : (∀ a, calm a (f a)) → calm a (when b f a).
Proof. intros Hf. unfold when. destruct b; [apply Hf|]. by intros _. Qed.

Lemma pureWhen_calm b f a : (∀ a, keeps a (f a)) → calm a (pureWhen b f a).
Proof. intros Hf. unfold pureWhen. destruct b; intros _; [apply Hf|done]. Qed.

Lemma calm_pre a b r : keeps a b → calm b r → calm a r.
Proof. intros Hab Hr Hn. eapply keeps_trans; [exact Hab|by apply Hr]. Qed.

Section App.
Context `{Platform}.
Variable JSON_parse : jstr → Error + json.
Variable Number : jstr → option Z.

Lemma decide_calm st d a : calm a (decide_ st d a).
Proof. unfold decide_. destruct (pendingApproval st); [by apply await_calm|by intros _]. Qed.

Lemma decideStudio_calm b a : calm a (decideStudio b a).
Proof. unfold decideStudio. destruct (pendingStudioProposal _); [by apply await_calm|by intros _]. Qed.

Lemma applyStudio_calm a : calm a (applyStudio a).
Proof. unfold applyStudio. destruct (acceptedStudioProposal _); [by apply await_calm|by intros _]. Qed.

Lemma resumeSession_calm c a : calm a (resumeSelectedSession c a).
Proof.
  unfold resumeSelectedSession. destruct (sessions a !! _) as [[]|]; try by intros _.
  destruct (get "id" _) as [[| | |[|]| |]|]; try (by intros _). by apply await_calm.
Qed.

Lemma verification_calm a : calm a (runProjectVerification a).
Proof.
  unfold runProjectVerification. destruct (activeProjectID a), (manifest a); try by intros _.
  unfold issue, await. replace (bool_decide (OPERATION_KINDS (js "project.verification.run") = Some command))
    with true by (vm_compute; reflexivity).
  intros Hn. apply Forall_inv in Hn. simpl in Hn. by rewrite jeqb_refl in Hn.
Qed.

Lemma systemKeys_calm a0 input key a : calm a (systemKeys a0 input key a).
Proof.
  unfold systemKeys. eapply calm_pre; [|apply when_calm, resumeSession_calm].
  destruct (_ && _), (_ && _); done.
Qed.

Lemma computerKeys_keeps st a0 input key a : keeps a (computerKeys st a0 input key a).
Proof.
  unfold computerKeys.
  destruct (is_key "l" input), (is_key "p" input), (k_upArrow key || is_key "[" input),
    (k_downArrow key || is_key "]" input); done.
Qed.

Lemma keyHandlers_calm st input key a0 a : calm a (keyHandlers Number st input key a0 a).
Proof.
  unfold keyHandlers. set (a3 := if k_tab key then _ else a).
  assert (keeps a a3) as H3 by (subst a3; by destruct (k_tab key)). clearbody a3.
  set (a4 := if inNav a3 then _ else a3).
  assert (keeps a a4) as H4 by (subst a4; destruct (inNav a3), (digitSection Number input); done).
  clearbody a4. eapply calm_pre; [exact H4|]. cbv zeta.
  repeat (apply andThen_calm; [|intros b]).
  - apply when_calm, decide_calm.
  - apply when_calm, decide_calm.
  - apply when_calm, decideStudio_calm.
  - apply when_calm, decideStudio_calm.
  - apply when_calm, applyStudio_calm.
  - apply when_calm, verification_calm.
  - apply pureWhen_calm, computerKeys_keeps.
  - apply when_calm, systemKeys_calm.
  - apply when_calm. by intros c _.
Qed.

Lemma useInput_calm st input key a : calm a (useInput Number st input key a).
Proof.
  unfold useInput.
  assert (keeps a (focusKeys input key a)) as H2
    by (unfold focusKeys; by destruct (_ && _), (k_escape key)).
  assert (calm a (keyHandlers Number st input key a (focusKeys input key a))) as Hrest
    by (eapply calm_pre; [exact H2|apply keyHandlers_calm]).
  destruct (k_tab key); [|exact Hrest].
  destruct (bool_decide (focus a = composer)); [|exact Hrest].
  destruct (slashSuggestions a); [exact Hrest|]. intros _. exact H2.
Qed.

(** ** Conversation calls *)

(** A call that starts while busy with nothing in flight. *)
Lemma awaitCaught_tidy q t a :
  conversational t = true → idle a → busy a = true → tidy (awaitCaught q t a).1.
Proof.
  intros Ht [Hq Hc Hv] Hb. unfold awaitCaught. destruct q as [e|r]; split; try done; simpl.
  - rewrite Hb. unfold calls at 1. simpl. rewrite calls_snoc, Hc, Ht. done.
  - intros [?|Hin%list_elem_of_singleton]%elem_of_app; [done|by subst].
Qed.

Lemma idle_tidy a : idle a → busy a = false → tidy a.
Proof. intros [Hq Hc Hv] Hb. split; [done|by rewrite Hb|done]. Qed.

Lemma slashFailed_tidy e a : idle a → tidy (slashFailed e a).1.
Proof. intros []. by split. Qed.

Lemma executeSlash_tidy v a : idle a → tidy (executeSlash JSON_parse v a).1.
Proof.
  intros Hi. unfold executeSlash. set (b := setCommandOutput _ _).
  assert (idle b) as Hib by (by destruct Hi). assert (busy b = true) as Hbb by done.
  clearbody b. destruct (parseSlash v) as [operation raw].
  destruct (jeqb operation (js "help")); [by destruct Hib|].
  destruct (jeqb operation (js "new")).
  { destruct (offered b _); [by apply awaitCaught_tidy|by apply slashFailed_tidy]. }
  destruct (offered b _); [|by apply slashFailed_tidy].
  destruct (slashPayload JSON_parse raw); [by apply slashFailed_tidy|by apply awaitCaught_tidy].
Qed.

Lemma send_tidy c a : tidy a → tidy (send JSON_parse c a).1.
Proof.
  intros Ht. unfold send. destruct (jeqb c [] || busy a) eqn:Hg; [done|].
  apply orb_false_iff in Hg as [_ Hb]. destruct Ht as [Hq Hc Hv]. rewrite Hb in Hc.
  destruct (startsWith (js "/") c); [by apply executeSlash_tidy|].
  change (sessionID (setDraft [] (setBusy true a))) with (sessionID a).
  destruct (sessionID a); by apply awaitCaught_tidy.
Qed.

Lemma submit_tidy st v a : tidy a → tidy (submit JSON_parse st v a).1.
Proof.
  intros Ht. unfold submit. destruct (jeqb _ []); [done|].
  destruct (busy a || _); [|by apply send_tidy]. destruct Ht as [Hq Hc Hv].
  split; [apply enqueue_length|done..].
Qed.

Lemma drainQueue_tidy st a : tidy a → tidy (drainQueue JSON_parse st a).1.
Proof.
  intros Ht. unfold drainQueue. destruct (busy a || _); [done|].
  destruct (queue a) as [|c q] eqn:Hq; [done|]. apply send_tidy.
  destruct Ht as [H1 H2 H3]. split; [|done..]. simpl. rewrite Hq in H1. simpl in H1. lia.
Qed.

(** Answers to conversation calls. *)
Lemma resume_tidy t outcome a :
  conversational t = true → idle a → busy a = true → tidy (resume t outcome a).1.
Proof.
  intros Ht Hi Hb. destruct t as [content| | |operation| | | | | |]; try done;
    (destruct outcome as [e|r]; [by apply slashFailed_tidy|]); cbn [resume].
  - destruct (createdID r); [by apply slashFailed_tidy|].
    apply awaitCaught_tidy; [done|by destruct Hi|done].
  - by destruct Hi.
  - destruct (createdID r); [by apply slashFailed_tidy|by destruct Hi].
  - destruct (resp_error r); [by apply slashFailed_tidy|]. cbv zeta.
    destruct (jeqb operation (js "settings")); by destruct Hi.
Qed.

(** Answers to the other calls. *)
Lemma resume_calm t outcome a :
  conversational t = false → t ≠ TVerify → calm a (resume t outcome a).
Proof.
  intros Ht Hv. destruct t; try done; (destruct outcome as [e|r]; [by intros _|]); cbn [resume];
    try (by intros _).
  - destruct (resp_error r); by intros _.
  - unfold studioAnswered. eapply calm_pre; [|by apply await_calm]. done.
  - unfold studioAnswered. eapply calm_pre; [|by apply await_calm]. done.
Qed.

Lemma calls_delete i t l :
  l !! i = Some t →
  length (List.filter conversational l) =
  length (List.filter conversational (delete i l)) + (if conversational t then 1 else 0).
Proof.
  revert i; induction l as [|x l IH]; intros [|i] Hi; simpl in *; [done..|simplify_eq|].
  - destruct (conversational t); simpl; lia.
  - specialize (IH i Hi). destruct (conversational x); simpl; lia.
Qed.

Lemma settle_tidy i outcome a a' out :
  tidy a → no_verify out → settle i outcome a = Some (a', out) → tidy a'.
Proof.
  intros Ht Hn. unfold settle. destruct (inflight a !! i) as [t|] eqn:Hi; [|done].
  cbn [mbind option_bind]. intros [= Hr].
  pose proof (calls_delete i t _ Hi) as Hd. fold (calls a) in Hd.
  set (b := setInflight (delete i (inflight a)) a) in *.
  assert (calls b = length (List.filter conversational (delete i (inflight a)))) as Hcb by done.
  destruct Ht as [Hq Hc Hv]. assert (queue b = queue a ∧ busy b = busy a) as [Hqb Hbb] by done.
  assert (TVerify ∉ inflight b) as Hvb.
  { subst b. simpl. intros Hin. apply Hv. rewrite delete_take_drop in Hin.
    apply elem_of_app in Hin as [Hin|Hin]; [by eapply elem_of_take in Hin as (?&?&_); eapply list_elem_of_lookup_2|].
    eapply subseteq_drop; done. }
  destruct (conversational t) eqn:Hconv.
  - destruct (busy a) eqn:Hb; [|lia].
    assert (idle b) as Hib by (split; [by rewrite Hqb|lia|done]).
    pose proof (resume_tidy t outcome b Hconv Hib Hbb) as Htd. by rewrite Hr in Htd.
  - assert (tidy b) as Hb by (split; [by rewrite Hqb|rewrite Hcb, Hbb; lia|done]).
    eapply keeps_tidy; [|exact Hb].
    assert (t ≠ TVerify) as Hne by (intros ->; apply Hv; by eapply list_elem_of_lookup_2).
    pose proof (resume_calm t outcome b Hconv Hne) as Hk. rewrite Hr in Hk. by apply Hk.
Qed.

Lemma perform_tidy st x a a' out :
  tidy a → no_verify out → perform JSON_parse Number st x a = Some (a', out) → tidy a'.
Proof.
  intros Ht Hn. destruct x; cbn [perform]; try (intros [= <- <-]; by destruct Ht).
  - intros [= Hr]. pose proof (useInput_calm st input key a) as Hk. rewrite Hr in Hk.
    eapply keeps_tidy; [by apply Hk|done].
  - intros [= <- <-]. unfold updateDraft. destruct (_ && _); [|by destruct Ht].
    destruct (digitSection Number value); by destruct Ht.
  - intros [= Hr]. pose proof (submit_tidy st value a Ht) as Hs. by rewrite Hr in Hs.
  - intros [= Hr]. pose proof (drainQueue_tidy st a Ht) as Hs. by rewrite Hr in Hs.
  - by apply settle_tidy.
  - intros [= <- <-]. unfold followCursor. destruct (followLive a); by destruct Ht.
Qed.

Lemma runs_tidy a out : tui_runs JSON_parse Number a out → no_verify out → tidy a.
Proof.
  induction 1 as [|st a out x a' out' _ IH Hp]; intros Hn.
  - split; [simpl; lia|done|apply not_elem_of_nil].
  - apply Forall_app in Hn as [Hn Hn']. eapply perform_tidy; eauto.
Qed.

(** ** What the keys send *)

(** Every request among the outputs satisfies [P]. *)
Definition sends (P : Request → Prop) (out : list output) : Prop :=
  Forall (λ o, match o with Send r => P r | _ => True end) out.

Lemma sends_andThen P r f : sends P r.2 → (∀ b, sends P (f b).2) → sends P (andThen r f).2.
Proof.
  intros Hr Hf. destruct r as [b out]. unfold andThen. specialize (Hf b).
  destruct (f b) as [c out']. by apply Forall_app.
Qed.
Lemma andThen_first o r f : o ∈ r.2 → o ∈ (andThen r f).2.
Proof.
  intros Ho. destruct r as [b out]. unfold andThen. destruct (f b). apply elem_of_app. by left.
Qed.
Lemma sends_when P b f a : (b = true → sends P (f a).2) → sends P (when b f a).2.
Proof. unfold when. destruct b; [auto|constructor]. Qed.

(** A request that is awaited is the one that was issued. *)
Lemma sends_await (P : Request → Prop) k op payload session t a :
  P {| rq_kind := k; rq_operation := op; rq_payload := payload; rq_session := session |} →
  sends P (await (issue k op payload session) t a).2.
Proof. intros HP. unfold issue, await. case_bool_decide; repeat constructor. done. Qed.

(** An answer to the pending approval, with the decision of the key. *)
Definition answers (st : OperatorState) (input : jstr) (r : Request) : Prop :=
  rq_operation r = js "approval.respond" →
  ∃ approval d, pendingApproval st = Some approval ∧
    rq_payload r = jobj [("approval_id", JStr (a_id approval)); ("decision", JStr (decisionName d))]%string ∧
    rq_session r = JStr <$> a_session_id approval ∧
    input = match d with approve => js "a" | deny => js "d" end.

Ltac other_operation := intros Hop; by apply (f_equal (jeqb (js "approval.respond"))) in Hop.

Lemma keyHandlers_answers st input key a0 a :
  sends (answers st input) (keyHandlers Number st input key a0 a).2.
Proof.
  unfold keyHandlers. cbv zeta.
  assert (∀ d b, is_key (match d with approve => "a" | deny => "d" end) input = true →
    sends (answers st input) (decide_ st d b).2) as Hdecide.
  { intros d b Hk. unfold decide_. destruct (pendingApproval st) as [ap|] eqn:Hp; [|constructor].
    apply sends_await. intros _. exists ap, d. split_and!; [done..|].
    apply jeqb_eq in Hk. by destruct d. }
  repeat (apply sends_andThen; [|intros b]).
  - apply sends_when. intros [Hk _]%andb_true_iff. by apply (Hdecide approve).
  - apply sends_when. intros [Hk _]%andb_true_iff. by apply (Hdecide deny).
  - apply sends_when. intros _. unfold decideStudio. case_match; [|constructor].
    apply sends_await. other_operation.
  - apply sends_when. intros _. unfold decideStudio. case_match; [|constructor].
    apply sends_await. other_operation.
  - apply sends_when. intros _. unfold applyStudio. case_match; [|constructor].
    apply sends_await. other_operation.
  - apply sends_when. intros _. unfold runProjectVerification.
    destruct (activeProjectID b), (manifest b); [|by constructor..]. apply sends_await. other_operation.
  - unfold pureWhen. destruct (_ && _); constructor.
  - apply sends_when. intros _. unfold systemKeys. apply sends_when. intros _.
    unfold resumeSelectedSession.
    destruct (sessions _ !! _) as [[]|]; try by constructor.
    destruct (get "id" _) as [[| | |[|]| |]|]; by constructor.
  - apply sends_when. intros _. repeat constructor.
Qed.

(** The creation of a session, or an operation the catalog offers, with its kind. *)
Definition slash_request (a : App) (r : Request) : Prop :=
  OPERATION_KINDS (rq_operation r) = Some (rq_kind r) ∧
  (r = {| rq_kind := command; rq_operation := js "session.create"; rq_payload := JObj [];
          rq_session := None |} ∨
   (rq_session r = sessionID a ∧ isRecord (Some (rq_payload r)) = true ∧
    ∃ d, d ∈ catalog a ∧ cd_available d = true ∧ cd_operation d = rq_operation r ∧
      cd_kind d = rq_kind r)).

(** A slash command whose operation is offered. *)
Lemma slash_issue a b d payload t :
  sessionID b = sessionID a → busy b = true → d ∈ catalog a → cd_available d = true →
  isRecord (Some payload) = true →
  let r := awaitCaught (issue (cd_kind d) (cd_operation d) payload (sessionID b)) t b in
  sends (slash_request a) r.2 ∧
  (busy r.1 = true ↔ r.2 ≠ []).
Proof.
  intros Hs Hb Hd Ha Hp. unfold issue. case_bool_decide as Hk; cbn [awaitCaught].
  - split; [|split; done]. apply Forall_singleton. split; [done|]. right. split_and!; try done.
    by exists d.
  - split; [constructor|done].
Qed.

(** ** Claims *)

Fixpoint submit_all (st : OperatorState) (vs : list jstr) (a : App) : App * list output :=
  match vs with
  | [] => (a, [])
  | v :: vs => andThen (submit JSON_parse st v a) (submit_all st vs)
  end.

(** The message queue: messages submitted while a call is in flight are not sent;
    they are queued in order, trimmed, and only the last twenty are kept.  When nothing
    is in flight and no turn runs, the oldest queued message is the next one sent. *)
Theorem queue_keeps_order_and_last_twenty (st : OperatorState) (vs : list jstr) (a : App) :
  busy a = true → length (queue a) ≤ 20 → Forall (λ v, trim v ≠ []) vs →
  queue (submit_all st vs a).1 = slice_last 20 (queue a ++ map trim vs) ∧
  (submit_all st vs a).2 = [] ∧
  ∀ b c q, busy b = false → runningTurns st b = [] → queue b = c :: q →
    drainQueue JSON_parse st b = send JSON_parse c (setQueue q b).
Proof.
  intros Hb Hq Hvs. split_and!.
  - rewrite <- enqueue_all by done. clear Hq. revert a Hb; induction Hvs as [|v vs Hv _ IH]; intros a Hb; [done|].
    cbn [submit_all map fold_left]. unfold submit. apply jeqb_neq in Hv. rewrite Hv, Hb. cbn [orb andThen].
    set (b := setNotice _ _). specialize (IH b Hb). destruct (submit_all st vs b). exact IH.
  - clear Hq. revert a Hb; induction Hvs as [|v vs Hv _ IH]; intros a Hb; [done|].
    cbn [submit_all]. unfold submit. apply jeqb_neq in Hv. rewrite Hv, Hb. cbn [orb andThen].
    set (b := setNotice _ _). specialize (IH b Hb). destruct (submit_all st vs b). exact IH.
  - intros b c q Hbb Hr Hqb. unfold drainQueue. by rewrite Hbb, Hr, Hqb.
Qed.

(** [C12] One conversation call at a time: in a run that never starts a project
    verification, at most one message or slash command awaits its answer, exactly while
    the application is busy, and at most twenty messages wait. *)
Theorem one_conversation_call_at_a_time (a : App) (out : list output) :
  tui_runs JSON_parse Number a out → no_verify out →
  calls a = (if busy a then 1 else 0) ∧ length (queue a) ≤ 20.
Proof. intros Hr Hn. by destruct (runs_tidy a out Hr Hn). Qed.

(** Keys answer the approval on screen: whatever key is pressed in whatever state,
    an approval answer that is sent is for the first pending approval, in its session,
    and carries the decision of the key: a approves, d denies. *)
Theorem approval_keys_answer_the_pending_approval (st : OperatorState) (input : jstr) (key : Key) (a : App) :
  sends (answers st input) (useInput Number st input key a).2.
Proof.
  unfold useInput. destruct (k_tab key); [|apply keyHandlers_answers].
  destruct (bool_decide (focus a = composer)); [|apply keyHandlers_answers].
  destruct (slashSuggestions a); [apply keyHandlers_answers|constructor].
Qed.

(** The approval keys are not bound to the navigation focus: while the composer has
    the focus, typing the letter a of a message approves the pending approval. *)
Theorem typing_in_the_composer_approves (st : OperatorState) (a : App) (approval : ApprovalState) :
  focus a = composer → pendingApproval st = Some approval →
  ∃ r, Send r ∈ (useInput Number st (js "a") noKey a).2 ∧ rq_operation r = js "approval.respond" ∧
    rq_payload r = jobj [("approval_id", JStr (a_id approval)); ("decision", JStr (js "approve"))]%string.
Proof.
  intros Hf Hp.
  exists {| rq_kind := command; rq_operation := js "approval.respond";
            rq_payload := jobj [("approval_id", JStr (a_id approval)); ("decision", JStr (js "approve"))]%string;
            rq_session := JStr <$> a_session_id approval |}.
  split; [|done]. unfold useInput, keyHandlers. cbn [k_tab noKey]. cbv zeta.
  repeat apply andThen_first. rewrite Hp.
  replace (is_key "a" (js "a") && bool_decide (is_Some (Some approval))) with true by reflexivity.
  unfold when, decide_. rewrite Hp. unfold issue.
  replace (bool_decide (OPERATION_KINDS (js "approval.respond") = Some command)) with true
    by (vm_compute; reflexivity).
  by apply list_elem_of_singleton.
Qed.

(** A slash command runs only what the server offers: a request it sends is the
    creation of a session, or an operation the live catalog lists as available, with the
    kind the protocol gives to it, in the current session; and after it the application
    is busy exactly when a request was sent. *)
Theorem slash_sends_only_offered_operations (value : jstr) (a : App) :
  sends (slash_request a) (executeSlash JSON_parse value a).2 ∧
  (busy (executeSlash JSON_parse value a).1 = true ↔ (executeSlash JSON_parse value a).2 ≠ []).
Proof.
  unfold executeSlash. set (b := setCommandOutput _ _).
  assert (sessionID b = sessionID a ∧ catalog b = catalog a ∧ busy b = true) as (Hs & Hc & Hb) by done.
  clearbody b. destruct (parseSlash value) as [operation raw].
  assert (∀ e, sends (slash_request a) (slashFailed e b).2 ∧
    (busy (slashFailed e b).1 = true ↔ (slashFailed e b).2 ≠ [])) as Hfail
    by (intros e; split; [constructor|done]).
  destruct (jeqb operation (js "help")); [split; [constructor|done]|].
  destruct (jeqb operation (js "new")).
  { destruct (offered b _); [|apply Hfail]. unfold createSession, issue.
    replace (bool_decide (OPERATION_KINDS (js "session.create") = Some command)) with true
      by (vm_compute; reflexivity).
    cbn [awaitCaught]. split; [|done]. apply Forall_singleton. split; [vm_compute; reflexivity|by left]. }
  unfold offered. set (resolved := if jeqb operation (js "settings") then _ else _).
  destruct (find _ (catalog b)) as [d|] eqn:Hd; [|apply Hfail].
  apply find_some in Hd as [Hin Ha]. apply andb_true_iff in Ha as [Ha _].
  unfold slashPayload. destruct (jeqb raw []).
  { apply slash_issue; try done. by apply list_elem_of_In; rewrite <- Hc. }
  destruct (JSON_parse raw) as [e|[]]; try apply Hfail.
  apply slash_issue; try done. by apply list_elem_of_In; rewrite <- Hc.
Qed.

(** After /settings the screen shows the system view while the keys still belong to
    the view that was open before: with the projects view open and a proposal waiting,
    the key y then accepts the proposal from the system view. *)
Theorem settings_leave_the_keys_behind (st : OperatorState) (a : App) (r : ResponseEnvelope) (p : proposalRef) :
  resp_error r = None → sectionRef a = projects →
  pendingStudioProposal (studioState a) = Some p →
  let b := (resume (TSlashRun (js "settings")) (inr r) a).1 in
  section b = system ∧ sectionRef b = projects ∧
  ∃ q, Send q ∈ (useInput Number st (js "y") noKey b).2 ∧
    rq_operation q = js "studio.proposal.decide" ∧ get "accept" (rq_payload q) = Some (JBool true).
Proof.
  intros He Hs Hp. cbv zeta. cbn [resume]. rewrite He.
  replace (jeqb (js "settings") (js "settings")) with true by reflexivity. cbn [fst].
  set (b := setBusy false _).
  assert (section b = system ∧ sectionRef b = projects ∧ studioState b = studioState a) as (Hb1 & Hb2 & Hb3)
    by done.
  clearbody b. split_and!; [done..|].
  exists {| rq_kind := command; rq_operation := js "studio.proposal.decide";
            rq_payload := jobj (proposalPayload p ++
              [("accept", JBool true); ("reason", JStr (js "Approved in terminal Studio"))]%string);
            rq_session := sessionID b |}.
  split; [|split; reflexivity].
  unfold useInput, keyHandlers. cbn [k_tab noKey]. cbv zeta.
  replace (digitSection Number (js "y")) with (@None Section_) by reflexivity.
  assert (focusKeys (js "y") noKey b = b) as Hfk by reflexivity. rewrite Hfk.
  assert (∀ x y : App, (if inNav b then b else b) = b) as Hn by (intros; by destruct (inNav b)).
  rewrite (Hn b b).
  do 6 apply andThen_first.
  replace (is_key "a" (js "y")) with false by reflexivity.
  replace (is_key "d" (js "y")) with false by reflexivity. cbn [andb when andThen app].
  unfold inView. rewrite Hb2. rewrite bool_decide_true by done.
  replace (is_key "y" (js "y")) with true by reflexivity. cbn [andb when].
  unfold decideStudio. rewrite Hb3, Hp. unfold issue.
  replace (bool_decide (OPERATION_KINDS (js "studio.proposal.decide") = Some command)) with true
    by (vm_compute; reflexivity).
  by apply list_elem_of_singleton.
Qed.
End App.

(** ** Runs given by their inputs *)

Section Play.
Context `{Platform}.
Variable JSON_parse : jstr → Error + json.
Variable Number : jstr → option Z.

Fixpoint tui_play (st : OperatorState) (xs : list tui_input) (a : App) (out : list output)
    : option (App * list output) :=
  match xs with
  | [] => Some (a, out)
  | x :: xs => match perform JSON_parse Number st x a with
               | Some (a', out') => tui_play st xs a' (out ++ out')
               | None => None
               end
  end.

Lemma tui_play_runs st xs a out a' out' :
  tui_runs JSON_parse Number a out → tui_play st xs a out = Some (a', out') →
  tui_runs JSON_parse Number a' out'.
Proof.
  revert a out; induction xs as [|x xs IH]; intros a out Hr; simpl; [by intros [= <- <-]|].
  destruct (perform JSON_parse Number st x a) as [[a1 o1]|] eqn:Hp; [|done]. apply IH. by eapply tui_step.
Qed.
End Play.

#[local] Existing Instance test_platform.

Definition no_parse (_ : jstr) : Error + json := inl (mkError (js "no payload expected")).
(** [Number] on the digit keys. *)
Definition digit_number (s : jstr) : option Z :=
  match s with [c] => if (48 <=? c)%N && (c <=? 57)%N then Some (Z.of_N c - 48)%Z else None | _ => None end.

Definition at_tui (xs : list tui_input) : App :=
  default initialApp (fst <$> tui_play no_parse digit_number emptyOperatorState xs initialApp []).
Definition out_tui (xs : list tui_input) : list output :=
  default [] (snd <$> tui_play no_parse digit_number emptyOperatorState xs initialApp []).

Lemma at_tui_runs xs :
  is_Some (tui_play no_parse digit_number emptyOperatorState xs initialApp []) →
  tui_runs no_parse digit_number (at_tui xs) (out_tui xs).
Proof.
  intros [[a out] Hp]. unfold at_tui, out_tui. rewrite Hp. simpl.
  eapply tui_play_runs; [apply tui_start|exact Hp].
Qed.

Definition ok_response (result : json) : ResponseEnvelope :=
  {| resp_request_id := uuid "1"; resp_revision := 0; resp_result := Some result; resp_error := None |}.

(** A message is sent, verification is started in the projects view and finishes, and a
    second message is sent while the first still awaits its answer. *)
Definition overlapping : list tui_input :=
  [Submitted (js "first");
   ProjectsLoaded (JObj [(js "projects", JArr [JObj [(js "id", JStr (js "p1"))]])]);
   VerificationLoaded (Some (JObj [(js "id", JStr (js "m1"))])) [];
   Pressed [] {| k_escape := true; k_tab := false; k_upArrow := false; k_downArrow := false; k_ctrl := false |};
   Pressed (js "4") noKey; Pressed (js "v") noKey;
   Settled 1 (inr (ok_response (JObj [(js "status", JStr (js "passed"))])));
   Submitted (js "second")].

(** Verification breaks the exclusion: running a project verification while a message
    awaits its answer clears the busy flag when it finishes, so a second conversation
    call starts before the first is answered. *)
Theorem verification_overlaps_conversation_calls :
  ∃ a out, tui_runs no_parse digit_number a out ∧ calls a = 2.
Proof.
  exists (at_tui overlapping), (out_tui overlapping). split.
  - apply at_tui_runs. vm_compute. eauto.
  - vm_compute. reflexivity.
Qed.

(** ** Witnesses *)

Definition busy_app : App := at_tui [Submitted (js "first")].

Lemma queue_keeps_order_and_last_twenty_witness :
  queue (submit_all no_parse emptyOperatorState [js " second "; js "third"] busy_app).1
  = [js "second"; js "third"].
Proof.
  destruct (queue_keeps_order_and_last_twenty no_parse emptyOperatorState
              [js " second "; js "third"] busy_app) as [Hq _].
  - vm_compute. reflexivity.
  - vm_compute. lia.
  - repeat constructor; vm_compute; discriminate.
  - rewrite Hq. vm_compute. reflexivity.
Defined.

Definition two_messages : list tui_input := [Submitted (js "first"); Submitted (js "second")].

Lemma one_conversation_call_at_a_time_witness :
  calls (at_tui two_messages) = 1 ∧ length (queue (at_tui two_messages)) ≤ 20.
Proof.
  destruct (one_conversation_call_at_a_time no_parse digit_number (at_tui two_messages) (out_tui two_messages))
    as [Hc Hq].
  - apply at_tui_runs. vm_compute. eauto.
  - vm_compute. repeat constructor.
  - split; [exact Hc|exact Hq].
Defined.

Definition waiting_state : OperatorState :=
  applyEvent emptyOperatorState
    (mk_event 1 "approval.requested" None None (approval_json "5")).

Lemma typing_in_the_composer_approves_witness :
  ∃ r, Send r ∈ (useInput digit_number waiting_state (js "a") noKey initialApp).2 ∧
    rq_operation r = js "approval.respond".
Proof.
  destruct (pendingApproval waiting_state) as [ap|] eqn:Hp; [|vm_compute in Hp; discriminate].
  destruct (typing_in_the_composer_approves digit_number waiting_state initialApp ap) as (r & Hr & Hop & _).
  - reflexivity.
  - exact Hp.
  - exists r. split; [exact Hr|exact Hop].
Defined.

Definition studio_json : json :=
  JObj [(js "intents", JArr [JObj [(js "id", JStr (js "i1"));
    (js "proposals", JArr [JObj [(js "id", JStr (js "s1")); (js "status", JStr (js "proposed"))]])]])].

Lemma settings_leave_the_keys_behind_witness :
  section (resume (TSlashRun (js "settings")) (inr (ok_response JNull))
    (setStudioState studio_json (setSections projects projects initialApp))).1 = system.
Proof.
  destruct (settings_leave_the_keys_behind digit_number emptyOperatorState
    (setStudioState studio_json (setSections projects projects initialApp)) (ok_response JNull)
    (js "i1", js "s1")) as [Hs _].
  - reflexivity.
  - reflexivity.
  - vm_compute. reflexivity.
  - exact Hs.
Defined.
