(* ===== verification/TuiView.v ===== *)
(** * The terminal screen

    What the components of [ui/tui/src/App.tsx] render, as the text of their lines: the
    computer pane, the browser workflows, the section panes, the details column, the
    composer and the status line.  Colours, spacing and wrapping are left to the terminal
    library; [new Date(s).toLocaleTimeString()] is a parameter. *)
From stdpp Require Import base list strings.
From Stdlib Require Import ZArith NArith.
From S2P Require Import Prelude JsString JsValue Regex Catalog Protocol Display Envelope Events.
From S2P Require Import EventsProps LocalClient TuiFormat TuiApp.

Record BrowserWorkflow : Type := {
  bw_status : jstr;
  bw_origin : jstr;
  bw_revision : num;
  bw_handoff : option (jstr * jstr);
}.

Definition workflowLine (w : BrowserWorkflow) : jstr :=
  spaced (bw_status w) ++ js " · " ++ bw_origin w ++ js " · rev " ++ num_toString (bw_revision w) ++
  match bw_handoff w with
  | None => []
  | Some (kind, consequence) => js " · " ++ spaced kind ++ js ": " ++ consequence
  end.

Definition WorkflowSummary (workflows : list BrowserWorkflow) : list jstr :=
  [js "SUPERVISED BROWSER WORKFLOWS"] ++
  match workflows with
  | [] => [js "No active or retained browser workflows."]
  | _ => map workflowLine (take 5 workflows)
  end ++
  [js "Shared commands: /browser.workflow.pause, resume, cancel, or handoff with JSON arguments"].

(** Numbered lines, from 1. *)
Definition numbered {A} (f : A → jstr) (l : list A) : list jstr :=
  imap (λ i x, nat_str (S i) ++ js ". " ++ f x) l.

Section View.
Context `{Platform}.
Variable localTime : jstr → jstr.

(** ** Computer pane *)

(** The model shown for a payload, and whether its version is known. *)
Definition paneCompatibility (p : ComputerEventPayload) : option DisplayCompatibility :=
  displayModelCompatibility (Z.of_nat (length (cp_source_references p))) <$> cp_display_model p.

Definition paneModel (p : ComputerEventPayload) : option json :=
  match paneCompatibility p, cp_display_model p with
  | Some current, Some m | Some migrated, Some m =>
      migrateDisplayModel (Z.of_nat (length (cp_source_references p))) m
  | _, _ => None
  end.

Definition titleField (k : string) (m : json) : jstr := toStrO (getO k (get "title" m)).

Definition resultAvailable (p : ComputerEventPayload) : bool :=
  match cp_result p with Some r => crs_available r | None => false end.

Definition paneDetails (gap pendingApproval : bool) (event : EventEnvelope)
    (p : ComputerEventPayload) : list jstr :=
  [js "ACTION    " ++ spaced (cp_operation p);
   js "STATUS    " ++ spaced (js (phase_name (cp_phase p)));
   js "TRUTH     " ++ match paneModel p with Some m => titleField "truth" m | None => js "lifecycle only" end;
   js "SOURCE    " ++ join (js ", ") (imap (λ i s, spaced (sr_kind s) ++ js " " ++ nat_str (S i))
                                        (cp_source_references p));
   js "APP       " ++ spaced (cp_display_kind p);
   js "ARTIFACT  " ++ match paneModel p with
                      | Some m => titleField "value" m
                      | None => if resultAvailable p then js "available" else js "not available"
                      end;
   js "APPROVAL  " ++ (if bool_decide (cp_phase p = awaiting_approval) || pendingApproval
                       then js "decision waiting" else js "none waiting");
   js "REPLAY    event " ++ string_of_Z (ev_sequence event) ++
     (if gap then js " · earlier retention gap" else js " · continuous retained window")] ++
  (if bool_decide (paneCompatibility p = Some unsupported)
   then [js "DISPLAY   unsupported version; lifecycle remains authoritative"] else []).

Definition timeline (events : list EventEnvelope) (index : Z) : list jstr :=
  let start := windowStart (Z.of_nat (length events)) index in
  js "TIMELINE" ::
  imap (λ i e, string_of_Z (start + Z.of_nat i + 1) ++ js "  " ++ eventSummary (ev_type e) (ev_payload e))
    (visibleEvents events index).

Definition ComputerPane (event : option EventEnvelope) (events : list EventEnvelope)
    (followLive gap : bool) (index : Z) (pendingApproval : bool) (workflows : list BrowserWorkflow)
    : list jstr :=
  match event with
  | None =>
      [js "READY · FOLLOWING LIVE";
       js "No Computer activity yet. Real actions will appear with status and sources."] ++
      WorkflowSummary workflows
  | Some event =>
      match computer_payload_of (ev_payload event) with
      | None =>
          [js "UNSUPPORTED RETAINED ACTIVITY";
           js "Lifecycle version cannot be displayed. No result has been inferred.";
           js "REPLAY  event " ++ string_of_Z (ev_sequence event)] ++
          WorkflowSummary workflows
      | Some p =>
          [if followLive then js "FOLLOWING LIVE" else js "HISTORY · WORK CONTINUES";
           string_of_Z (index + 1) ++ js "/" ++ nat_str (length events) ++ js " retained events"] ++
          paneDetails gap pendingApproval event p ++ WorkflowSummary workflows ++
          timeline events index
      end
  end.

(** ** Event rows *)

Definition eventRow (compact : bool) (e : EventEnvelope) : list jstr :=
  [localTime (ev_occurred_at e); eventTitle (ev_type e)] ++
  (if compact then [] else [eventSummary (ev_type e) (ev_payload e)]).

Definition EventRows (compact : bool) (events : list EventEnvelope) : list jstr :=
  match events with
  | [] => [js "No activity here yet."]
  | _ => flat_map (eventRow compact) events
  end.

(** The events of the chat pane: all but reasoning summaries, the last of them. *)
Definition recentEvents (st : OperatorState) (height : Z) : list EventEnvelope :=
  slice_last (Z.to_nat (Z.max 4 (height - 17)))
    (List.filter (λ e, negb (jeqb (ev_type e) (js "reasoning.summary"))) (recent_events st)).

(** ** Section panes *)

Definition tasksPane (returnBrief workBrief : json) (taskTodos : list json) : list jstr :=
  [js "SINCE YOU WERE AWAY · PAST DAY"] ++
  match returnBriefRows returnBrief with
  | [] => [js "No verified changes were recorded in this period."]
  | rows => take 8 rows
  end ++
  [js "/continuity.brief with period 24h, 7d, or 30d changes the summary window.";
   js "CURRENT WORK"; workSummary workBrief] ++
  match taskTodos with
  | [] => [js "No open subgoals in the selected conversation."]
  | _ => numbered (λ item, recordLine item ["title"; "goal"; "status"; "id"]%string) taskTodos
  end ++
  [js "/taskgraph.get and /work.brief inspect durable task evidence."].

(** [Object.values(state.pending_approvals)], as the panes read it. *)
Definition approvalRecord (a : ApprovalState) : json :=
  JObj ([(js "id", JStr (a_id a))] ++
        match a_session_id a with Some s => [(js "session_id", JStr s)] | None => [] end ++
        match a_turn_id a with Some t => [(js "turn_id", JStr t)] | None => [] end ++
        [(js "payload", a_payload a); (js "last_sequence", JNum (num_of_Z (a_last_sequence a)))]).

Definition pendingRecords (st : OperatorState) : list json :=
  map approvalRecord (pending_approvals st).*2.

Definition approvalsPane (pending : list json) : list jstr :=
  match pending with
  | [] => [js "No decisions are waiting."]
  | _ => concat (imap (λ i item,
      [js "DECISION " ++ nat_str (S i);
       recordLine item ["operation"; "consequence"; "expires_at"; "id"]%string;
       js "[a] approve  [d] deny"]) pending)
  end.

(** A waiver that still holds at [now]: not revoked, and its expiry is a later date. *)
Definition activeWaiver (now : Z) (waiver : json) : bool :=
  negb (hasOwn "revoked_at" waiver) &&
  match asString (get "expires_at" waiver) ≫= Date_parse with
  | Some expires => (now <? expires)%Z
  | None => false
  end.

Definition arrayLength (v : option json) : nat := length (default [] (isArray v)).

Definition verificationLines (now : Z) (manifest : option json) (runs waivers : list json) : list jstr :=
  match manifest with
  | None => [js "No verification manifest for the first project. Use /project.verification.manifest.derive with accepted criteria."]
  | Some m =>
      let latest := last runs in
      [js "VERIFICATION · " ++ match latest with
                               | Some r => spaced (toStrO (get "status" r))
                               | None => js "not run"
                               end;
       nat_str (arrayLength (get "gates" m)) ++ js " gates · " ++
       nat_str (match latest with Some r => arrayLength (get "criteria_covered" r) | None => 0 end) ++
       js " covered · " ++
       nat_str (match latest with
                | Some r => arrayLength (get "uncovered_criteria" r)
                | None => arrayLength (get "criteria" m)
                end) ++ js " uncovered · " ++
       nat_str (length (List.filter (activeWaiver now) waivers)) ++ js " active waivers";
       js "[v] run all required gates · /project.verification.runs and /project.verification.waivers inspect evidence"]
  end.

Definition projectsPane (now : Z) (portfolio : json) (manifest : option json)
    (runs waivers : list json) : list jstr :=
  match arrayField portfolio "projects" with
  | [] => [js "No registered projects."]
  | items => numbered (λ item, recordLine item ["name"; "lifecycle"; "root"; "id"]%string) items
  end ++
  verificationLines now manifest runs waivers ++
  [js "/project.get, /project.search, and /project.runtime.list use the shared project state."].

Definition schedulesPane (items : list json) : list jstr :=
  match items with
  | [] => [js "No recurring work is configured."]
  | _ => numbered (λ item, recordLine item ["name"; "status"; "timezone"; "next_due_at"; "source"]%string) items
  end ++
  [js "/schedule.update uses the server-provided schedule contract."].

Definition skillsPane (skillState : json) : list jstr :=
  match skillRows skillState with
  | [] => [js "No ability lifecycle records are available."]
  | rows => take 12 rows
  end ++
  [js "/skill.get, /skill.refine, and /skill.rollback inspect or change one ability."].

Definition memoryPane (compact : bool) (recent : list EventEnvelope) : list jstr :=
  js "/memory.search, /memory.get, /memory.pin, and /memory.recover use durable memory." ::
  EventRows compact
    (List.filter (λ e, startsWith (js "memory.") (ev_type e) || startsWith (js "premise.") (ev_type e))
       recent).

Definition systemPane (compact : bool) (recent : list EventEnvelope) (sessions providers : list json)
    : list jstr :=
  [nat_str (length sessions) ++ js " encrypted conversations · " ++ nat_str (length providers) ++
   js " configured providers"] ++
  numbered (λ item, recordLine item ["title"; "preview"; "updated_at"; "id"]%string) (take 8 sessions) ++
  [js "[ and ] select · r resume here · /provider.list, /channel.health, /logs.query, and /system.health inspect operations."] ++
  EventRows compact recent.

Record PaneData : Type := {
  pd_compact : bool;
  pd_now : Z;
  pd_pending : list json;
  pd_portfolio : json;
  pd_manifest : option json;
  pd_runs : list json;
  pd_waivers : list json;
  pd_providers : list json;
  pd_recent : list EventEnvelope;
  pd_returnBrief : json;
  pd_schedules : list json;
  pd_sessions : list json;
  pd_skillState : json;
  pd_taskTodos : list json;
  pd_workBrief : json;
}.

Definition SectionPane (section : Section_) (d : PaneData) : list jstr :=
  match section with
  | tasks => tasksPane (pd_returnBrief d) (pd_workBrief d) (pd_taskTodos d)
  | approvals => approvalsPane (pd_pending d)
  | projects => projectsPane (pd_now d) (pd_portfolio d) (pd_manifest d) (pd_runs d) (pd_waivers d)
  | schedules => schedulesPane (pd_schedules d)
  | skills => skillsPane (pd_skillState d)
  | memory => memoryPane (pd_compact d) (pd_recent d)
  | system => systemPane (pd_compact d) (pd_recent d) (pd_sessions d) (pd_providers d)
  | chat | computer => EventRows (pd_compact d) (pd_recent d)
  end.

(** ** The frame around the panes *)

Definition sectionLabel (s : Section_) : jstr :=
  match s with
  | chat => js "Chat" | tasks => js "Tasks" | approvals => js "Approvals"
  | projects => js "Projects" | schedules => js "Schedules" | skills => js "Skills"
  | memory => js "Memory" | computer => js "Computer" | system => js "System"
  end.

Definition navigation (compact : bool) : list jstr :=
  imap (λ i s, nat_str (S i) ++ js ":" ++ (if compact then take 4 (sectionLabel s) else sectionLabel s))
    sections.

Definition composerLine (a : App) : jstr :=
  match focus a with
  | composer =>
      match draft a with
      | [] => if busy a then js "turn running…" else js "Ask, inspect, or direct…"
      | d => d
      end
  | nav => match draft a with [] => js "Navigation focus" | d => d end
  end.

Definition queueLines (a : App) : list jstr :=
  match queue a with
  | [] => []
  | q => (nat_str (length q) ++ js " queued") :: take 3 q
  end.

Definition suggestionLines (a : App) : list jstr :=
  map (λ s, js "/" ++ sg_operation s ++ js "  " ++ sg_description s) (slashSuggestions a).

(** The details column; hidden on a narrow terminal. *)
Definition detailsColumn (st : OperatorState) (workBrief livingState soulState : json) (a : App) : list jstr :=
  [js "DETAILS";
   nat_str (length (turns st)) ++ js " requests tracked";
   nat_str (length (pending_approvals st)) ++ js " decisions waiting";
   nat_str (length (List.filter cd_available (catalog a))) ++ js " actions available";
   workSummary workBrief; projectSummary (projectPortfolio a); studioSummary (studioState a);
   livingSummary livingState; soulSummary soulState] ++
  match TuiApp.pendingApproval st with
  | None => []
  | Some approval =>
      [js "YOUR DECISION IS REQUIRED"; compactPayload (a_payload approval); js "[a] approve  [d] deny"]
  end.

Definition studioReview (a : App) : list jstr :=
  [js "SPECIFICATION REVIEW"; studioDetails (studioState a);
   js "[y] accept  [n] reject  [p] apply accepted spec  [v] run verification"].

Definition statusLine (error : option jstr) (a : App) : jstr * jstr :=
  (match error with Some e => e | None => notice a end,
   (match focus a with nav => js "Navigation focus" | composer => js "Composer focus" end) ++
   js " · /help commands · Tab views · Esc focus · Ctrl+E editor · q quit").

(** ** The whole screen *)

(** What the queries loaded and only the screen reads. *)
Record Displayed : Type := {
  ds_livingState : json;
  ds_soulState : json;
  ds_workBrief : json;
  ds_returnBrief : json;
  ds_waivers : list json;
  ds_taskTodos : list json;
  ds_schedules : list json;
  ds_skillState : json;
  ds_providers : list json;
  ds_workflows : list BrowserWorkflow;
}.

Definition paneData (compact : bool) (now height : Z) (st : OperatorState) (d : Displayed) (a : App) : PaneData := {|
  pd_compact := compact; pd_now := now; pd_pending := pendingRecords st;
  pd_portfolio := projectPortfolio a; pd_manifest := manifest a; pd_runs := verificationRuns a;
  pd_waivers := ds_waivers d; pd_providers := ds_providers d; pd_recent := recentEvents st height;
  pd_returnBrief := ds_returnBrief d; pd_schedules := ds_schedules d; pd_sessions := sessions a;
  pd_skillState := ds_skillState d; pd_taskTodos := ds_taskTodos d; pd_workBrief := ds_workBrief d |}.

(** The event the computer pane shows: [computerEvents[computerIndex]]. *)
Definition computerEvent (st : OperatorState) (a : App) : option EventEnvelope :=
  if (selectedIndex st a <? 0)%Z then None else computerEvents st !! Z.to_nat (selectedIndex st a).

Definition computerSection (st : OperatorState) (d : Displayed) (a : App) : list jstr :=
  ComputerPane (computerEvent st a) (computerEvents st) (followLive a) (gap st) (selectedIndex st a)
    (bool_decide (is_Some (TuiApp.pendingApproval st))) (ds_workflows d).

Definition commandResult (a : App) : list jstr :=
  match commandOutput a with [] => [] | output => [js "COMMAND RESULT"; output] end.

(** The pane of the chosen section. *)
Definition mainPane (compact : bool) (now height : Z) (st : OperatorState) (d : Displayed) (a : App) : list jstr :=
  [sectionTitle (section a); sectionSubtitle (section a) (catalog a)] ++
  (if bool_decide (section a = computer) then computerSection st d a else []) ++
  (if bool_decide (section a = projects) then studioReview a else []) ++
  commandResult a ++
  (if bool_decide (section a = computer) then []
   else SectionPane (section a) (paneData compact now height st d a)).

Definition screen (connection : jstr) (error : option jstr) (compact : bool) (now height : Z)
    (st : OperatorState) (d : Displayed) (a : App) : list jstr :=
  [js "ION"; js "assistant workspace"; connection ++ js " · up to date"] ++
  navigation compact ++
  mainPane compact now height st d a ++
  (if compact then []
   else detailsColumn st (ds_workBrief d) (ds_livingState d) (ds_soulState d) a) ++
  [js "> " ++ composerLine a] ++ queueLines a ++ suggestionLines a ++
  [(statusLine error a).1; (statusLine error a).2].
End View.

(** ** What the screen shows *)

Section ViewFacts.
Context `{Platform}.

(** A decision waits on the details column exactly when the operator state holds a
    pending approval, and the approval shown is the one the keys answer. *)
Lemma detailsColumn_decision st w l s a :
  js "YOUR DECISION IS REQUIRED" ∈ detailsColumn st w l s a ∨ pending_approvals st = [].
Proof.
  unfold detailsColumn, TuiApp.pendingApproval. destruct (pending_approvals st) as [|[k ap] m]; [by right|].
  left. apply elem_of_app. right. left.
Qed.

(** The queue shows how many messages wait and the next ones to be sent. *)
Lemma queueLines_next a c q :
  queue a = c :: q → ∃ n rest, queueLines a = n :: c :: rest.
Proof. intros Hq. unfold queueLines. rewrite Hq. simpl. eauto. Qed.

(** The approvals view names no operation: the fields it prints are read from the
    entry of the operator state, where only the identifier is one of them (the operation
    and the consequence are in the payload), so a decision is shown by its identifier
    alone. *)
Theorem approvals_view_shows_identifiers_only (st : OperatorState) :
  Forall (λ kv, a_id kv.2 ≠ []) (pending_approvals st) → pending_approvals st ≠ [] →
  approvalsPane (pendingRecords st) =
  concat (imap (λ i kv, [js "DECISION " ++ nat_str (S i); js "id: " ++ a_id kv.2;
                         js "[a] approve  [d] deny"]) (pending_approvals st)).
Proof.
  intros Hids Hne. unfold approvalsPane, pendingRecords.
  assert (∀ ap, a_id ap ≠ [] →
    recordLine (approvalRecord ap) ["operation"; "consequence"; "expires_at"; "id"]%string =
    js "id: " ++ a_id ap) as Hline.
  { intros ap Hid. unfold recordLine.
    assert (flat_map (recordPart (approvalRecord ap)) ["operation"; "consequence"; "expires_at"; "id"]%string
            = [js "id: " ++ a_id ap]) as ->.
    { unfold recordPart. destruct ap as [[|c id] [] [] payload z]; [by destruct Hid..| | | |]; reflexivity. }
    by destruct ap. }
  destruct (map approvalRecord (pending_approvals st).*2) as [|r rs] eqn:Hm.
  { by destruct (pending_approvals st). }
  rewrite <- Hm. f_equal. change (map approvalRecord ?l) with (approvalRecord <$> l).
  rewrite !imap_fmap. apply imap_ext. intros i kv Hkv. cbn [compose].
  rewrite Hline; [done|]. by apply (proj1 (Forall_lookup _ _) Hids i).
Qed.
End ViewFacts.

Lemma approvals_view_shows_identifiers_only_witness :
  approvalsPane (pendingRecords (fold_left (@applyEvent test_platform)
    [mk_event 1 "approval.requested" None None (approval_json "5")] emptyOperatorState)) =
  [js "DECISION 1"; js "id: " ++ uuid "5"; js "[a] approve  [d] deny"].
Proof.
  rewrite (approvals_view_shows_identifiers_only).
  - vm_compute. reflexivity.
  - repeat constructor. vm_compute. discriminate.
  - vm_compute. discriminate.
Defined.
