(* ===== verification/Cli.v ===== *)
(** * The terminal client's entry point

    [ui/tui/src/cli.tsx]: the arguments, the callbacks that connect the local transport
    to the operator store, the redaction of connection errors and the readiness check.
    What is drawn, the alternate screen, the signals and the editor are in [CliRun]. *)
From Stdlib Require Import String.
From stdpp Require Import base list strings.
From Stdlib Require Import ZArith NArith.
From S2P Require Import Prelude JsString JsValue Regex Catalog Protocol Display Envelope.
From S2P Require Import Events EventsFacts Store EventsProps.
From S2P Require Import LocalClient LocalClientFacts LocalClientProps Client TuiFormat.

(** ** Arguments *)

Record Options : Type := {
  opt_socket : jstr;
  opt_capability : jstr;
  opt_clientID : jstr;
  opt_timeout : jstr;
  opt_check : bool;
}.

Definition usage : Error := mkError (js "usage: ion-tui --socket PATH --capability TOKEN").

(** The loop over the arguments: names and values alternate. *)
Fixpoint readPairs (args : list jstr) (values : list (jstr * jstr)) : Error + list (jstr * jstr) :=
  match args with
  | [] => inr values
  | [_] => inl usage
  | name :: value :: rest =>
      if startsWith (js "--") name then readPairs rest (assoc_set name value values) else inl usage
  end.

(** [random] is [crypto.randomUUID()]; the time-out is kept as the string [Number] reads. *)
Definition parseArguments (random : jstr) (args : list jstr) : Error + Options :=
  match readPairs args [] with
  | inl e => inl e
  | inr values =>
      match assoc_get (js "--socket") values, assoc_get (js "--capability") values with
      | Some socket, Some capability => inr {|
          opt_socket := socket; opt_capability := capability;
          opt_clientID := default random (assoc_get (js "--client-id") values);
          opt_timeout := default (js "5000") (assoc_get (js "--timeout-ms") values);
          opt_check := bool_decide (assoc_get (js "--check") values = Some (js "true")) |}
      | _, _ => inl usage
      end
  end.

(** ** Redaction *)

(** Case-insensitive literals of a pattern without the [u] flag: only ASCII letters fold. *)
Definition lit_i (s : string) : re := rlit_with (λ x c, (lower_ascii c =? x)%N) (js s).
Definition nonspace : re := RChr (λ c, negb (is_space c)).

Definition bearer_i : re := rcats [lit_i "bearer"; rplus (RChr is_space); rplus nonspace].
Definition keyed_i : re :=
  rcats [ralts [lit_i "token"; lit_i "capability"; lit_i "secret"]; RChr (N.eqb 61); rplus nonspace].

(** The first group of [keyed_i] in what it matched. *)
Definition keyOf (matched : list N) : list N :=
  match indexOf 61 matched with Some i => take i matched | None => matched end.

Definition redactError (message : jstr) : jstr :=
  replace_all keyed_i (λ m, keyOf m ++ js "=[REDACTED]")
    (replace_all bearer_i (λ _, js "Bearer [REDACTED]") message).

(** ** The callbacks *)

Inductive CliConnection : Type := CliReady | CliDegraded.

Record Cli : Type := {
  cli_store : OperatorEventStore;
  cli_connection : CliConnection;
  cli_error : option jstr;
}.

Definition newCli : Cli := {| cli_store := newStore; cli_connection := CliReady; cli_error := None |}.

Section Callbacks.
Context `{Platform}.
Variable clientID : jstr.

(** What a callback of the transport does; [None] for a recovery whose sequence numbers
    are not integers or whose events the guard refuses, which the transport does not
    test. *)
Definition onEffect (e : effect) (c : Cli) : option (Cli * list effect) :=
  match e with
  | OnRecovery v =>
      r ← recovery_of v;
      Some ({| cli_store := (Store.recover r (cli_store c)).1; cli_connection := cli_connection c;
               cli_error := cli_error c |}, [])
  | OnEvent v =>
      ev ← event_of v;
      let c' := {| cli_store := (Store.accept ev (cli_store c)).1;
                   cli_connection := cli_connection c; cli_error := cli_error c |} in
      Some (c', (acknowledge clientID (ev_sequence ev) (newTransport JNull)).2)
  | OnDegraded error =>
      Some ({| cli_store := cli_store c; cli_connection := CliDegraded;
               cli_error := Some (redactError (error_message error)) |}, [])
  | _ => Some (c, [])
  end.

Fixpoint onEffects (es : list effect) (c : Cli) : option (Cli * list effect) :=
  match es with
  | [] => Some (c, [])
  | e :: es =>
      '(c1, out1) ← onEffect e c;
      '(c2, out2) ← onEffects es c1;
      Some (c2, out1 ++ out2)
  end.
End Callbacks.

(** ** The readiness check *)

Definition failWith (fallback : jstr) (r : ResponseEnvelope) : Error + unit :=
  inl (mkError match resp_error r with Some e => err_message e | None => fallback end).

Definition noError (r : ResponseEnvelope) : Error + unit :=
  match resp_error r with Some e => inl (mkError (err_message e)) | None => inr () end.

(** [if (!test) throw]: an error, or a result that fails its test. *)
Definition require (test : bool) (fallback : jstr) (r : ResponseEnvelope) : Error + unit :=
  match resp_error r with
  | Some e => inl (mkError (err_message e))
  | None => if test then inr () else inl (mkError fallback)
  end.

Definition andAlso (a b : Error + unit) : Error + unit := match a with inl e => inl e | inr () => b end.

(** An array element that is an object with the given string members. *)
Definition hasFields (fields : list (string * string)) (item : json) : bool :=
  isObject (Some item) && forallb (λ kv, isLit kv.2 (get kv.1 item)) fields.

Definition requiredTools : list string :=
  ["schedule_create"; "schedule_list"; "schedule_get"; "schedule_cancel"].

Definition toolReady (statuses : list json) (name : string) : bool :=
  existsb (λ item, isLit name (get "name" item) && isTrue (get "ready" item)) statuses.

(** The answers by operation; each is awaited in turn and the first failure ends the
    check. *)
Definition readiness (answer : string → ResponseEnvelope) : Error + unit :=
  andAlso (noError (answer "commands.catalog"%string)) (
  andAlso (require (isLit "ready" (getO "status" (resp_result (answer "system.health"%string))))
             (js "authenticated system health is not ready") (answer "system.health"%string)) (
  andAlso (noError (answer "channel.health"%string)) (
  andAlso (require (match isArray (resp_result (answer "schedule.list"%string)) with
                    | Some items => existsb (hasFields [("source", "agent_scheduler"); ("status", "ready")]%string) items
                    | None => false
                    end) (js "agent scheduler is not ready") (answer "schedule.list"%string)) (
  andAlso (let r := answer "tool.readiness"%string in
           let statuses := default [] (isArray (getO "tools" (resp_result r))) in
           match find (λ name, negb (toolReady statuses name)) requiredTools with
           | Some name => failWith (js name ++ js " is not ready") r
           | None => inr ()
           end) (
  andAlso (require (bool_decide (is_Some (isArray (getO "projects" (resp_result (answer "project.list"%string))))))
             (js "authenticated project registry is unavailable") (answer "project.list"%string)) (
  andAlso (require (isLit "ion.workspace-host.v1" (getO "contract_version" (resp_result (answer "workspace.capabilities"%string))))
             (js "workspace host negotiation is unavailable") (answer "workspace.capabilities"%string))
          (require (bool_decide (is_Some (isArray (getO "intents" (resp_result (answer "studio.intent.list"%string))))))
             (js "Software Studio specification state is unavailable") (answer "studio.intent.list"%string)))))))).

(** ** Properties *)

Lemma readPairs_app pairs rest values :
  Forall (λ p, startsWith (js "--") p.1 = true) pairs →
  readPairs (flat_map (λ p, [p.1; p.2]) pairs ++ rest) values =
  readPairs rest (fold_left (λ m p, assoc_set p.1 p.2 m) pairs values).
Proof.
  intros Hp. revert values. induction Hp as [|[n v] pairs Hn _ IH]; intros values; [done|].
  cbn [flat_map app fst snd fold_left readPairs] in *. by rewrite Hn, IH.
Qed.

(** The value a repeated option has at the end: its last one. *)
Fixpoint lastValue (name : jstr) (pairs : list (jstr * jstr)) : option jstr :=
  match pairs with
  | [] => None
  | (n, v) :: pairs =>
      match lastValue name pairs with
      | Some w => Some w
      | None => if decide (name = n) then Some v else None
      end
  end.

Lemma fold_set_last name pairs values :
  assoc_get name (fold_left (λ m p, assoc_set p.1 p.2 m) pairs values) =
  match lastValue name pairs with Some v => Some v | None => assoc_get name values end.
Proof.
  revert values; induction pairs as [|[n v] pairs IH]; intros values; [done|].
  cbn [fold_left lastValue fst snd]. rewrite IH. destruct (lastValue name pairs); [done|].
  destruct (decide (name = n)) as [->|Hne]; [by rewrite assoc_get_set_eq|by rewrite assoc_get_set_ne].
Qed.

(** Arguments round trip: option pairs in any order and with repetitions are read
    back, the last value of an option counting; the socket and the capability are
    required, and an argument without a value or a name without dashes is refused. *)
Theorem arguments_round_trip (random : jstr) (pairs : list (jstr * jstr)) (extra : jstr) :
  Forall (λ p, startsWith (js "--") p.1 = true) pairs →
  parseArguments random (flat_map (λ p, [p.1; p.2]) pairs) =
    match lastValue (js "--socket") pairs, lastValue (js "--capability") pairs with
    | Some socket, Some capability => inr {|
        opt_socket := socket; opt_capability := capability;
        opt_clientID := default random (lastValue (js "--client-id") pairs);
        opt_timeout := default (js "5000") (lastValue (js "--timeout-ms") pairs);
        opt_check := bool_decide (lastValue (js "--check") pairs = Some (js "true")) |}
    | _, _ => inl usage
    end ∧
  parseArguments random (flat_map (λ p, [p.1; p.2]) pairs ++ [extra]) = inl usage.
Proof.
  intros Hp. unfold parseArguments. split; [|by rewrite readPairs_app].
  pose proof (readPairs_app pairs [] [] Hp) as Hr. rewrite app_nil_r in Hr. rewrite Hr.
  cbn [readPairs]. rewrite !fold_set_last. cbn [assoc_get].
  by destruct (lastValue (js "--socket") pairs), (lastValue (js "--capability") pairs),
    (lastValue (js "--client-id") pairs), (lastValue (js "--timeout-ms") pairs),
    (lastValue (js "--check") pairs).
Qed.

Section Stream.
Context `{Platform}.
Variable JSON_parse : jstr → option json.

Lemma onEffects_events clientID es evs c :
  mapM event_of es = Some evs →
  onEffects clientID (map OnEvent es) c =
    Some ({| cli_store := accept_all evs (cli_store c); cli_connection := cli_connection c;
             cli_error := cli_error c |},
          flat_map (λ ev, (acknowledge clientID (ev_sequence ev) (newTransport JNull)).2) evs).
Proof.
  revert evs c; induction es as [|v es IH]; intros evs c Hm.
  { injection Hm as <-. by destruct c. }
  cbn [mapM] in Hm. destruct (event_of v) as [ev|] eqn:Hev; [|done].
  cbn [mbind option_bind] in Hm.
  destruct (mapM event_of es) as [evs'|] eqn:Hes; [|done].
  cbn [mbind option_bind] in Hm. injection Hm as <-.
  cbn [map onEffects onEffect]. rewrite Hev. cbn [mbind option_bind].
  rewrite (IH evs' _ eq_refl). cbn [mbind option_bind flat_map accept_all cli_store cli_connection cli_error].
  done.
Qed.

(** [C6] From bytes to state: however the stream of event frames is cut into chunks, the
    terminal client's store ends in the state that applying those events in order gives,
    and every event is acknowledged on the socket, in order, by its sequence number. *)
Theorem terminal_stream_reaches_the_store (clientID : jstr) (chunks : list jstr) (es : list json)
    (evs : list EventEnvelope) (t : Transport) (c : Cli) :
  buffer t = [] → mapM event_of es = Some evs →
  Forall (transmissible JSON_parse) (map event_frame es) →
  concat chunks = concat (map frame_line (map event_frame es)) →
  ∃ c', onEffects clientID (feed JSON_parse chunks t).2 c =
      Some (c', map (λ ev, Write (frame_line (jobj [("type", JStr (js "ack"));
                  ("client_id", JStr clientID); ("sequence", JNum (num_of_Z (ev_sequence ev)))]%string))) evs) ∧
    state (cli_store c') = applyEvents (state (cli_store c)) evs ∧
    (feed JSON_parse chunks t).1 = t.
Proof.
  intros Hb Hm Htr Hc. rewrite (feed_frames JSON_parse chunks _ t Hb Htr Hc).
  assert (Forall (λ e, isEventEnvelope e = true) es) as Hok.
  { apply mapM_Some_1 in Hm. apply Forall_forall. intros e He.
    apply list_elem_of_lookup in He as [i Hi].
    destruct (Forall2_lookup_l _ _ _ _ _ Hm Hi) as (ev & _ & Hev). unfold event_of in Hev.
    by destruct (isEventEnvelope e). }
  rewrite handleFrames_events by done. cbn [fst snd].
  eexists. split; [|split; [|done]].
  - rewrite (onEffects_events clientID es evs c Hm). do 2 f_equal.
  - cbn [cli_store]. apply accept_all_state.
Qed.
End Stream.

(** ** Witnesses *)

#[local] Existing Instance test_platform.

Lemma arguments_round_trip_witness :
  parseArguments (js "r") [js "--socket"; js "/a"; js "--capability"; js "c"; js "--socket"; js "/b"] =
  inr {| opt_socket := js "/b"; opt_capability := js "c"; opt_clientID := js "r";
         opt_timeout := js "5000"; opt_check := false |}.
Proof.
  destruct (arguments_round_trip (js "r")
    [(js "--socket", js "/a"); (js "--capability", js "c"); (js "--socket", js "/b")] []) as [Hp _].
  - repeat constructor.
  - exact Hp.
Defined.

Definition wire_events : list json := [LocalClientProps.sample_event].

Lemma terminal_stream_reaches_the_store_witness :
  ∃ c', onEffects (js "tui")
      (feed LocalClientProps.sample_parse (cut (concat (map frame_line (map event_frame wire_events))))
         (newTransport JNull)).2 newCli =
      Some (c', [Write (frame_line (jobj [("type", JStr (js "ack")); ("client_id", JStr (js "tui"));
                  ("sequence", JNum (num_of_Z 1))]%string))]) ∧
    last_sequence (state (cli_store c')) = 1%Z.
Proof.
  destruct (mapM event_of wire_events) as [evs|] eqn:Hm; [|vm_compute in Hm; discriminate].
  destruct (terminal_stream_reaches_the_store LocalClientProps.sample_parse (js "tui")
    (cut (concat (map frame_line (map event_frame wire_events)))) wire_events evs
    (newTransport JNull) newCli) as (c' & He & Hs & _).
  - reflexivity.
  - exact Hm.
  - repeat constructor; (discriminate || (vm_compute; reflexivity)).
  - apply cut_concat.
  - exists c'. rewrite He, Hs. vm_compute in Hm. injection Hm as <-. split; vm_compute; reflexivity.
Defined.

Example redacted :
  redactError (js "401 for BEARER abc.def at /x?Token=s3cr3t&y=1 now") =
  js "401 for Bearer [REDACTED] at /x?Token=[REDACTED] now".
Proof. vm_compute. reflexivity. Qed.

(** The check fails at the first part that is not ready. *)
Example scheduler_not_ready :
  readiness (λ op, {| resp_request_id := []; resp_revision := 0; resp_error := None;
    resp_result := Some (if String.eqb op "schedule.list" then JArr []
                         else JObj [(js "status", JStr (js "ready"))]) |}) =
  inl (mkError (js "agent scheduler is not ready")).
Proof. vm_compute. reflexivity. Qed.
