(* ===== verification/CliRun.v ===== *)
(** * The terminal client's run

    The rest of [ui/tui/src/cli.tsx]: what is drawn and when, the alternate screen and how
    it is left, the signals, and the external editor.

    [CliRun] is the process after the transport is connected, [cliStep] one thing that
    happens to it.  Of Ink only its contract is used: [render] shows an element,
    [rerender] another until Ink has exited, [waitUntilExit] resolves or, after an error,
    rejects.  After it has resolved the process lives on until nothing is left to do, with
    its signal handlers still in place.  A signal without a handler of the script ends the
    process at once.  For the editor, [Editing] is what the file system and the process answer. *)
From stdpp Require Import base list strings.
From Stdlib Require Import ZArith NArith.
From S2P Require Import Prelude JsString JsValue Regex Catalog Protocol Display Envelope.
From S2P Require Import Events EventsFacts Store EventsProps LocalClient LocalClientFacts LocalClientProps Client TuiFormat Cli.

(** ** Drawing *)

(** The properties of [App] that change. *)
Record Drawn : Type := { dr_connection : CliConnection; dr_error : option jstr; dr_state : OperatorState }.

Definition drawnOf (c : Cli) : Drawn :=
  {| dr_connection := cli_connection c; dr_error := cli_error c; dr_state := getSnapshot (cli_store c) |}.

(** The first element, which has no error. *)
Definition firstDrawn (c : Cli) : Drawn :=
  {| dr_connection := cli_connection c; dr_error := None; dr_state := getSnapshot (cli_store c) |}.

(** How the process ended: by its code, or by a signal nobody handles. *)
Inductive ExitStatus : Type := ExitCode (code : Z) | ExitSignal.

(** [cr_shown] is the element on the screen, [None] until [rerender] is there; [cr_left]
    whether Ink has exited; [cr_output] what the script itself wrote; [cr_closed] whether it
    closed the transport; [cr_exit] the status once the process is gone. *)
Record CliRun : Type := {
  cr_cli : Cli; cr_shown : option Drawn; cr_left : bool; cr_output : list jstr; cr_sent : list effect; cr_closed : bool;
  cr_exit : option ExitStatus }.

Definition draw (r : CliRun) : CliRun :=
  match cr_shown r, cr_left r with
  | Some _, false => {| cr_cli := cr_cli r; cr_shown := Some (drawnOf (cr_cli r)); cr_left := false;
                        cr_output := cr_output r; cr_sent := cr_sent r; cr_closed := cr_closed r; cr_exit := cr_exit r |}
  | _, _ => r
  end.

(** ** The alternate screen *)

Definition escapeUnit : N := 27.
Definition enterScreen : jstr := escapeUnit :: js "[?1049h" ++ escapeUnit :: js "[?25l".
Definition leaveScreen : jstr := escapeUnit :: js "[?25h" ++ escapeUnit :: js "[?1049l" ++ escapeUnit :: js "[0m".

(** [process.stdout.isTTY && process.env.TERM !== 'dumb']. *)
Definition alternateScreen (isTTY : bool) (TERM : option jstr) : bool := isTTY && bool_decide (TERM ≠ Some (js "dumb")).

Definition connectedRun : CliRun := {|
  cr_cli := newCli; cr_shown := None; cr_left := false; cr_output := []; cr_sent := []; cr_closed := false;
  cr_exit := None |}.

(** What happens to the process: a callback of the transport, the first render, Ink's exit
    without and with an error, the two signals with handlers, another signal (or one of the
    two before there are handlers), and that nothing is left to do. *)
Inductive CliInput : Type :=
  | Callback (e : effect) | Rendered | Exited | Crashed | SIGTERM | SIGHUP | Killed | Drained.

Section Run.
Context `{Platform}.
Variable clientID : jstr.
Variable alternate : bool.

Definition write (text : jstr) (r : CliRun) : CliRun :=
  {| cr_cli := cr_cli r; cr_shown := cr_shown r; cr_left := cr_left r; cr_output := cr_output r ++ [text];
     cr_sent := cr_sent r; cr_closed := cr_closed r; cr_exit := cr_exit r |}.

Definition startScreen (r : CliRun) : CliRun :=
  let r := if alternate then write enterScreen r else r in
  {| cr_cli := cr_cli r; cr_shown := Some (firstDrawn (cr_cli r)); cr_left := cr_left r; cr_output := cr_output r;
     cr_sent := cr_sent r; cr_closed := cr_closed r; cr_exit := cr_exit r |}.

Definition restore (r : CliRun) : CliRun :=
  let r := {| cr_cli := cr_cli r; cr_shown := cr_shown r; cr_left := cr_left r; cr_output := cr_output r;
              cr_sent := cr_sent r; cr_closed := true; cr_exit := cr_exit r |} in
  if alternate then write leaveScreen r else r.

(** Ink is gone. *)
Definition leave (r : CliRun) : CliRun :=
  {| cr_cli := cr_cli r; cr_shown := cr_shown r; cr_left := true; cr_output := cr_output r; cr_sent := cr_sent r;
     cr_closed := cr_closed r; cr_exit := cr_exit r |}.

Definition endWith (status : ExitStatus) (r : CliRun) : CliRun :=
  {| cr_cli := cr_cli r; cr_shown := cr_shown r; cr_left := cr_left r; cr_output := cr_output r; cr_sent := cr_sent r;
     cr_closed := cr_closed r; cr_exit := Some status |}.

(** [None] for what cannot happen, and for a callback whose payload is not of its type. *)
Definition cliStep (x : CliInput) (r : CliRun) : option CliRun :=
  match cr_exit r, cr_shown r, x with
  | Some _, _, _ => None
  | None, _, Callback e =>
      '(c, sent) ← onEffect clientID e (cr_cli r);
      Some (draw {| cr_cli := c; cr_shown := cr_shown r; cr_left := cr_left r; cr_output := cr_output r;
                    cr_sent := cr_sent r ++ sent; cr_closed := cr_closed r; cr_exit := None |})
  | None, _, Killed => Some (endWith ExitSignal r)
  | None, None, Rendered => Some (startScreen r)
  | None, Some _, Exited => if cr_left r then None else Some (restore (leave r))
  | None, Some _, Crashed => if cr_left r then None else Some (endWith (ExitCode 1) r)
  | None, Some _, SIGTERM => Some (endWith (ExitCode 143) (restore r))
  | None, Some _, SIGHUP => Some (endWith (ExitCode 129) (restore r))
  | None, Some _, Drained => if cr_left r then Some (endWith (ExitCode 0) r) else None
  | None, _, _ => None
  end.

Inductive cli_runs : list CliInput → CliRun → Prop :=
  | cli_start : cli_runs [] connectedRun
  | cli_next xs r x r' : cli_runs xs r → cliStep x r = Some r' → cli_runs (xs ++ [x]) r'.
End Run.

(** ** The editor *)

(** What the calls of [openEditor] answer: the directory of [mkdtemp], whether the file is
    written, what the editor makes of it ([None] when it could not be started), and the
    text that is read back from what the file holds ([None] where reading fails). *)
Record Editing : Type := {
  ed_mkdtemp : option jstr;
  ed_write : bool;
  ed_spawn : jstr → jstr → option jstr;
  ed_read : jstr → option jstr;
  ed_rm : bool;
}.

Inductive FileAct : Type :=
  | MadeDirectory (directory : jstr) | WroteDraft (text : jstr) | RanEditor (command : jstr) | ReadDraft
  | RemovedDirectory (directory : jstr).

(** [process.env.EDITOR ?? process.env.VISUAL ?? 'vi']. *)
Definition editorCommand (EDITOR VISUAL : option jstr) : jstr :=
  match EDITOR with Some e => e | None => default (js "vi") VISUAL end.

(** The body of the [try]: the answer of the promise, and what it did.  An empty command
    makes [spawnSync] throw; a command that cannot be started does not. *)
Definition editDraft (w : Editing) (command current : jstr) : option jstr * list FileAct :=
  if negb (ed_write w) then (None, [])
  else match command with
       | [] => (None, [WroteDraft current])
       | _ => (ed_read w (default current (ed_spawn w command current)), [WroteDraft current; RanEditor command; ReadDraft])
       end.

Definition openEditor (w : Editing) (EDITOR VISUAL : option jstr) (current : jstr) : option jstr * list FileAct :=
  match ed_mkdtemp w with
  | None => (None, [])
  | Some directory =>
      let '(text, acts) := editDraft w (editorCommand EDITOR VISUAL) current in
      (if ed_rm w then text else None, MadeDirectory directory :: acts ++ [RemovedDirectory directory])
  end.

(** ** What they guarantee *)

(** The screen is that of the store until Ink has exited: it is drawn by the last callback,
    or it is the first element, which differs at most by the error it leaves out. *)
Definition upToDate (r : CliRun) : Prop :=
  match cr_shown r with
  | None => True
  | Some d => cr_left r = true ∨ d = drawnOf (cr_cli r) ∨ d = firstDrawn (cr_cli r)
  end.

(** How often the terminal was restored: when Ink exited, and by the handler of a signal. *)
Definition restores (r : CliRun) : nat :=
  (if cr_left r then 1 else 0) +
  match cr_exit r with Some (ExitCode 143) | Some (ExitCode 129) => 1 | _ => 0 end.

(** What was written: nothing, the switch to the alternate screen, and the switches back. *)
Definition screenWritten (alternate : bool) (r : CliRun) : Prop :=
  cr_output r = (if alternate then (if cr_shown r then [enterScreen] else []) ++ replicate (restores r) leaveScreen
                 else []).

(** Ink exits only after it was started. *)
Lemma run_invariant `{Platform} clientID alternate xs r :
  cli_runs clientID alternate xs r →
  (cr_shown r = None → cr_left r = false) ∧
  upToDate r ∧ screenWritten alternate r ∧ (cr_closed r = true ↔ 0 < restores r) ∧
  match cr_exit r with
  | None | Some ExitSignal => cr_closed r = cr_left r
  | Some (ExitCode code) =>
      (code = 1%Z ∧ cr_closed r = false) ∨ (code = 0%Z ∧ restores r = 1) ∨
      ((code = 143%Z ∨ code = 129%Z) ∧ restores r = (if cr_left r then 2 else 1))
  end.
Proof.
  induction 1 as [|xs r x r' _ (Hl & Hu & Hw & Hc & He) Hs].
  { split_and!; [done|done|by destruct alternate| |done]. cbn. split; [done|lia]. }
  destruct r as [c sh left out sent cl ex]. unfold cliStep in Hs. cbn [cr_exit cr_shown cr_left] in Hs.
  destruct ex as [code|]; [discriminate|].
  unfold upToDate, screenWritten, restores in *. cbn [cr_cli cr_shown cr_left cr_output cr_closed cr_exit] in *. subst cl.
  assert (sh = None → left = false) as Hl' by exact Hl.
  destruct x as [e| | | | | | |], sh as [d|]; try discriminate; try (rewrite (Hl' eq_refl) in *).
  1,2: apply bind_Some in Hs as ([c' more] & _ & Hs); apply (inj Some) in Hs; subst r'; unfold draw; cbn [cr_shown cr_left];
    try destruct left; cbn [cr_shown cr_left cr_cli cr_output cr_closed cr_exit];
    (split_and!; [done| |exact Hw|exact Hc|done]); try done; tauto.
  all: try destruct left; try discriminate; apply (inj Some) in Hs; subst r'; unfold startScreen, restore, leave, endWith; cbv zeta;
    destruct alternate; cbn [write cr_shown cr_left cr_cli cr_output cr_closed cr_exit] in *; subst out.
  all: cbn [cr_left cr_exit replicate Nat.add app] in *.
  all: split_and!; try reflexivity; try done; try tauto; try (split; [lia|done]).
Qed.

(** [C37] After any run: until Ink has exited a screen that is drawn shows the store.  The
    terminal is switched to the alternate screen once, where it has one, and switched back
    when Ink has exited and by the handler of a SIGTERM or SIGHUP, so twice when such a
    signal comes while the process drains after Ink's exit; the transport is closed exactly
    when it was switched back.  A process that ended by the
    codes 0, 143 or 129, after Ink's exit, a SIGTERM or a SIGHUP, has restored the terminal;
    the only other ends are an error of the interface, with code 1, and a signal nobody
    handles, and these restore nothing. *)
Theorem terminal_shows_and_restores `{Platform} clientID alternate xs r :
  cli_runs clientID alternate xs r →
  upToDate r ∧ screenWritten alternate r ∧ (cr_closed r = true ↔ 0 < restores r) ∧
  match cr_exit r with
  | None | Some ExitSignal => cr_closed r = cr_left r
  | Some (ExitCode code) =>
      (code = 1%Z ∧ cr_closed r = false) ∨ (code = 0%Z ∧ restores r = 1) ∨
      ((code = 143%Z ∨ code = 129%Z) ∧ restores r = (if cr_left r then 2 else 1))
  end.
Proof. intros Hr. apply (run_invariant clientID alternate xs r Hr). Qed.

(** An error of the interface leaves the terminal as it is: the process exits with 1, the
    alternate screen is still on and the cursor hidden, and the transport open.  So does a
    signal without a handler, such as SIGINT from outside. *)
Theorem crash_keeps_the_alternate_screen `{Platform} clientID :
  (∃ r, cli_runs clientID true [Rendered; Crashed] r ∧ cr_exit r = Some (ExitCode 1) ∧ cr_output r = [enterScreen] ∧
        cr_closed r = false) ∧
  (∃ r, cli_runs clientID true [Rendered; Killed] r ∧ cr_exit r = Some ExitSignal ∧ cr_output r = [enterScreen] ∧
        cr_closed r = false).
Proof.
  split; eexists; split.
  - change [Rendered; Crashed] with (([] ++ [Rendered]) ++ [Crashed]).
    eapply cli_next; [eapply cli_next; [constructor|reflexivity]|reflexivity].
  - split_and!; reflexivity.
  - change [Rendered; Killed] with (([] ++ [Rendered]) ++ [Killed]).
    eapply cli_next; [eapply cli_next; [constructor|reflexivity]|reflexivity].
  - split_and!; reflexivity.
Qed.

(** The editor leaves no file behind: whatever fails, a directory that was made is removed
    last, and what the promise gives is the file as the editor left it, or nothing. *)
Theorem editor_leaves_nothing w EDITOR VISUAL current :
  let '(text, acts) := openEditor w EDITOR VISUAL current in
  (∀ d, MadeDirectory d ∈ acts → last acts = Some (RemovedDirectory d)) ∧
  (∀ t, text = Some t →
     ed_read w (default current (ed_spawn w (editorCommand EDITOR VISUAL) current)) = Some t).
Proof.
  unfold openEditor. destruct (ed_mkdtemp w) as [directory|]; [|split; [intros d Hd; by apply not_elem_of_nil in Hd|done]].
  destruct (editDraft w _ current) as [text acts] eqn:He. unfold editDraft in He.
  assert (∀ d, MadeDirectory d ∉ acts) as Hno.
  { intros d Hd. destruct (negb _); [|destruct (editorCommand _ _)]; injection He as <- <-;
      repeat (apply elem_of_cons in Hd as [Hd|Hd]; [discriminate|]); by apply not_elem_of_nil in Hd. }
  split.
  - intros d. rewrite elem_of_cons, elem_of_app, list_elem_of_singleton. intros [[= ->]|[Hd|Hd]]; [|by destruct (Hno d)|discriminate].
    change (MadeDirectory directory :: acts ++ [RemovedDirectory directory])
      with ((MadeDirectory directory :: acts) ++ [RemovedDirectory directory]). apply last_snoc.
  - intros t. destruct (ed_rm w); [|discriminate]. intros ->.
    destruct (negb _); [discriminate|]. destruct (editorCommand _ _) as [|c e]; [discriminate|]. by injection He.
Qed.

(** An editor that cannot be started, such as a command with arguments, is not reported: the
    draft comes back as it was. *)
Theorem missing_editor_is_silent w EDITOR VISUAL current directory :
  ed_mkdtemp w = Some directory → ed_write w = true → ed_rm w = true →
  editorCommand EDITOR VISUAL ≠ [] → ed_spawn w (editorCommand EDITOR VISUAL) current = None → ed_read w current = Some current →
  (openEditor w EDITOR VISUAL current).1 = Some current.
Proof.
  intros Hd Hw Hr Hc Hs He. unfold openEditor, editDraft. rewrite Hd, Hw, Hr. cbn [negb].
  destruct (editorCommand EDITOR VISUAL) as [|c e]; [done|]. by rewrite Hs.
Qed.

(** ** Witnesses *)

#[local] Existing Instance test_platform.

(** The connection is lost, the operator leaves, and a signal comes while the process drains. *)
Definition lostConnection : list CliInput := [Rendered; Callback (OnDegraded (mkError (js "gone"))); Exited; SIGTERM].

Lemma terminal_shows_and_restores_witness :
  ∃ r, cli_runs (js "c") true lostConnection r ∧ cr_output r = [enterScreen; leaveScreen; leaveScreen] ∧
       cr_exit r = Some (ExitCode 143).
Proof.
  assert (∃ r, cli_runs (js "c") true lostConnection r ∧ cr_shown r ≠ None ∧ cr_left r = true ∧ cr_exit r = Some (ExitCode 143))
    as (r & Hr & Hsh & Hl & Hex).
  { eexists. split.
    - change lostConnection with (((([] ++ [Rendered]) ++ [Callback (OnDegraded (mkError (js "gone")))]) ++ [Exited]) ++ [SIGTERM]).
      eapply cli_next; [eapply cli_next; [eapply cli_next; [eapply cli_next; [constructor|]|]|]|]; reflexivity.
    - split_and!; [discriminate|reflexivity|reflexivity]. }
  exists r. split; [exact Hr|]. split; [|exact Hex].
  destruct (terminal_shows_and_restores _ _ _ _ Hr) as (_ & Hw & _). unfold screenWritten, restores in Hw. rewrite Hl, Hex in Hw.
  destruct (cr_shown r); [exact Hw|done].
Defined.
