(* ===== verification/TuiLoad.v ===== *)
(** * What the terminal application loads

    The effects of [App] in [ui/tui/src/App.tsx] that fetch the catalog and the state of the
    verification of the active project, and the editor of [CliRun] seen from its key.  The
    answers are the inputs of [TuiApp]. *)
From stdpp Require Import base list strings.
From Stdlib Require Import ZArith NArith.
From S2P Require Import Prelude JsString JsValue Regex Catalog Protocol Display Envelope.
From S2P Require Import Events EventsFacts Store EventsProps LocalClient LocalClientFacts LocalClientProps Client TuiFormat TuiApp Cli CliRun.

(** ** Effects *)

Definition tuiQuery (op : string) (payload : json) (session : option json) : Request :=
  {| rq_kind := query; rq_operation := js op; rq_payload := payload; rq_session := session |}.

Definition catalogQuery : Request := tuiQuery "commands.catalog" (JObj []) None.

(** The three queries of a project. *)
Definition verificationQueries (a : App) : list Request :=
  match activeProjectID a with
  | None => []
  | Some project =>
      map (λ op, tuiQuery op (jobj [("project_id"%string, JStr project)]) (sessionID a))
        ["project.verification.manifest.get"; "project.verification.runs"; "project.verification.waivers"]%string
  end.

(** What their answers load; [None] when one of them is rejected. *)
Definition verificationAnswer (answers : option (ResponseEnvelope * ResponseEnvelope * ResponseEnvelope)) : tui_input :=
  match answers with
  | Some (m, runs, _) => VerificationLoaded (resp_result m) (default [] (isArray (resp_result runs)))
  | None => VerificationLoaded None []
  end.

(** The effect without an active project. *)
Definition verificationReset (a : App) : App :=
  match activeProjectID a with None => setVerification None [] a | Some _ => a end.

(** ** What they guarantee *)

Section Load.
Context `{Platform}.
Variable JSON_parse : jstr → Error + json.
Variable toNumber : jstr → option Z.

(** The draft comes back from the editor: pressing Ctrl+E hands the draft to the editor,
    and when it closes the draft is the text of the file, whatever was typed meanwhile. *)
Theorem editor_round_trip st w EDITOR VISUAL text (a a' : App) :
  (openEditor w EDITOR VISUAL (draft a)).1 = Some text →
  ∃ r, perform JSON_parse toNumber st (EditorClosed text) a' = Some r ∧ draft r.1 = text ∧ r.2 = [] ∧
       ed_read w (default (draft a) (ed_spawn w (editorCommand EDITOR VISUAL) (draft a))) = Some text.
Proof.
  intros He. eexists. split; [reflexivity|]. split; [reflexivity|]. split; [reflexivity|].
  revert He. unfold openEditor, editDraft. destruct (ed_mkdtemp w); [|discriminate].
  destruct (ed_write w); cbn [negb]; [|by destruct (ed_rm w)]. destruct (editorCommand EDITOR VISUAL); [by destruct (ed_rm w)|].
  destruct (ed_rm w); [done|discriminate].
Qed.

(** An answer that comes late is taken for the project that is active by then: the
    verification of a project is started with the manifest of another. *)
Theorem late_manifest_is_run st (a : App) project m id (answer runs waivers : ResponseEnvelope) :
  activeProjectID a = Some project → resp_result answer = Some m → get "id" m = Some id →
  ∃ a' r, perform JSON_parse toNumber st (verificationAnswer (Some (answer, runs, waivers))) a = Some (a', []) ∧
    (runProjectVerification a').2 = [Send r] ∧ rq_operation r = js "project.verification.run" ∧
    get "project_id" (rq_payload r) = Some (JStr project) ∧ get "manifest_id" (rq_payload r) = Some id.
Proof.
  intros Hp Ha Hi. unfold verificationAnswer. rewrite Ha. eexists _, _. split; [reflexivity|].
  unfold runProjectVerification.
  change (activeProjectID (setVerification (Some m) (default [] (isArray (resp_result runs))) a)) with (activeProjectID a).
  rewrite Hp. change (manifest (setVerification (Some m) (default [] (isArray (resp_result runs))) a)) with (Some m).
  cbn beta iota. rewrite Hi. unfold issue, await.
  replace (bool_decide (OPERATION_KINDS (js "project.verification.run") = Some command)) with true
    by (symmetry; vm_compute; reflexivity).
  split; [reflexivity|]. split_and!; [reflexivity|vm_compute; reflexivity|vm_compute; reflexivity].
Qed.
End Load.
