(* ===== verification/Chat.v ===== *)
(** * The web chat

    [ui/web/src/features/chat/ChatHost.tsx]: how the event stream becomes messages and
    reasoning summaries, how durable and live messages are merged, what a steering
    request targets, what is shown of failures and activity, and the operations of the
    composer (send, queue, cancel, steer, retry, branch) as steps between their awaits.

    React state updates are applied in order to the state; [seenEvents] is the mutable
    reference of the component.  [Date] formatting, scrolling and the clipboard are not
    modelled. *)
From stdpp Require Import base list strings.
From Stdlib Require Import ZArith NArith.
From S2P Require Import Prelude JsString JsValue JsArray Regex Catalog Protocol Display Envelope.
From S2P Require Import Events LocalClient TuiFormat.

(** ** Helpers *)

Definition record (v : json) : option json := if isRecord (Some v) then Some v else None.
Definition text (v : option json) : option jstr := asString v.

Definition appendStreamText (current incoming : jstr) : jstr :=
  if jeqb incoming [] || endsWith incoming current then current else current ++ incoming.

(** [/^[0-9a-f]{8}-[0-9a-f]{4}-[1-5][0-9a-f]{3}-[89ab][0-9a-f]{3}-[0-9a-f]{12}$/i]. *)
Definition isUUID15 (s : jstr) : bool := test (uuid_with_version 53) s.

Definition studioPrefix : jstr := js "/studio/".

Definition studioProjectID (pathname : jstr) : option jstr :=
  let id := drop (length studioPrefix) pathname in
  if jeqb (map lower_ascii (take (length studioPrefix) pathname)) studioPrefix &&
     negb (jeqb id []) && forallb (λ c, is_hex c || (c =? 45)%N) id && isUUID15 id
  then Some id else None.

(** ** Messages *)

Inductive Role : Type := user | assistant.
#[export] Instance Role_eq_dec : EqDecision Role.
Proof. solve_decision. Defined.

Record DisplayMessage : Type := {
  m_id : jstr;
  m_role : Role;
  m_content : jstr;
  m_createdAt : option jstr;
  m_turnID : option jstr;
}.

Definition withContent (c : jstr) (m : DisplayMessage) : DisplayMessage :=
  {| m_id := m_id m; m_role := m_role m; m_content := c; m_createdAt := m_createdAt m;
     m_turnID := m_turnID m |}.

(** The update of the first message with an identifier, as [findIndex] finds it. *)
Fixpoint updateFirst (id : jstr) (f : DisplayMessage → DisplayMessage) (l : list DisplayMessage)
    : list DisplayMessage :=
  match l with
  | [] => []
  | m :: l => if jeqb (m_id m) id then f m :: l else m :: updateFirst id f l
  end.

Definition hasMessage (id : jstr) (l : list DisplayMessage) : bool := existsb (λ m, jeqb (m_id m) id) l.

(** The live message of a turn. *)
Definition turnMessageID (turnID : jstr) : jstr := js "turn:" ++ turnID.

(** ** The stream effect *)

Record Transcript : Type := {
  tr_messages : list DisplayMessage;
  tr_reasoning : list (jstr * jstr);
  tr_seen : list jstr;
}.

Definition emptyTranscript : Transcript := {| tr_messages := []; tr_reasoning := []; tr_seen := [] |}.

Definition flag (k : string) (payload : option json) : bool := isTrue (getO k payload).

Definition streamReasoning (turnID : jstr) (reset replace : bool) (content : option jstr)
    (r : list (jstr * jstr)) : list (jstr * jstr) :=
  if reset then assoc_del turnID r
  else if replace then
    match content with
    | None | Some [] => assoc_del turnID r
    | Some c => assoc_set turnID c r
    end
  else match content with
       | None => r
       | Some c => assoc_set turnID (appendStreamText (default [] (assoc_get turnID r)) c) r
       end.

Definition streamMessage (turnID occurredAt : jstr) (reset replace : bool) (content : option jstr)
    (l : list DisplayMessage) : list DisplayMessage :=
  let id := turnMessageID turnID in
  if reset then List.filter (λ m, negb (jeqb (m_id m) id)) l
  else match content with
       | None | Some [] => l
       | Some c =>
           if hasMessage id l
           then updateFirst id (λ m, withContent (if replace then c else m_content m ++ c) m) l
           else l ++ [{| m_id := id; m_role := assistant; m_content := c;
                         m_createdAt := Some occurredAt; m_turnID := Some turnID |}]
       end.

Definition isStreamEvent (e : EventEnvelope) : bool :=
  jeqb (ev_type e) (js "turn.delta") || jeqb (ev_type e) (js "reasoning.summary").

Definition streamEvent (e : EventEnvelope) (t : Transcript) : Transcript :=
  if negb (isStreamEvent e) || bool_decide (ev_event_id e ∈ tr_seen t) then t else
  let seen := tr_seen t ++ [ev_event_id e] in
  let turnID := default (ev_event_id e) (cor_turn_id (ev_correlation e)) in
  let payload := record (ev_payload e) in
  let reset := flag "reset" payload in
  let replace := flag "replace" payload in
  let content := text (getO "content" payload) in
  if jeqb (ev_type e) (js "reasoning.summary") then
    {| tr_messages := tr_messages t;
       tr_reasoning := if isLit "safe_summary" (getO "source" payload)
                       then streamReasoning turnID reset replace content (tr_reasoning t)
                       else tr_reasoning t;
       tr_seen := seen |}
  else
    {| tr_messages := streamMessage turnID (ev_occurred_at e) reset replace content (tr_messages t);
       tr_reasoning := tr_reasoning t; tr_seen := seen |}.

(** One run of the effect over the events of the session. *)
Definition streamEffect (events : list EventEnvelope) (t : Transcript) : Transcript :=
  fold_left (λ t e, streamEvent e t) events t.

(** ** Resuming *)

Record StoredMessage : Type := {
  sm_id : jstr;
  sm_role : jstr;
  sm_memory_type : option jstr;
  sm_turn_id : option jstr;
  sm_content : jstr;
  sm_created_at : jstr;
}.

Definition isTranscript (m : StoredMessage) : bool :=
  match sm_memory_type m with None => true | Some t => jeqb t (js "transcript") end &&
  (jeqb (sm_role m) (js "user") || jeqb (sm_role m) (js "assistant")).

Definition durableMessage (m : StoredMessage) : DisplayMessage := {|
  m_id := sm_id m; m_role := if jeqb (sm_role m) (js "user") then user else assistant;
  m_content := sm_content m; m_createdAt := Some (sm_created_at m); m_turnID := sm_turn_id m |}.

Definition durableMessages (l : list StoredMessage) : list DisplayMessage :=
  map durableMessage (List.filter isTranscript l).

Definition durableReasoning (l : list StoredMessage) : list (jstr * jstr) :=
  fold_left (λ r m,
    match bool_decide (sm_memory_type m = Some (js "summary")), sm_turn_id m with
    | true, Some turn => if jeqb (trim (sm_content m)) [] then r else assoc_set turn (sm_content m) r
    | _, _ => r
    end) l [].

(** [`${message.role}:${message.content}`]. *)
Definition contentKey (m : DisplayMessage) : jstr :=
  (match m_role m with user => js "user" | assistant => js "assistant" end) ++ js ":" ++ m_content m.

Fixpoint mergeGo (seenIDs seenContent : list jstr) (l : list DisplayMessage) : list DisplayMessage :=
  match l with
  | [] => []
  | m :: l =>
      if bool_decide (m_id m ∈ seenIDs) || bool_decide (contentKey m ∈ seenContent)
      then mergeGo seenIDs seenContent l
      else m :: mergeGo (m_id m :: seenIDs) (contentKey m :: seenContent) l
  end.
Definition mergeMessages (first second : list DisplayMessage) : list DisplayMessage :=
  mergeGo [] [] (first ++ second).

(** The answer of [session.resume]. *)
Definition resumed (l : list StoredMessage) (t : Transcript) : Transcript := {|
  tr_messages := mergeMessages (durableMessages l) (tr_messages t);
  tr_reasoning := fold_left (λ r kv, assoc_set kv.1 kv.2 r) (tr_reasoning t) (durableReasoning l);
  tr_seen := tr_seen t |}.

(** ** Views of the operator state *)

Definition inSession (sessionID : option jstr) (s : option UUID) : bool :=
  match sessionID with None => false | Some id => bool_decide (s = Some id) end.

Definition scopedEvents (st : OperatorState) (sessionID : option jstr) : list EventEnvelope :=
  List.filter (λ e, inSession sessionID (cor_session_id (ev_correlation e))) (recent_events st).

Definition runningTurns (st : OperatorState) (sessionID : option jstr) : list TurnState :=
  List.filter (λ t, is_live (t_status t) && inSession sessionID (t_session_id t)) (turns st).*2.

Definition retryable (s : TurnStatus) : bool :=
  match s with Failed | Incomplete | Interrupted => true | _ => false end.

Definition older (a b : TurnState) : bool := (t_last_sequence a <=? t_last_sequence b)%Z.

Definition retryableTurns (st : OperatorState) (sessionID : option jstr) : list TurnState :=
  sort_by older
    (List.filter (λ t, retryable (t_status t) && inSession sessionID (t_session_id t)) (turns st).*2).

Definition toolEvents (l : list EventEnvelope) : list EventEnvelope :=
  List.filter (λ e, startsWith (js "tool.") (ev_type e)) l.
Definition epistemicEvents (l : list EventEnvelope) : list EventEnvelope :=
  List.filter (λ e, startsWith (js "premise.") (ev_type e) || startsWith (js "prediction.") (ev_type e) ||
                    jeqb (ev_type e) (js "convergence.warning")) l.
Definition taskEvents (l : list EventEnvelope) : list EventEnvelope :=
  List.filter (λ e, startsWith (js "task.") (ev_type e) || startsWith (js "agent.") (ev_type e)) l.

Definition activityCount (l : list EventEnvelope) : nat :=
  length (toolEvents l) + length (epistemicEvents l) + length (taskEvents l).

Definition isTerminalTurnEvent (e : EventEnvelope) : bool :=
  if jeqb (ev_type e) (js "turn.failed") then true
  else if negb (jeqb (ev_type e) (js "turn.incomplete")) then false
  else match getO "final_honest_partial" (record (ev_payload e)) with
       | Some (JBool false) => false
       | _ => true
       end.

Definition terminalEvents (l : list EventEnvelope) : list EventEnvelope := List.filter isTerminalTurnEvent l.

(** The approvals the stack shows. *)
Definition stackApprovals (st : OperatorState) (sessionID : option jstr) : list ApprovalState :=
  List.filter (λ a, match sessionID with None => true | Some id => bool_decide (a_session_id a = Some id) end)
    (pending_approvals st).*2.

(** ** Failures *)

Record Failure : Type := { f_title : string; f_detail : string }.

Definition failureMessage (payload : json) : Failure :=
  let code := text (get "error_code" payload) in
  let failureClass := text (get "error_class" payload) in
  let phase := text (get "phase" payload) in
  if bool_decide (phase = Some (js "provider_tool_markup")) then
    {| f_title := "Work stopped; it is not still running";
       f_detail := "The provider returned an action in an incompatible format. Completed actions are saved, and Try again resumes from that durable point." |}
  else if bool_decide (phase = Some (js "evidence_convergence")) then
    {| f_title := "Work paused before verified completion";
       f_detail := "Required criteria still lack server-verified evidence. Completed work is saved and the next attempt resumes the unfinished criterion." |}
  else if bool_decide (code = Some (js "provider_payment_required")) then
    {| f_title := "The model provider needs attention";
       f_detail := "The provider refused this request because the account needs payment or credits. Update the provider account, then try again." |}
  else if bool_decide (failureClass = Some (js "rate_limit")) then
    {| f_title := "The model is temporarily busy";
       f_detail := "No action was lost. Wait a moment, then try again." |}
  else if bool_decide (failureClass = Some (js "timeout")) || bool_decide (failureClass = Some (js "transient")) then
    {| f_title := "The connection ended before the answer was ready";
       f_detail := "No action was lost. Check the connection, then try again." |}
  else
    {| f_title := "The request could not be completed";
       f_detail := "The turn did not finish. Review Work details because some actions may already have completed, then try again." |}.

(** ** Activity *)

Section Activity.
Context `{Platform}.

(** What a steering request is aimed at. *)
Inductive SteerTarget : Type :=
  | SteerTool (task_id agent_id tool_event_id tool_action : jstr) (target_revision : Z)
  | SteerTurn (task_id : jstr) (target_revision : Z).

Definition currentSteerTarget (turnID : jstr) (events : list EventEnvelope) : option SteerTarget :=
  latest ← last (List.filter (λ e, bool_decide (cor_turn_id (ev_correlation e) = Some turnID)) events);
  match computer_payload_of (ev_payload latest) with
  | Some payload =>
      if negb (phase_terminal (cp_phase payload)) then
        let scope := cp_scope payload in
        taskID ← match cs_task_id scope with
                 | Some t => Some t
                 | None => match cs_outcome_id scope with Some o => Some o | None => cs_turn_id scope end
                 end;
        Some (SteerTool taskID (cs_agent_id scope) (cp_tool_event_id payload) (cp_operation payload)
                (ev_sequence latest))
      else Some (SteerTurn turnID (ev_sequence latest))
  | None => Some (SteerTurn turnID (ev_sequence latest))
  end.

Definition webCompact (value : json) : jstr := clip 180 177 (stringify value).

Definition webLabels : list (string * string) :=
  [("agent.started", "A helper started work"); ("agent.completed", "A helper finished");
   ("convergence.warning", "Ion reconsidered its approach");
   ("memory.activated", "Saved knowledge was used");
   ("prediction.created", "A forecast was recorded"); ("premise.created", "An assumption was recorded");
   ("task.completed", "A task finished"); ("task.started", "A task started");
   ("tool.completed", "An action finished"); ("tool.failed", "An action needs attention");
   ("tool.denied", "An action was denied"); ("tool.interrupted", "An action was interrupted");
   ("tool.outcome_unknown", "An action has an uncertain outcome");
   ("tool.awaiting_approval", "An action is awaiting your decision");
   ("tool.requested", "An action was prepared"); ("tool.started", "An action started")]%string.

Definition webEventTitle (type : jstr) : jstr :=
  match find (λ row, jeqb type (js row.1)) webLabels with
  | Some row => js row.2
  | None => join (js " · ") (map humanize (splitOn 46 type))
  end.

(** The display part of an activity's details: absent members are not serialised. *)
Definition displayDetails (sources : Z) (model : option json) : option json :=
  match model with
  | None => None
  | Some m =>
      match displayModelCompatibility sources m with
      | unsupported => Some (jobj [("status", JStr (js "unsupported_version"))]%string)
      | (current | migrated) as c =>
          m' ← migrateDisplayModel sources m;
          Some (JObj ([(js "compatibility", JStr (js (if bool_decide (c = current) then "current" else "migrated")))] ++
                      flat_map (λ k, match get k m' with Some v => [(js k, v)] | None => [] end)
                        ["kind"; "title"; "fields"; "blocks"]%string))
      | invalid => None
      end
  end.

Definition activityDetails (e : EventEnvelope) : jstr :=
  let v := ev_payload e in
  match computer_payload_of v with
  | Some p =>
      let member k := match get k v with Some x => [(js k, x)] | None => [] end in
      stringify (JObj (member "tool"%string ++ member "phase"%string ++ member "terminal_status"%string ++
        member "result"%string ++
        match displayDetails (Z.of_nat (length (cp_source_references p))) (cp_display_model p) with
        | Some d => [(js "display", d)]
        | None => []
        end ++ member "source_references"%string))
  | None =>
      if startsWith (js "tool.") (ev_type e)
      then stringify (jobj [("display", jobj [("status", JStr (js "unsupported_lifecycle_version"))]%string)]%string)
      else webCompact (default (JObj []) (record v))
  end.
End Activity.
