(* ===== verification/ChatApp.v ===== *)
(** * The operations of the web chat

    The handlers of [ChatHost] ([ui/web/src/features/chat/ChatHost.tsx]) as steps between
    their awaits, and the naming of new projects ([ui/web/src/lib/project-name.ts]). *)
From stdpp Require Import base list strings.
From Stdlib Require Import ZArith NArith.
From S2P Require Import Prelude JsString JsValue JsArray Regex Catalog Protocol Display Envelope.
From S2P Require Import Events LocalClient TuiFormat TuiApp Chat.

(** ** Project names *)

Section ProjectName.
Context `{CaseTable}.
(** The Unicode classes letter and number. *)
Variable isLetterOrNumber : N → bool.

(** [\b(?:named|called)\s+] and the opening quote. *)
Definition introduces (opening : list N) : re :=
  rcats [RBound word_iu; ralts [lit_ci "named"; lit_ci "called"]; rplus (RChr is_space);
         RChr (one_of opening)].

Fixpoint span (p : N → bool) (l : list N) : list N * list N :=
  match l with
  | [] => ([], [])
  | x :: l' => if p x then let '(a, b) := span p l' in (x :: a, b) else ([], l)
  end.

(** The captured group behind the opening quote: up to 120 characters and the closing
    quote. *)
Definition captured (stop closing : list N) (l : list N) : option (list N) :=
  match span (λ c, negb (one_of stop c)) l with
  | ((_ :: _) as name, c :: _) => if (length name <=? 120) && one_of closing c then Some name else None
  | _ => None
  end.

Definition quotedName (goal : list N) : option (list N) :=
  match search (introduces [34; 8220]%N) None goal (λ c, captured [34; 8221; 10]%N [34; 8221]%N c.2) with
  | Some n => Some n
  | None => search (introduces [39]%N) None goal (λ c, captured [39; 10]%N [39]%N c.2)
  end.

(** [s.split(/\s+/).filter(Boolean)]. *)
Fixpoint words_go (l acc : jstr) : list jstr :=
  match l with
  | [] => match acc with [] => [] | _ => [reverse acc] end
  | c :: l => if is_space c
              then match acc with [] => words_go l [] | _ => reverse acc :: words_go l [] end
              else words_go l (c :: acc)
  end.
Definition words (s : jstr) : list jstr := words_go s [].

Definition conciseProjectName (goal : jstr) : jstr :=
  match quotedName (code_points goal) with
  | Some name => trim (flat_map utf16_of_cp name)
  | None =>
      let kept := List.filter (λ c, isLetterOrNumber c || is_space c || (c =? 45)%N)
                    (code_points (trim goal)) in
      match take 6 (words (flat_map utf16_of_cp kept)) with
      | [] => []
      | ws => let name := join [32%N] ws in toUpperCase (take 1 name) ++ drop 1 name
      end
  end.
End ProjectName.

(** ** State *)

Inductive Mode : Type := full | studio.
#[export] Instance Mode_eq_dec : EqDecision Mode.
Proof. solve_decision. Defined.

Record QueuedSubmission : Type := { q_content : jstr; q_mode : Mode; q_pathname : jstr }.

(** An operation that awaits its answer.  A branch keeps the edited text and the mode and
    path of the moment it was asked for; [WProjectListed] and [WListed] await the
    invalidation of a query, which does not fail; [WResume] is the resumption the effect
    of an epoch asked for. *)
Inductive WTask : Type :=
  | WCreate (sub : QueuedSubmission)
  | WProject (session : jstr) (sub : QueuedSubmission)
  | WProjectListed (session project : jstr) (sub : QueuedSubmission)
  | WSubmit (sub : QueuedSubmission)
  | WListed (turn : option jstr) (sub : QueuedSubmission)
  | WBranch (replacement : option jstr) (m : Mode) (path : jstr)
  | WBranchSubmit
  | WSteer
  | WRetry
  | WCancel
  | WResume (epoch : nat).

Record Chat : Type := {
  c_session : option jstr;
  c_path : jstr;
  c_mode : Mode;
  c_draft : jstr;
  c_transcript : Transcript;
  c_queue : list QueuedSubmission;
  c_busy : bool;
  c_notice : option jstr;
  c_inflight : list WTask;
  c_effectSession : option jstr;
  c_epoch : nat;
}.

Definition setCSession s c :=
  {| c_session := s; c_path := c_path c; c_mode := c_mode c; c_draft := c_draft c;
     c_transcript := c_transcript c; c_queue := c_queue c; c_busy := c_busy c;
     c_notice := c_notice c; c_inflight := c_inflight c; c_effectSession := c_effectSession c;
     c_epoch := c_epoch c |}.
Definition setCPlace path m c :=
  {| c_session := c_session c; c_path := path; c_mode := m; c_draft := c_draft c;
     c_transcript := c_transcript c; c_queue := c_queue c; c_busy := c_busy c;
     c_notice := c_notice c; c_inflight := c_inflight c; c_effectSession := c_effectSession c;
     c_epoch := c_epoch c |}.
Definition setCDraft d c :=
  {| c_session := c_session c; c_path := c_path c; c_mode := c_mode c; c_draft := d;
     c_transcript := c_transcript c; c_queue := c_queue c; c_busy := c_busy c;
     c_notice := c_notice c; c_inflight := c_inflight c; c_effectSession := c_effectSession c;
     c_epoch := c_epoch c |}.
Definition setCTranscript t c :=
  {| c_session := c_session c; c_path := c_path c; c_mode := c_mode c; c_draft := c_draft c;
     c_transcript := t; c_queue := c_queue c; c_busy := c_busy c; c_notice := c_notice c;
     c_inflight := c_inflight c; c_effectSession := c_effectSession c; c_epoch := c_epoch c |}.
Definition setCQueue q c :=
  {| c_session := c_session c; c_path := c_path c; c_mode := c_mode c; c_draft := c_draft c;
     c_transcript := c_transcript c; c_queue := q; c_busy := c_busy c; c_notice := c_notice c;
     c_inflight := c_inflight c; c_effectSession := c_effectSession c; c_epoch := c_epoch c |}.
Definition setCWork b n ts c :=
  {| c_session := c_session c; c_path := c_path c; c_mode := c_mode c; c_draft := c_draft c;
     c_transcript := c_transcript c; c_queue := c_queue c; c_busy := b; c_notice := n;
     c_inflight := ts; c_effectSession := c_effectSession c; c_epoch := c_epoch c |}.
Definition setCEffect s n c :=
  {| c_session := c_session c; c_path := c_path c; c_mode := c_mode c; c_draft := c_draft c;
     c_transcript := c_transcript c; c_queue := c_queue c; c_busy := c_busy c;
     c_notice := c_notice c; c_inflight := c_inflight c; c_effectSession := s; c_epoch := n |}.

Definition begin (c : Chat) : Chat := setCWork true None (c_inflight c) c.
Definition say (n : jstr) (c : Chat) : Chat := setCWork (c_busy c) (Some n) (c_inflight c) c.

(** The end of the try statement: a notice, and not busy any more. *)
Definition finish (n : option jstr) (c : Chat) : Chat := setCWork false n (c_inflight c) c.
Definition failed_ (e : Error) (c : Chat) : Chat * list output := (finish (Some (error_message e)) c, []).

Definition request (operation : string) (payload : json) (session : option jstr) : Request :=
  {| rq_kind := command; rq_operation := js operation; rq_payload := payload;
     rq_session := JStr <$> session |}.

Definition await (r : Request) (t : WTask) (c : Chat) : Chat * list output :=
  (setCWork (c_busy c) (c_notice c) (c_inflight c ++ [t]) c, [Send r]).

Section Operations.
Context `{Platform}.
Variable isLetterOrNumber : N → bool.

Definition turnPayload (content : jstr) (m : Mode) (projectID : option jstr) : json :=
  JObj ([(js "content", JStr content);
         (js "surface", JStr (js (match m with studio => "studio" | full => "general" end)))] ++
        match projectID with Some p => [(js "project_id", JStr p)] | None => [] end).

(** ** Sending *)

Definition submitTurn (session : jstr) (projectID : option jstr) (sub : QueuedSubmission) (c : Chat)
    : Chat * list output :=
  await (request "turn.submit" (turnPayload (q_content sub) (q_mode sub) projectID) (Some session))
    (WSubmit sub) c.

(** After the session is known: the project of a studio submission. *)
Definition withSession (session : jstr) (sub : QueuedSubmission) (c : Chat) : Chat * list output :=
  match q_mode sub with
  | full => submitTurn session None sub c
  | studio =>
      match studioProjectID (q_pathname sub) with
      | Some p => submitTurn session (Some p) sub c
      | None =>
          if negb (jeqb (q_pathname sub) (js "/studio"))
          then failed_ (mkError (js "This Studio location is not bound to a project.")) c
          else
            let name := conciseProjectName isLetterOrNumber (q_content sub) in
            await (request "project.create"
                     (jobj [("name", JStr (match name with [] => js "Untitled project" | _ => name end));
                            ("template", JStr (js "empty")); ("host", JStr (js "direct_local"));
                            ("trust", JStr (js "reviewed"))]%string) None)
              (WProject session sub) c
      end
  end.

Definition send (sub : QueuedSubmission) (c : Chat) : Chat * list output :=
  let c := begin c in
  match c_session c with
  | None => await (request "session.create" (JObj []) None) (WCreate sub) c
  | Some session => withSession session sub c
  end.

Definition submit (st : OperatorState) (c : Chat) : Chat * list output :=
  let content := trim (c_draft c) in
  if jeqb content [] then (c, [])
  else
    let sub := {| q_content := content; q_mode := c_mode c; q_pathname := c_path c |} in
    if (0 <? length (runningTurns st (c_session c))) || c_busy c then
      (say (js "Added to the queue. Ion will start it next.")
         (setCDraft [] (setCQueue (c_queue c ++ [sub]) c)), [])
    else send sub c.

Definition drainQueue (st : OperatorState) (c : Chat) : Chat * list output :=
  if (0 <? length (runningTurns st (c_session c))) || c_busy c then (c, [])
  else match c_queue c with
       | [] => (c, [])
       | next :: remaining => send next (setCQueue remaining c)
       end.

(** ** Acting on a turn *)

Definition cancelLatest (st : OperatorState) (c : Chat) : Chat * list output :=
  match last (runningTurns st (c_session c)), c_session c with
  | Some latest, Some session =>
      await (request "turn.cancel" (jobj [("turn_id", JStr (t_id latest))]%string) (Some session)) WCancel c
  | _, _ => (c, [])
  end.

Definition targetPayload (t : SteerTarget) : json :=
  match t with
  | SteerTool task agent tool action revision =>
      jobj [("kind", JStr (js "tool")); ("task_id", JStr task); ("agent_id", JStr agent);
            ("tool_event_id", JStr tool); ("tool_action", JStr action);
            ("target_revision", JNum (num_of_Z revision))]%string
  | SteerTurn task revision =>
      jobj [("kind", JStr (js "turn")); ("task_id", JStr task); ("agent_id", JStr (js "ion"));
            ("tool_action", JStr (js "turn.run")); ("target_revision", JNum (num_of_Z revision))]%string
  end.

Definition steerLatest (st : OperatorState) (c : Chat) : Chat * list output :=
  let content := trim (c_draft c) in
  match last (runningTurns st (c_session c)), c_session c with
  | Some latest, Some session =>
      if jeqb content [] || c_busy c then (c, [])
      else match currentSteerTarget (t_id latest) (scopedEvents st (c_session c)) with
           | None => (say (js "Live execution evidence is still catching up. Try steering again in a moment.") c, [])
           | Some target =>
               await (request "turn.steer"
                        (jobj [("turn_id", JStr (t_id latest)); ("content", JStr content);
                               ("target", targetPayload target)]%string) (Some session))
                 WSteer (begin c)
           end
  | _, _ => (c, [])
  end.

Definition retryLatest (st : OperatorState) (c : Chat) : Chat * list output :=
  match last (retryableTurns st (c_session c)), c_session c with
  | Some latest, Some session =>
      if (0 <? length (runningTurns st (c_session c))) || c_busy c then (c, [])
      else await (request "turn.retry" (jobj [("turn_id", JStr (t_id latest))]%string) (Some session))
             WRetry (begin c)
  | _, _ => (c, [])
  end.

(** ** Branching *)

Definition branchPayload (message : DisplayMessage) (replacement previousMessageID : option jstr) : json :=
  match replacement with
  | None => if isUUID15 (m_id message)
            then jobj [("through_message_id", JStr (m_id message))]%string else JObj []
  | Some _ => match previousMessageID with
              | None => jobj [("copy_messages", JBool false)]%string
              | Some p => jobj [("through_message_id", JStr p)]%string
              end
  end.

Definition branchFrom (message : DisplayMessage) (replacement previousMessageID : option jstr) (c : Chat)
    : Chat * list output :=
  match c_session c with
  | Some session =>
      if c_busy c then (c, [])
      else await (request "session.branch" (branchPayload message replacement previousMessageID) (Some session))
             (WBranch replacement (c_mode c) (c_path c)) (begin c)
  | None => (c, [])
  end.

(** The identifier an edit branches after: the nearest earlier durable message. *)
Definition previousDurable (messages : list DisplayMessage) (index : nat) : option jstr :=
  m_id <$> find (λ m, isUUID15 (m_id m)) (reverse (take index messages)).

(** ** Answers *)

(** [r.error?.message ?? fallback]. *)
Definition webErrorOr (fallback : string) (r : ResponseEnvelope) : Error :=
  mkError match resp_error r with Some e => err_message e | None => js fallback end.

(** The identifier in an answer, a string. *)
Definition resultID (r : ResponseEnvelope) : option jstr :=
  match resp_error r with None => asString (getO "id" (resp_result r)) | Some _ => None end.

Definition refused (r : ResponseEnvelope) : option Error := mkError ∘ err_message <$> resp_error r.

(** The message a submitted turn leaves in the transcript. *)
Definition localMessage (fresh now : jstr) (turn : option jstr) (sub : QueuedSubmission) : DisplayMessage := {|
  m_id := js "local:" ++ default fresh turn;
  m_role := user; m_content := q_content sub; m_createdAt := Some now; m_turnID := None |}.

Definition addMessage (m : DisplayMessage) (t : Transcript) : Transcript :=
  {| tr_messages := tr_messages t ++ [m]; tr_reasoning := tr_reasoning t; tr_seen := tr_seen t |}.

(** The invalidation of a query: awaited, nothing is sent. *)
Definition invalidate (t : WTask) (c : Chat) : Chat * list output :=
  (setCWork (c_busy c) (c_notice c) (c_inflight c ++ [t]) c, []).

(** The submission of an edited message after its conversation was branched. *)
Definition submitEdit (id content : jstr) (m : Mode) (path : jstr) (c : Chat) : Chat * list output :=
  match m, studioProjectID path with
  | full, _ => await (request "turn.submit" (turnPayload content full None) (Some id)) WBranchSubmit c
  | studio, None => failed_ (mkError (js "Open a registered Studio project before editing this turn.")) c
  | studio, p => await (request "turn.submit" (turnPayload content studio p) (Some id)) WBranchSubmit c
  end.

(** The end of an operation whose answer only has to be accepted. *)
Definition accepted (r : ResponseEnvelope) (notice : string) (f : Chat → Chat) (c : Chat) : Chat * list output :=
  match refused r with
  | Some e => failed_ e c
  | None => (finish (Some (js notice)) (f c), [])
  end.

(** The stored messages in the answer of [session.resume], [result?.messages ?? []]; the
    members have the types the interface [ResumedSession] declares. *)
Definition storedMessage (v : json) : StoredMessage := {|
  sm_id := default [] (asString (get "id" v)); sm_role := default [] (asString (get "role" v));
  sm_memory_type := asString (get "memory_type" v); sm_turn_id := asString (get "turn_id" v);
  sm_content := default [] (asString (get "content" v));
  sm_created_at := default [] (asString (get "created_at" v)) |}.
Definition storedMessages (result : option json) : list StoredMessage :=
  match getO "messages" result with Some (JArr l) => map storedMessage l | _ => [] end.

(** The rest of an operation; [fresh] is [crypto.randomUUID()], [now] the time. *)
Definition resume (fresh now : jstr) (t : WTask) (outcome : Error + ResponseEnvelope) (c : Chat)
    : Chat * list output :=
  match t, outcome with
  | (WCancel | WResume _), inl e => (c, [Unhandled e])
  | WProjectListed session project sub, _ =>
      submitTurn session (Some project) sub (setCPlace (js "/studio/" ++ project) (c_mode c) c)
  | WListed turn sub, _ =>
      (finish (c_notice c)
         (setCDraft [] (setCTranscript (addMessage (localMessage fresh now turn sub) (c_transcript c)) c)), [])
  | _, inl e => failed_ e c
  | WCreate sub, inr r =>
      match resultID r with
      | None => failed_ (webErrorOr "I could not start a new conversation." r) c
      | Some id => withSession id sub (setCSession (Some id) c)
      end
  | WProject session sub, inr r =>
      match resultID r with
      | None => failed_ (webErrorOr "The Studio project could not be created." r) c
      | Some id => invalidate (WProjectListed session id sub) c
      end
  | WSubmit sub, inr r =>
      match refused r with
      | Some e => failed_ e c
      | None => invalidate (WListed (asString (getO "turn_id" (resp_result r))) sub) c
      end
  | WBranch replacement m path, inr r =>
      match resultID r with
      | None => failed_ (webErrorOr "I could not fork this conversation." r) c
      | Some id =>
          let c := setCSession (Some id) c in
          match replacement with
          | None => (finish (Some (js "Forked into a new conversation.")) c, [])
          | Some content => submitEdit id content m path c
          end
      end
  | WBranchSubmit, inr r => accepted r "Your edit is running in a new conversation." (λ c, c) c
  | WSteer, inr r => accepted r "Ion is adjusting to your new direction." (setCDraft []) c
  | WRetry, inr r => accepted r "Trying that request again…" (λ c, c) c
  | WCancel, inr r =>
      (say (match resp_error r with Some e => err_message e | None => js "Stopping the current response…" end) c, [])
  | WResume epoch, inr r =>
      if bool_decide (epoch ≠ c_epoch c) || negb (bool_decide (resp_error r = None)) then (c, [])
      else (setCTranscript (resumed (storedMessages (resp_result r)) (c_transcript c)) c, [])
  end.

Definition settle (fresh now : jstr) (i : nat) (outcome : Error + ResponseEnvelope) (c : Chat)
    : option (Chat * list output) :=
  t ← c_inflight c !! i;
  Some (resume fresh now t outcome (setCWork (c_busy c) (c_notice c) (delete i (c_inflight c)) c)).

(** The effect that depends on the session: the previous run is disposed, the transcript
    and the notice start again, and the messages of the new session are asked for. *)
Definition sessionEffect (c : Chat) : Chat * list output :=
  if bool_decide (c_session c = c_effectSession c) then (c, [])
  else
    let c := setCEffect (c_session c) (S (c_epoch c))
               (setCWork (c_busy c) None (c_inflight c) (setCTranscript emptyTranscript c)) in
    match c_session c with
    | None => (c, [])
    | Some session => await (request "session.resume" (JObj []) (Some session)) (WResume (c_epoch c)) c
    end.

(** The custom event that fills the composer. *)
Definition prefill (detail : json) (c : Chat) : Chat :=
  match asString (Some detail) with
  | Some prompt => if jeqb (trim prompt) [] then c else setCDraft prompt c
  | None => c
  end.

(** ** The component over time *)

Inductive chat_input : Type :=
  | Typed (value : jstr)
  | Prefilled (detail : json)
  | SubmitPressed
  | QueueEffect
  | CancelPressed
  | SteerPressed
  | RetryPressed
  | BranchPressed (message : DisplayMessage) (replacement previous : option jstr)
  | Settled (fresh now : jstr) (i : nat) (outcome : Error + ResponseEnvelope)
  | SessionSelected (session : option jstr)
  | Navigated (path : jstr) (m : Mode)
  | SessionEffect
  | StreamEffect.

Definition perform (st : OperatorState) (x : chat_input) (c : Chat) : option (Chat * list output) :=
  match x with
  | Typed v => Some (setCDraft v c, [])
  | Prefilled d => Some (prefill d c, [])
  | SubmitPressed => Some (submit st c)
  | QueueEffect => Some (drainQueue st c)
  | CancelPressed => Some (cancelLatest st c)
  | SteerPressed => Some (steerLatest st c)
  | RetryPressed => Some (retryLatest st c)
  | BranchPressed m r p => Some (branchFrom m r p c)
  | Settled fresh now i outcome => settle fresh now i outcome c
  | SessionSelected s => Some (setCSession s c, [])
  | Navigated path m => Some (setCPlace path m c, [])
  | SessionEffect => Some (sessionEffect c)
  | StreamEffect => Some (setCTranscript (streamEffect (scopedEvents st (c_session c)) (c_transcript c)) c, [])
  end.

Definition newChat (path : jstr) (m : Mode) : Chat := {|
  c_session := None; c_path := path; c_mode := m; c_draft := []; c_transcript := emptyTranscript;
  c_queue := []; c_busy := false; c_notice := None; c_inflight := []; c_effectSession := None; c_epoch := 0 |}.

Inductive chat_runs (path : jstr) (m : Mode) : Chat → list output → Prop :=
  | chat_start : chat_runs path m (newChat path m) []
  | chat_step st c out x c' out' :
      chat_runs path m c out → perform st x c = Some (c', out') → chat_runs path m c' (out ++ out').
End Operations.
