(* ===== verification/ChatView.v ===== *)
(** * The web chat on screen

    The components of [ui/web/src/features/chat/ChatHost.tsx] around the operations of
    [ChatApp]: a message with its edit form and actions, the approval stack, the
    activity sections, the failure notice, and the controls of the composer.  Styling,
    focus and scrolling are left out; [toLocaleTimeString] is a parameter. *)
From stdpp Require Import base list strings.
From Stdlib Require Import ZArith NArith.
From S2P Require Import Prelude JsString JsValue JsArray Regex Catalog Protocol Display Envelope.
From S2P Require Import Events EventsFacts Store EventsProps LocalClient TuiFormat TuiApp Chat ChatApp.

(** ** A message *)

Record MessageUI : Type := {
  mu_copied : bool;
  mu_editing : bool;
  mu_editDraft : jstr;
  mu_speaking : bool;
}.

(** The state a message is mounted with. *)
Definition newMessageUI (m : DisplayMessage) : MessageUI :=
  {| mu_copied := false; mu_editing := false; mu_editDraft := m_content m; mu_speaking := false |}.

Inductive message_input : Type :=
  | CopyDone
  | CopyExpired
  | ShareFellBack
  | ReadPressed (supported : bool)
  | SpeechEnded
  | EditPressed
  | EditTyped (v : jstr)
  | EditCancelled
  | EditSubmitted.

(** What a message asks of the speech synthesiser and of its parent. *)
Inductive message_output : Type :=
  | SpeechCancel
  | SpeechSpeak (content : jstr)
  | Edited (replacement : jstr).

Definition setSpeaking (b : bool) (u : MessageUI) : MessageUI :=
  {| mu_copied := mu_copied u; mu_editing := mu_editing u; mu_editDraft := mu_editDraft u; mu_speaking := b |}.
Definition setCopied (b : bool) (u : MessageUI) : MessageUI :=
  {| mu_copied := b; mu_editing := mu_editing u; mu_editDraft := mu_editDraft u; mu_speaking := mu_speaking u |}.
Definition setEdit (editing : bool) (d : jstr) (u : MessageUI) : MessageUI :=
  {| mu_copied := mu_copied u; mu_editing := editing; mu_editDraft := d; mu_speaking := mu_speaking u |}.

Definition readAloud (m : DisplayMessage) (supported : bool) (u : MessageUI) : MessageUI * list message_output :=
  if negb supported then (u, [])
  else if mu_speaking u then (setSpeaking false u, [SpeechCancel])
  else (setSpeaking true u, [SpeechCancel; SpeechSpeak (m_content m)]).

Definition submitMessageEdit (u : MessageUI) : MessageUI * list message_output :=
  let replacement := trim (mu_editDraft u) in
  if jeqb replacement [] then (u, []) else (setEdit false (mu_editDraft u) u, [Edited replacement]).

Definition messageInput (m : DisplayMessage) (x : message_input) (u : MessageUI) : MessageUI * list message_output :=
  match x with
  | CopyDone | ShareFellBack => (setCopied true u, [])
  | CopyExpired => (setCopied false u, [])
  | ReadPressed supported => readAloud m supported u
  | SpeechEnded => (setSpeaking false u, [])
  | EditPressed => (setEdit true (mu_editDraft u) u, [])
  | EditTyped v => (setEdit (mu_editing u) v u, [])
  | EditCancelled => (setEdit false (mu_editDraft u) u, [])
  | EditSubmitted => submitMessageEdit u
  end.

Definition messageActions (m : DisplayMessage) (u : MessageUI) : list jstr :=
  [js (if mu_copied u then "Copied" else "Copy")] ++
  (match m_role m with user => [js "Edit"] | assistant => [] end) ++
  [js "Fork"; js "Share"; js (if mu_speaking u then "Stop" else "Read aloud")].

(** The reasoning shown above an answer, and the live one of a turn with no message yet. *)
Definition shownReasoning (t : Transcript) (m : DisplayMessage) : option jstr :=
  match m_role m with
  | user => None
  | assistant =>
      r ← m_turnID m ≫= λ turn, assoc_get turn (tr_reasoning t);
      if jeqb (trim r) [] then None else Some r
  end.

Definition visibleTurnIDs (t : Transcript) : list jstr := omap m_turnID (tr_messages t).

Definition liveProgress (st : OperatorState) (c : Chat) : list jstr :=
  let t := c_transcript c in
  omap (λ turn,
    if bool_decide (t_id turn ∈ visibleTurnIDs t) then None
    else r ← assoc_get (t_id turn) (tr_reasoning t); if jeqb (trim r) [] then None else Some r)
    (Chat.runningTurns st (c_session c)).

Definition isEmptyChat (st : OperatorState) (c : Chat) : bool :=
  (length (tr_messages (c_transcript c)) =? 0) && (length (Chat.runningTurns st (c_session c)) =? 0).

Definition workingIndicator (st : OperatorState) (c : Chat) : option jstr :=
  match Chat.runningTurns st (c_session c) with
  | [] => None
  | l => Some (js (if existsb (λ t, bool_decide (t_status t = Recovering)) l
                   then "Ion is recovering and continuing from saved work" else "Ion is working"))
  end.

(** ** Activity and failures *)

Section Views.
Context `{Platform}.
Variable localTime : jstr → jstr.

Definition formatTimestamp (value : option jstr) : jstr :=
  match value with
  | None => js "Unknown"
  | Some v => match Date_parse v with None => v | Some _ => localTime v end
  end.

(** [events.slice(-20).reverse()]: the latest twenty, newest first. *)
Definition activityRows (events : list EventEnvelope) : list (jstr * jstr * jstr) :=
  map (λ e, (webEventTitle (ev_type e), formatTimestamp (Some (ev_occurred_at e)),
             ev_type e ++ js ": " ++ activityDetails e))
    (reverse (slice_last 20 events)).

Record Activity : Type := {
  as_title : jstr;
  as_count : nat;
  as_empty : option jstr;
  as_rows : list (jstr * jstr * jstr);
}.

Definition ActivitySection (title empty : string) (events : list EventEnvelope) : Activity := {|
  as_title := js title; as_count := length events;
  as_empty := match events with [] => Some (js empty) | _ => None end; as_rows := activityRows events |}.

Definition activityDrawer (l : list EventEnvelope) : list Activity :=
  [ActivitySection "Actions" "No actions used yet." (toolEvents l);
   ActivitySection "Plan & helpers" "No delegated work yet." (taskEvents l);
   ActivitySection "Assumptions & forecasts" "No assumptions recorded yet." (epistemicEvents l)].

Definition FailureNotice (e : EventEnvelope) : Failure * jstr :=
  let payload := default (JObj []) (record (ev_payload e)) in
  (failureMessage payload, ev_type e ++ js ": " ++ webCompact payload).

(** The notice below the messages: the last terminal event of the session. *)
Definition shownFailure (l : list EventEnvelope) : option (Failure * jstr) :=
  FailureNotice <$> last (terminalEvents l).

Definition ActivationInspector (snapshot : option json) : jstr * option jstr :=
  match getO "tiers" ((getO "activation" (snapshot ≫= record)) ≫= record) with
  | None => (js "Relevant saved knowledge will appear here when it helps with an answer.", None)
  | Some tiers => (js "Ion used saved context for this work.", Some (stringify tiers))
  end.

(** ** The approval stack *)

Definition approvalField (k : string) (a : ApprovalState) : option jstr := text (get k (a_payload a)).

Record ApprovalCard : Type := {
  ac_title : jstr;
  ac_consequence : jstr;
  ac_operation : jstr;
  ac_actor : jstr;
  ac_expires : jstr;
  ac_arguments : json;
}.

Definition approvalCard (a : ApprovalState) : ApprovalCard := {|
  ac_title := match approvalField "title" a with
              | Some t => t
              | None => default (js "Ion wants to take an important action") (approvalField "operation" a)
              end;
  ac_consequence := default (js "Review what will happen before Ion continues.") (approvalField "consequence" a);
  ac_operation := default (js "Not provided") (approvalField "operation" a);
  ac_actor := default (js "Ion") (approvalField "actor_id" a);
  ac_expires := formatTimestamp (approvalField "expires_at" a);
  ac_arguments := match get "arguments" (a_payload a) with None | Some JNull => JObj [] | Some v => v end |}.
End Views.

(** [responding] is the one card that is disabled; the answers await in flight. *)
Record ApprovalStack : Type := {
  st_responding : option jstr;
  st_inflight : list jstr;
}.

Inductive stack_input : Type :=
  | RespondPressed (approvalID : jstr) (d : Decision_)
  | AnswerSettled (i : nat) (outcome : Error + ResponseEnvelope).

Definition respond (approvals : list ApprovalState) (approvalID : jstr) (d : Decision_) (s : ApprovalStack)
    : ApprovalStack * list output :=
  ({| st_responding := Some approvalID; st_inflight := st_inflight s ++ [approvalID] |},
   [Send (request "approval.respond"
            (jobj [("approval_id", JStr approvalID);
                   ("decision", JStr (decisionName d))]%string)
            (find (λ a, jeqb (a_id a) approvalID) approvals ≫= a_session_id))]).

(** A button acts when its card is on screen and not disabled; a rejected answer leaves
    the handler before it gives the card back. *)
Definition stackInput (approvals : list ApprovalState) (x : stack_input) (s : ApprovalStack)
    : option (ApprovalStack * list output) :=
  match x with
  | RespondPressed id d =>
      if existsb (λ a, jeqb (a_id a) id) approvals && bool_decide (st_responding s ≠ Some id)
      then Some (respond approvals id d s) else None
  | AnswerSettled i outcome =>
      _ ← st_inflight s !! i;
      let rest := delete i (st_inflight s) in
      match outcome with
      | inl e => Some ({| st_responding := st_responding s; st_inflight := rest |}, [Unhandled e])
      | inr _ => Some ({| st_responding := None; st_inflight := rest |}, [])
      end
  end.

Inductive stack_runs (approvals : list ApprovalState) : ApprovalStack → ApprovalStack → list output → Prop :=
  | stack_stop s : stack_runs approvals s s []
  | stack_step s x s1 out1 s2 out2 :
      stackInput approvals x s = Some (s1, out1) → stack_runs approvals s1 s2 out2 →
      stack_runs approvals s s2 (out1 ++ out2).

(** ** The controls of the composer *)

Inductive control : Type := CancelControl | SteerControl | RetryControl | SendControl.
#[export] Instance control_eq_dec : EqDecision control.
Proof. solve_decision. Defined.

(** The buttons shown, with whether each is enabled. *)
Definition composerControls (st : OperatorState) (c : Chat) : list (control * bool) :=
  (if 0 <? length (Chat.runningTurns st (c_session c)) then
     (CancelControl, negb (c_busy c)) ::
     (if jeqb (trim (c_draft c)) [] then [] else [(SteerControl, negb (c_busy c))])
   else if (0 <? length (retryableTurns st (c_session c))) &&
           (0 <? length (terminalEvents (scopedEvents st (c_session c))))
   then [(RetryControl, negb (c_busy c))] else []) ++
  [(SendControl, negb (c_busy c || jeqb (trim (c_draft c)) []))].

Definition sendLabel (st : OperatorState) (c : Chat) : jstr :=
  js (if 0 <? length (Chat.runningTurns st (c_session c)) then "Queue" else "Send").

Definition composerPlaceholder (c : Chat) : jstr :=
  js (match c_mode c, studioProjectID (c_path c) with
      | full, _ => "Ask anything, or give Ion a goal…"
      | studio, None => "Describe what to build; an isolated project will be created…"
      | studio, Some _ => "Continue work on this project…"
      end).

Definition composerMode (c : Chat) : jstr :=
  js (match c_mode c, studioProjectID (c_path c) with
      | full, _ => "Full agent"
      | studio, None => "New Studio project"
      | studio, Some _ => "Studio project"
      end).

Definition queueView (c : Chat) : list jstr :=
  match c_queue c with
  | [] => []
  | q => (nat_str (length q) ++ js " waiting") :: map q_content q
  end.

Definition pressControl `{Platform} (isLetterOrNumber : N → bool) (st : OperatorState) (k : control) (c : Chat)
    : Chat * list output :=
  match k with
  | CancelControl => cancelLatest st c
  | SteerControl => steerLatest st c
  | RetryControl => retryLatest st c
  | SendControl => submit isLetterOrNumber st c
  end.

(** ** Claims *)

(** A failed answer blocks its card: when the answer to the only pending approval is
    rejected the card stays disabled, and from then on no input sends anything for it. *)
Theorem failed_answer_blocks_the_card (a : ApprovalState) (d : Decision_) (e : Error)
    (s1 s2 s : ApprovalStack) (out1 out2 out : list output) :
  stackInput [a] (RespondPressed (a_id a) d) {| st_responding := None; st_inflight := [] |} = Some (s1, out1) →
  stackInput [a] (AnswerSettled 0 (inl e)) s1 = Some (s2, out2) →
  stack_runs [a] s2 s out →
  out = [] ∧ st_responding s = Some (a_id a).
Proof.
  intros H1 H2 Hr.
  assert (s2 = {| st_responding := Some (a_id a); st_inflight := [] |}) as ->.
  { cbn [stackInput existsb st_responding] in H1. rewrite jeqb_refl, bool_decide_true in H1 by done.
    cbn [orb andb respond] in H1. injection H1 as <- <-. cbn [stackInput st_inflight] in H2. by injection H2 as <- <-. }
  clear H1 H2. remember {| st_responding := Some (a_id a); st_inflight := [] |} as s0 eqn:Hs0.
  induction Hr as [s0|s0 x s' o1 s'' o2 Hx _ IH]; [by subst|]. exfalso. clear IH. subst s0.
  destruct x as [id d'|i outcome]; cbn [stackInput existsb st_responding st_inflight] in Hx; [|done].
  destruct (jeqb (a_id a) id) eqn:Hid; [|done]. apply jeqb_eq in Hid. subst id.
  by rewrite bool_decide_false in Hx by naive_solver.
Qed.

(** The controls lead to operations that act: what [enabled] controls do. *)
Definition controlActs (st : OperatorState) (c : Chat) (k : control) (r : Chat * list output) : Prop :=
  match k with
  | CancelControl => ∃ t session, last (Chat.runningTurns st (c_session c)) = Some t ∧ c_session c = Some session ∧
      r.2 = [Send (request "turn.cancel" (jobj [("turn_id", JStr (t_id t))]%string) (Some session))]
  | SteerControl => ∃ t session, last (Chat.runningTurns st (c_session c)) = Some t ∧ c_session c = Some session ∧
      ((∃ payload, r.2 = [Send (request "turn.steer" payload (Some session))] ∧
                   get "turn_id" payload = Some (JStr (t_id t)) ∧
                   get "content" payload = Some (JStr (trim (c_draft c)))) ∨
       r.2 = [] ∧ c_notice r.1 = Some (js "Live execution evidence is still catching up. Try steering again in a moment."))
  | RetryControl => ∃ t session, last (retryableTurns st (c_session c)) = Some t ∧ c_session c = Some session ∧
      r.2 = [Send (request "turn.retry" (jobj [("turn_id", JStr (t_id t))]%string) (Some session))]
  | SendControl =>
      let sub := {| q_content := trim (c_draft c); q_mode := c_mode c; q_pathname := c_path c |} in
      q_content sub ≠ [] ∧
      (c_queue r.1 = c_queue c ++ [sub] ∧ r.2 = [] ∧ c_draft r.1 = [] ∨
       r.2 ≠ [] ∧ c_busy r.1 = true ∨
       r.2 = [] ∧ c_notice r.1 = Some (js "This Studio location is not bound to a project."))
  end.

Lemma runningTurns_session st s : Chat.runningTurns st s ≠ [] → is_Some s.
Proof.
  destruct s; [done|]. intros Hn. exfalso. apply Hn. unfold Chat.runningTurns.
  induction (turns st).*2 as [|t l IH]; [done|]. simpl. by rewrite andb_false_r.
Qed.

Lemma retryableTurns_session st s : retryableTurns st s ≠ [] → is_Some s.
Proof.
  destruct s; [done|]. intros Hn. exfalso. apply Hn. unfold retryableTurns.
  assert (List.filter (λ t : TurnState, retryable (t_status t) && Chat.inSession None (t_session_id t))
            (turns st).*2 = []) as ->; [|done].
  induction (turns st).*2 as [|t l IH]; [done|]. simpl. by rewrite andb_false_r.
Qed.

Lemma length_pos_last {A} (l : list A) : (0 <? length l) = true → l ≠ [] ∧ ∃ x, last l = Some x.
Proof.
  destruct l as [|x l]; [done|]. intros _. split; [done|].
  destruct (last (x :: l)) as [y|] eqn:Hl; [by eexists|]. by apply last_None in Hl.
Qed.

Section Controls.
Context `{Platform}.
Variable isLetterOrNumber : N → bool.

Lemma cancel_acts st c :
  (0 <? length (Chat.runningTurns st (c_session c))) = true →
  controlActs st c CancelControl (cancelLatest st c).
Proof.
  intros (Hn & t & Ht)%length_pos_last. destruct (runningTurns_session _ _ Hn) as [session Hs].
  cbn [controlActs]. exists t, session. split_and!; [done|done|].
  unfold cancelLatest. by rewrite Ht, Hs.
Qed.

Lemma steer_acts st c :
  (0 <? length (Chat.runningTurns st (c_session c))) = true → c_busy c = false → trim (c_draft c) ≠ [] →
  controlActs st c SteerControl (steerLatest st c).
Proof.
  intros (Hn & t & Ht)%length_pos_last Hb Hd. destruct (runningTurns_session _ _ Hn) as [session Hs].
  cbn [controlActs]. exists t, session. split_and!; [done|done|].
  unfold steerLatest. rewrite Ht, Hb. apply jeqb_neq in Hd. rewrite Hd. cbn [orb].
  destruct (c_session c) as [session'|] eqn:Hs'; [|done]. injection Hs as ->.
  destruct (currentSteerTarget _ _) as [target|]; [left|by right].
  eexists. split; [reflexivity|]. by destruct target.
Qed.

Lemma retry_acts st c :
  (0 <? length (Chat.runningTurns st (c_session c))) = false →
  (0 <? length (retryableTurns st (c_session c))) = true → c_busy c = false →
  controlActs st c RetryControl (retryLatest st c).
Proof.
  intros Hr (Hn & t & Ht)%length_pos_last Hb. destruct (retryableTurns_session _ _ Hn) as [session Hs].
  cbn [controlActs]. exists t, session. split_and!; [done|done|].
  unfold retryLatest. rewrite Ht, Hr, Hb. cbn [orb]. by rewrite Hs.
Qed.

Lemma send_acts st c :
  c_busy c = false → trim (c_draft c) ≠ [] →
  controlActs st c SendControl (submit isLetterOrNumber st c).
Proof.
  intros Hb Hd. cbn [controlActs]. split; [done|]. apply jeqb_neq in Hd. unfold submit.
  rewrite Hd, Hb, orb_false_r.
  destruct (0 <? length (Chat.runningTurns st (c_session c))); [by left|right].
  unfold send. destruct (c_session (begin c)); [|by left].
  unfold withSession. cbn [q_mode]. destruct (c_mode c); [by left|].
  destruct (studioProjectID _); [by left|]. destruct (negb _); [by right|by left].
Qed.

(** No button of the composer is dead: whatever the state, pressing a button that is
    shown and enabled acts: the stop button cancels the latest running turn, the steering
    button redirects it or says why it cannot yet, the retry button retries the latest
    retryable turn, and the send button queues the trimmed message behind a running turn,
    starts sending it, or shows why the place it is written in cannot take it. *)
Theorem enabled_controls_act (st : OperatorState) (c : Chat) (k : control) :
  (k, true) ∈ composerControls st c → controlActs st c k (pressControl isLetterOrNumber st k c).
Proof.
  unfold composerControls. intros [Hk|Hk]%elem_of_app.
  - destruct (0 <? length (Chat.runningTurns st (c_session c))) eqn:Hr.
    + apply elem_of_cons in Hk as [Hk|Hk]; [simplify_eq; by apply cancel_acts|].
      destruct (jeqb (trim (c_draft c)) []) eqn:Hd; [by apply not_elem_of_nil in Hk|].
      apply list_elem_of_singleton in Hk. injection Hk as -> Hb.
      apply steer_acts; [done|by destruct (c_busy c)|by apply jeqb_neq].
    + destruct (0 <? length (retryableTurns st (c_session c))) eqn:Hy; [|by apply not_elem_of_nil in Hk].
      destruct (0 <? length (terminalEvents _)); [|by apply not_elem_of_nil in Hk].
      apply list_elem_of_singleton in Hk. injection Hk as -> Hb. apply retry_acts; [done|done|by destruct (c_busy c)].
  - apply list_elem_of_singleton in Hk. injection Hk as -> Hb. symmetry in Hb.
    apply negb_true_iff, orb_false_elim in Hb as [Hb Hd]. apply send_acts; [done|by apply jeqb_neq].
Qed.
End Controls.

(** ** Witnesses *)

Definition waiting : ApprovalState := {|
  a_id := uuid "5"; a_session_id := Some (uuid "b"); a_turn_id := None; a_payload := JNull; a_last_sequence := 1 |}.
Definition other_waiting : ApprovalState := {|
  a_id := uuid "6"; a_session_id := Some (uuid "b"); a_turn_id := None; a_payload := JNull; a_last_sequence := 2 |}.

Definition idle_stack : ApprovalStack := {| st_responding := None; st_inflight := [] |}.
Definition answered : ApprovalStack * list output := respond [waiting] (uuid "5") approve idle_stack.
Definition stuck : ApprovalStack := {| st_responding := Some (uuid "5"); st_inflight := [] |}.

Lemma failed_answer_blocks_the_card_witness :
  stackInput [waiting] (RespondPressed (uuid "5") approve) idle_stack = Some answered ∧
  stackInput [waiting] (AnswerSettled 0 (inl (mkError (js "offline")))) answered.1 =
    Some (stuck, [Unhandled (mkError (js "offline"))]) ∧
  st_responding stuck = Some (a_id waiting).
Proof.
  split; [vm_compute; reflexivity|]. split; [vm_compute; reflexivity|].
  apply (failed_answer_blocks_the_card waiting approve (mkError (js "offline")) answered.1 stuck stuck
           answered.2 [Unhandled (mkError (js "offline"))] []).
  - vm_compute. reflexivity.
  - vm_compute. reflexivity.
  - apply stack_stop.
Defined.

(** With two cards, answering the second enables the first again, so both decisions on the
    first can be on their way at the same time. *)
Example opposite_answers_in_flight :
  st_inflight <$> (fst <$> (stackInput [waiting; other_waiting] (RespondPressed (uuid "5") approve) idle_stack
    ≫= λ r1, stackInput [waiting; other_waiting] (RespondPressed (uuid "6") approve) r1.1
    ≫= λ r2, stackInput [waiting; other_waiting] (RespondPressed (uuid "5") deny) r2.1)) =
  Some [uuid "5"; uuid "6"; uuid "5"].
Proof. vm_compute. reflexivity. Qed.

Definition typed_chat : Chat := setCDraft (js "hello") (newChat (js "/") full).

Lemma enabled_controls_act_witness :
  controlActs emptyOperatorState typed_chat SendControl
    (@pressControl test_platform (λ _, true) emptyOperatorState SendControl typed_chat).
Proof.
  apply (@enabled_controls_act test_platform (λ _, true) emptyOperatorState typed_chat SendControl).
  apply (bool_decide_unpack _). vm_compute. exact I.
Defined.
