(* ===== verification/ChatProps.v ===== *)
(** * Properties of the web chat

    The transcript built from the stream, the merge with the durable messages, and the
    exclusion between the operations of the composer. *)
From stdpp Require Import base sets list strings.
From Stdlib Require Import ZArith NArith.
From S2P Require Import Prelude JsString JsValue JsArray Regex Catalog Protocol Display Envelope.
From S2P Require Import Events EventsFacts EventsProps LocalClient TuiFormat TuiApp Chat ChatApp.

(** ** The stream *)

Lemma streamEffect_app l1 l2 t : streamEffect (l1 ++ l2) t = streamEffect l2 (streamEffect l1 t).
Proof. unfold streamEffect. apply fold_left_app. Qed.

Lemma streamEvent_seen e t x : x ∈ tr_seen t → x ∈ tr_seen (streamEvent e t).
Proof.
  intros Hx. unfold streamEvent. destruct (_ || _); [done|]. cbv zeta.
  destruct (jeqb _ _); simpl; apply elem_of_app; by left.
Qed.

Lemma streamEffect_seen l t x : x ∈ tr_seen t → x ∈ tr_seen (streamEffect l t).
Proof.
  revert t; induction l as [|e l IH]; intros t Hx; [done|]. apply IH. by apply streamEvent_seen.
Qed.

Lemma streamEvent_marks e t : isStreamEvent e = true → ev_event_id e ∈ tr_seen (streamEvent e t).
Proof.
  intros He. unfold streamEvent. rewrite He. cbn [negb orb].
  case_bool_decide as Hs; [done|]. cbv zeta.
  destruct (jeqb _ _); simpl; apply elem_of_app; right; by apply list_elem_of_singleton.
Qed.

Lemma streamEvent_skip e t :
  isStreamEvent e = false ∨ ev_event_id e ∈ tr_seen t → streamEvent e t = t.
Proof.
  unfold streamEvent. intros [-> | Hs]; [done|]. rewrite (bool_decide_true _ Hs). by rewrite orb_true_r.
Qed.

(** Events that were all handled change nothing. *)
Lemma streamEffect_skip l t :
  Forall (λ e, isStreamEvent e = false ∨ ev_event_id e ∈ tr_seen t) l → streamEffect l t = t.
Proof.
  induction 1 as [|e l He _ IH]; [done|]. unfold streamEffect in *. simpl.
  by rewrite streamEvent_skip.
Qed.

Lemma streamEffect_handled l t :
  Forall (λ e, isStreamEvent e = false ∨ ev_event_id e ∈ tr_seen (streamEffect l t)) l.
Proof.
  apply Forall_forall. intros e (l1 & l2 & ->)%list_elem_of_split.
  destruct (isStreamEvent e) eqn:He; [right|by left].
  rewrite streamEffect_app. change (e :: l2) with ([e] ++ l2). rewrite streamEffect_app.
  apply streamEffect_seen. unfold streamEffect at 1. simpl. by apply streamEvent_marks.
Qed.

(** [C10] The stream effect is exactly once: the effect runs again over the whole retained
    window whenever an event arrives; for a log [l1 ++ l2 ++ l3], running it over the
    window [l1 ++ l2] and later over the window [l2 ++ l3] builds the same transcript as
    one run over the whole log. *)
Theorem stream_windows_are_exactly_once (l1 l2 l3 : list EventEnvelope) (t : Transcript) :
  streamEffect (l2 ++ l3) (streamEffect (l1 ++ l2) t) = streamEffect (l1 ++ l2 ++ l3) t.
Proof.
  rewrite (app_assoc l1 l2 l3), (streamEffect_app (l1 ++ l2) l3), (streamEffect_app l2 l3).
  rewrite (streamEffect_skip l2 (streamEffect (l1 ++ l2) t)); [done|].
  pose proof (streamEffect_handled (l1 ++ l2) t) as Hh. apply Forall_app in Hh as [_ Hh]. exact Hh.
Qed.

(** *** What the reader sees of a turn *)

Definition contentOf (id : jstr) (l : list DisplayMessage) : jstr :=
  default [] (m_content <$> find (λ m, jeqb (m_id m) id) l).

Definition eventTurn (e : EventEnvelope) : jstr := default (ev_event_id e) (cor_turn_id (ev_correlation e)).
Definition eventContent (e : EventEnvelope) : jstr :=
  default [] (text (getO "content" (record (ev_payload e)))).

Lemma contentOf_update id id' f l :
  (∀ m, m_id (f m) = m_id m) →
  contentOf id (updateFirst id' f l) =
  if jeqb id id' && hasMessage id l
  then default [] (m_content ∘ f <$> find (λ m, jeqb (m_id m) id) l)
  else contentOf id l.
Proof.
  intros Hf. unfold contentOf, hasMessage. induction l as [|m l IH]; simpl; [by rewrite andb_false_r|].
  destruct (jeqb (m_id m) id') eqn:Hm'; simpl; rewrite ?Hf.
  - destruct (jeqb (m_id m) id) eqn:Hm; simpl.
    + apply jeqb_eq in Hm, Hm'. rewrite <- Hm, <- Hm', jeqb_refl. done.
    + destruct (jeqb id id') eqn:Hid; [|done]. apply jeqb_eq in Hid. subst. congruence.
  - destruct (jeqb (m_id m) id) eqn:Hm; simpl; [|exact IH].
    destruct (jeqb id id') eqn:Hid; [|done]. apply jeqb_eq in Hid. subst. congruence.
Qed.

Lemma contentOf_app id l m :
  contentOf id (l ++ [m]) = if hasMessage id l then contentOf id l
                            else if jeqb (m_id m) id then m_content m else [].
Proof.
  unfold contentOf, hasMessage. induction l as [|x l IH]; simpl; [by destruct (jeqb (m_id m) id)|].
  destruct (jeqb (m_id x) id); [done|exact IH].
Qed.

Lemma contentOf_absent id l : hasMessage id l = false → contentOf id l = [].
Proof.
  unfold contentOf, hasMessage. induction l as [|x l IH]; simpl; [done|].
  destruct (jeqb (m_id x) id); [done|exact IH].
Qed.

Lemma hasMessage_find id l :
  hasMessage id l = true → ∃ m, find (λ m, jeqb (m_id m) id) l = Some m.
Proof.
  unfold hasMessage. induction l as [|x l IH]; simpl; [done|]. destruct (jeqb (m_id x) id); eauto.
Qed.

Lemma turnMessageID_inj a b : turnMessageID a = turnMessageID b → a = b.
Proof. unfold turnMessageID. by apply app_inv_head. Qed.

(** The text of a turn after one delta of it. *)
Definition deltaText (reset replace : bool) (content old : jstr) : jstr :=
  if reset then [] else match content with [] => old | _ => if replace then content else old ++ content end.

Lemma turnMessageID_eqb a b : jeqb (turnMessageID a) (turnMessageID b) = jeqb a b.
Proof.
  destruct (jeqb a b) eqn:Ht.
  - apply jeqb_eq in Ht as ->. apply jeqb_refl.
  - apply jeqb_neq. intros He%turnMessageID_inj. by apply jeqb_neq in Ht.
Qed.

Lemma contentOf_filter id id' l :
  contentOf id (List.filter (λ m, negb (jeqb (m_id m) id')) l) = if jeqb id id' then [] else contentOf id l.
Proof.
  unfold contentOf. induction l as [|m l IH]; simpl; [by destruct (jeqb id id')|].
  destruct (jeqb (m_id m) id') eqn:Hm; simpl.
  - rewrite IH. destruct (jeqb id id') eqn:Hid; [done|]. destruct (jeqb (m_id m) id) eqn:Hm2; [|done].
    apply jeqb_eq in Hm, Hm2. rewrite <- Hm, <- Hm2, jeqb_refl in Hid. done.
  - destruct (jeqb (m_id m) id) eqn:Hm2; [|exact IH]. destruct (jeqb id id') eqn:Hid; [|done].
    apply jeqb_eq in Hm2, Hid. rewrite Hm2, Hid, jeqb_refl in Hm. done.
Qed.

(** A delta changes the text of its own turn and of no other. *)
Lemma streamMessage_content turn turn' at_ reset replace content l :
  contentOf (turnMessageID turn) (streamMessage turn' at_ reset replace content l) =
  let old := contentOf (turnMessageID turn) l in
  if jeqb turn turn' then deltaText reset replace (default [] content) old else old.
Proof.
  unfold streamMessage, deltaText. pose proof (turnMessageID_eqb turn turn') as Hid.
  destruct reset; [by rewrite contentOf_filter, Hid|].
  destruct content as [[|x c]|]; try (by destruct (jeqb turn turn')).
  destruct (hasMessage (turnMessageID turn') l) eqn:Hh.
  - rewrite contentOf_update by done. rewrite Hid.
    destruct (jeqb turn turn') eqn:Ht; simpl; [|done].
    apply jeqb_eq in Ht as ->. rewrite Hh. unfold contentOf.
    destruct (hasMessage_find _ _ Hh) as [m ->]. done.
  - rewrite contentOf_app. cbn [m_id m_content]. destruct (jeqb turn turn') eqn:Ht.
    + apply jeqb_eq in Ht as ->. rewrite Hh, (contentOf_absent _ _ Hh), jeqb_refl. by destruct replace.
    + destruct (hasMessage (turnMessageID turn) l) eqn:Hh'; [done|].
      rewrite (contentOf_absent _ _ Hh').
      replace (jeqb (turnMessageID turn') (turnMessageID turn)) with false; [done|].
      symmetry. apply jeqb_neq. intros He%turnMessageID_inj. subst. by rewrite jeqb_refl in Ht.
Qed.

Definition isDelta (e : EventEnvelope) : bool := jeqb (ev_type e) (js "turn.delta").

(** The deltas of a turn. *)
Definition turnDeltas (turn : jstr) (l : list EventEnvelope) : list EventEnvelope :=
  List.filter (λ e, isDelta e && jeqb turn (eventTurn e)) l.

(** The text that deltas leave, read back from the newest: a reset leaves nothing of what
    came before it, and a replacement with a text only that text; the others add theirs. *)
Fixpoint readBack (before : jstr) (newest : list EventEnvelope) : jstr :=
  match newest with
  | [] => before
  | e :: older =>
      if flag "reset" (record (ev_payload e)) then []
      else if flag "replace" (record (ev_payload e)) && negb (jeqb (eventContent e) []) then eventContent e
      else readBack before older ++ eventContent e
  end.

Lemma readBack_app before l1 l2 : readBack before (l1 ++ l2) = readBack (readBack before l2) l1.
Proof. induction l1 as [|e l1 IH]; [done|]. cbn [app readBack]. by rewrite IH. Qed.

Lemma readBack_one before e :
  readBack before [e] =
  deltaText (flag "reset" (record (ev_payload e))) (flag "replace" (record (ev_payload e))) (eventContent e) before.
Proof.
  cbn [readBack]. unfold deltaText. destruct (flag "reset" _); [done|].
  destruct (eventContent e) as [|c t]; [by rewrite andb_false_r, app_nil_r|].
  destruct (flag "replace" _); reflexivity.
Qed.

Lemma streamEvent_content turn e t :
  ev_event_id e ∉ tr_seen t →
  contentOf (turnMessageID turn) (tr_messages (streamEvent e t)) =
  readBack (contentOf (turnMessageID turn) (tr_messages t)) (turnDeltas turn [e]).
Proof.
  intros Hs. unfold streamEvent, isStreamEvent, turnDeltas. cbn [List.filter]. fold (isDelta e).
  rewrite bool_decide_false, orb_false_r by done.
  destruct (jeqb (ev_type e) (js "reasoning.summary")) eqn:Hty.
  - assert (isDelta e = false) as ->.
    { unfold isDelta. apply jeqb_eq in Hty. rewrite Hty. reflexivity. }
    reflexivity.
  - rewrite orb_false_r. destruct (isDelta e); cbn [negb andb]; [|done].
    cbn [tr_messages]. fold (eventTurn e). rewrite streamMessage_content. fold (eventContent e). cbv zeta.
    destruct (jeqb turn (eventTurn e)); [|done]. by rewrite readBack_one.
Qed.

Lemma streamEvent_new e t x : x ∈ tr_seen (streamEvent e t) → x ∈ tr_seen t ∨ x = ev_event_id e.
Proof.
  unfold streamEvent. destruct (_ || _); [by left|]. cbv zeta.
  destruct (jeqb _ _); simpl; rewrite elem_of_app, list_elem_of_singleton; tauto.
Qed.

Lemma streamEffect_content turn l t :
  NoDup (map ev_event_id l) → Forall (λ e, ev_event_id e ∉ tr_seen t) l →
  contentOf (turnMessageID turn) (tr_messages (streamEffect l t)) =
  readBack (contentOf (turnMessageID turn) (tr_messages t)) (reverse (turnDeltas turn l)).
Proof.
  revert t; induction l as [|e l IH]; intros t Hn Hs; [done|].
  apply Forall_cons in Hs as [Hse Hs].
  apply NoDup_cons in Hn as [Hne Hn]. unfold streamEffect. cbn [fold_left].
  fold (streamEffect l (streamEvent e t)). rewrite IH; [|done|].
  - rewrite streamEvent_content by done. unfold turnDeltas. change (e :: l) with ([e] ++ l).
    rewrite List.filter_app, reverse_app, readBack_app. do 2 f_equal.
    cbn [List.filter]. by destruct (_ && _).
  - apply Forall_forall. intros x Hx Hin. apply streamEvent_new in Hin as [Hin|Heq].
    + rewrite Forall_forall in Hs. by apply (Hs x).
    + apply Hne. rewrite <- Heq. by apply list_elem_of_fmap_2.
Qed.


(** ** The merge with the durable messages *)

Lemma mergeGo_sublist ids keys l : mergeGo ids keys l `sublist_of` l.
Proof.
  revert ids keys; induction l as [|m l IH]; intros ids keys; simpl; [constructor|].
  destruct (_ || _); constructor; apply IH.
Qed.

Lemma mergeGo_fresh ids keys l :
  Forall (λ m, (m_id m ∉ ids) ∧ (contentKey m ∉ keys)) (mergeGo ids keys l).
Proof.
  revert ids keys; induction l as [|m l IH]; intros ids keys; simpl; [constructor|].
  case_bool_decide as Hi; [apply IH|]. case_bool_decide as Hk; [apply IH|]. simpl. constructor; [done|].
  eapply Forall_impl; [apply IH|]. intros x [Hx Hy]; simpl in *. set_solver.
Qed.

Lemma mergeGo_distinct ids keys l :
  NoDup (map m_id (mergeGo ids keys l)) ∧ NoDup (map contentKey (mergeGo ids keys l)).
Proof.
  revert ids keys; induction l as [|m l IH]; intros ids keys; simpl; [split; constructor|].
  destruct (_ || _); [apply IH|]. cbn [map].
  pose proof (mergeGo_fresh (m_id m :: ids) (contentKey m :: keys) l) as Hf.
  rewrite Forall_forall in Hf. destruct (IH (m_id m :: ids) (contentKey m :: keys)) as [Hi Hk].
  split; (constructor; [|done]); intros (x & Hx & [H1 H2]%Hf)%list_elem_of_fmap;
    [apply H1|apply H2]; rewrite <- Hx; left.
Qed.

Lemma mergeGo_covers ids keys l m :
  m ∈ l → m_id m ∈ ids ∨ contentKey m ∈ keys ∨
  ∃ x, x ∈ mergeGo ids keys l ∧ (m_id x = m_id m ∨ contentKey x = contentKey m).
Proof.
  revert ids keys; induction l as [|y l IH]; intros ids keys; [intros E; by apply not_elem_of_nil in E|].
  intros [->|Hm]%elem_of_cons; simpl.
  - case_bool_decide; [by left|]. case_bool_decide; [by right; left|]. right; right.
    exists y. split; [left|by left].
  - destruct (_ || _); [by apply IH|].
    destruct (IH (m_id y :: ids) (contentKey y :: keys) Hm) as [[E|E]%elem_of_cons|[[E|E]%elem_of_cons|(x & Hx & Hxm)]];
      [right; right; exists y; split; [left|by left]|by left
      |right; right; exists y; split; [left|by right]|by right; left
      |right; right; exists x; split; [by right|done]].
Qed.

(** Merging durable and live messages: the merged transcript is a subsequence of the
    durable messages followed by the live ones, no two of its messages share an
    identifier or their role and text, and every message is represented by one with its
    identifier or with its role and text. *)
Theorem merged_messages_are_distinct (first second : list DisplayMessage) :
  mergeMessages first second `sublist_of` first ++ second ∧
  NoDup (map m_id (mergeMessages first second)) ∧
  NoDup (map contentKey (mergeMessages first second)) ∧
  ∀ m, m ∈ first ++ second →
    ∃ x, x ∈ mergeMessages first second ∧ (m_id x = m_id m ∨ contentKey x = contentKey m).
Proof.
  unfold mergeMessages. split; [apply mergeGo_sublist|].
  destruct (mergeGo_distinct [] [] (first ++ second)) as [Hi Hk]. split_and!; [done|done|].
  intros m Hm. destruct (mergeGo_covers [] [] _ m Hm) as [E|[E|E]]; [by apply not_elem_of_nil in E..|done].
Qed.

(** ** The operations of the composer *)

(** The tasks that belong to an operation guarded by [busy]. *)
Definition guarded (t : WTask) : bool := match t with WCancel | WResume _ => false | _ => true end.
Definition guardedCalls (c : Chat) : nat := length (List.filter guarded (c_inflight c)).

Definition exclusive (c : Chat) : Prop := guardedCalls c = if c_busy c then 1 else 0.

(** A state between the removal of a guarded task and the end of its continuation. *)
Definition midway (c : Chat) : Prop := guardedCalls c = 0 ∧ c_busy c = true.

Lemma filter_snoc (l : list WTask) t :
  length (List.filter guarded (l ++ [t])) = length (List.filter guarded l) + if guarded t then 1 else 0.
Proof. rewrite List.filter_app, length_app. simpl. by destruct (guarded t). Qed.

Lemma filter_delete (l : list WTask) i t :
  l !! i = Some t →
  length (List.filter guarded l) = length (List.filter guarded (delete i l)) + if guarded t then 1 else 0.
Proof.
  revert i; induction l as [|x l IH]; intros [|i] Hi; simplify_eq/=.
  - destruct (guarded t); simpl; lia.
  - apply IH in Hi. destruct (guarded x); simpl; lia.
Qed.

Lemma await_exclusive r t c : guarded t = true → midway c → exclusive (await r t c).1.
Proof. intros Ht [Hc Hb]. unfold exclusive, guardedCalls in *; simpl. rewrite filter_snoc, Ht, Hc, Hb. done. Qed.

Lemma invalidate_exclusive t c : guarded t = true → midway c → exclusive (invalidate t c).1.
Proof. intros Ht [Hc Hb]. unfold exclusive, guardedCalls in *; simpl. rewrite filter_snoc, Ht, Hc, Hb. done. Qed.

Lemma await_unguarded r t c : guarded t = false → exclusive c → exclusive (await r t c).1.
Proof. intros Ht Hc. unfold exclusive, guardedCalls in *; simpl. rewrite filter_snoc, Ht, Hc. lia. Qed.

Lemma finish_exclusive n c : guardedCalls c = 0 → exclusive (finish n c).
Proof. done. Qed.

Lemma failed_exclusive e c : midway c → exclusive (failed_ e c).1.
Proof. by intros [Hc _]. Qed.

Lemma begin_midway c : exclusive c → c_busy c = false → midway (begin c).
Proof. unfold exclusive, midway, guardedCalls. intros Hc Hb. by rewrite Hb in Hc. Qed.

Create HintDb chat.
#[export] Hint Resolve await_exclusive invalidate_exclusive failed_exclusive begin_midway finish_exclusive : chat.

Section Exclusion.
Context `{Platform}.
Variable isLetterOrNumber : N → bool.

Lemma withSession_exclusive session sub c :
  midway c → exclusive (withSession isLetterOrNumber session sub c).1.
Proof.
  intros Hc. unfold withSession, submitTurn. destruct (q_mode sub); [by apply await_exclusive|].
  destruct (studioProjectID _); [by apply await_exclusive|].
  destruct (negb _); [by apply failed_exclusive|by apply await_exclusive].
Qed.

Lemma send_exclusive sub c : exclusive c → c_busy c = false → exclusive (send isLetterOrNumber sub c).1.
Proof.
  intros Hc Hb. pose proof (begin_midway c Hc Hb) as Hm. unfold send.
  destruct (c_session (begin c)); [by apply withSession_exclusive|by apply await_exclusive].
Qed.

Lemma accepted_exclusive r n f c :
  midway c → (guardedCalls (f c) = guardedCalls c) → exclusive (accepted r n f c).1.
Proof.
  intros Hc Hf. unfold accepted. destruct (refused r); [by apply failed_exclusive|].
  apply finish_exclusive. rewrite Hf. apply Hc.
Qed.

Lemma submitEdit_exclusive id content m path c : midway c → exclusive (submitEdit id content m path c).1.
Proof.
  intros Hc. unfold submitEdit. destruct m; [by apply await_exclusive|].
  destruct (studioProjectID path); [by apply await_exclusive|by apply failed_exclusive].
Qed.

Lemma resume_guarded fresh now t outcome c :
  guarded t = true → midway c → exclusive (resume isLetterOrNumber fresh now t outcome c).1.
Proof.
  intros Ht Hc. destruct t; try discriminate Ht; destruct outcome as [e|r]; cbn [resume];
    try (by apply failed_exclusive); try (apply await_exclusive; done);
    try (by apply finish_exclusive, Hc); try (by apply accepted_exclusive).
  - destruct (resultID r); [by apply withSession_exclusive|by apply failed_exclusive].
  - destruct (resultID r); [by apply invalidate_exclusive|by apply failed_exclusive].
  - destruct (refused r); [by apply failed_exclusive|by apply invalidate_exclusive].
  - destruct (resultID r); [|by apply failed_exclusive].
    destruct replacement; [by apply submitEdit_exclusive|by apply finish_exclusive, Hc].
Qed.

Lemma settle_exclusive fresh now i outcome c c' out :
  exclusive c → settle isLetterOrNumber fresh now i outcome c = Some (c', out) → exclusive c'.
Proof.
  unfold settle, exclusive at 1, guardedCalls. intros Hc (t & Hi & Hs)%bind_Some. simplify_eq.
  pose proof (filter_delete _ _ _ Hi) as Hd. apply (f_equal fst) in Hs; simpl in Hs; subst c'.
  destruct (guarded t) eqn:Ht.
  - apply resume_guarded; [done|]. unfold midway, guardedCalls; simpl.
    destruct (c_busy c); [split; [lia|done]|lia].
  - set (d := setCWork _ _ _ _).
    assert (exclusive d) as Hx by (unfold exclusive, guardedCalls, d; simpl; destruct (c_busy c); lia).
    destruct t; try discriminate Ht; destruct outcome as [e|r]; cbn [resume]; try exact Hx.
    destruct (_ || _); exact Hx.
Qed.

Lemma perform_exclusive st x c c' out :
  exclusive c → perform isLetterOrNumber st x c = Some (c', out) → exclusive c'.
Proof.
  intros Hc Hp. destruct x; cbn [perform] in Hp;
    [| | | | | | | |by eapply settle_exclusive| | | |];
    apply (inj Some), (f_equal fst) in Hp; simpl in Hp; subst c'; try exact Hc.
  - unfold prefill. destruct (asString _); [|done]. by destruct (jeqb _ _).
  - unfold submit. destruct (jeqb _ _); [done|]. destruct (_ || c_busy c) eqn:Hb; [done|].
    apply orb_false_elim in Hb as [_ Hb]. by apply send_exclusive.
  - unfold drainQueue. destruct (_ || c_busy c) eqn:Hb; [done|]. apply orb_false_elim in Hb as [_ Hb].
    destruct (c_queue c); [done|]. by apply send_exclusive.
  - unfold cancelLatest. destruct (last _), (c_session c); try done. by apply await_unguarded.
  - unfold steerLatest. destruct (last _), (c_session c); try done.
    destruct (_ || c_busy c) eqn:Hb; [done|]. apply orb_false_elim in Hb as [_ Hb].
    destruct (currentSteerTarget _ _); [|done]. apply await_exclusive; auto with chat.
  - unfold retryLatest. destruct (last _), (c_session c); try done.
    destruct (_ || c_busy c) eqn:Hb; [done|]. apply orb_false_elim in Hb as [_ Hb].
    apply await_exclusive; auto with chat.
  - unfold branchFrom. destruct (c_session c); [|done]. destruct (c_busy c) eqn:Hb; [done|].
    apply await_exclusive; auto with chat.
  - unfold sessionEffect. case_bool_decide; [done|]. cbv zeta.
    destruct (c_session _); [|done]. by apply await_unguarded.
Qed.

(** [C13] One guarded operation at a time in the web chat: over any run of the component
    (typing, submitting, queueing, cancelling, steering, retrying, branching, changing
    the session, answers and failures in any order) exactly one operation other than a
    cancellation or a resumption awaits an answer while the composer is busy, and none
    when it is not: every continuation, failing or not, gives the composer back. *)
Theorem composer_is_busy_exactly_while_it_awaits (path : jstr) (m : Mode) (c : Chat) (out : list output) :
  chat_runs isLetterOrNumber path m c out → guardedCalls c = if c_busy c then 1 else 0.
Proof. induction 1 as [|st c out x c' out' _ IH Hp]; [done|]. by eapply perform_exclusive. Qed.

(** The notice of a fork is never read: when a fork is answered the notice says that
    the conversation was forked, but the session has changed, so the session effect that
    follows clears it (and asks for the messages of the new session). *)
Theorem fork_notice_is_cleared (fresh now : jstr) (i : nat) (m : Mode) (path id : jstr)
    (r : ResponseEnvelope) (c c' : Chat) (out : list output) :
  c_inflight c !! i = Some (WBranch None m path) → resultID r = Some id →
  c_effectSession c ≠ Some id →
  settle isLetterOrNumber fresh now i (inr r) c = Some (c', out) →
  c_notice c' = Some (js "Forked into a new conversation.") ∧ c_session c' = Some id ∧
  c_notice (sessionEffect c').1 = None ∧
  (sessionEffect c').2 = [Send (request "session.resume" (JObj []) (Some id))].
Proof.
  intros Hi Hr Hs Hset. unfold settle in Hset. rewrite Hi in Hset. cbn [mbind option_bind resume] in Hset.
  rewrite Hr in Hset. simplify_eq. split; [done|]. split; [done|]. unfold sessionEffect.
  rewrite bool_decide_false; [done|]. cbn. congruence.
Qed.
End Exclusion.

(** ** Witnesses *)

Definition delta (id turn : string) (content : string) : EventEnvelope := {|
  ev_sequence := 1; ev_event_id := uuid id; ev_type := js "turn.delta"; ev_occurred_at := js "t";
  ev_correlation := correlate (Some (uuid turn)) None;
  ev_payload := JObj [(js "content", JStr (js content))] |}.

Definition replacement (id turn : string) (content : string) : EventEnvelope := {|
  ev_sequence := 1; ev_event_id := uuid id; ev_type := js "turn.delta"; ev_occurred_at := js "t";
  ev_correlation := correlate (Some (uuid turn)) None;
  ev_payload := JObj [(js "content", JStr (js content)); (js "replace", JBool true)] |}.

Definition deltas : list EventEnvelope :=
  [delta "1" "7" "draft"; delta "2" "8" "other"; replacement "3" "7" "Hel"; delta "4" "7" "lo"].


Definition webResponse (result : json) : ResponseEnvelope :=
  {| resp_request_id := uuid "1"; resp_revision := 0; resp_result := Some result; resp_error := None |}.

Section WebRuns.
Variable isLetterOrNumber : N → bool.

Fixpoint chat_play (xs : list chat_input) (c : Chat) (out : list output) : option (Chat * list output) :=
  match xs with
  | [] => Some (c, out)
  | x :: xs => r ← @perform test_platform isLetterOrNumber emptyOperatorState x c;
               chat_play xs r.1 (out ++ r.2)
  end.

Lemma chat_play_runs path m xs c out c' out' :
  @chat_runs test_platform isLetterOrNumber path m c out → chat_play xs c out = Some (c', out') →
  @chat_runs test_platform isLetterOrNumber path m c' out'.
Proof.
  revert c out; induction xs as [|x xs IH]; intros c out Hr Hp; cbn [chat_play] in Hp; [by simplify_eq|].
  apply bind_Some in Hp as ([c1 o1] & Hx & Hp). eapply IH; [|exact Hp]. eapply chat_step; [exact Hr|exact Hx].
Qed.
End WebRuns.

Definition is_ascii_letter (c : N) : bool := ((97 <=? c) && (c <=? 122))%N.

Definition web_session : list chat_input :=
  [Typed (js "hello"); SubmitPressed;
   Settled (uuid "9") (js "t") 0 (inr (webResponse (JObj [(js "id", JStr (uuid "5"))])));
   SessionEffect; Typed (js "again"); SubmitPressed].

Definition web_end : Chat * list output :=
  default (newChat (js "/") full, []) (chat_play is_ascii_letter web_session (newChat (js "/") full) []).

Lemma composer_is_busy_exactly_while_it_awaits_witness :
  guardedCalls web_end.1 = 1 ∧ length (c_queue web_end.1) = 1.
Proof.
  split; [|vm_compute; reflexivity].
  rewrite (@composer_is_busy_exactly_while_it_awaits test_platform is_ascii_letter (js "/") full web_end.1 web_end.2).
  - vm_compute. reflexivity.
  - eapply chat_play_runs with (xs := web_session); [apply chat_start|]. vm_compute. reflexivity.
Defined.

Definition forking : Chat :=
  setCWork true None [WBranch None full (js "/")] (setCEffect (Some (uuid "5")) 1 (newChat (js "/") full)).
Definition forked : Chat * list output :=
  default (forking, []) (@settle test_platform is_ascii_letter (uuid "9") (js "t") 0
    (inr (webResponse (JObj [(js "id", JStr (uuid "6"))]))) forking).

Lemma fork_notice_is_cleared_witness :
  c_notice forked.1 = Some (js "Forked into a new conversation.") ∧
  c_notice (sessionEffect forked.1).1 = None.
Proof.
  destruct (@fork_notice_is_cleared test_platform is_ascii_letter (uuid "9") (js "t") 0 full (js "/") (uuid "6")
              (webResponse (JObj [(js "id", JStr (uuid "6"))])) forking forked.1 forked.2) as (H1 & _ & H2 & _).
  - reflexivity.
  - vm_compute. reflexivity.
  - vm_compute. discriminate.
  - vm_compute. reflexivity.
  - split; [exact H1|exact H2].
Defined.
