(* ===== verification/Async.v ===== *)
(** * Asynchronous handlers

    The handlers of the web components are asynchronous functions: they update the state
    of their component, await requests, and go on with the answer.  [proc S A] is such a
    function over a component with state [S], as a tree of its steps; the continuation of
    an await holds what the closure captured.  [World] is a component with the calls it
    awaits, [step] one input or one settled call, and the last sections prove, once for
    every component, that an invariant of the steps is one of the runs, that a flag set
    before an await and cleared at the end excludes a second guarded call, that handlers
    keep an invariant of the tokens they own while they wait, which input a value of the
    state comes from, and which effects only an input has. *)
From stdpp Require Import base list strings.
From Stdlib Require Import ZArith NArith.
From S2P Require Import Prelude JsString JsValue Regex Catalog Protocol Display Envelope Events.
From S2P Require Import LocalClient Client TuiFormat TuiApp.

(** ** Calls and effects *)

(** A settled [fetch]: its status, and its body when it is JSON. *)
Record HttpResponse : Type := { hr_status : Z; hr_json : option json }.

(** [response.ok]. *)
Definition hr_ok (r : HttpResponse) : bool := ((200 <=? hr_status r) && (hr_status r <=? 299))%Z.

(** A file chosen in a file input; its contents stay in the browser. *)
Record File : Type := { fl_name : jstr; fl_type : jstr; fl_size : N }.

(** What can be awaited: a control-plane request, a [fetch], queries that are fetched
    again, a file read as a data URL, the service workers and caches of the page, and two
    calls at once ([Promise.all], which rejects as soon as one of them does). *)
Inductive call : Type :=
  | Rpc (r : Request)
  | Fetch (r : HttpRequest)
  | Refetch (keys : list string)
  | ReadDataURL (f : File)
  | ServiceWorkers
  | Unregister (scopes : list jstr)
  | CacheKeys
  | CacheDelete (names : list jstr)
  | Both (a b : call).

Fixpoint answer (c : call) : Type :=
  match c with
  | Rpc _ => ResponseEnvelope
  | Fetch _ => HttpResponse
  | Refetch _ => unit
  | ReadDataURL _ => jstr
  | ServiceWorkers => list jstr
  | Unregister _ => unit
  | CacheKeys => list jstr
  | CacheDelete _ => unit
  | Both a b => answer a * answer b
  end.

(** What a handler does outside its component. *)
Inductive Effect : Type :=
  | Issued (c : call)
  | Navigate (path : jstr)
  | Assign (url : jstr)
  | Reload
  | Escaped (e : Error).

(** [response.error?.message ?? fallback]. *)
Definition errorText (fallback : string) (r : ResponseEnvelope) : jstr :=
  match resp_error r with Some e => err_message e | None => js fallback end.

(** ** Handlers *)

Inductive proc {S A : Type} : Type :=
  | Ret (a : A)
  | Raise (e : Error)
  | Update (f : S → S) (k : proc)
  | Read (k : S → proc)
  | Do (e : Effect) (k : proc)
  | Await (c : call) (k : Error + answer c → proc).
Arguments proc : clear implicits.

#[export] Instance proc_ret {S} : MRet (proc S) := λ A, Ret.
#[export] Instance proc_bind {S} : MBind (proc S) := λ A B f,
  fix bind (p : proc S A) : proc S B :=
    match p with
    | Ret a => f a
    | Raise e => Raise e
    | Update g k => Update g (bind k)
    | Read k => Read (λ s, bind (k s))
    | Do e k => Do e (bind k)
    | Await c k => Await c (λ o, bind (k o))
    end.

Section Handlers.
Context {S : Type}.

Definition setState (f : S → S) : proc S unit := Update f (Ret ()).
Definition readState : proc S S := Read Ret.
Definition emit (e : Effect) : proc S unit := Do e (Ret ()).
Definition throw {A} (e : Error) : proc S A := Raise e.
Definition skip : proc S unit := Ret ().

(** A rejected call is an exception at its await. *)
Definition await {A} (c : call) (k : answer c → proc S A) : proc S A :=
  Await c (λ o, match o with inl e => Raise e | inr a => k a end).

Definition rpc (kind : RequestKind) (operation : string) (payload : json) (session : option jstr)
    : proc S ResponseEnvelope :=
  await (Rpc {| rq_kind := kind; rq_operation := js operation; rq_payload := payload;
                rq_session := JStr <$> session |}) Ret.
Definition fetch (r : HttpRequest) : proc S HttpResponse := await (Fetch r) Ret.

(** Fetching queries again never rejects: the query keeps its own error. *)
Definition refetch (keys : list string) : proc S unit := Await (Refetch keys) (λ _, Ret ()).

Fixpoint try_catch {A} (p : proc S A) (h : Error → proc S A) : proc S A :=
  match p with
  | Ret a => Ret a
  | Raise e => h e
  | Update f k => Update f (try_catch k h)
  | Read k => Read (λ s, try_catch (k s) h)
  | Do e k => Do e (try_catch k h)
  | Await c k => Await c (λ o, try_catch (k o) h)
  end.

Fixpoint try_finally {A} (p : proc S A) (f : S → S) : proc S A :=
  match p with
  | Ret a => Update f (Ret a)
  | Raise e => Update f (Raise e)
  | Update g k => Update g (try_finally k f)
  | Read k => Read (λ s, try_finally (k s) f)
  | Do e k => Do e (try_finally k f)
  | Await c k => Await c (λ o, try_finally (k o) f)
  end.

(** [response.json()], which rejects when the body is not JSON. *)
Definition bodyJSON (r : HttpResponse) : proc S json :=
  match hr_json r with Some v => Ret v | None => Raise (mkError (js "Unexpected token in JSON")) end.

(** ** Running *)

Record waiter : Type := Waiter { w_call : call; w_cont : Error + answer w_call → proc S unit }.

(** A handler up to its first await; an exception nobody catches escapes. *)
Fixpoint run (p : proc S unit) (s : S) : S * list Effect * option waiter :=
  match p with
  | Ret _ => (s, [], None)
  | Raise e => (s, [Escaped e], None)
  | Update f k => run k (f s)
  | Read k => run (k s) s
  | Do e k => let '(s', es, w) := run k s in (s', e :: es, w)
  | Await c k => (s, [Issued c], Some (Waiter c k))
  end.

Record World : Type := { here : S; waiting : list waiter }.

Definition advance (p : proc S unit) (ws : list waiter) (s : S) : World * list Effect :=
  let '(s', es, w) := run p s in
  ({| here := s'; waiting := ws ++ option_list w |}, es).

Lemma advance_run p ws s s' es w :
  run p s = (s', es, w) → advance p ws s = ({| here := s'; waiting := ws ++ option_list w |}, es).
Proof. unfold advance. by intros ->. Qed.

(** How the surroundings answer a call. *)
Definition oracle : Type := ∀ c : call, Error + answer c.

Definition settle (i : nat) (o : oracle) (w : World) : option (World * list Effect) :=
  t ← waiting w !! i;
  Some (advance (w_cont t (o (w_call t))) (delete i (waiting w)) (here w)).

(** ** Components *)

Context {X : Type}.
(** What an input does, from the state of the last render. *)
Variable handler : S → X → proc S unit.

Inductive input : Type :=
  | Act (x : X)
  | Settled (i : nat) (o : oracle).

Definition perform (x : input) (w : World) : option (World * list Effect) :=
  match x with
  | Act x => Some (advance (handler (here w) x) (waiting w) (here w))
  | Settled i o => settle i o w
  end.

(** The inputs of a run, the world it reaches and its effects. *)
Inductive runs (s0 : S) : list input → World → list Effect → Prop :=
  | runs_start : runs s0 [] {| here := s0; waiting := [] |} []
  | runs_step xs w out x w' out' :
      runs s0 xs w out → perform x w = Some (w', out') → runs s0 (xs ++ [x]) w' (out ++ out').

Fixpoint play (xs : list input) (w : World) (out : list Effect) : option (World * list Effect) :=
  match xs with
  | [] => Some (w, out)
  | x :: xs => r ← perform x w; play xs r.1 (out ++ r.2)
  end.

Lemma play_reaches_from s0 xs0 xs w out w' out' :
  runs s0 xs0 w out → play xs w out = Some (w', out') → runs s0 (xs0 ++ xs) w' out'.
Proof.
  revert xs0 w out; induction xs as [|x xs IH]; intros xs0 w out Hr Hp; cbn [play] in Hp.
  { simplify_eq. by rewrite app_nil_r. }
  apply bind_Some in Hp as ([w1 o1] & Hx & Hp). change (x :: xs) with ([x] ++ xs). rewrite app_assoc.
  eapply IH; [|exact Hp]. eapply runs_step; [exact Hr|exact Hx].
Qed.

Definition at_start (s0 : S) : World := {| here := s0; waiting := [] |}.

Lemma play_reaches s0 xs w' out' :
  play xs (at_start s0) [] = Some (w', out') → runs s0 xs w' out'.
Proof. apply (play_reaches_from s0 []), runs_start. Qed.

(** The first step of a replay, from the run of its handler. *)
Lemma play_act y xs w out s' es t :
  run (handler (here w) y) (here w) = (s', es, t) →
  play (Act y :: xs) w out = play xs {| here := s'; waiting := waiting w ++ option_list t |} (out ++ es).
Proof. intros Hr. cbn [play perform]. by rewrite (advance_run _ _ _ _ _ _ Hr). Qed.

Lemma play_settled o xs t ws s out s' es t' :
  run (w_cont t (o (w_call t))) s = (s', es, t') →
  play (Settled 0 o :: xs) {| here := s; waiting := t :: ws |} out =
  play xs {| here := s'; waiting := ws ++ option_list t' |} (out ++ es).
Proof.
  intros Hr. cbn [play perform]. unfold settle. cbn [waiting here]. change ((t :: ws) !! 0) with (Some t).
  cbn [mbind option_bind]. change (delete 0 (t :: ws)) with ws. by rewrite (advance_run _ _ _ _ _ _ Hr).
Qed.

(** ** Invariants *)

Section Safe.
Variable I : S → Prop.
Variable Q : Effect → Prop.
(** What the inputs and the answers of a run are assumed to be. *)
Variable P : X → Prop.
Variable R : ∀ c : call, Error + answer c → Prop.

(** Every update of the handler keeps [I] and every effect of it satisfies [Q], whatever
    the calls are answered within [R]. *)
Fixpoint safe {A} (p : proc S A) : Prop :=
  match p with
  | Ret _ => True
  | Raise e => Q (Escaped e)
  | Update f k => (∀ s, I s → I (f s)) ∧ safe k
  | Read k => ∀ s, I s → safe (k s)
  | Do e k => Q e ∧ safe k
  | Await c k => Q (Issued c) ∧ ∀ o, R c o → safe (k o)
  end.

Lemma safe_bind {A B} (p : proc S A) (f : A → proc S B) :
  safe p → (∀ a, safe (f a)) → safe (p ≫= f).
Proof.
  intros Hp Hf. induction p as [a|e|g k IH|k IH|e k IH|c k IH]; cbn [mbind proc_bind safe] in *.
  - apply Hf.
  - exact Hp.
  - destruct Hp as [Hg Hk]. split; [exact Hg|by apply IH].
  - intros s Hs. by apply IH, Hp.
  - destruct Hp as [He Hk]. split; [exact He|by apply IH].
  - destruct Hp as [Hc Hk]. split; [exact Hc|]. intros o Ho. by apply IH, Hk.
Qed.

Lemma safe_try_catch {A} (p : proc S A) (h : Error → proc S A) :
  safe p → (∀ e, safe (h e)) → safe (try_catch p h).
Proof.
  intros Hp Hh. induction p as [a|e|g k IH|k IH|e k IH|c k IH]; cbn [try_catch safe] in *.
  - done.
  - apply Hh.
  - destruct Hp. split; [done|by apply IH].
  - intros s Hs. by apply IH, Hp.
  - destruct Hp. split; [done|by apply IH].
  - destruct Hp as [Hc Hk]. split; [done|]. intros o Ho. by apply IH, Hk.
Qed.

Lemma safe_try_finally {A} (p : proc S A) (f : S → S) :
  (∀ s, I s → I (f s)) → safe p → safe (try_finally p f).
Proof.
  intros Hf Hp. induction p as [a|e|g k IH|k IH|e k IH|c k IH]; cbn [try_finally safe] in *.
  - done.
  - done.
  - destruct Hp. split; [done|by apply IH].
  - intros s Hs. by apply IH, Hp.
  - destruct Hp. split; [done|by apply IH].
  - destruct Hp as [Hc Hk]. split; [done|]. intros o Ho. by apply IH, Hk.
Qed.

(** The handler, run from [s], has only such effects and leaves [I] true whenever it waits
    or ends. *)
Fixpoint keeps {A} (p : proc S A) (s : S) : Prop :=
  match p with
  | Ret _ => I s
  | Raise e => I s ∧ Q (Escaped e)
  | Update f k => keeps k (f s)
  | Read k => keeps (k s) s
  | Do e k => Q e ∧ keeps k s
  | Await c k => I s ∧ Q (Issued c) ∧ ∀ o s', R c o → I s' → keeps (k o) s'
  end.

Lemma safe_keeps {A} (p : proc S A) s : safe p → I s → keeps p s.
Proof.
  revert s. induction p as [a|e|g k IH|k IH|e k IH|c k IH]; intros s Hp Hs; cbn [safe keeps] in *.
  - done.
  - done.
  - destruct Hp as [Hg Hk]. by apply IH, Hg.
  - by apply IH; [apply Hp|].
  - destruct Hp as [He Hk]. split; [done|by apply IH].
  - destruct Hp as [Hc Hk]. split_and!; [done|done|]. intros o s' Ho Hs'. by apply IH; [apply Hk|].
Qed.

Definition waiter_keeps (t : waiter) : Prop := ∀ o s, R (w_call t) o → I s → keeps (w_cont t o) s.

Lemma run_keeps p s :
  keeps p s →
  I (run p s).1.1 ∧ Forall Q (run p s).1.2 ∧ from_option waiter_keeps True (run p s).2.
Proof.
  revert s. induction p as [a|e|g k IH|k IH|e k IH|c k IH]; intros s Hp; cbn [run keeps] in *.
  - split_and!; [done|constructor|done].
  - destruct Hp. split_and!; [done|by apply Forall_singleton|done].
  - by apply IH.
  - by apply IH.
  - destruct Hp as [He Hk]. destruct (IH s Hk) as (H1 & H2 & H3).
    destruct (run k s) as [[s' es] w]. split_and!; [done|by constructor|done].
  - destruct Hp as (Hs & Hc & Hk). split_and!; [done|by apply Forall_singleton|done].
Qed.

Definition world_keeps (w : World) : Prop := I (here w) ∧ Forall waiter_keeps (waiting w).

Lemma advance_keeps p ws s :
  keeps p s → Forall waiter_keeps ws → world_keeps (advance p ws s).1 ∧ Forall Q (advance p ws s).2.
Proof.
  intros Hp Hw. unfold advance. destruct (run_keeps p s Hp) as (H1 & H2 & H3).
  destruct (run p s) as [[s' es] w]. split; [|done]. split; [done|]. cbn [waiting].
  apply Forall_app. split; [done|]. destruct w; [by apply Forall_singleton|constructor].
Qed.

Definition allowed (x : input) : Prop :=
  match x with Act y => P y | Settled _ o => ∀ c, R c (o c) end.

Lemma perform_keeps x w w' out :
  (∀ s y, P y → I s → keeps (handler s y) s) → allowed x → world_keeps w → perform x w = Some (w', out) →
  world_keeps w' ∧ Forall Q out.
Proof.
  intros Hh Hx [Hs Hw] Hp. destruct x as [y|i o]; cbn [perform] in Hp.
  - apply (inj Some) in Hp. pose proof (advance_keeps (handler (here w) y) (waiting w) (here w)) as Ha.
    rewrite Hp in Ha. apply Ha; auto.
  - unfold settle in Hp. apply bind_Some in Hp as (t & Ht & Hp). apply (inj Some) in Hp.
    pose proof (advance_keeps (w_cont t (o (w_call t))) (delete i (waiting w)) (here w)) as Ha.
    rewrite Hp in Ha. apply Ha; [|by apply Forall_delete].
    by apply (proj1 (Forall_lookup _ _) Hw i t Ht).
Qed.

(** An invariant that every handler keeps holds in every reachable world, and every effect
    of every run satisfies what the handlers promise of theirs. *)
Lemma runs_keeps s0 xs w out :
  (∀ s y, P y → I s → keeps (handler s y) s) → I s0 → runs s0 xs w out → Forall allowed xs →
  world_keeps w ∧ Forall Q out.
Proof.
  intros Hh H0. induction 1 as [|xs w out x w' out' _ IH Hp]; intros Hxs; [by repeat constructor|].
  apply Forall_app in Hxs as [Hxs Hx]. apply Forall_cons in Hx as [Hx _]. destruct (IH Hxs) as [IHw IHo].
  destruct (perform_keeps x w w' out' Hh Hx IHw Hp). split; [done|]. by apply Forall_app.
Qed.

Lemma runs_safe s0 xs w out :
  (∀ s y, P y → I s → safe (handler s y)) → I s0 → runs s0 xs w out → Forall allowed xs →
  world_keeps w ∧ Forall Q out.
Proof. intros Hh. apply runs_keeps. intros s y Hy Hs. by apply safe_keeps; [apply Hh|]. Qed.
End Safe.

(** No assumption on the answers. *)
Definition anyAnswer (c : call) (o : Error + answer c) : Prop := True.

(** ** Blindness to a part of the state *)

Section Blind.
(** [er] forgets the part, [redact] the inputs that set it. *)
Variable er : S → S.
Variable redact : X → X.
Variable P : X → Prop.

(** The handler's steps depend on the rest of the state only. *)
Fixpoint blind {A} (p : proc S A) : Prop :=
  match p with
  | Ret _ | Raise _ => True
  | Update f k => (∀ s s', er s = er s' → er (f s) = er (f s')) ∧ blind k
  | Read k => (∀ s s', er s = er s' → k s = k s') ∧ ∀ s, blind (k s)
  | Do _ k => blind k
  | Await _ k => ∀ o, blind (k o)
  end.

Definition waiter_blind (t : waiter) : Prop := ∀ o, blind (w_cont t o).

Definition sameRun (r r' : S * list Effect * option waiter) : Prop :=
  er r.1.1 = er r'.1.1 ∧ r.1.2 = r'.1.2 ∧ r.2 = r'.2 ∧ from_option waiter_blind True r.2.

Lemma run_blind p s s' : blind p → er s = er s' → sameRun (run p s) (run p s').
Proof.
  revert s s'. induction p as [a|e|g k IH|k IH|e k IH|c k IH]; intros s s' Hp Hs; cbn [run blind] in *.
  - done.
  - done.
  - destruct Hp as [Hg Hk]. apply IH; auto.
  - destruct Hp as [He Hk]. rewrite (He s s' Hs). apply IH; auto.
  - pose proof (IH s s' Hp Hs) as (H1 & H2 & H3 & H4).
    destruct (run k s) as [[? ?] ?], (run k s') as [[? ?] ?]. cbn in *. split_and!; by simplify_eq/=.
  - done.
Qed.

Definition alike (w w' : World) : Prop :=
  er (here w) = er (here w') ∧ waiting w = waiting w' ∧ Forall waiter_blind (waiting w).

Lemma advance_blind p p' s s' ws :
  sameRun (run p s) (run p' s') → Forall waiter_blind ws →
  alike (advance p ws s).1 (advance p' ws s').1 ∧ (advance p ws s).2 = (advance p' ws s').2.
Proof.
  unfold advance, alike. destruct (run p s) as [[s1 e1] o1], (run p' s') as [[s2 e2] o2].
  intros (H1 & H2 & H3 & H4) Hw. cbn in *. simplify_eq. split_and!; try done.
  apply Forall_app. split; [done|]. destruct o2; [by apply Forall_cons|constructor].
Qed.

Definition redactInput (x : input) : input := match x with Act y => Act (redact y) | Settled i o => Settled i o end.

Hypothesis handler_blind : ∀ s s' y,
  P y → er s = er s' → sameRun (run (handler s y) s) (run (handler s' (redact y)) s').

Lemma perform_blind x w w' w1 out :
  allowed P anyAnswer x → alike w w' → perform x w = Some (w1, out) →
  ∃ w1', perform (redactInput x) w' = Some (w1', out) ∧ alike w1 w1'.
Proof.
  intros Hx (Hs & Hw & Hb) Hp. destruct x as [y|i o]; cbn [perform redactInput] in *.
  - apply (inj Some) in Hp. rewrite <- Hw.
    pose proof (advance_blind _ _ _ _ _ (handler_blind _ _ y Hx Hs) Hb) as [Ha Ho]. rewrite Hp in Ha, Ho.
    destruct (advance (handler (here w') (redact y)) (waiting w) (here w')) as [w1' out'].
    cbn in *. subst out'. by exists w1'.
  - unfold settle in *. rewrite <- Hw. apply bind_Some in Hp as (t & Ht & Hp). apply (inj Some) in Hp.
    rewrite Ht. cbn [mbind option_bind].
    pose proof (proj1 (Forall_lookup _ _) Hb i t Ht (o (w_call t))) as Hc.
    pose proof (advance_blind _ _ _ _ (delete i (waiting w)) (run_blind _ _ _ Hc Hs) (Forall_delete _ _ _ Hb)) as [Ha Ho].
    rewrite Hp in Ha, Ho.
    destruct (advance (w_cont t (o (w_call t))) (delete i (waiting w)) (here w')) as [w1' out'].
    cbn in *. subst out'. by exists w1'.
Qed.

(** A run whose inputs are redacted has the same effects, the same pending calls and, but
    for the forgotten part, the same state. *)
Lemma runs_blind s0 xs w out :
  runs s0 xs w out → Forall (allowed P anyAnswer) xs →
  ∃ w', runs s0 (redactInput <$> xs) w' out ∧ alike w w'.
Proof.
  induction 1 as [|xs w out x w1 out1 _ IH Hp]; intros Hxs.
  { exists (at_start s0). split; [apply runs_start|by repeat constructor]. }
  apply Forall_app in Hxs as [Hxs Hx]. apply Forall_cons in Hx as [Hx _].
  destruct (IH Hxs) as (w' & Hr & Ha). destruct (perform_blind _ _ _ _ _ Hx Ha Hp) as (w1' & Hp' & Ha').
  exists w1'. split; [|done]. rewrite fmap_app. by eapply runs_step.
Qed.
End Blind.

(** ** Exclusion by a flag *)

Section Lock.
Variable busy : S → bool.
Variable guarded : call → bool.

(** The handler runs from [s] with the flag set up to each guarded await, keeps it while
    it waits, and ends with the flag cleared. *)
Fixpoint holds {A} (p : proc S A) (s : S) : Prop :=
  match p with
  | Ret _ | Raise _ => busy s = false
  | Update f k => holds k (f s)
  | Read k => holds (k s) s
  | Do _ k => holds k s
  | Await c k => busy s = true ∧ guarded c = true ∧ ∀ o s', busy s' = true → holds (k o) s'
  end.

(** The handler leaves the flag alone and makes no guarded call. *)
Fixpoint neutral {A} (p : proc S A) : Prop :=
  match p with
  | Ret _ | Raise _ => True
  | Update f k => (∀ s, busy (f s) = busy s) ∧ neutral k
  | Read k => ∀ s, neutral (k s)
  | Do _ k => neutral k
  | Await c k => guarded c = false ∧ ∀ o, neutral (k o)
  end.

Lemma neutral_bind {A B} (p : proc S A) (f : A → proc S B) :
  neutral p → (∀ a, neutral (f a)) → neutral (p ≫= f).
Proof.
  intros Hp Hf. induction p as [a|e|g k IH|k IH|e k IH|c k IH]; cbn [mbind proc_bind neutral] in *.
  - apply Hf.
  - done.
  - destruct Hp. split; [done|by apply IH].
  - intros s. by apply IH.
  - by apply IH.
  - destruct Hp as [Hc Hk]. split; [done|]. intros o. by apply IH.
Qed.

Lemma neutral_try_catch {A} (p : proc S A) (h : Error → proc S A) :
  neutral p → (∀ e, neutral (h e)) → neutral (try_catch p h).
Proof.
  intros Hp Hh. induction p as [a|e|g k IH|k IH|e k IH|c k IH]; cbn [try_catch neutral] in *.
  - done.
  - apply Hh.
  - destruct Hp. split; [done|by apply IH].
  - intros s. by apply IH.
  - by apply IH.
  - destruct Hp as [Hc Hk]. split; [done|]. intros o. by apply IH.
Qed.

Definition guardedWaits (ws : list waiter) : nat := length (List.filter (λ t, guarded (w_call t)) ws).

Definition waiter_ok (t : waiter) : Prop :=
  if guarded (w_call t) then ∀ o s, busy s = true → holds (w_cont t o) s
  else ∀ o, neutral (w_cont t o).

Definition exclusive (w : World) : Prop :=
  guardedWaits (waiting w) = (if busy (here w) then 1 else 0) ∧ Forall waiter_ok (waiting w).

Lemma guardedWaits_app l1 l2 : guardedWaits (l1 ++ l2) = guardedWaits l1 + guardedWaits l2.
Proof. unfold guardedWaits. by rewrite List.filter_app, length_app. Qed.

Lemma guardedWaits_delete ws i t :
  ws !! i = Some t →
  guardedWaits ws = guardedWaits (delete i ws) + (if guarded (w_call t) then 1 else 0).
Proof.
  unfold guardedWaits. revert i; induction ws as [|x ws IH]; intros [|i] Hi; simplify_eq/=.
  - destruct (guarded _); simpl; lia.
  - apply IH in Hi. destruct (guarded (w_call x)); simpl; lia.
Qed.

Lemma run_holds p s :
  holds p s →
  from_option (λ t, guarded (w_call t) = true ∧ waiter_ok t) True (run p s).2 ∧
  busy (run p s).1.1 = bool_decide (is_Some (run p s).2).
Proof.
  revert s. induction p as [a|e|g k IH|k IH|e k IH|c k IH]; intros s Hp; cbn [run holds] in *.
  - done.
  - done.
  - by apply IH.
  - by apply IH.
  - specialize (IH s Hp). by destruct (run k s) as [[s' es] w].
  - destruct Hp as (Hb & Hg & Hk). cbn. split; [|by rewrite Hb]. split; [done|].
    unfold waiter_ok. cbn [w_call]. rewrite Hg. exact Hk.
Qed.

Lemma run_neutral p s :
  neutral p →
  from_option (λ t, guarded (w_call t) = false ∧ waiter_ok t) True (run p s).2 ∧ busy (run p s).1.1 = busy s.
Proof.
  revert s. induction p as [a|e|g k IH|k IH|e k IH|c k IH]; intros s Hp; cbn [run neutral] in *.
  - done.
  - done.
  - destruct Hp as [Hg Hk]. rewrite <- (Hg s). by apply IH.
  - by apply IH.
  - specialize (IH s Hp). by destruct (run k s) as [[s' es] w].
  - destruct Hp as [Hg Hk]. cbn. split; [|done]. split; [done|].
    unfold waiter_ok. cbn [w_call]. rewrite Hg. exact Hk.
Qed.

Lemma advance_holds p ws s :
  holds p s → guardedWaits ws = 0 → Forall waiter_ok ws → exclusive (advance p ws s).1.
Proof.
  intros Hp Hw Hok. unfold advance, exclusive. destruct (run_holds p s Hp) as [Ht Hb].
  destruct (run p s) as [[s' es] [t|]]; cbn [from_option fst snd here waiting option_list] in *.
  - rewrite guardedWaits_app, Hw, Hb. destruct Ht as [Hg Ht]. split.
    + unfold guardedWaits. simpl. by rewrite Hg.
    + apply Forall_app. split; [done|]. by apply Forall_singleton.
  - rewrite app_nil_r, Hw, Hb. by rewrite bool_decide_false by (intros [? ?]; done).
Qed.

Lemma advance_neutral p ws s :
  neutral p → guardedWaits ws = (if busy s then 1 else 0) → Forall waiter_ok ws →
  exclusive (advance p ws s).1.
Proof.
  intros Hp Hw Hok. unfold advance, exclusive. destruct (run_neutral p s Hp) as [Ht Hb].
  destruct (run p s) as [[s' es] [t|]]; cbn [from_option fst snd here waiting option_list] in *.
  - rewrite guardedWaits_app, Hw, Hb. destruct Ht as [Hg Ht]. split.
    + unfold guardedWaits. simpl. rewrite Hg. cbn [length]. lia.
    + apply Forall_app. split; [done|]. by apply Forall_singleton.
  - by rewrite app_nil_r, Hw, Hb.
Qed.

(** A handler of a component that guards its calls with the flag. *)
Definition disciplined (p : proc S unit) (s : S) : Prop := neutral p ∨ (busy s = false ∧ holds p s).

Lemma perform_exclusion x w w' out :
  (∀ s y, disciplined (handler s y) s) → exclusive w → perform x w = Some (w', out) → exclusive w'.
Proof.
  intros Hh [Hn Hok] Hp. destruct x as [y|i o]; cbn [perform] in Hp.
  - apply (inj Some), (f_equal fst) in Hp; cbn [fst] in Hp. subst w'.
    destruct (Hh (here w) y) as [Hp|[Hb Hp]]; [by apply advance_neutral|].
    apply advance_holds; [done|by rewrite Hn, Hb|done].
  - unfold settle in Hp. apply bind_Some in Hp as (t & Ht & Hp).
    apply (inj Some), (f_equal fst) in Hp; cbn [fst] in Hp. subst w'.
    pose proof (guardedWaits_delete _ _ _ Ht) as Hd. rewrite Hn in Hd.
    pose proof (proj1 (Forall_lookup _ _) Hok i t Ht) as Hto. unfold waiter_ok in Hto.
    destruct (guarded (w_call t)).
    + destruct (busy (here w)) eqn:Hb; [|lia].
      apply advance_holds; [by apply Hto|lia|by apply Forall_delete].
    + apply advance_neutral; [by apply Hto|lia|by apply Forall_delete].
Qed.

(** In every run of a disciplined component exactly one guarded call is awaited while the
    flag is set, and none while it is not. *)
Lemma runs_exclusive s0 xs w out :
  (∀ s y, disciplined (handler s y) s) → busy s0 = false → runs s0 xs w out → exclusive w.
Proof.
  intros Hh H0. induction 1 as [|xs w out x w' out' _ IH Hp]; [split; [cbn; by rewrite H0|constructor]|].
  by eapply perform_exclusion.
Qed.
End Lock.

(** ** Handlers that own a token while they wait *)

Section Owned.
Context {K : Type}.
(** The invariant of the state and of the tokens of the pending calls; [G]: the calls the
    owner of a token may await. *)
Variable inv : S → list K → Prop.
Variable G : K → call → Prop.
Hypothesis inv_permutation : ∀ s ks ks', ks ≡ₚ ks' → inv s ks → inv s ks'.

(** The handler, run from [s] while others hold [ks], waits only as the owner of [k] and
    gives it back at its end. *)
Fixpoint owns {A} (k : K) (p : proc S A) (s : S) (ks : list K) : Prop :=
  match p with
  | Ret _ | Raise _ => inv s ks
  | Update f p => owns k p (f s) ks
  | Read q => owns k (q s) s ks
  | Do _ p => owns k p s ks
  | Await c q => inv s (k :: ks) ∧ G k c ∧ ∀ o s' ks', inv s' (k :: ks') → owns k (q o) s' ks'
  end.

Definition waiter_owns (k : K) (t : waiter) : Prop :=
  G k (w_call t) ∧ ∀ o s ks, inv s (k :: ks) → owns k (w_cont t o) s ks.

Lemma run_owns k p s ks :
  owns k p s ks →
  match (run p s).2 with
  | None => inv (run p s).1.1 ks
  | Some t => inv (run p s).1.1 (k :: ks) ∧ waiter_owns k t
  end.
Proof.
  revert s. induction p as [a|e|g p IH|q IH|e p IH|c q IH]; intros s Hp; cbn [run owns] in *.
  - done.
  - done.
  - by apply IH.
  - by apply IH.
  - specialize (IH s Hp). by destruct (run p s) as [[s' es] w].
  - destruct Hp as (Hs & Hg & Hq). by split.
Qed.

Definition owned (w : World) : Prop := ∃ ks, Forall2 waiter_owns ks (waiting w) ∧ inv (here w) ks.

Lemma advance_owns k p ws ks s : owns k p s ks → Forall2 waiter_owns ks ws → owned (advance p ws s).1.
Proof.
  intros Hp Hw. unfold advance, owned. pose proof (run_owns k p s ks Hp) as Ho.
  destruct (run p s) as [[s' es] [t|]]; cbn [fst snd here waiting option_list] in *.
  - destruct Ho as [Hs Ht]. exists (ks ++ [k]). split; [by apply Forall2_app; [|constructor]|].
    eapply inv_permutation; [|exact Hs]. by rewrite Permutation_app_comm.
  - exists ks. by rewrite app_nil_r.
Qed.

Lemma Forall2_delete_both {A B} (P : A → B → Prop) l k i : Forall2 P l k → Forall2 P (delete i l) (delete i k).
Proof.
  intros H. revert i. induction H as [|x y l k Hxy H IH]; intros [|i]; cbn; [constructor|constructor|done|].
  constructor; [done|apply IH].
Qed.

Lemma perform_owned x w w' out :
  (∀ s y ks, inv s ks → ∃ k, owns k (handler s y) s ks) → owned w → perform x w = Some (w', out) → owned w'.
Proof.
  intros Hh (ks & Hks & Hs) Hp. destruct x as [y|i o]; cbn [perform] in Hp.
  - apply (inj Some), (f_equal fst) in Hp; cbn [fst] in Hp. subst w'.
    destruct (Hh (here w) y ks Hs) as [k Hk]. by eapply advance_owns.
  - unfold settle in Hp. apply bind_Some in Hp as (t & Ht & Hp).
    apply (inj Some), (f_equal fst) in Hp; cbn [fst] in Hp. subst w'.
    destruct (Forall2_lookup_r _ _ _ _ _ Hks Ht) as (k & Hk & _ & Hto).
    eapply advance_owns; [|by apply Forall2_delete_both]. apply Hto.
    eapply inv_permutation; [|exact Hs]. by apply delete_Permutation.
Qed.

(** The invariant holds in every reachable world, of the tokens of its pending calls. *)
Lemma runs_owned s0 xs w out :
  (∀ s y ks, inv s ks → ∃ k, owns k (handler s y) s ks) → inv s0 [] → runs s0 xs w out → owned w.
Proof.
  intros Hh H0. induction 1 as [|xs w out x w' out' _ IH Hp]; [|by eapply perform_owned].
  exists []. by split; [constructor|].
Qed.
End Owned.

(** ** Exclusion by a flag that is held over several awaits *)

Section Span.
Variable busy : S → bool.
Variable guarded : call → bool.

(** The handler waits only with the flag set. *)
Fixpoint spans {A} (p : proc S A) (s : S) : Prop :=
  match p with
  | Ret _ | Raise _ => True
  | Update f k => spans k (f s)
  | Read k => spans (k s) s
  | Do _ k => spans k s
  | Await c k => busy s = true ∧ ∀ o s', busy s' = true → spans (k o) s'
  end.

(** A body that leaves the flag alone, with what its [finally] does. *)
Lemma spans_try_finally {A} (p : proc S A) (f : S → S) s :
  neutral busy (λ _, false) p → busy s = true → spans (try_finally p f) s.
Proof.
  revert s. induction p as [a|e|g k IH|k IH|e k IH|c k IH]; intros s Hp Hs;
    cbn [try_finally neutral spans] in *.
  - done.
  - done.
  - destruct Hp as [Hg Hk]. apply IH; [done|]. by rewrite Hg.
  - by apply IH.
  - by apply IH.
  - destruct Hp as [_ Hk]. split; [done|]. intros o s' Hs'. by apply IH.
Qed.

(** The tokens say whether a pending call belongs to the holder of the flag. *)
Definition held (bs : list bool) : nat := length (List.filter id bs).
Definition oneHolder (s : S) (bs : list bool) : Prop := held bs ≤ if busy s then 1 else 0.
Definition outside (b : bool) (c : call) : Prop := b = false → guarded c = false.

Lemma held_cons b bs : held (b :: bs) = (if b then 1 else 0) + held bs.
Proof. unfold held. by destruct b. Qed.

Lemma oneHolder_permutation s bs bs' : bs ≡ₚ bs' → oneHolder s bs → oneHolder s bs'.
Proof.
  unfold oneHolder. intros Hp. enough (held bs = held bs') as -> by done. induction Hp as [|b l l' _ IH|b b' l|l1 l2 l3 _ IH1 _ IH2];
    rewrite ?held_cons; lia.
Qed.

Lemma neutral_owns {A} (p : proc S A) s bs :
  neutral busy guarded p → oneHolder s bs → owns oneHolder outside false p s bs.
Proof.
  unfold oneHolder. revert s bs. induction p as [a|e|g k IH|k IH|e k IH|c k IH]; intros s bs Hp Hs;
    cbn [neutral owns] in *.
  - done.
  - done.
  - destruct Hp as [Hg Hk]. apply IH; [done|]. by rewrite Hg.
  - by apply IH.
  - by apply IH.
  - destruct Hp as [Hg Hk]. split_and!; [done|by intros _|]. intros o s' bs' Hs'. by apply IH.
Qed.

Lemma spans_owns {A} (p : proc S A) s bs : spans p s → held bs = 0 → owns oneHolder outside true p s bs.
Proof.
  unfold oneHolder. revert s bs. induction p as [a|e|g k IH|k IH|e k IH|c k IH]; intros s bs Hp Hs;
    cbn [spans owns] in *.
  - rewrite Hs. lia.
  - rewrite Hs. lia.
  - by apply IH.
  - by apply IH.
  - by apply IH.
  - destruct Hp as [Hb Hk]. rewrite held_cons, Hs, Hb. split_and!; [lia|done|]. intros o s' bs' Hs'.
    rewrite held_cons in Hs'. destruct (busy s') eqn:Hb'; [|lia]. apply IH; [by apply Hk|lia].
Qed.

(** At most one guarded call is awaited, and only while the flag is set. *)
Lemma runs_spanning s0 xs w out :
  (∀ s y, neutral busy guarded (handler s y) ∨ (busy s = false ∧ spans (handler s y) s)) →
  busy s0 = false → runs s0 xs w out → guardedWaits guarded (waiting w) ≤ (if busy (here w) then 1 else 0).
Proof.
  intros Hh H0 Hr. destruct (runs_owned oneHolder outside oneHolder_permutation s0 xs w out) as (bs & Hbs & Hn);
    [|unfold oneHolder; cbn; lia|done|].
  { intros s y bs Hs. destruct (Hh s y) as [Hy|[Hb Hy]]; [exists false; by apply neutral_owns|].
    exists true. apply spans_owns; [done|]. unfold oneHolder in Hs. rewrite Hb in Hs. lia. }
  unfold oneHolder in Hn. etrans; [|exact Hn]. clear Hn. induction Hbs as [|b t bs ws [Ht _] _ IH]; [done|].
  rewrite held_cons. unfold guardedWaits in *. cbn [List.filter]. destruct b.
  - destruct (guarded (w_call t)); cbn [length]; lia.
  - by rewrite (Ht eq_refl).
Qed.
End Span.

(** ** Where a part of the state comes from *)

Section Origin.
Context {V : Type}.
Variable field : S → option V.

(** The handler sets the field to a value of [G] before it waits, and only keeps or clears
    it afterwards. *)
Fixpoint quiet {A} (G : V → Prop) (p : proc S A) : Prop :=
  match p with
  | Ret _ | Raise _ => True
  | Update f k => (∀ s v, field (f s) = Some v → field s = Some v ∨ G v) ∧ quiet G k
  | Read k => ∀ s, quiet G (k s)
  | Do _ k => quiet G k
  | Await c k => ∀ o, quiet (λ _, False) (k o)
  end.

Lemma quiet_mono {A} (G G' : V → Prop) (p : proc S A) : (∀ v, G v → G' v) → quiet G p → quiet G' p.
Proof.
  intros HG. induction p as [a|e|g k IH|k IH|e k IH|c k IH]; cbn [quiet]; try done; try by auto.
  intros [Hg Hk]. split; [|by apply IH]. intros s v Hv. destruct (Hg s v Hv); auto.
Qed.

Lemma quiet_bind {A B} (G : V → Prop) (p : proc S A) (f : A → proc S B) :
  quiet G p → (∀ a, quiet (λ _, False) (f a)) → quiet G (p ≫= f).
Proof.
  intros Hp Hf. revert G Hp. induction p as [a|e|g k IH|k IH|e k IH|c k IH]; intros G Hp;
    cbn [mbind proc_bind quiet] in *.
  - eapply quiet_mono; [|apply Hf]. done.
  - done.
  - destruct Hp. split; [done|by apply IH].
  - intros s. by apply IH.
  - by apply IH.
  - intros o. by apply IH.
Qed.

Lemma quiet_try_catch {A} (G : V → Prop) (p : proc S A) (h : Error → proc S A) :
  quiet G p → (∀ e, quiet (λ _, False) (h e)) → quiet G (try_catch p h).
Proof.
  intros Hp Hh. revert G Hp. induction p as [a|e|g k IH|k IH|e k IH|c k IH]; intros G Hp; cbn [try_catch quiet] in *.
  - done.
  - eapply quiet_mono; [|apply Hh]. done.
  - destruct Hp. split; [done|by apply IH].
  - intros s. by apply IH.
  - by apply IH.
  - intros o. by apply IH.
Qed.

Definition waiter_quiet (t : waiter) : Prop := ∀ o, quiet (λ _, False) (w_cont t o).

Lemma run_quiet G p s :
  quiet G p →
  (∀ v, field (run p s).1.1 = Some v → field s = Some v ∨ G v) ∧ from_option waiter_quiet True (run p s).2.
Proof.
  revert s. induction p as [a|e|g k IH|k IH|e k IH|c k IH]; intros s Hp; cbn [run quiet] in *.
  - split; [by left|done].
  - split; [by left|done].
  - destruct Hp as [Hg Hk]. destruct (IH (g s) Hk) as [H1 H2]. split; [|done]. intros v Hv.
    destruct (H1 v Hv) as [Hv'|]; [by apply Hg|by right].
  - by apply IH.
  - specialize (IH s Hp). by destruct (run k s) as [[s' es] w].
  - split; [by left|done].
Qed.

Lemma advance_quiet G p ws s :
  quiet G p → Forall waiter_quiet ws →
  (∀ v, field (here (advance p ws s).1) = Some v → field s = Some v ∨ G v) ∧
  Forall waiter_quiet (waiting (advance p ws s).1).
Proof.
  intros Hp Hw. unfold advance. destruct (run_quiet G p s Hp) as [H1 H2].
  destruct (run p s) as [[s' es] t]. split; [done|]. cbn [waiting]. apply Forall_app. split; [done|].
  destruct t; [by apply Forall_singleton|constructor].
Qed.

Variable G : S → X → V → Prop.

(** The value was set by an input of the run, in the state it met. *)
Definition originates (s0 : S) (xs : list input) (v : V) : Prop :=
  ∃ xs1 y xs2 w1 out1, xs = xs1 ++ Act y :: xs2 ∧ runs s0 xs1 w1 out1 ∧ G (here w1) y v.

Lemma originates_snoc s0 xs x v : originates s0 xs v → originates s0 (xs ++ [x]) v.
Proof.
  intros (xs1 & y & xs2 & w1 & out1 & -> & H1 & H2). exists xs1, y, (xs2 ++ [x]), w1, out1.
  by rewrite <- app_assoc.
Qed.

Lemma runs_origin s0 xs w out :
  (∀ s y, quiet (G s y) (handler s y)) → field s0 = None → runs s0 xs w out →
  (∀ v, field (here w) = Some v → originates s0 xs v) ∧ Forall waiter_quiet (waiting w).
Proof.
  intros Hh H0. induction 1 as [|xs w out x w' out' Hr [IHv IHw] Hp].
  { split; [|constructor]. cbn. intros v. by rewrite H0. }
  destruct x as [y|i o]; cbn [perform] in Hp.
  - apply (inj Some), (f_equal fst) in Hp; cbn [fst] in Hp. subst w'.
    destruct (advance_quiet (G (here w) y) _ _ (here w) (Hh (here w) y) IHw) as [Hv Hw].
    split; [|done]. intros v Hf. destruct (Hv v Hf) as [Hf'|Hg].
    + by apply originates_snoc, IHv.
    + by exists xs, y, [], w, out.
  - unfold settle in Hp. apply bind_Some in Hp as (t & Ht & Hp).
    apply (inj Some), (f_equal fst) in Hp; cbn [fst] in Hp. subst w'.
    pose proof (proj1 (Forall_lookup _ _) IHw i t Ht (o (w_call t))) as Hq.
    destruct (advance_quiet _ _ _ (here w) Hq (Forall_delete _ _ i IHw)) as [Hv Hw].
    split; [|done]. intros v Hf. destruct (Hv v Hf) as [Hf'|[]]. by apply originates_snoc, IHv.
Qed.
End Origin.

(** ** Effects after an await *)

Section Late.
Variable Q : Effect → Prop.

(** What the handler does once it has waited satisfies [Q]. *)
Fixpoint late {A} (p : proc S A) : Prop :=
  match p with
  | Ret _ | Raise _ => True
  | Update _ k => late k
  | Read k => ∀ s, late (k s)
  | Do _ k => late k
  | Await c k => ∀ o, safe (λ _, True) Q anyAnswer (k o)
  end.

Lemma safe_late {A} (p : proc S A) : safe (λ _, True) Q anyAnswer p → late p.
Proof.
  induction p as [a|e|g k IH|k IH|e k IH|c k IH]; cbn [safe late]; intros Hp.
  - done.
  - done.
  - destruct Hp as [_ Hp]. by apply IH.
  - intros s. by apply IH, Hp.
  - destruct Hp as [_ Hp]. by apply IH.
  - destruct Hp as [_ Hp]. intros o. by apply Hp.
Qed.

Lemma late_bind {A B} (p : proc S A) (f : A → proc S B) :
  late p → (∀ a, safe (λ _, True) Q anyAnswer (f a)) → late (p ≫= f).
Proof.
  intros Hp Hf. induction p as [a|e|g k IH|k IH|e k IH|c k IH]; cbn [mbind proc_bind late] in *.
  - by apply safe_late.
  - done.
  - by apply IH.
  - intros s. by apply IH.
  - by apply IH.
  - intros o. by apply safe_bind.
Qed.

Lemma late_try_catch {A} (p : proc S A) (h : Error → proc S A) :
  late p → (∀ e, safe (λ _, True) Q anyAnswer (h e)) → late (try_catch p h).
Proof.
  intros Hp Hh. induction p as [a|e|g k IH|k IH|e k IH|c k IH]; cbn [try_catch late] in *.
  - done.
  - by apply safe_late.
  - by apply IH.
  - intros s. by apply IH.
  - by apply IH.
  - intros o. by apply safe_try_catch.
Qed.

Lemma safe_effects (p : proc S unit) s : safe (λ _, True) Q anyAnswer p → Forall Q (run p s).1.2.
Proof. intros Hp. apply (run_keeps (λ _, True) Q anyAnswer). by apply safe_keeps. Qed.

Definition waiter_late (t : waiter) : Prop := ∀ o, safe (λ _, True) Q anyAnswer (w_cont t o).

Lemma run_late p s : late p → from_option waiter_late True (run p s).2.
Proof.
  revert s. induction p as [a|e|g k IH|k IH|e k IH|c k IH]; intros s Hp; cbn [run late] in *; try done; try by apply IH.
  specialize (IH s Hp). by destruct (run k s) as [[s' es] w].
Qed.

Lemma advance_late p ws s : late p → Forall waiter_late ws → Forall waiter_late (waiting (advance p ws s).1).
Proof.
  intros Hp Hw. unfold advance. pose proof (run_late p s Hp) as H1.
  destruct (run p s) as [[s' es] t]. cbn [waiting fst snd] in *. apply Forall_app. split; [done|].
  destruct t; [by apply Forall_singleton|constructor].
Qed.

Lemma runs_late s0 xs w out : (∀ s y, late (handler s y)) → runs s0 xs w out → Forall waiter_late (waiting w).
Proof.
  intros Hh. induction 1 as [|xs w out x w' out' Hr IH Hp]; [constructor|].
  destruct x as [y|i o]; cbn [perform] in Hp.
  - apply (inj Some), (f_equal fst) in Hp; cbn [fst] in Hp. subst w'. by apply advance_late.
  - unfold settle in Hp. apply bind_Some in Hp as (t & Ht & Hp).
    apply (inj Some), (f_equal fst) in Hp; cbn [fst] in Hp. subst w'.
    apply advance_late; [|by apply Forall_delete]. apply safe_late, (proj1 (Forall_lookup _ _) IH i t Ht).
Qed.

(** An effect outside [Q] is one of an input, before it waits. *)
Lemma late_effect s0 xs w out x w' out' e :
  (∀ s y, late (handler s y)) → runs s0 xs w out → perform x w = Some (w', out') → e ∈ out' → ~ Q e →
  ∃ y, x = Act y ∧ e ∈ (run (handler (here w) y) (here w)).1.2.
Proof.
  intros Hh Hr Hp He HQ. destruct x as [y|i o]; cbn [perform] in Hp.
  - exists y. split; [done|]. apply (inj Some) in Hp. unfold advance in Hp.
    destruct (run _ _) as [[s' es] t]. by injection Hp as <- <-.
  - exfalso. unfold settle in Hp. apply bind_Some in Hp as (t & Ht & Hp). apply (inj Some) in Hp.
    pose proof (proj1 (Forall_lookup _ _) (runs_late s0 xs w out Hh Hr) i t Ht (o (w_call t))) as Hs.
    apply (safe_effects _ (here w)) in Hs. unfold advance in Hp.
    destruct (run _ _) as [[s' es] t']. injection Hp as <- <-. cbn in Hs. by apply HQ, (proj1 (Forall_forall _ _) Hs).
Qed.
End Late.
End Handlers.

Arguments waiter : clear implicits.
Arguments World : clear implicits.
Arguments input : clear implicits.
