(* ===== verification/Computer.v ===== *)
(** * The computer stage

    [ui/web/src/features/computer/ComputerStage.tsx]: which retained activity is on
    screen (agent workspaces, the followed or pinned event, the window of the timeline),
    what the stage says about it, and the operations on the shared browser: control
    leases, browser actions, supervised workflows and stored credentials.

    The queries of the component (agents, workflows, the control lease) are data that
    inputs load; [localeCompare] and the time format are parameters. *)
From stdpp Require Import base list strings.
From Stdlib Require Import ZArith NArith.
From S2P Require Import Prelude JsString JsValue JsArray Regex Catalog Protocol Display Envelope.
From S2P Require Import Events LocalClient Client Operator TuiFormat TuiApp Async.

(** ** Text *)

(** [\w] of an expression without flags. *)
Definition is_word (c : N) : bool :=
  (between 48 57 c || between 65 90 c || between 97 122 c || (c =? 95)%N).

(** [/\b\w/g] with an upper-cased match. *)
Definition wordStart : re := rcats [RBound is_word; RChr is_word].
Definition humanizeWords `{CaseTable} (value : jstr) : jstr :=
  replace_all wordStart toUpperCase (spaced value).

(** ** Data *)

Record AgentProjection : Type := {
  ag_id : jstr;
  ag_parent_id : option jstr;
  ag_depth : num;
  ag_state : jstr;
  ag_assignment : option jstr;
  ag_artifact_count : num;
}.

Inductive LeaseState : Type := LeaseAvailable | LeaseActive | LeaseReleased | LeaseExpired.
#[export] Instance LeaseState_eq_dec : EqDecision LeaseState.
Proof. solve_decision. Defined.

Inductive Authority : Type := ByExecutor | ByOperator.
#[export] Instance Authority_eq_dec : EqDecision Authority.
Proof. solve_decision. Defined.

(** The owner is handed back to the server as it came; its revision is read. *)
Record ControlLease : Type := {
  cl_lease_id : option jstr;
  cl_owner : json;
  cl_owner_revision : Z;
  cl_state : LeaseState;
  cl_authority : Authority;
  cl_revision : Z;
  cl_expires_at : option jstr;
  cl_reconciliation : jstr;
}.

Record BrowserSnapshot : Type := {
  bs_url : jstr;
  bs_title : jstr;
  bs_text : jstr;
  bs_elements : list json;
}.

Inductive WorkflowStatus : Type := WActive | WPaused | WWaiting | WCancelled | WRestart.
#[export] Instance WorkflowStatus_eq_dec : EqDecision WorkflowStatus.
Proof. solve_decision. Defined.

Record StageWorkflow : Type := {
  sw_id : jstr;
  sw_status : WorkflowStatus;
  sw_origin : jstr;
  sw_revision : num;
  sw_preview_title : jstr;
  sw_handoff : option (jstr * jstr);
  sw_reason : option jstr;
}.

(** ** State *)

(** Where a workspace looks: at the latest event, or at one event. *)
Record Position : Type := { pos_follow : bool; pos_event : option jstr }.

Inductive ComputerView : Type := watch | explore.

Record Computer : Type := {
  cw_workspace : jstr;
  cw_positions : list (jstr * Position);
  cw_view : ComputerView;
  cw_fullScreen : bool;
  cw_notice : option jstr;
  cw_url : jstr;
  cw_ref : jstr;
  cw_value : jstr;
  cw_snapshot : option BrowserSnapshot;
  cw_handoffKind : jstr;
  cw_handoffConsequence : jstr;
  cw_origin : jstr;
  cw_label : jstr;
  cw_secret : jstr;
  cw_agents : list AgentProjection;
  cw_workflows : list StageWorkflow;
  cw_controls : list (jstr * Z * ControlLease);
}.

Definition aggregate : jstr := js "aggregate".

Definition initialComputer : Computer := {|
  cw_workspace := aggregate; cw_positions := []; cw_view := watch; cw_fullScreen := false;
  cw_notice := None; cw_url := []; cw_ref := []; cw_value := []; cw_snapshot := None;
  cw_handoffKind := js "captcha"; cw_handoffConsequence := []; cw_origin := []; cw_label := [];
  cw_secret := []; cw_agents := []; cw_workflows := []; cw_controls := [] |}.

Definition setWorkspace w c :=
  {| cw_workspace := w; cw_positions := cw_positions c; cw_view := cw_view c;
     cw_fullScreen := cw_fullScreen c; cw_notice := cw_notice c; cw_url := cw_url c;
     cw_ref := cw_ref c; cw_value := cw_value c; cw_snapshot := cw_snapshot c;
     cw_handoffKind := cw_handoffKind c; cw_handoffConsequence := cw_handoffConsequence c;
     cw_origin := cw_origin c; cw_label := cw_label c; cw_secret := cw_secret c;
     cw_agents := cw_agents c; cw_workflows := cw_workflows c; cw_controls := cw_controls c |}.
Definition setPositions p c :=
  {| cw_workspace := cw_workspace c; cw_positions := p; cw_view := cw_view c;
     cw_fullScreen := cw_fullScreen c; cw_notice := cw_notice c; cw_url := cw_url c;
     cw_ref := cw_ref c; cw_value := cw_value c; cw_snapshot := cw_snapshot c;
     cw_handoffKind := cw_handoffKind c; cw_handoffConsequence := cw_handoffConsequence c;
     cw_origin := cw_origin c; cw_label := cw_label c; cw_secret := cw_secret c;
     cw_agents := cw_agents c; cw_workflows := cw_workflows c; cw_controls := cw_controls c |}.
Definition setView v c :=
  {| cw_workspace := cw_workspace c; cw_positions := cw_positions c; cw_view := v;
     cw_fullScreen := cw_fullScreen c; cw_notice := cw_notice c; cw_url := cw_url c;
     cw_ref := cw_ref c; cw_value := cw_value c; cw_snapshot := cw_snapshot c;
     cw_handoffKind := cw_handoffKind c; cw_handoffConsequence := cw_handoffConsequence c;
     cw_origin := cw_origin c; cw_label := cw_label c; cw_secret := cw_secret c;
     cw_agents := cw_agents c; cw_workflows := cw_workflows c; cw_controls := cw_controls c |}.
Definition setFullScreen b c :=
  {| cw_workspace := cw_workspace c; cw_positions := cw_positions c; cw_view := cw_view c;
     cw_fullScreen := b; cw_notice := cw_notice c; cw_url := cw_url c; cw_ref := cw_ref c;
     cw_value := cw_value c; cw_snapshot := cw_snapshot c; cw_handoffKind := cw_handoffKind c;
     cw_handoffConsequence := cw_handoffConsequence c; cw_origin := cw_origin c;
     cw_label := cw_label c; cw_secret := cw_secret c; cw_agents := cw_agents c;
     cw_workflows := cw_workflows c; cw_controls := cw_controls c |}.
Definition setControlNotice n c :=
  {| cw_workspace := cw_workspace c; cw_positions := cw_positions c; cw_view := cw_view c;
     cw_fullScreen := cw_fullScreen c; cw_notice := n; cw_url := cw_url c; cw_ref := cw_ref c;
     cw_value := cw_value c; cw_snapshot := cw_snapshot c; cw_handoffKind := cw_handoffKind c;
     cw_handoffConsequence := cw_handoffConsequence c; cw_origin := cw_origin c;
     cw_label := cw_label c; cw_secret := cw_secret c; cw_agents := cw_agents c;
     cw_workflows := cw_workflows c; cw_controls := cw_controls c |}.
Definition setURL v c :=
  {| cw_workspace := cw_workspace c; cw_positions := cw_positions c; cw_view := cw_view c;
     cw_fullScreen := cw_fullScreen c; cw_notice := cw_notice c; cw_url := v; cw_ref := cw_ref c;
     cw_value := cw_value c; cw_snapshot := cw_snapshot c; cw_handoffKind := cw_handoffKind c;
     cw_handoffConsequence := cw_handoffConsequence c; cw_origin := cw_origin c;
     cw_label := cw_label c; cw_secret := cw_secret c; cw_agents := cw_agents c;
     cw_workflows := cw_workflows c; cw_controls := cw_controls c |}.
Definition setRef v c :=
  {| cw_workspace := cw_workspace c; cw_positions := cw_positions c; cw_view := cw_view c;
     cw_fullScreen := cw_fullScreen c; cw_notice := cw_notice c; cw_url := cw_url c; cw_ref := v;
     cw_value := cw_value c; cw_snapshot := cw_snapshot c; cw_handoffKind := cw_handoffKind c;
     cw_handoffConsequence := cw_handoffConsequence c; cw_origin := cw_origin c;
     cw_label := cw_label c; cw_secret := cw_secret c; cw_agents := cw_agents c;
     cw_workflows := cw_workflows c; cw_controls := cw_controls c |}.
Definition setFillValue v c :=
  {| cw_workspace := cw_workspace c; cw_positions := cw_positions c; cw_view := cw_view c;
     cw_fullScreen := cw_fullScreen c; cw_notice := cw_notice c; cw_url := cw_url c;
     cw_ref := cw_ref c; cw_value := v; cw_snapshot := cw_snapshot c;
     cw_handoffKind := cw_handoffKind c; cw_handoffConsequence := cw_handoffConsequence c;
     cw_origin := cw_origin c; cw_label := cw_label c; cw_secret := cw_secret c;
     cw_agents := cw_agents c; cw_workflows := cw_workflows c; cw_controls := cw_controls c |}.
Definition setSnapshot v c :=
  {| cw_workspace := cw_workspace c; cw_positions := cw_positions c; cw_view := cw_view c;
     cw_fullScreen := cw_fullScreen c; cw_notice := cw_notice c; cw_url := cw_url c;
     cw_ref := cw_ref c; cw_value := cw_value c; cw_snapshot := v;
     cw_handoffKind := cw_handoffKind c; cw_handoffConsequence := cw_handoffConsequence c;
     cw_origin := cw_origin c; cw_label := cw_label c; cw_secret := cw_secret c;
     cw_agents := cw_agents c; cw_workflows := cw_workflows c; cw_controls := cw_controls c |}.
Definition setHandoffKind v c :=
  {| cw_workspace := cw_workspace c; cw_positions := cw_positions c; cw_view := cw_view c;
     cw_fullScreen := cw_fullScreen c; cw_notice := cw_notice c; cw_url := cw_url c;
     cw_ref := cw_ref c; cw_value := cw_value c; cw_snapshot := cw_snapshot c;
     cw_handoffKind := v; cw_handoffConsequence := cw_handoffConsequence c;
     cw_origin := cw_origin c; cw_label := cw_label c; cw_secret := cw_secret c;
     cw_agents := cw_agents c; cw_workflows := cw_workflows c; cw_controls := cw_controls c |}.
Definition setConsequence v c :=
  {| cw_workspace := cw_workspace c; cw_positions := cw_positions c; cw_view := cw_view c;
     cw_fullScreen := cw_fullScreen c; cw_notice := cw_notice c; cw_url := cw_url c;
     cw_ref := cw_ref c; cw_value := cw_value c; cw_snapshot := cw_snapshot c;
     cw_handoffKind := cw_handoffKind c; cw_handoffConsequence := v; cw_origin := cw_origin c;
     cw_label := cw_label c; cw_secret := cw_secret c; cw_agents := cw_agents c;
     cw_workflows := cw_workflows c; cw_controls := cw_controls c |}.
Definition setOrigin v c :=
  {| cw_workspace := cw_workspace c; cw_positions := cw_positions c; cw_view := cw_view c;
     cw_fullScreen := cw_fullScreen c; cw_notice := cw_notice c; cw_url := cw_url c;
     cw_ref := cw_ref c; cw_value := cw_value c; cw_snapshot := cw_snapshot c;
     cw_handoffKind := cw_handoffKind c; cw_handoffConsequence := cw_handoffConsequence c;
     cw_origin := v; cw_label := cw_label c; cw_secret := cw_secret c; cw_agents := cw_agents c;
     cw_workflows := cw_workflows c; cw_controls := cw_controls c |}.
Definition setLabel v c :=
  {| cw_workspace := cw_workspace c; cw_positions := cw_positions c; cw_view := cw_view c;
     cw_fullScreen := cw_fullScreen c; cw_notice := cw_notice c; cw_url := cw_url c;
     cw_ref := cw_ref c; cw_value := cw_value c; cw_snapshot := cw_snapshot c;
     cw_handoffKind := cw_handoffKind c; cw_handoffConsequence := cw_handoffConsequence c;
     cw_origin := cw_origin c; cw_label := v; cw_secret := cw_secret c; cw_agents := cw_agents c;
     cw_workflows := cw_workflows c; cw_controls := cw_controls c |}.
Definition setSecret v c :=
  {| cw_workspace := cw_workspace c; cw_positions := cw_positions c; cw_view := cw_view c;
     cw_fullScreen := cw_fullScreen c; cw_notice := cw_notice c; cw_url := cw_url c;
     cw_ref := cw_ref c; cw_value := cw_value c; cw_snapshot := cw_snapshot c;
     cw_handoffKind := cw_handoffKind c; cw_handoffConsequence := cw_handoffConsequence c;
     cw_origin := cw_origin c; cw_label := cw_label c; cw_secret := v; cw_agents := cw_agents c;
     cw_workflows := cw_workflows c; cw_controls := cw_controls c |}.
Definition setAgents v c :=
  {| cw_workspace := cw_workspace c; cw_positions := cw_positions c; cw_view := cw_view c;
     cw_fullScreen := cw_fullScreen c; cw_notice := cw_notice c; cw_url := cw_url c;
     cw_ref := cw_ref c; cw_value := cw_value c; cw_snapshot := cw_snapshot c;
     cw_handoffKind := cw_handoffKind c; cw_handoffConsequence := cw_handoffConsequence c;
     cw_origin := cw_origin c; cw_label := cw_label c; cw_secret := cw_secret c; cw_agents := v;
     cw_workflows := cw_workflows c; cw_controls := cw_controls c |}.
Definition setWorkflows v c :=
  {| cw_workspace := cw_workspace c; cw_positions := cw_positions c; cw_view := cw_view c;
     cw_fullScreen := cw_fullScreen c; cw_notice := cw_notice c; cw_url := cw_url c;
     cw_ref := cw_ref c; cw_value := cw_value c; cw_snapshot := cw_snapshot c;
     cw_handoffKind := cw_handoffKind c; cw_handoffConsequence := cw_handoffConsequence c;
     cw_origin := cw_origin c; cw_label := cw_label c; cw_secret := cw_secret c;
     cw_agents := cw_agents c; cw_workflows := v; cw_controls := cw_controls c |}.
Definition setControls v c :=
  {| cw_workspace := cw_workspace c; cw_positions := cw_positions c; cw_view := cw_view c;
     cw_fullScreen := cw_fullScreen c; cw_notice := cw_notice c; cw_url := cw_url c;
     cw_ref := cw_ref c; cw_value := cw_value c; cw_snapshot := cw_snapshot c;
     cw_handoffKind := cw_handoffKind c; cw_handoffConsequence := cw_handoffConsequence c;
     cw_origin := cw_origin c; cw_label := cw_label c; cw_secret := cw_secret c;
     cw_agents := cw_agents c; cw_workflows := cw_workflows c; cw_controls := v |}.

(** What the component is given: the session, the operator state, the connection. *)
Record StageEnv : Type := {
  se_session : option jstr;
  se_state : OperatorState;
  se_connection : ConnectionStatus;
}.

Definition timelineWindow : Z := 200.

Section Stage.
Context `{Platform}.
(** [left.localeCompare(right) <= 0] and [toLocaleTimeString]. *)
Variable localeLe : jstr → jstr → bool.
Variable localTime : jstr → jstr.

(** ** Which activity is shown *)

Definition stageEvents (x : StageEnv) : list EventEnvelope :=
  List.filter (λ e, startsWith (js "tool.") (ev_type e) &&
                    match se_session x with
                    | None => true
                    | Some s => bool_decide (cor_session_id (ev_correlation e) = Some s)
                    end) (recent_events (se_state x)).

Definition eventAgent (e : EventEnvelope) : option jstr :=
  (λ p, cs_agent_id (cp_scope p)) <$> computer_payload_of (ev_payload e).

(** A [Set] in insertion order. *)
Definition addNew (l : list jstr) (x : jstr) : list jstr := if bool_decide (x ∈ l) then l else l ++ [x].

Definition agentNames (x : StageEnv) (c : Computer) : list jstr :=
  sort_by localeLe
    (fold_left addNew (map ag_id (cw_agents c)) (fold_left addNew (omap eventAgent (stageEvents x)) [])).

Definition workspaceEvents (x : StageEnv) (c : Computer) : list EventEnvelope :=
  if jeqb (cw_workspace c) aggregate then stageEvents x
  else List.filter (λ e, bool_decide (eventAgent e = Some (cw_workspace c))) (stageEvents x).

Definition position (c : Computer) : option Position := assoc_get (cw_workspace c) (cw_positions c).
Definition followsLive (c : Computer) : bool := match position c with Some p => pos_follow p | None => true end.

(** The event a position selects among the events of its workspace. *)
Definition selectFrom (p : option Position) (events : list EventEnvelope) : option EventEnvelope :=
  match p with
  | Some {| pos_follow := false; pos_event := id |} =>
      match find (λ e, bool_decide (Some (ev_event_id e) = id)) events with
      | Some e => Some e
      | None => last events
      end
  | _ => last events
  end.

Definition selectedEvent (x : StageEnv) (c : Computer) : option EventEnvelope :=
  selectFrom (position c) (workspaceEvents x c).

Fixpoint findIndex {A} (f : A → bool) (l : list A) : option nat :=
  match l with
  | [] => None
  | y :: l => if f y then Some O else S <$> findIndex f l
  end.

(** [findIndex], -1 when there is none. *)
Definition indexOfEvent (id : jstr) (events : list EventEnvelope) : Z :=
  match findIndex (λ e, jeqb (ev_event_id e) id) events with Some i => Z.of_nat i | None => -1 end.

Definition stageIndex (selected : option EventEnvelope) (events : list EventEnvelope) : Z :=
  match selected with None => -1 | Some e => indexOfEvent (ev_event_id e) events end.

Definition stageWindowStart (count index : Z) : Z :=
  Z.max 0 (Z.min (Z.max 0 (count - timelineWindow)) (if index <? 0 then 0 else index - timelineWindow / 2))%Z.

Record Timeline : Type := {
  tl_start : Z;
  tl_visible : list EventEnvelope;
  tl_hiddenBefore : Z;
  tl_hiddenAfter : Z;
}.

Definition stageTimeline (selected : option EventEnvelope) (events : list EventEnvelope) : Timeline :=
  let count := Z.of_nat (length events) in
  let start := stageWindowStart count (stageIndex selected events) in
  let visible := take (Z.to_nat timelineWindow) (drop (Z.to_nat start) events) in
  {| tl_start := start; tl_visible := visible; tl_hiddenBefore := start;
     tl_hiddenAfter := Z.max 0 (count - start - Z.of_nat (length visible)) |}.

(** ** Moving through the history *)

Definition putPosition (p : Position) (c : Computer) : Computer :=
  setPositions (assoc_set (cw_workspace c) p (cw_positions c)) c.

Definition selectEvent (x : StageEnv) (e : EventEnvelope) (c : Computer) : Computer :=
  putPosition {| pos_event := Some (ev_event_id e);
                 pos_follow := bool_decide (Some (ev_event_id e) =
                                            ev_event_id <$> last (workspaceEvents x c)) |} c.

Definition backToLive (c : Computer) : Computer := putPosition {| pos_follow := true; pos_event := None |} c.

Definition pauseView (x : StageEnv) (c : Computer) : Computer :=
  putPosition {| pos_follow := false; pos_event := ev_event_id <$> last (workspaceEvents x c) |} c.

(** The index a key moves to; [None] for the other keys. *)
Definition moveTo (key : string) (index count : Z) : option Z :=
  if String.eqb key "ArrowUp" then Some (Z.max 0 (index - 1))
  else if String.eqb key "ArrowDown" then Some (Z.min (count - 1) (index + 1))
  else if String.eqb key "Home" then Some 0%Z
  else if String.eqb key "End" then Some (count - 1)%Z
  else None.

(** [events[next]], undefined out of range. *)
Definition eventAt (events : list EventEnvelope) (i : Z) : option EventEnvelope :=
  if (i <? 0)%Z then None else events !! Z.to_nat i.

Definition moveSelection (x : StageEnv) (key : string) (index : Z) (c : Computer) : Computer :=
  match moveTo key index (Z.of_nat (length (workspaceEvents x c))) ≫= eventAt (workspaceEvents x c) with
  | Some e => selectEvent x e c
  | None => c
  end.

(** ** What the stage says *)

Definition stagePayload (e : option EventEnvelope) : option ComputerEventPayload :=
  e ≫= λ e, computer_payload_of (ev_payload e).

Definition stageCompatibility (p : option ComputerEventPayload) : option DisplayCompatibility :=
  p ≫= λ p, displayModelCompatibility (Z.of_nat (length (cp_source_references p))) <$> cp_display_model p.

Definition stageDisplay (p : option ComputerEventPayload) : option json :=
  match stageCompatibility p with
  | Some current | Some migrated =>
      p ≫= λ p, cp_display_model p ≫= migrateDisplayModel (Z.of_nat (length (cp_source_references p)))
  | _ => None
  end.

Record Status : Type := { s_label : jstr; s_tone : string }.

Definition stageStatus (event : option EventEnvelope) (payload : option ComputerEventPayload)
    (gap : bool) (connection : ConnectionStatus) : Status :=
  match connection with
  | Connecting => {| s_label := js "Recovering live state"; s_tone := "recovering" |}
  | Degraded => {| s_label := js "Connection interrupted"; s_tone := "degraded" |}
  | ReadyStatus =>
      if gap then {| s_label := js "Live with a retention gap"; s_tone := "degraded" |}
      else match event, payload with
           | None, _ => {| s_label := js "Ready"; s_tone := "empty" |}
           | Some _, None => {| s_label := js "Unsupported retained event"; s_tone := "unsupported" |}
           | Some _, Some p =>
               let name := humanizeWords (js (phase_name (cp_phase p))) in
               match cp_phase p with
               | awaiting_approval => {| s_label := js "Awaiting your decision"; s_tone := "waiting" |}
               | outcome_unknown => {| s_label := js "Outcome unknown"; s_tone := "degraded" |}
               | failed | denied => {| s_label := name; s_tone := "failed" |}
               | interrupted => {| s_label := js "Interrupted"; s_tone := "degraded" |}
               | completed => {| s_label := js "Completed"; s_tone := "completed" |}
               | _ => {| s_label := name; s_tone := "active" |}
               end
           end
  end.

Definition activityTitle (p : option ComputerEventPayload) : jstr :=
  match p with None => js "Computer workspace" | Some p => humanizeWords (cp_tool p) end.

Definition timelineTitle (e : EventEnvelope) : jstr :=
  match stagePayload (Some e) with
  | None => js "Unsupported activity"
  | Some p => humanizeWords (cp_operation p)
  end.

Definition timelinePhase (e : EventEnvelope) : jstr :=
  humanizeWords (match stagePayload (Some e) with
                 | Some p => js (phase_name (cp_phase p))
                 | None => ev_type e
                 end).

Definition stageTimestamp (value : option jstr) : jstr :=
  match value with
  | None => js "—"
  | Some v => match Date_parse v with None => v | Some _ => localTime v end
  end.

Definition contextItem (value : option jstr) : jstr :=
  match value with None | Some [] => js "—" | Some v => humanizeWords v end.

(** The canvas: an empty stage, a note, or the application of an accepted model. *)
Inductive StageBody : Type :=
  | Boundary (title detail : jstr)
  | Application (display : json) (event : EventEnvelope) (isMigrated : bool) (sources : list ComputerSourceReference).

Definition stageEmpty (c : ConnectionStatus) : StageBody :=
  match c with
  | Connecting => Boundary (js "Connecting to Computer")
                    (js "Recovering the durable event stream before showing activity.")
  | Degraded => Boundary (js "Computer connection interrupted")
                  (js "Live updates are temporarily unavailable. Retained history will return after reconnection.")
  | ReadyStatus => Boundary (js "No Computer activity yet")
                     (js "Actions will appear here with their real status, evidence, and source attribution.")
  end.

Definition stageLifecycle (e : EventEnvelope) : StageBody :=
  let payload := stagePayload (Some e) in
  Boundary (activityTitle payload)
    match cp_phase <$> payload with
    | Some awaiting_approval => js "This action is waiting for an explicit approval decision."
    | Some progress => js "The action reported progress. No completion is claimed yet."
    | Some outcome_unknown => js "Delivery may have happened, but Ion cannot verify the outcome."
    | Some p => js "Lifecycle state: " ++ humanizeWords (js (phase_name p)) ++ js "."
    | None => js "Lifecycle state: " ++ humanizeWords (ev_type e) ++ js "."
    end.

Definition stageBody (x : StageEnv) (selected : option EventEnvelope) : StageBody :=
  match selected with
  | None => stageEmpty (se_connection x)
  | Some e =>
      match stagePayload (Some e) with
      | None => Boundary (js "This retained activity cannot be displayed")
                  (js "Its lifecycle version is not supported. Execution state has not been inferred.")
      | Some p =>
          match stageCompatibility (Some p), stageDisplay (Some p) with
          | Some unsupported, _ =>
              Boundary (js "This display version is not supported")
                (js "The action and lifecycle remain visible, but this client will not guess at its result.")
          | _, None => stageLifecycle e
          | compatibility, Some display =>
              Application display e (bool_decide (compatibility = Some migrated)) (cp_source_references p)
          end
      end
  end.

(** The line of an agent's workspace button. *)
Definition agentRunning (x : StageEnv) (c : Computer) (agent : jstr) : bool :=
  match find (λ r, jeqb (ag_id r) agent) (cw_agents c) with
  | Some r => jeqb (ag_state r) (js "running")
  | None => false
  end ||
  match find (λ e, bool_decide (eventAgent e = Some agent)) (reverse (stageEvents x)) with
  | Some e => match stagePayload (Some e) with Some p => negb (phase_terminal (cp_phase p)) | None => false end
  | None => false
  end.

(** *** The header and the facts *)

Definition selectedAgent (c : Computer) : option AgentProjection :=
  if jeqb (cw_workspace c) aggregate then None
  else find (λ r, jeqb (ag_id r) (cw_workspace c)) (cw_agents c).

(** [a ?? b]. *)
Definition orElse {A} (a b : option A) : option A := match a with Some _ => a | None => b end.

Definition displayTitle (display : option json) (member : string) : option jstr :=
  d ← display; t ← get "title" d; asString (get member t).

Definition stageHeading (x : StageEnv) (c : Computer) : jstr :=
  let payload := stagePayload (selectedEvent x c) in
  default (activityTitle payload) (displayTitle (stageDisplay payload) "value").

Definition stageContext (x : StageEnv) (c : Computer) : list (string * jstr) :=
  let selected := selectedEvent x c in
  let payload := stagePayload selected in
  let status := stageStatus selected payload (gap (se_state x)) (se_connection x) in
  [("Task"%string, contextItem (orElse (payload ≫= λ p, cs_task_id (cp_scope p))
                    (orElse (payload ≫= λ p, cs_outcome_id (cp_scope p))
                       (selectedAgent c ≫= ag_assignment))));
   ("Agent"%string, contextItem (orElse ((λ p, cs_agent_id (cp_scope p)) <$> payload)
                                        (ag_id <$> selectedAgent c)));
   ("App"%string, contextItem (cp_display_kind <$> payload));
   ("Action"%string, contextItem (cp_operation <$> payload));
   ("Status"%string, contextItem (Some (default (s_label status)
                                          ((λ p, js (phase_name (cp_phase p))) <$> payload))));
   ("Latest event"%string, contextItem (Some (stageTimestamp
                             (ev_occurred_at <$> last (workspaceEvents x c)))))].

Definition agentSummary (r : AgentProjection) : list (string * jstr) :=
  [("Assignment"%string, default (js "No assignment summary available") (ag_assignment r));
   ("State"%string, contextItem (Some (ag_state r))); ("Parent"%string, contextItem (ag_parent_id r));
   ("Depth"%string, contextItem (Some (num_toString (ag_depth r))));
   ("Artifacts"%string, contextItem (Some (num_toString (ag_artifact_count r))))].

Definition resultText (r : option ComputerResultSummary) : jstr :=
  match r with
  | None => js "not terminal"
  | Some r =>
      if crs_available r then num_toString (num_of_Z (crs_bytes r)) ++ js " bytes available"
      else default (js "unavailable") (orElse (crs_error r) (crs_error_code r))
  end.

(** The facts and the numbered sources of the inspector. *)
Definition activityFacts (p : ComputerEventPayload) : list (string * jstr) :=
  [("Truth"%string, contextItem (Some (default (js "lifecycle only")
                                         (displayTitle (stageDisplay (Some p)) "truth"))));
   ("Risk"%string, contextItem (Some (cp_risk_class p))); ("Tool"%string, contextItem (Some (cp_tool p)));
   ("Result"%string, contextItem (Some (resultText (cp_result p))))].

Definition sourceRows (l : list ComputerSourceReference) : list (jstr * jstr) :=
  imap (λ i s, (spaced (sr_kind s), js "Source " ++ num_toString (num_of_Z (Z.of_nat (i + 1))))) l.

(** ** The shared browser *)

(** The resource to control: the session's browser, at the event shown. *)
Definition browserControlTarget (x : StageEnv) (c : Computer) : option (jstr * Z) :=
  let selected := selectedEvent x c in
  match stagePayload selected, se_session x with
  | Some p, Some session =>
      if startsWith (js "browser_") (cp_tool p)
      then Some (session, default 0%Z (ev_sequence <$> selected)) else None
  | _, _ => None
  end.

(** [control.data]: what was loaded for the target. *)
Definition controlData (x : StageEnv) (c : Computer) : option ControlLease :=
  t ← browserControlTarget x c; snd <$> find (λ row, bool_decide (row.1 = t)) (cw_controls c).

Inductive ControlOp : Type := Acquire | Renew | Release.

Definition controlOperation (op : ControlOp) : string :=
  match op with
  | Acquire => "computer.control.acquire"
  | Renew => "computer.control.renew"
  | Release => "computer.control.release"
  end.

Definition resourceFields (target : jstr * Z) : list (jstr * json) :=
  [(js "resource_kind", JStr (js "browser")); (js "resource_id", JStr target.1)].

Definition leaseFields (l : ControlLease) : list (jstr * json) :=
  Client.field "lease_id" (JStr <$> cl_lease_id l) ++
  [(js "expected_lease_revision", JNum (num_of_Z (cl_revision l)))].

Definition ttl : jstr * json := (js "ttl_seconds", JNum (num_of_Z 90)).

Definition controlPayload (op : ControlOp) (target : jstr * Z) (l : ControlLease) : json :=
  JObj match op with
       | Acquire => resourceFields target ++ [(js "target_revision", JNum (num_of_Z target.2));
                     (js "owner", cl_owner l);
                     (js "expected_lease_revision", JNum (num_of_Z (cl_revision l))); ttl]
       | Renew => resourceFields target ++ leaseFields l ++ [ttl]
       | Release => resourceFields target ++ leaseFields l
       end.

Definition controlDone (op : ControlOp) : string :=
  match op with
  | Acquire => "Browser control acquired. Automation is paused at the action boundary."
  | Renew => "Browser control renewed."
  | Release => "Browser control returned to the executor."
  end.

Definition notify (n : jstr) : proc Computer unit := setState (setControlNotice (Some n)).

Definition controlCommand (x : StageEnv) (op : ControlOp) (c : Computer) : proc Computer unit :=
  match browserControlTarget x c, controlData x c with
  | Some target, Some l =>
      response ← rpc command (controlOperation op) (controlPayload op target l) (se_session x);
      notify (errorText (controlDone op) response);;
      refetch ["computer-control"%string]
  | _, _ => skip
  end.

Inductive BrowserOp : Type := Observe | NavigateTo | Interact | SubmitRef.

Definition browserOperation (op : BrowserOp) : string :=
  match op with
  | Observe => "computer.browser.observe"
  | NavigateTo => "computer.browser.navigate"
  | Interact => "computer.browser.interact"
  | SubmitRef => "computer.browser.submit"
  end.

Definition browserKind (op : BrowserOp) : RequestKind := match op with Observe => query | _ => command end.

(** The members a button adds. *)
Definition browserExtra (op : BrowserOp) (c : Computer) : list (jstr * json) :=
  match op with
  | Observe => []
  | NavigateTo => [(js "url", JStr (cw_url c))]
  | Interact => [(js "action", JStr (js (if jeqb (cw_value c) [] then "click" else "fill")));
                 (js "ref", JStr (cw_ref c)); (js "value", JStr (cw_value c))]
  | SubmitRef => [(js "ref", JStr (cw_ref c))]
  end.

(** Whether the button is enabled, once the lease is active. *)
Definition browserEnabled (op : BrowserOp) (c : Computer) : bool :=
  match op with
  | Observe => true
  | NavigateTo => negb (jeqb (trim (cw_url c)) [])
  | Interact => negb (jeqb (trim (cw_ref c)) [])
  | SubmitRef => negb (jeqb (trim (cw_ref c)) []) && jeqb (cw_value c) []
  end.

Definition snapshotOf (v : json) : BrowserSnapshot := {|
  bs_url := default [] (asString (get "url" v)); bs_title := default [] (asString (get "title" v));
  bs_text := default [] (asString (get "text" v)); bs_elements := default [] (isArray (get "elements" v)) |}.

Definition browserControl (x : StageEnv) (op : BrowserOp) (extra : list (jstr * json)) (c : Computer)
    : proc Computer unit :=
  match browserControlTarget x c, controlData x c with
  | Some target, Some l =>
      match cl_lease_id l with
      | None => skip
      | Some _ =>
          if bool_decide (cl_state l ≠ LeaseActive) then skip
          else
            response ← rpc (browserKind op) (browserOperation op)
                         (JObj (resourceFields target ++ leaseFields l ++ extra)) (se_session x);
            match resp_error response, resp_result response with
            | None, Some result =>
                setState (setSnapshot (Some (snapshotOf result)));;
                notify (js "Browser state reconciled from the controlled executor.")
            | _, _ => notify (errorText "Browser control action failed." response)
            end
      end
  | _, _ => skip
  end.

Definition controlHeader (l : option ControlLease) : list (string * jstr) :=
  [("Control authority"%string, js (if bool_decide (cl_authority <$> l = Some ByOperator)
                                    then "You have control" else "Ion has control"));
   ("Lease expiry"%string, stageTimestamp (l ≫= cl_expires_at));
   ("Reconciliation"%string, humanizeWords (default (js "loading") (cl_reconciliation <$> l)))].

(** The first elements of the page and the name of each. *)
Definition snapshotRows (s : BrowserSnapshot) : list (jstr * jstr) :=
  map (λ e, (default [] (asString (get "ref" e)),
             default [] (orElse (asString (get "name" e)) (orElse (asString (get "text" e))
                           (orElse (asString (get "placeholder" e)) (asString (get "tag" e)))))))
    (take 24 (bs_elements s)).

(** ** Supervised workflows *)

Inductive WorkflowOp : Type := PauseFlow | ResumeFlow | CancelFlow | HandoffFlow.
#[export] Instance WorkflowOp_eq_dec : EqDecision WorkflowOp.
Proof. solve_decision. Defined.

Definition workflowOperation (op : WorkflowOp) : string :=
  match op with
  | PauseFlow => "browser.workflow.pause"
  | ResumeFlow => "browser.workflow.resume"
  | CancelFlow => "browser.workflow.cancel"
  | HandoffFlow => "browser.workflow.handoff"
  end.

Definition workflowCommand (x : StageEnv) (op : WorkflowOp) (id : jstr) (c : Computer) : proc Computer unit :=
  let payload := JObj ((js "workflow_id", JStr id) ::
                       match op with
                       | HandoffFlow => [(js "kind", JStr (cw_handoffKind c));
                                         (js "consequence", JStr (cw_handoffConsequence c))]
                       | _ => []
                       end) in
  response ← rpc command (workflowOperation op) payload (se_session x);
  notify (errorText "Browser workflow updated." response);;
  refetch ["browser-workflows"%string].

(** The buttons of a workflow. *)
Definition workflowButtons (w : StageWorkflow) (c : Computer) : list WorkflowOp :=
  match sw_status w with
  | WActive => PauseFlow :: (if jeqb (trim (cw_handoffConsequence c)) [] then [] else [HandoffFlow])
  | WPaused | WWaiting => [ResumeFlow]
  | WCancelled | WRestart => []
  end ++ (if bool_decide (sw_status w = WCancelled) then [] else [CancelFlow]).

(** The workflows are listed only for a session. *)
Definition workflowEnabled (x : StageEnv) (op : WorkflowOp) (id : jstr) (c : Computer) : bool :=
  bool_decide (is_Some (se_session x)) &&
  existsb (λ w, jeqb (sw_id w) id && bool_decide (op ∈ workflowButtons w c)) (cw_workflows c).

(** ** Stored credentials *)

Section Credentials.
(** Both may throw. *)
Variable encodeURIComponent decodeURIComponent : jstr → option jstr.
(** [document.cookie]. *)
Variable cookies : jstr.

(** [s.split('; ')]. *)
Fixpoint splitPairs (s acc : jstr) : list jstr :=
  match s with
  | [] => [reverse acc]
  | 59%N :: ((32%N :: s) as _) => reverse acc :: splitPairs s []
  | x :: s => splitPairs s (x :: acc)
  end.

Definition stageCookie (name : jstr) : option jstr :=
  prefix ← (λ n, n ++ js "=") <$> encodeURIComponent name;
  match find (startsWith prefix) (splitPairs cookies []) with
  | None => Some []
  | Some found => decodeURIComponent (drop (length prefix) found)
  end.

Definition credentialRequest (session csrf : jstr) (c : Computer) : HttpRequest := {|
  http_url := js "/v1/browser-credentials?session_id=" ++ session; http_method := js "POST";
  http_headers := [(js "Content-Type", js "application/json"); (js "X-Ion-CSRF", csrf)];
  http_body := Some (stringify (JObj [(js "origin", JStr (cw_origin c)); (js "label", JStr (cw_label c));
                                      (js "secret", JStr (cw_secret c))])) |}.

Definition uriError : Error := mkError (js "URI malformed").

Definition saveCredential (x : StageEnv) (c : Computer) : proc Computer unit :=
  match se_session x with
  | None => skip
  | Some session =>
      match encodeURIComponent session, stageCookie csrf_cookie with
      | Some encoded, Some csrf =>
          response ← fetch (credentialRequest encoded csrf c);
          setState (setSecret []);;
          notify (js (if hr_ok response
                      then "Credential stored as an origin-bound reference. Its value will not be shown again."
                      else "Credential was rejected."))
      | _, _ => throw uriError
      end
  end.

Definition credentialEnabled (c : Computer) : bool :=
  negb (jeqb (trim (cw_origin c)) []) && negb (jeqb (trim (cw_label c)) []) && negb (jeqb (cw_secret c) []).

(** ** The component *)

Inductive StageInput : Type :=
  | WorkspaceChosen (w : jstr)
  | EventClicked (e : EventEnvelope)
  | TimelineKey (key : string) (index : Z)
  | LivePressed
  | PausePressed
  | ViewChosen (v : ComputerView)
  | FullScreenPressed
  | EscapePressed
  | UrlTyped (v : jstr)
  | RefTyped (v : jstr)
  | ValueTyped (v : jstr)
  | HandoffChosen (v : jstr)
  | ConsequenceTyped (v : jstr)
  | OriginTyped (v : jstr)
  | LabelTyped (v : jstr)
  | SecretTyped (v : jstr)
  | ControlPressed (op : ControlOp)
  | BrowserPressed (op : BrowserOp)
  | WorkflowPressed (op : WorkflowOp) (id : jstr)
  | SavePressed
  | AgentsLoaded (l : list AgentProjection)
  | WorkflowsLoaded (l : list StageWorkflow)
  | ControlLoaded (target : jstr * Z) (l : ControlLease).

(** The control buttons that are shown and enabled. *)
Definition controlEnabled (x : StageEnv) (op : ControlOp) (c : Computer) : bool :=
  match controlData x c with
  | None => false
  | Some l =>
      match op with
      | Acquire => bool_decide (cl_state l ≠ LeaseActive) && negb (cl_owner_revision l =? 0)%Z
      | Renew | Release => bool_decide (cl_state l = LeaseActive)
      end
  end.

Definition leaseActive (x : StageEnv) (c : Computer) : bool :=
  match controlData x c with Some l => bool_decide (cl_state l = LeaseActive) | None => false end.

Definition loadControl (target : jstr * Z) (l : ControlLease) (c : Computer) : Computer :=
  setControls ((target, l) :: List.filter (λ row, negb (bool_decide (row.1 = target))) (cw_controls c)) c.

(** What an input does, with the surroundings of its render. *)
Definition stageHandler (c : Computer) (y : StageEnv * StageInput) : proc Computer unit :=
  let x := y.1 in
  match y.2 with
  | WorkspaceChosen w => setState (setWorkspace w)
  | EventClicked e => setState (selectEvent x e)
  | TimelineKey key index => setState (moveSelection x key index)
  | LivePressed => if followsLive c then skip else setState backToLive
  | PausePressed => if followsLive c then setState (pauseView x) else skip
  | ViewChosen v => setState (setView v)
  | FullScreenPressed => setState (λ c, setFullScreen (negb (cw_fullScreen c)) c)
  | EscapePressed => if cw_fullScreen c then setState (setFullScreen false) else skip
  | UrlTyped v => setState (setURL v)
  | RefTyped v => setState (setRef v)
  | ValueTyped v => setState (setFillValue v)
  | HandoffChosen v => setState (setHandoffKind v)
  | ConsequenceTyped v => setState (setConsequence v)
  | OriginTyped v => setState (setOrigin v)
  | LabelTyped v => setState (setLabel v)
  | SecretTyped v => setState (setSecret v)
  | ControlPressed op => if controlEnabled x op c then controlCommand x op c else skip
  | BrowserPressed op =>
      if leaseActive x c && browserEnabled op c then browserControl x op (browserExtra op c) c else skip
  | WorkflowPressed op id => if workflowEnabled x op id c then workflowCommand x op id c else skip
  | SavePressed => if credentialEnabled c then saveCredential x c else skip
  | AgentsLoaded l => setState (setAgents l)
  | WorkflowsLoaded l => setState (setWorkflows l)
  | ControlLoaded target l => setState (loadControl target l)
  end.
End Credentials.
End Stage.
