(* ===== verification/ComputerProps.v ===== *)
(** * What the computer stage guarantees

    Claims about [Computer]: the window of the timeline, moving through the history, what
    the canvas may show, the lease behind every browser action, and where the text of a
    credential goes. *)
From stdpp Require Import base sets list strings.
From Stdlib Require Import ZArith NArith.
From S2P Require Import Prelude JsString JsValue JsArray Regex Catalog Protocol Display Envelope.
From S2P Require Import Events EventsFacts Store EventsProps LocalClient Client Operator TuiFormat TuiApp.
From S2P Require Import Async Computer.

(** ** Lists *)

Lemma findIndex_Some {A} (f : A → bool) l i :
  findIndex f l = Some i → ∃ y, l !! i = Some y ∧ f y = true.
Proof.
  revert i; induction l as [|x l IH]; intros i; simpl; [done|].
  destruct (f x) eqn:Hx; [intros; simplify_eq; by exists x|].
  destruct (findIndex f l) as [j|]; [|done]. intros; simplify_eq/=. by apply IH.
Qed.

Lemma findIndex_elem {A} (f : A → bool) l y : y ∈ l → f y = true → is_Some (findIndex f l).
Proof.
  induction l as [|x l IH]; [by intros ?%not_elem_of_nil|]. intros [->|Hy]%elem_of_cons Hf; simpl.
  - by rewrite Hf.
  - destruct (f x); [done|]. destruct (IH Hy Hf) as [j ->]. done.
Qed.

Lemma find_In {A} (f : A → bool) l y : find f l = Some y → y ∈ l ∧ f y = true.
Proof. intros [? ?]%List.find_some. by rewrite list_elem_of_In. Qed.

Lemma find_app_Some {A} (f : A → bool) l l' y : find f l = Some y → find f (l ++ l') = Some y.
Proof. induction l as [|x l IH]; simpl; [done|]. by destruct (f x). Qed.

Lemma last_In {A} (l : list A) y : last l = Some y → y ∈ l.
Proof. intros (l' & ->)%last_Some. set_solver. Qed.

Section Props.
Context `{Platform}.

(** ** The timeline *)

Lemma selectFrom_elem p events e : selectFrom p events = Some e → e ∈ events.
Proof.
  unfold selectFrom. destruct p as [[[] id]|]; try apply last_In.
  destruct (find _ events) eqn:Hf; [|apply last_In]. intros; simplify_eq. by apply find_In in Hf as [? _].
Qed.

Lemma indexOfEvent_elem e events :
  e ∈ events → ∃ i y, indexOfEvent (ev_event_id e) events = Z.of_nat i ∧ events !! i = Some y ∧
                      ev_event_id y = ev_event_id e.
Proof.
  intros He. unfold indexOfEvent.
  destruct (findIndex_elem (λ y, jeqb (ev_event_id y) (ev_event_id e)) events e He (jeqb_refl _)) as [i Hi].
  rewrite Hi. apply findIndex_Some in Hi as (y & Hy & Hid). exists i, y. by apply jeqb_eq in Hid.
Qed.

Lemma stageIndex_bounds p events :
  (-1 ≤ stageIndex (selectFrom p events) events ≤ Z.of_nat (length events))%Z.
Proof.
  unfold stageIndex. destruct (selectFrom p events) as [e|] eqn:He; [|lia].
  destruct (indexOfEvent_elem e events (selectFrom_elem _ _ _ He)) as (i & y & -> & Hy & _).
  apply lookup_lt_Some in Hy. lia.
Qed.

Lemma stageWindowStart_spec count index :
  (0 ≤ index < count)%Z →
  (0 ≤ stageWindowStart count index ≤ index)%Z ∧ (index < stageWindowStart count index + 200)%Z ∧
  (stageWindowStart count index ≤ Z.max 0 (count - 200))%Z.
Proof.
  intros Hi. unfold stageWindowStart, timelineWindow. change (200 / 2)%Z with 100%Z.
  destruct (Z.ltb_spec index 0); lia.
Qed.

(** The timeline renders at most 200 events, always a contiguous part of the
    workspace's history; the two notes count exactly the events left out before and after
    it; and whenever an event is selected, one with its identifier is among the rendered
    ones. *)
Theorem timeline_shows_the_selection (x : StageEnv) (c : Computer) :
  let events := workspaceEvents x c in
  let tl := stageTimeline (selectedEvent x c) events in
  length (tl_visible tl) ≤ 200 ∧ (0 ≤ tl_hiddenBefore tl)%Z ∧
  (∃ before after, events = before ++ tl_visible tl ++ after ∧
     tl_hiddenBefore tl = Z.of_nat (length before) ∧ tl_hiddenAfter tl = Z.of_nat (length after)) ∧
  (∀ e, selectedEvent x c = Some e → ∃ y, y ∈ tl_visible tl ∧ ev_event_id y = ev_event_id e).
Proof.
  cbv zeta. unfold selectedEvent. set (events := workspaceEvents x c). set (p := position c).
  set (index := stageIndex (selectFrom p events) events).
  unfold stageTimeline. cbn [tl_visible tl_hiddenBefore tl_hiddenAfter]. fold index.
  set (start := stageWindowStart (Z.of_nat (length events)) index).
  change (Z.to_nat timelineWindow) with 200.
  assert (Hs : (0 ≤ start ≤ Z.max 0 (Z.of_nat (length events) - 200))%Z).
  { unfold start, stageWindowStart, timelineWindow. destruct (index <? 0)%Z; lia. }
  split_and!; [rewrite length_take; lia|lia| |].
  - exists (take (Z.to_nat start) events), (drop 200 (drop (Z.to_nat start) events)).
    rewrite take_drop, take_drop. split; [done|]. rewrite !length_take, !length_drop. lia.
  - intros e He. destruct (indexOfEvent_elem e events (selectFrom_elem _ _ _ He)) as (i & y & Hi & Hy & Hid).
    assert (index = Z.of_nat i) as Hx by (unfold index, stageIndex; by rewrite He).
    exists y. split; [|done]. pose proof (lookup_lt_Some _ _ _ Hy) as Hlt.
    destruct (stageWindowStart_spec (Z.of_nat (length events)) index) as (Ha & Hb & _); [lia|].
    fold start in Ha, Hb. apply list_elem_of_lookup. exists (i - Z.to_nat start).
    rewrite lookup_take_lt, lookup_drop by lia. by replace (Z.to_nat start + (i - Z.to_nat start)) with i by lia.
Qed.

(** ** Moving through the history *)

Lemma workspaceEvents_putPosition x p c : workspaceEvents x (putPosition p c) = workspaceEvents x c.
Proof. done. Qed.

Lemma position_putPosition p c : position (putPosition p c) = Some p.
Proof. apply assoc_get_set_eq. Qed.

Lemma find_by_id (events : list EventEnvelope) e :
  e ∈ events → ∃ y, find (λ z, bool_decide (Some (ev_event_id z) = Some (ev_event_id e))) events = Some y ∧
                    ev_event_id y = ev_event_id e.
Proof.
  intros He. destruct (find _ events) as [y|] eqn:Hf.
  - exists y. apply find_In in Hf as [_ Hf]. split; [done|]. apply bool_decide_eq_true in Hf. by simplify_eq.
  - exfalso. rewrite list_elem_of_In in He. pose proof (List.find_none _ _ Hf e He) as Hn. cbv beta in Hn.
    by rewrite bool_decide_true in Hn.
Qed.

(** Choosing an event of the history shows that event, and other workspaces keep
    their positions.  When it is not the latest one the view is pinned: whatever events
    arrive behind the known ones, the same event stays on screen.  When it is the latest
    one, and after going back to live, the view follows: it always shows the latest event
    of the workspace. *)
Theorem history_stays_where_it_is (x x' : StageEnv) (c : Computer) (e : EventEnvelope) (more : list EventEnvelope) :
  e ∈ workspaceEvents x c → workspaceEvents x' c = workspaceEvents x c ++ more →
  let c' := selectEvent x e c in
  (∃ y, selectedEvent x c' = Some y ∧ ev_event_id y = ev_event_id e ∧
        if bool_decide (Some (ev_event_id e) = ev_event_id <$> last (workspaceEvents x c))
        then followsLive c' = true ∧ selectedEvent x' c' = last (workspaceEvents x' c)
        else followsLive c' = false ∧ selectedEvent x' c' = Some y) ∧
  selectedEvent x' (backToLive c') = last (workspaceEvents x' c) ∧
  (∀ w, w ≠ cw_workspace c → position (setWorkspace w c') = position (setWorkspace w c)).
Proof.
  intros He Hx c'. split_and!.
  - unfold selectedEvent, followsLive, c', selectEvent. rewrite !workspaceEvents_putPosition, !position_putPosition.
    cbn [pos_follow]. destruct (bool_decide (Some (ev_event_id e) = _)) eqn:Hl; cbn [selectFrom].
    + apply bool_decide_eq_true in Hl. destruct (last (workspaceEvents x c)) as [y|]; [|done].
      exists y. by simplify_eq/=.
    + destruct (find_by_id _ _ He) as (y & Hy & Hid). exists y. rewrite Hy. split_and!; [done..|].
      rewrite Hx. by rewrite (find_app_Some _ _ _ _ Hy).
  - unfold selectedEvent, backToLive. by rewrite position_putPosition.
  - intros w Hw. unfold position, c', selectEvent, putPosition. cbn. by rewrite assoc_get_set_ne.
Qed.

(** The timeline keys move within the history: from the event at [index] they select
    the previous, the next, the first or the last one, stopping at both ends, and any other
    key selects nothing new. *)
Theorem timeline_keys_stay_in_the_history (x : StageEnv) (c : Computer) (key : string) (index : nat) :
  index < length (workspaceEvents x c) →
  let count := length (workspaceEvents x c) in
  let target := if String.eqb key "ArrowUp" then Some (index - 1)
                else if String.eqb key "ArrowDown" then Some (Nat.min (count - 1) (index + 1))
                else if String.eqb key "Home" then Some 0
                else if String.eqb key "End" then Some (count - 1) else None in
  match target with
  | Some i => ∃ e, workspaceEvents x c !! i = Some e ∧ moveSelection x key (Z.of_nat index) c = selectEvent x e c
  | None => moveSelection x key (Z.of_nat index) c = c
  end.
Proof.
  intros Hi count target. unfold moveSelection, moveTo, target, count.
  assert (Hat : ∀ i z, i < length (workspaceEvents x c) → z = Z.of_nat i →
            ∃ e, workspaceEvents x c !! i = Some e ∧
              match Some z ≫= eventAt (workspaceEvents x c) with Some e => selectEvent x e c | None => c end
              = selectEvent x e c).
  { intros i z Hlt ->. destruct (lookup_lt_is_Some_2 _ _ Hlt) as [e He]. exists e. split; [done|].
    cbn [mbind option_bind]. unfold eventAt. destruct (Z.ltb_spec (Z.of_nat i) 0); [lia|].
    by rewrite Nat2Z.id, He. }
  repeat (destruct (String.eqb key _); [apply Hat; lia|]). done.
Qed.

(** ** The canvas *)

(** What reaches the application renderers is a well-formed display model: the model
    on the canvas passes the display guard for the sources shown with it, which are those
    of the selected event; and the status reads completed only for a live, gapless stream
    whose selected event reports completion. *)
Theorem canvas_shows_only_accepted_models (x : StageEnv) (selected : option EventEnvelope) :
  (∀ d e m sources, stageBody x selected = Application d e m sources →
     selected = Some e ∧ isDisplayModel (Z.of_nat (length sources)) d = true ∧
     ∃ p, computer_payload_of (ev_payload e) = Some p ∧ sources = cp_source_references p) ∧
  (∀ gap, s_tone (stageStatus selected (stagePayload selected) gap (se_connection x)) = "completed"%string →
     se_connection x = ReadyStatus ∧ gap = false ∧ cp_phase <$> stagePayload selected = Some completed).
Proof.
  split.
  - intros d e m sources. unfold stageBody. destruct selected as [e0|]; [|by destruct (se_connection x)].
    destruct (stagePayload (Some e0)) as [p|] eqn:Hp; [|done].
    assert (Hc : stageCompatibility (Some p) = Some unsupported ∨
                 stageDisplay (Some p) = None ∨
                 ∃ v, cp_display_model p = Some v ∧
                   stageDisplay (Some p) = migrateDisplayModel (Z.of_nat (length (cp_source_references p))) v).
    { unfold stageDisplay. destruct (stageCompatibility (Some p)) as [k|] eqn:Hk; [|by right; left].
      unfold stageCompatibility in Hk. cbn in Hk. destruct (cp_display_model p) as [v|] eqn:Hv; [|done].
      destruct k; [right; right; exists v; split; [done|]; cbn; by rewrite Hv..|by left|by right; left]. }
    destruct Hc as [-> | [-> | (v & Hv & ->)]]; [done|by repeat case_match|].
    intros Hb. assert (Hm : migrateDisplayModel (Z.of_nat (length (cp_source_references p))) v = Some d ∧
                            e0 = e ∧ sources = cp_source_references p).
    { destruct (stageCompatibility (Some p)) as [[]|]; try done;
      destruct (migrateDisplayModel _ v); try done; by simplify_eq. }
    destruct Hm as (Hm & <- & ->). split_and!; [done|by eapply migrate_valid|]. by exists p.
  - intros gap. unfold stageStatus. destruct (se_connection x); try done. destruct gap; [done|].
    destruct selected as [e0|]; [|done]. destruct (stagePayload (Some e0)) as [p|]; [|done].
    cbn [fmap option_fmap option_map].
    destruct (cp_phase p); cbn [s_tone]; intros Ht; try discriminate Ht; done.
Qed.

(** ** The shared browser *)

Section Runs.
Variable encodeURIComponent decodeURIComponent : jstr → option jstr.
Variable cookies : jstr.
Let handler := stageHandler encodeURIComponent decodeURIComponent cookies.

(** A request that acts on the shared browser or looks at it. *)
Definition browserRequest (r : Request) : Prop := ∃ op, rq_operation r = js (browserOperation op).

(** What a request says of the lease it was made under. *)
Definition underLease (target : jstr * Z) (l : ControlLease) (id : jstr) (r : Request) : Prop :=
  cl_state l = LeaseActive ∧ cl_lease_id l = Some id ∧
  ∃ extra, rq_payload r = JObj ([(js "resource_kind", JStr (js "browser")); (js "resource_id", JStr target.1);
                                 (js "lease_id", JStr id);
                                 (js "expected_lease_revision", JNum (num_of_Z (cl_revision l)))] ++ extra) ∧
           rq_session r = Some (JStr target.1).

Section Lease.
Variable loaded : jstr * Z → ControlLease → Prop.

Definition loadedOnly (y : StageEnv * StageInput) : Prop :=
  match y.2 with ControlLoaded target l => loaded target l | _ => True end.
Definition controlsLoaded (c : Computer) : Prop := Forall (λ row, loaded row.1 row.2) (cw_controls c).
Definition leasedEffect (e : Effect) : Prop :=
  match e with
  | Issued (Rpc r) => browserRequest r → ∃ target l id, loaded target l ∧ underLease target l id r
  | _ => True
  end.

Lemma controlData_loaded x c l target :
  controlsLoaded c → browserControlTarget x c = Some target → controlData x c = Some l → loaded target l.
Proof.
  unfold controlsLoaded, controlData. intros Hc ->. cbn. destruct (find _ (cw_controls c)) as [row|] eqn:Hf; [|done].
  intros; simplify_eq/=. apply find_In in Hf as [Hin Hrow]. apply bool_decide_eq_true in Hrow as <-.
  by apply (proj1 (Forall_forall _ _) Hc).
Qed.

Lemma browserControlTarget_session x c target :
  browserControlTarget x c = Some target → se_session x = Some target.1.
Proof.
  unfold browserControlTarget. destruct (stagePayload _), (se_session x); try done. by case_match; intros; simplify_eq.
Qed.

Lemma not_browser kind o payload session :
  (∀ op, js o ≠ js (browserOperation op)) →
  leasedEffect (Issued (Rpc {| rq_kind := kind; rq_operation := js o; rq_payload := payload; rq_session := session |})).
Proof. intros Ho [op Hop]. by apply Ho in Hop. Qed.

Lemma quiet (f : Computer → Computer) :
  (∀ c, cw_controls (f c) = cw_controls c) → safe controlsLoaded leasedEffect anyAnswer (setState f).
Proof. intros Hf. split; [|done]. intros c. unfold controlsLoaded. by rewrite Hf. Qed.

Lemma position_kept p c : cw_controls (putPosition p c) = cw_controls c.
Proof. done. Qed.

Lemma browserControl_safe x op extra c :
  controlsLoaded c → safe controlsLoaded leasedEffect anyAnswer (browserControl x op extra c).
Proof.
  intros Hc. unfold browserControl. destruct (browserControlTarget x c) as [target|] eqn:Ht; [|done].
  destruct (controlData x c) as [l|] eqn:Hl; [|done]. destruct (cl_lease_id l) as [id|] eqn:Hid; [|done].
  case_bool_decide as Ha; [done|]. apply safe_bind.
  - split; [|by intros [e|r]]. intros _. exists target, l, id. split; [by eapply controlData_loaded|].
    split_and!; [done..|]. exists extra. split; [|by rewrite (browserControlTarget_session _ _ _ Ht)].
    cbn [rq_payload]. unfold leaseFields. by rewrite Hid.
  - intros r. destruct (resp_error r), (resp_result r); repeat split; intros; done.
Qed.

Lemma controlCommand_safe x op c : safe controlsLoaded leasedEffect anyAnswer (controlCommand x op c).
Proof.
  unfold controlCommand. destruct (browserControlTarget x c), (controlData x c); try done.
  split; [apply not_browser; intros []; by destruct op|]. intros [e|r]; [done|]. repeat split; done.
Qed.

Lemma workflowCommand_safe x op id c : safe controlsLoaded leasedEffect anyAnswer (workflowCommand x op id c).
Proof.
  split; [apply not_browser; intros []; by destruct op|]. intros [e|r]; [done|]. repeat split; done.
Qed.

Lemma saveCredential_safe x c :
  safe controlsLoaded leasedEffect anyAnswer (saveCredential encodeURIComponent decodeURIComponent cookies x c).
Proof.
  unfold saveCredential. destruct (se_session x); [|done]. destruct (encodeURIComponent l), (stageCookie encodeURIComponent decodeURIComponent cookies csrf_cookie);
    try done. split; [done|]. intros [e|r]; [done|]. repeat split; done.
Qed.

Lemma loadControl_safe target l : loaded target l → safe controlsLoaded leasedEffect anyAnswer (setState (loadControl target l)).
Proof.
  intros Hl. split; [|done]. intros c Hc. apply Forall_cons. split; [done|].
  unfold controlsLoaded in *. rewrite List.Forall_forall in *. intros row [Hr _]%filter_In. by apply Hc.
Qed.

Lemma stageHandler_safe c y : loadedOnly y → controlsLoaded c → safe controlsLoaded leasedEffect anyAnswer (handler c y).
Proof.
  destruct y as [x y]. intros Hy Hc. unfold handler, stageHandler. cbn [fst snd].
  destruct y; try (by apply quiet); try (case_match; [|done]);
    auto using browserControl_safe, controlCommand_safe, workflowCommand_safe, saveCredential_safe, loadControl_safe;
    try (by apply quiet).
  apply quiet. intros c'. unfold moveSelection. by destruct (_ ≫= _).
Qed.
End Lease.

(** [C16] Every request to look at or act on the shared browser, in any run of the stage and
    however the calls are answered and interleaved, is made for the session's browser under
    a lease the control plane reported as active: it carries that lease's identifier and
    the revision it was reported with. *)
Theorem browser_actions_are_leased (xs : list (input (StageEnv * StageInput))) w out :
  runs handler initialComputer xs w out →
  Forall (λ e, ∀ r, e = Issued (Rpc r) → browserRequest r →
            ∃ env target l id, Act (env, ControlLoaded target l) ∈ xs ∧ underLease target l id r) out.
Proof.
  intros Hr. set (loaded := λ target l, ∃ env : StageEnv, Act (env, ControlLoaded target l) ∈ xs).
  destruct (runs_safe handler (controlsLoaded loaded) (leasedEffect loaded) (loadedOnly loaded) anyAnswer initialComputer xs w out
              (stageHandler_safe loaded) (Forall_nil_2 _) Hr) as [_ Hout].
  - apply Forall_forall. intros [[env y]|i o] Hin; [|done]. destruct y; try done. by exists env.
  - eapply Forall_impl; [exact Hout|]. intros e He r -> Hb. destruct (He Hb) as (target & l & id & [env Hin] & Hl).
    by exists env, target, l, id.
Qed.

(** *** The text of a credential *)

Definition withoutSecret (c : Computer) : Computer := setSecret [] c.
Definition withoutTyping (y : StageEnv * StageInput) : StageEnv * StageInput :=
  match y.2 with SecretTyped _ => (y.1, SecretTyped []) | _ => y end.
Definition notSaving (y : StageEnv * StageInput) : Prop := y.2 ≠ SavePressed.

Lemma withoutSecret_inv s s' : withoutSecret s = withoutSecret s' → ∃ v, s' = setSecret v s.
Proof.
  intros Hs. exists (cw_secret s'). destruct s, s'. unfold withoutSecret, setSecret in *. cbn in *.
  injection Hs. intros. by subst.
Qed.

(** An update that commutes with setting the secret forgets nothing of it and adds nothing
    to it. *)
Lemma blind_update f :
  (∀ v s, f (setSecret v s) = setSecret v (f s)) →
  ∀ s s', withoutSecret s = withoutSecret s' → withoutSecret (f s) = withoutSecret (f s').
Proof. intros Hf s s' [v ->]%withoutSecret_inv. by rewrite Hf. Qed.

Lemma stageHandler_blind c y : notSaving y → blind withoutSecret (handler c y).
Proof.
  destruct y as [x y]. intros Hy. unfold handler, stageHandler. cbn [fst snd].
  destruct y; try done; repeat (case_match; try done); try (split; [|done]; by apply blind_update).
  - split; [|done]. apply blind_update. intros v s. unfold moveSelection.
    change (workspaceEvents x (setSecret v s)) with (workspaceEvents x s). by destruct (_ ≫= _).
  - unfold controlCommand. destruct (browserControlTarget x c), (controlData x c); try done.
    intros [e|r]; [done|]. split; [by apply blind_update|]. by intros o.
  - unfold browserControl. destruct (browserControlTarget x c), (controlData x c) as [l|]; try done.
    destruct (cl_lease_id l); [|done]. case_bool_decide; [done|].
    intros [e|r]; [done|]. cbn [mbind proc_bind].
    destruct (resp_error r), (resp_result r); repeat (split; [by apply blind_update|]); done.
  - intros [e|r]; [done|]. split; [by apply blind_update|]. by intros o.
Qed.

Lemma stageHandler_same s s' y :
  notSaving y → withoutSecret s = withoutSecret s' → withoutTyping y = y → handler s y = handler s' y.
Proof.
  intros Hy [v ->]%withoutSecret_inv Hw. destruct y as [x y]. by destruct y.
Qed.

(** [C17] The secret typed into the credential form leaves the component only with the
    request that stores it.  A run in which the form is not submitted has the same effects
    and pending calls, and but for that field the same state, when the secret's text is
    replaced by nothing; and when the submitted request is answered, accepted or not, the
    field is cleared. *)
Theorem secret_leaves_only_when_saved :
  (∀ xs w out, runs handler initialComputer xs w out → Forall (allowed notSaving anyAnswer) xs →
     ∃ w', runs handler initialComputer (redactInput withoutTyping <$> xs) w' out ∧
           withoutSecret (here w) = withoutSecret (here w') ∧ waiting w = waiting w') ∧
  (∀ x c s s' t (o : oracle), (run (saveCredential encodeURIComponent decodeURIComponent cookies x c) s).2 = Some t →
     (∀ r, ∃ response, o (Fetch r) = inr response) →
     ∃ notice, run (w_cont t (o (w_call t))) s' = (setControlNotice (Some notice) (setSecret [] s'), [], None)).
Proof.
  split.
  - intros xs w out Hr Hxs.
    destruct (runs_blind handler withoutSecret withoutTyping notSaving) with (s0 := initialComputer) (xs := xs)
      (w := w) (out := out) as (w' & Hw & H1 & H2 & _); [|done|done|by exists w'].
    intros s s' y Hy Hs.
    assert (Hcase : withoutTyping y = y ∨ ∃ x v, y = (x, SecretTyped v)).
    { destruct y as [x y]. destruct y; (by left) || (right; by eexists _, _). }
    destruct Hcase as [Hw|(x & v & ->)]; [|done].
    rewrite Hw, <- (stageHandler_same s s' y Hy Hs Hw). apply run_blind; [by apply stageHandler_blind|done].
  - intros x c s s' t o Ht Ho. unfold saveCredential in Ht. destruct (se_session x) as [l|]; [|done].
    destruct (encodeURIComponent l) as [session|],
      (stageCookie encodeURIComponent decodeURIComponent cookies csrf_cookie) as [csrf|]; try done.
    cbn [run mbind proc_bind fetch await snd] in Ht. apply (inj Some) in Ht. subst t.
    cbn [w_cont w_call]. destruct (Ho (credentialRequest session csrf c)) as [response ->]. by eexists.
Qed.
End Runs.
End Props.

(** ** Witnesses *)

Definition stage_payload (tool : string) (p : ComputerPhase) : json :=
  JObj ([(js "protocol_version", JStr (js COMPUTER_EVENT_VERSION));
         (js "tool_event_id", JStr (uuid "1")); (js "provider_tool_call_id", JStr (js "call"));
         (js "tool", JStr (js tool)); (js "operation", JStr (js "open"));
         (js "scope", JObj [(js "actor_id", JStr (uuid "a")); (js "agent_id", JStr (js "ion"));
                            (js "task_id", JStr (uuid "2"))]);
         (js "risk_class", JStr (js "GREEN")); (js "phase", JStr (js (phase_name p)));
         (js "timestamp", JStr (js "now")); (js "display_kind", JStr (js "page"));
         (js "source_references",
          JArr [JObj [(js "kind", JStr (js "tool_event")); (js "id", JStr (uuid "1"))]])]).

Definition stage_event (id : string) (seq : Z) (p : ComputerPhase) : EventEnvelope := {|
  ev_sequence := seq; ev_event_id := uuid id; ev_type := js (computerEventTypeByPhase p);
  ev_occurred_at := js "t"; ev_correlation := correlate None (Some (uuid "1"));
  ev_payload := stage_payload "browser_open" p |}.

Definition stage_env (l : list EventEnvelope) : StageEnv := {|
  se_session := Some (uuid "b"); se_connection := ReadyStatus;
  se_state := {| last_sequence := 9; gap := false; snapshot := None; recent_events := l; turns := [];
                 pending_approvals := []; computer_activities := []; computer_order := [] |} |}.

Definition event1 : EventEnvelope := stage_event "1" 1 requested.
Definition event2 : EventEnvelope := stage_event "2" 2 started.
Definition event3 : EventEnvelope := stage_event "3" 3 progress.

Definition stage_lease : ControlLease := {|
  cl_lease_id := Some (uuid "c"); cl_owner := JObj []; cl_owner_revision := 1; cl_state := LeaseActive;
  cl_authority := ByOperator; cl_revision := 4; cl_expires_at := None; cl_reconciliation := js "none" |}.

Lemma history_stays_where_it_is_witness :
  let x := stage_env [event1; event2] in
  let x' := stage_env [event1; event2; event3] in
  let c' := @selectEvent test_platform x event1 initialComputer in
  ev_event_id <$> @selectedEvent test_platform x' c' = Some (uuid "1") ∧
  (∃ y, @selectedEvent test_platform x c' = Some y ∧ ev_event_id y = ev_event_id event1 ∧
        if bool_decide (Some (ev_event_id event1) =
                        ev_event_id <$> last (@workspaceEvents test_platform x initialComputer))
        then followsLive c' = true ∧
             @selectedEvent test_platform x' c' = last (@workspaceEvents test_platform x' initialComputer)
        else followsLive c' = false ∧ @selectedEvent test_platform x' c' = Some y).
Proof.
  split; [vm_compute; reflexivity|].
  apply (@history_stays_where_it_is test_platform (stage_env [event1; event2]) (stage_env [event1; event2; event3])
           initialComputer event1 [event3]).
  - vm_compute. left.
  - vm_compute. reflexivity.
Defined.

Lemma timeline_keys_stay_in_the_history_witness :
  let x := stage_env [event1; event2] in
  ∃ e, @workspaceEvents test_platform x initialComputer !! 1 = Some e ∧
       @moveSelection test_platform x "ArrowDown" 1 initialComputer = @selectEvent test_platform x e initialComputer.
Proof.
  refine (@timeline_keys_stay_in_the_history test_platform (stage_env [event1; event2]) initialComputer "ArrowDown" 1 _).
  vm_compute. lia.
Defined.

Definition lease_session : list (input (StageEnv * StageInput)) :=
  let x := stage_env [event1; event2] in
  [Act (x, BrowserPressed Observe); Act (x, ControlLoaded (uuid "b", 2%Z) stage_lease);
   Act (x, BrowserPressed Observe)].

Lemma browser_actions_are_leased_witness :
  match play (@stageHandler test_platform Some Some []) lease_session (at_start initialComputer) [] with
  | Some (w, out) =>
      length out = 1 ∧
      Forall (λ e, ∀ r, e = Issued (Rpc r) → browserRequest r →
                ∃ env target l id, Act (env, ControlLoaded target l) ∈ lease_session ∧ underLease target l id r) out
  | None => False
  end.
Proof.
  assert (Hlen : (λ r : _ * list Effect, length r.2) <$>
            play (@stageHandler test_platform Some Some []) lease_session (at_start initialComputer) [] = Some 1)
    by (vm_compute; reflexivity).
  destruct (play _ _ _ _) as [[w out]|] eqn:Hp; [|discriminate Hlen].
  split; [by injection Hlen|].
  exact (@browser_actions_are_leased test_platform Some Some [] lease_session w out
           (play_reaches (@stageHandler test_platform Some Some []) initialComputer lease_session w out Hp)).
Defined.
