(* ===== verification/Desktop.v ===== *)
(** * The private desktop

    [ui/web/src/features/computer/PrivateDesktop.tsx]: the live picture of the desktop and
    the loop of timers that refreshes it, the control lease, the tickets for watching and
    for input, and the pointer, wheel and keyboard input that is sent.

    A query runs when the query library finds it due and enabled; its function is a
    handler here, and its last data is kept under its key.  [double] gives the number
    nearest to a rational. *)
From stdpp Require Import base list strings.
From Stdlib Require Import ZArith NArith QArith Qabs Qround Qminmax.
From S2P Require Import Prelude JsString JsValue JsArray Regex Catalog Protocol Display Envelope.
From S2P Require Import Events LocalClient Client Operator TuiFormat TuiApp Async Computer.
Local Open Scope nat_scope.

(** ** Data *)

Record DesktopCapability : Type := { dc_kind : jstr; dc_available : bool }.

Record DesktopStatus : Type := {
  ds_mode : jstr;
  ds_state : jstr;
  ds_width : Z;
  ds_height : Z;
  ds_capabilities : list DesktopCapability;
}.

Inductive TicketKind : Type := ViewTicket | InputTicket.

Inductive MouseButton : Type := LeftButton | RightButton | MiddleButton.
Inductive ScrollDirection : Type := ScrollUp | ScrollDown | ScrollLeft | ScrollRight.

(** A coordinate; [None] is [NaN]. *)
Definition coord : Type := option Q.

Inductive DesktopInput : Type :=
  | MoveInput (x y : coord)
  | ClickInput (x y : coord) (button : MouseButton) (count : Z)
  | ScrollInput (x y : coord) (direction : ScrollDirection) (amount : Z)
  | TypeInput (text : jstr)
  | KeyInput (key : string) (modifiers : list string)
  | HotkeyInput (keys : list string).

(** ** State *)

(** What a pending timer of the picture does. *)
Inductive FrameJob : Type := RefetchTicket | NextFrame.

Record Timer : Type := { tm_handle : nat; tm_job : FrameJob; tm_delay : Z }.

(** The key of an input ticket: session, lease and revision. *)
Definition ticketKey : Type := jstr * option jstr * option Z.

(** [dk_timers] are the window's pending timers; [dk_timer] is the handle the component
    remembers. *)
Record Desktop : Type := {
  dk_notice : option jstr;
  dk_nonce : nat;
  dk_ready : bool;
  dk_failures : nat;
  dk_timer : option nat;
  dk_timers : list Timer;
  dk_handles : nat;
  dk_pointer : Q;
  dk_mounted : bool;
  dk_status : option DesktopStatus;
  dk_statusError : option jstr;
  dk_control : list (jstr * ControlLease);
  dk_controlError : bool;
  dk_view : list (jstr * json);
  dk_input : list (ticketKey * json);
}.

Definition initialDesktop : Desktop := {|
  dk_notice := None; dk_nonce := 0; dk_ready := false; dk_failures := 0; dk_timer := None;
  dk_timers := []; dk_handles := 1; dk_pointer := 0%Q; dk_mounted := true; dk_status := None;
  dk_statusError := None; dk_control := []; dk_controlError := false; dk_view := []; dk_input := [] |}.

Definition setNotice v d : Desktop :=
  {| dk_notice := v; dk_nonce := dk_nonce d; dk_ready := dk_ready d; dk_failures := dk_failures d;
     dk_timer := dk_timer d; dk_timers := dk_timers d; dk_handles := dk_handles d;
     dk_pointer := dk_pointer d; dk_mounted := dk_mounted d; dk_status := dk_status d;
     dk_statusError := dk_statusError d; dk_control := dk_control d;
     dk_controlError := dk_controlError d; dk_view := dk_view d; dk_input := dk_input d |}.
Definition setFrame ready nonce failures d : Desktop :=
  {| dk_notice := dk_notice d; dk_nonce := nonce; dk_ready := ready; dk_failures := failures;
     dk_timer := dk_timer d; dk_timers := dk_timers d; dk_handles := dk_handles d;
     dk_pointer := dk_pointer d; dk_mounted := dk_mounted d; dk_status := dk_status d;
     dk_statusError := dk_statusError d; dk_control := dk_control d;
     dk_controlError := dk_controlError d; dk_view := dk_view d; dk_input := dk_input d |}.
Definition setFrameTimers timer timers handles d : Desktop :=
  {| dk_notice := dk_notice d; dk_nonce := dk_nonce d; dk_ready := dk_ready d;
     dk_failures := dk_failures d; dk_timer := timer; dk_timers := timers; dk_handles := handles;
     dk_pointer := dk_pointer d; dk_mounted := dk_mounted d; dk_status := dk_status d;
     dk_statusError := dk_statusError d; dk_control := dk_control d;
     dk_controlError := dk_controlError d; dk_view := dk_view d; dk_input := dk_input d |}.
Definition setPointer v d : Desktop :=
  {| dk_notice := dk_notice d; dk_nonce := dk_nonce d; dk_ready := dk_ready d;
     dk_failures := dk_failures d; dk_timer := dk_timer d; dk_timers := dk_timers d;
     dk_handles := dk_handles d; dk_pointer := v; dk_mounted := dk_mounted d;
     dk_status := dk_status d; dk_statusError := dk_statusError d; dk_control := dk_control d;
     dk_controlError := dk_controlError d; dk_view := dk_view d; dk_input := dk_input d |}.
Definition setUnmounted d : Desktop :=
  {| dk_notice := dk_notice d; dk_nonce := dk_nonce d; dk_ready := dk_ready d;
     dk_failures := dk_failures d; dk_timer := dk_timer d; dk_timers := dk_timers d;
     dk_handles := dk_handles d; dk_pointer := dk_pointer d; dk_mounted := false;
     dk_status := dk_status d; dk_statusError := dk_statusError d; dk_control := dk_control d;
     dk_controlError := dk_controlError d; dk_view := dk_view d; dk_input := dk_input d |}.
Definition setDesktopStatus status error d : Desktop :=
  {| dk_notice := dk_notice d; dk_nonce := dk_nonce d; dk_ready := dk_ready d;
     dk_failures := dk_failures d; dk_timer := dk_timer d; dk_timers := dk_timers d;
     dk_handles := dk_handles d; dk_pointer := dk_pointer d; dk_mounted := dk_mounted d;
     dk_status := status; dk_statusError := error; dk_control := dk_control d;
     dk_controlError := dk_controlError d; dk_view := dk_view d; dk_input := dk_input d |}.
Definition setControl control error d : Desktop :=
  {| dk_notice := dk_notice d; dk_nonce := dk_nonce d; dk_ready := dk_ready d;
     dk_failures := dk_failures d; dk_timer := dk_timer d; dk_timers := dk_timers d;
     dk_handles := dk_handles d; dk_pointer := dk_pointer d; dk_mounted := dk_mounted d;
     dk_status := dk_status d; dk_statusError := dk_statusError d; dk_control := control;
     dk_controlError := error; dk_view := dk_view d; dk_input := dk_input d |}.
Definition setTickets view input d : Desktop :=
  {| dk_notice := dk_notice d; dk_nonce := dk_nonce d; dk_ready := dk_ready d;
     dk_failures := dk_failures d; dk_timer := dk_timer d; dk_timers := dk_timers d;
     dk_handles := dk_handles d; dk_pointer := dk_pointer d; dk_mounted := dk_mounted d;
     dk_status := dk_status d; dk_statusError := dk_statusError d; dk_control := dk_control d;
     dk_controlError := dk_controlError d; dk_view := view; dk_input := input |}.

(** The properties and the operator the component is rendered with. *)
Record DesktopEnv : Type := { de_active : bool; de_session : option jstr }.

(** ** Timers *)

Definition frameRetryDelay (failures : Z) : Z := Z.min 10000 (500 * 2 ^ Z.min (Z.max failures 0) 5).

Definition clearTimeout (h : nat) (l : list Timer) : list Timer :=
  List.filter (λ t, negb (tm_handle t =? h)%nat) l.

(** [if (frameTimer.current !== undefined) window.clearTimeout(frameTimer.current)]. *)
Definition clearFrameTimer (d : Desktop) : Desktop :=
  match dk_timer d with
  | None => d
  | Some h => setFrameTimers (Some h) (clearTimeout h (dk_timers d)) (dk_handles d) d
  end.

(** [frameTimer.current = window.setTimeout(…, delay)]. *)
Definition setFrameTimer (job : FrameJob) (delay : Z) (d : Desktop) : Desktop :=
  setFrameTimers (Some (dk_handles d))
    (dk_timers d ++ [{| tm_handle := dk_handles d; tm_job := job; tm_delay := delay |}])
    (S (dk_handles d)) d.

(** [onError] and [onLoad] of the picture. *)
Definition frameFailed (d : Desktop) : Desktop :=
  let d := setNotice (Some (js "Desktop frame interrupted. Reconnecting."))
             (setFrame false (dk_nonce d) (dk_failures d) d) in
  let d := clearFrameTimer d in
  let delay := frameRetryDelay (Z.of_nat (dk_failures d)) in
  setFrameTimer RefetchTicket delay (setFrame (dk_ready d) (dk_nonce d) (dk_failures d + 1) d).

Definition frameLoad (d : Desktop) : Desktop :=
  setFrameTimer NextFrame 250 (clearFrameTimer (setFrame true (dk_nonce d) 0 d)).

(** The effect on [active], when it is false. *)
Definition deactivated (d : Desktop) : Desktop :=
  let d := setNotice None (setFrame false (dk_nonce d) 0 d) in
  match dk_timer d with
  | None => d
  | Some h => setFrameTimers None (clearTimeout h (dk_timers d)) (dk_handles d) d
  end.

Definition frameUnmounted (d : Desktop) : Desktop := clearFrameTimer (setUnmounted d).

Section Surroundings.
Context `{Platform}.
Variable encodeURIComponent decodeURIComponent : jstr → option jstr.
(** [document.cookie]. *)
Variable cookies : jstr.
Variable double : Q → num.

(** ** Tickets *)

Definition desktopCookie (name : jstr) : option jstr := readCookie decodeURIComponent (Some cookies) name.

Definition ticketKindName (k : TicketKind) : string := match k with ViewTicket => "view" | InputTicket => "input" end.

Definition jsonHeaders (csrf : jstr) : list (jstr * jstr) :=
  [(js "Accept", js "application/json"); (js "Content-Type", js "application/json"); (js "X-Ion-CSRF", csrf)].

Definition ticketRequest (kind : TicketKind) (session : jstr) (lease : option jstr) (revision : option Z)
    (csrf : jstr) : HttpRequest := {|
  http_url := js "/v1/computer/ticket"; http_method := js "POST"; http_headers := jsonHeaders csrf;
  http_body := Some (stringify (JObj ([(js "kind", JStr (js (ticketKindName kind))); (js "session_id", JStr session)]
                 ++ Client.field "lease_id" (JStr <$> lease)
                 ++ Client.field "lease_revision" ((λ r, JNum (num_of_Z r)) <$> revision)))) |}.

(** A member of the answer; reading one of [null] throws. *)
Definition memberOf (name : string) (v : json) : proc Desktop (option json) :=
  match v with
  | JNull => throw (mkError (js "Cannot read properties of null"))
  | _ => mret (get name v)
  end.

Definition issueTicket (kind : TicketKind) (session lease : option jstr) (revision : option Z) : proc Desktop json :=
  match session with
  | None => throw (mkError (js "A conversation is required"))
  | Some session =>
      match desktopCookie csrf_cookie with
      | None => throw uriError
      | Some csrf =>
          response ← fetch (ticketRequest kind session lease revision csrf);
          result ← bodyJSON response;
          if hr_ok response then mret result
          else e ← memberOf "error" result;
               throw (mkError (default (js "Desktop ticket is unavailable") (asString e)))
      end
  end.

Definition controlOf (x : DesktopEnv) (d : Desktop) : option ControlLease :=
  s ← de_session x; assoc_get s (dk_control d).

Definition ownsControl (l : ControlLease) : bool :=
  bool_decide (cl_state l = LeaseActive) && bool_decide (cl_authority l = ByOperator).

Definition operatorOwnsControl (x : DesktopEnv) (d : Desktop) : bool :=
  match controlOf x d with Some l => ownsControl l | None => false end.

Definition viewTicketEnabled (x : DesktopEnv) (d : Desktop) : bool :=
  de_active x && bool_decide (ds_state <$> dk_status d = Some (js "ready")) && bool_decide (is_Some (de_session x)).

Definition inputKey (x : DesktopEnv) (d : Desktop) : option ticketKey :=
  s ← de_session x; Some (s, controlOf x d ≫= cl_lease_id, cl_revision <$> controlOf x d).

Definition inputTicketEnabled (x : DesktopEnv) (d : Desktop) : bool :=
  de_active x && operatorOwnsControl x d &&
  match controlOf x d with Some l => bool_decide (is_Some (cl_lease_id l)) | None => false end.

(** [inputTicket.data?.ticket] and [viewTicket.data?.ticket]. *)
Definition inputTicket (x : DesktopEnv) (d : Desktop) : option jstr :=
  k ← inputKey x d; v ← assoc_get k (dk_input d); asString (get "ticket" v).
Definition viewTicket (x : DesktopEnv) (d : Desktop) : option jstr :=
  s ← de_session x; v ← assoc_get s (dk_view d); asString (get "ticket" v).

Definition frameURL (x : DesktopEnv) (d : Desktop) : option jstr :=
  t ← viewTicket x d; e ← encodeURIComponent t;
  Some (js "/v1/computer/frame?ticket=" ++ e ++ js "&frame=" ++ num_toString (num_of_Z (Z.of_nat (dk_nonce d)))).

(** ** The queries *)

Definition statusRequest : HttpRequest := {|
  http_url := js "/v1/computer/status"; http_method := js "GET";
  http_headers := [(js "Accept", js "application/json")]; http_body := None |}.

(** [parseStatus] reads the members of the body by their declared types. *)
Variable parseStatus : json → DesktopStatus.
Variable parseLease : json → ControlLease.

Definition statusQuery : proc Desktop unit :=
  try_catch
    (response ← fetch statusRequest;
     result ← bodyJSON response;
     if hr_ok response then setState (setDesktopStatus (Some (parseStatus result)) None)
     else e ← memberOf "reason" result;
          throw (mkError (default (js "Private Computer is unavailable") (asString e))))
    (λ e, setState (λ d, setDesktopStatus (dk_status d) (Some (error_message e)) d)).

Definition controlQuery (session : jstr) : proc Desktop unit :=
  try_catch
    (response ← rpc query "computer.control.get"
       (JObj [(js "resource_kind", JStr (js "desktop")); (js "resource_id", JStr session);
              (js "target_revision", JNum (num_of_Z 1))]) (Some session);
     match resp_error response, resp_result response with
     | None, Some result => setState (λ d, setControl (assoc_set session (parseLease result) (dk_control d)) false d)
     | _, _ => throw (mkError (errorText "Desktop control is unavailable" response))
     end)
    (λ _, setState (λ d, setControl (dk_control d) true d)).

Definition viewTicketQuery (session : jstr) : proc Desktop unit :=
  try_catch
    (ticket ← issueTicket ViewTicket (Some session) None None;
     setState (λ d, setTickets (assoc_set session ticket (dk_view d)) (dk_input d) d))
    (λ _, skip).

Definition inputTicketQuery (k : ticketKey) : proc Desktop unit :=
  try_catch
    (ticket ← issueTicket InputTicket (Some k.1.1) k.1.2 k.2;
     setState (λ d, setTickets (dk_view d) (assoc_set k ticket (dk_input d)) d))
    (λ _, skip).

(** A timer whose time has come; fetching a query again does not ask whether it is
    enabled. *)
Definition timerFired (x : DesktopEnv) (h : nat) (d : Desktop) : proc Desktop unit :=
  match find (λ t, (tm_handle t =? h)%nat) (dk_timers d) with
  | None => skip
  | Some t =>
      setState (λ d, setFrameTimers None (clearTimeout h (dk_timers d)) (dk_handles d) d);;
      match tm_job t with
      | NextFrame => setState (λ d, setFrame (dk_ready d) (dk_nonce d + 1) (dk_failures d) d)
      | RefetchTicket => match de_session x with Some s => viewTicketQuery s | None => skip end
      end
  end.

(** ** Control *)

Definition desktopPayload (op : ControlOp) (session : jstr) (l : ControlLease) : json :=
  let target := [(js "resource_kind", JStr (js "desktop")); (js "resource_id", JStr session);
                 (js "target_revision", JNum (num_of_Z (if (cl_owner_revision l =? 0)%Z then 1 else cl_owner_revision l)))] in
  JObj match op with
       | Acquire => target ++ [(js "owner", cl_owner l);
                               (js "expected_lease_revision", JNum (num_of_Z (cl_revision l))); ttl]
       | Renew => target ++ leaseFields l ++ [ttl]
       | Release => target ++ leaseFields l
       end.

Definition desktopDone (op : ControlOp) : string :=
  match op with
  | Acquire => "You have control. Ion is paused at the desktop action boundary."
  | Renew => "Desktop control renewed."
  | Release => "Control returned to Ion."
  end.

Definition runControl (x : DesktopEnv) (op : ControlOp) (d : Desktop) : proc Desktop unit :=
  match de_session x, controlOf x d with
  | Some session, Some l =>
      response ← rpc command (controlOperation op) (desktopPayload op session l) (Some session);
      match resp_error response with
      | Some e => setState (setNotice (Some (err_message e)))
      | None => setState (setNotice (Some (js (desktopDone op))));; refetch ["control"%string]
      end
  | _, _ => skip
  end.

(** ** Input *)

Definition buttonName (b : MouseButton) : string :=
  match b with LeftButton => "left" | RightButton => "right" | MiddleButton => "middle" end.
Definition directionName (s : ScrollDirection) : string :=
  match s with ScrollUp => "up" | ScrollDown => "down" | ScrollLeft => "left" | ScrollRight => "right" end.

(** [JSON.stringify] writes [NaN] as [null]. *)
Definition inputJSON (i : DesktopInput) : json :=
  let kind (k : string) := (js "kind", JStr (js k)) in
  let number (v : coord) := match v with Some v => JNum (double v) | None => JNull end in
  let at_ (x y : coord) := [(js "x", number x); (js "y", number y)] in
  let strings (l : list string) := JArr (map (λ s, JStr (js s)) l) in
  JObj match i with
       | MoveInput x y => kind "move" :: at_ x y
       | ClickInput x y b n => kind "click" :: at_ x y ++ [(js "button", JStr (js (buttonName b)));
                                                           (js "count", JNum (num_of_Z n))]
       | ScrollInput x y s n => kind "scroll" :: at_ x y ++ [(js "direction", JStr (js (directionName s)));
                                                             (js "amount", JNum (num_of_Z n))]
       | TypeInput t => [kind "type"; (js "text", JStr t)]
       | KeyInput k m => [kind "key"; (js "key", JStr (js k)); (js "modifiers", strings m)]
       | HotkeyInput l => [kind "hotkey"; (js "keys", strings l)]
       end.

Definition inputRequest (ticket csrf : jstr) (i : DesktopInput) : HttpRequest := {|
  http_url := js "/v1/computer/input?ticket=" ++ ticket; http_method := js "POST";
  http_headers := jsonHeaders csrf; http_body := Some (stringify (inputJSON i)) |}.

Definition sendInput (x : DesktopEnv) (i : DesktopInput) (d : Desktop) : proc Desktop unit :=
  match inputTicket x d with
  | None => skip
  | Some ticket =>
      match encodeURIComponent ticket, desktopCookie csrf_cookie with
      | Some ticket, Some csrf =>
          response ← fetch (inputRequest ticket csrf i);
          if hr_ok response then skip
          else
            setState (setNotice (Some (js (if (hr_status response =? 409)%Z
              then "Desktop control changed. Reconnecting authority before accepting input."
              else "Desktop input was rejected."))));;
            refetch ["control"%string; "input-ticket"%string]
      | _, _ => throw uriError
      end
  end.

(** The pointer, and the rectangle of the element it is over. *)
Record PointerAt : Type := {
  pt_clientX : Q; pt_clientY : Q;
  pt_left : Q; pt_top : Q; pt_width : Q; pt_height : Q;
}.

(** [Math.max(0, Math.min(size - 1, ((client - start) / extent) * size))].  Over an element
    without extent the quotient is infinite, or [NaN] for a pointer at its start. *)
Definition coordinate (size : Z) (client start extent : Q) : coord :=
  let offset := (client - start)%Q in
  if Qeq_bool extent 0 then
    match (offset ?= 0)%Q, (size ?= 0)%Z with
    | Eq, _ | _, Eq => None
    | Gt, Gt | Lt, Lt => Some (Qmax 0 (inject_Z size - 1))
    | Gt, Lt | Lt, Gt => Some 0%Q
    end
  else Some (Qmax 0 (Qmin (inject_Z size - 1) (offset / extent * inject_Z size)))%Q.

Definition coordinates (p : PointerAt) (d : Desktop) : coord * coord :=
  (coordinate (default 1%Z (ds_width <$> dk_status d)) (pt_clientX p) (pt_left p) (pt_width p),
   coordinate (default 1%Z (ds_height <$> dk_status d)) (pt_clientY p) (pt_top p) (pt_height p)).

Definition wheelAmount (delta : Q) : Z := Z.max 1 (Z.min 20 (Qceiling (Qabs delta / 40)%Q)).

Definition desktopKeys : list (string * string) :=
    [("ArrowDown", "down"); ("ArrowLeft", "left"); ("ArrowRight", "right"); ("ArrowUp", "up");
     ("Backspace", "backspace"); ("Delete", "delete"); ("End", "end"); ("Enter", "enter");
     ("Escape", "esc"); ("Home", "home"); ("PageDown", "pagedown"); ("PageUp", "pageup");
     ("Tab", "tab")]%string.

Definition desktopKey (key : jstr) : option string := assoc_get key (map (λ p, (js p.1, p.2)) desktopKeys).

Record KeyPress : Type := { kp_key : jstr; kp_ctrl : bool; kp_alt : bool; kp_shift : bool; kp_meta : bool }.

Definition keyModifiers (k : KeyPress) : list string :=
  (if kp_ctrl k then ["ctrl"%string] else []) ++ (if kp_alt k then ["alt"%string] else []) ++
  (if kp_shift k then ["shift"%string] else []) ++ (if kp_meta k then ["meta"%string] else []).

(** ** The component *)

Definition streamAvailable (d : Desktop) : bool :=
  match dk_status d with
  | Some s => existsb (λ c, jeqb (dc_kind c) (js "desktop_stream") && dc_available c) (ds_capabilities s)
  | None => false
  end.

(** What is rendered: a message, or the live desktop. *)
Inductive DesktopScreen : Type :=
  | DesktopMessage (title detail : jstr)
  | LiveDesktop.

Definition desktopScreen (x : DesktopEnv) (d : Desktop) : DesktopScreen :=
  match de_session x with
  | None => DesktopMessage (js "Choose a conversation to open Computer")
              (js "Start or open a conversation so the desktop can be bound to an authenticated session.")
  | Some _ =>
      match dk_status d, dk_statusError d with
      | None, None => DesktopMessage (js "Starting Computer")
                        (js "Connecting to the private desktop host and checking the real frame path.")
      | _, Some e => DesktopMessage (js "Computer unavailable") e
      | Some _, None =>
          if streamAvailable d then LiveDesktop
          else DesktopMessage (js "Computer unavailable")
                 (js "The host did not provide an authenticated desktop stream.")
      end
  end.

Definition liveShown (x : DesktopEnv) (d : Desktop) : bool :=
  dk_mounted d && match desktopScreen x d with LiveDesktop => true | _ => false end.

(** The picture is there once there is a ticket for it. *)
Definition frameShown (x : DesktopEnv) (d : Desktop) : bool :=
  liveShown x d && bool_decide (is_Some (frameURL x d)).

Definition controlButton (x : DesktopEnv) (op : ControlOp) (d : Desktop) : bool :=
  liveShown x d &&
  match op with
  | Renew | Release => operatorOwnsControl x d
  | Acquire => negb (operatorOwnsControl x d) && bool_decide (is_Some (controlOf x d)) && negb (dk_controlError d)
  end.

(** A query is due when it is enabled, or [forced] by a handler that fetches it again. *)
Inductive DesktopEvent : Type :=
  | Deactivated | Unmounted
  | StatusDue
  | ControlDue (forced : bool)
  | ViewTicketDue
  | InputTicketDue (forced : bool)
  | ControlClicked (op : ControlOp)
  | ContextMenu (p : PointerAt)
  | PointerDown (p : PointerAt) (button detail : Z)
  | PointerMove (p : PointerAt) (now : Q)
  | Wheel (p : PointerAt) (deltaX deltaY : Q)
  | KeyDown (k : KeyPress)
  | FrameErrored | FrameLoaded
  | TimerDue (h : nat).

(** What the pointer and the keys send to the desktop. *)
Definition contextMenu (x : DesktopEnv) (p : PointerAt) (d : Desktop) : proc Desktop unit :=
  let '(a, b) := coordinates p d in sendInput x (ClickInput a b RightButton 1) d.

Definition desktopPointerDown (x : DesktopEnv) (p : PointerAt) (button detail : Z) (d : Desktop) : proc Desktop unit :=
  let '(a, b) := coordinates p d in
  sendInput x (ClickInput a b (if (button =? 2)%Z then RightButton else if (button =? 1)%Z then MiddleButton else LeftButton)
                 (if (1 <? detail)%Z then 2 else 1)) d.

Definition desktopPointerMove (x : DesktopEnv) (p : PointerAt) (now : Q) (d : Desktop) : proc Desktop unit :=
  if Qle_bool 50 (now - dk_pointer d) then
    setState (setPointer now);; let '(a, b) := coordinates p d in sendInput x (MoveInput a b) d
  else skip.

Definition wheel (x : DesktopEnv) (p : PointerAt) (deltaX deltaY : Q) (d : Desktop) : proc Desktop unit :=
  let horizontal := negb (Qle_bool (Qabs deltaX) (Qabs deltaY)) in
  let delta := if horizontal then deltaX else deltaY in
  let negative := negb (Qle_bool 0 delta) in
  let direction := if horizontal then (if negative then ScrollLeft else ScrollRight)
                   else (if negative then ScrollUp else ScrollDown) in
  let '(a, b) := coordinates p d in sendInput x (ScrollInput a b direction (wheelAmount delta)) d.

Definition keyDown (x : DesktopEnv) (k : KeyPress) (d : Desktop) : proc Desktop unit :=
  if (length (kp_key k) =? 1)%nat && negb (kp_ctrl k) && negb (kp_meta k) && negb (kp_alt k)
  then sendInput x (TypeInput (kp_key k)) d
  else match desktopKey (kp_key k) with
       | None => skip
       | Some key => sendInput x (KeyInput key (keyModifiers k)) d
       end.

Definition whenOwned (x : DesktopEnv) (d : Desktop) (p : proc Desktop unit) : proc Desktop unit :=
  if liveShown x d && operatorOwnsControl x d then p else skip.

Definition desktopHandler (d : Desktop) (y : DesktopEnv * DesktopEvent) : proc Desktop unit :=
  let x := y.1 in
  match y.2 with
  | Deactivated => if de_active x then skip else setState deactivated
  | Unmounted => setState frameUnmounted
  | StatusDue => if de_active x then statusQuery else skip
  | ControlDue forced => match de_session x with
                         | Some s => if de_active x || forced then controlQuery s else skip
                         | None => skip
                         end
  | ViewTicketDue => match de_session x with
                     | Some s => if viewTicketEnabled x d then viewTicketQuery s else skip
                     | None => skip
                     end
  | InputTicketDue forced => match inputKey x d with
                             | Some k => if inputTicketEnabled x d || forced then inputTicketQuery k else skip
                             | None => skip
                             end
  | ControlClicked op => if controlButton x op d then runControl x op d else skip
  | ContextMenu p => whenOwned x d (contextMenu x p d)
  | PointerDown p button detail => whenOwned x d (desktopPointerDown x p button detail d)
  | PointerMove p now => whenOwned x d (desktopPointerMove x p now d)
  | Wheel p deltaX deltaY => whenOwned x d (wheel x p deltaX deltaY d)
  | KeyDown k => whenOwned x d (keyDown x k d)
  | FrameErrored => if frameShown x d then setState frameFailed else skip
  | FrameLoaded => if frameShown x d then setState frameLoad else skip
  | TimerDue h => timerFired x h d
  end.
End Surroundings.
