(* ===== verification/DesktopProps.v ===== *)
(** * What the private desktop guarantees

    Claims about [Desktop]: the timers of the picture, the tickets behind the input that is
    sent, the range of what is sent, and two faults. *)
From stdpp Require Import base sets list strings.
From Stdlib Require Import ZArith NArith QArith Qabs Qround Qminmax Lqa.
From S2P Require Import Prelude JsString JsValue JsArray Regex Catalog Protocol Display Envelope.
From S2P Require Import Events EventsFacts Store EventsProps LocalClient Client Operator TuiFormat TuiApp.
From S2P Require Import Async Computer Desktop.
Local Open Scope nat_scope.

(** ** The timers of the picture *)

(** A retry waits between half a second and ten, the next picture a quarter of a second. *)
Definition delayOk (t : Timer) : Prop :=
  match tm_job t with NextFrame => tm_delay t = 250%Z | RefetchTicket => (500 ≤ tm_delay t ≤ 10000)%Z end.

(** At most one timer is pending; it is the remembered one, and its delay is in range. *)
Definition oneTimer (d : Desktop) : Prop :=
  dk_timers d = [] ∨
  ∃ t, dk_timers d = [t] ∧ dk_timer d = Some (tm_handle t) ∧ delayOk t.

Lemma frameRetryDelay_cases n :
  frameRetryDelay n = (if n <=? 0 then 500 else if n <? 5 then 500 * 2 ^ n else 10000)%Z.
Proof.
  unfold frameRetryDelay. destruct (Z.leb_spec n 0) as [Hn|Hn].
  { by rewrite Z.max_r by lia. }
  destruct (Z.ltb_spec n 5).
  - assert (n = 1 ∨ n = 2 ∨ n = 3 ∨ n = 4)%Z as [-> | [-> | [-> | ->]]] by lia; reflexivity.
  - by rewrite Z.max_l, (Z.min_r n 5) by lia.
Qed.

Lemma frameRetryDelay_range n : (500 ≤ frameRetryDelay n ≤ 10000)%Z.
Proof.
  rewrite frameRetryDelay_cases. destruct (n <=? 0)%Z eqn:Hn; [lia|]. destruct (n <? 5)%Z eqn:H5; [|lia].
  apply Z.leb_gt in Hn. apply Z.ltb_lt in H5.
  assert (n = 1 ∨ n = 2 ∨ n = 3 ∨ n = 4)%Z as [-> | [-> | [-> | ->]]] by lia; lia.
Qed.

Lemma clear_own t : clearTimeout (tm_handle t) [t] = [].
Proof. unfold clearTimeout. cbn [List.filter]. by rewrite Nat.eqb_refl. Qed.

Lemma clearFrameTimer_none d : oneTimer d → dk_timers (clearFrameTimer d) = [].
Proof.
  unfold clearFrameTimer. intros [Hd|(t & Ht & Hh & _)].
  - by destruct (dk_timer d); [cbn; rewrite Hd|].
  - rewrite Hh, Ht. apply clear_own.
Qed.

Lemma setFrameTimer_one job delay d :
  dk_timers d = [] → delayOk {| tm_handle := dk_handles d; tm_job := job; tm_delay := delay |} →
  oneTimer (setFrameTimer job delay d).
Proof. intros Hd Hok. right. eexists. unfold setFrameTimer. cbn. by rewrite Hd. Qed.

Lemma frameError_one d : oneTimer d → oneTimer (frameFailed d).
Proof.
  intros Hd. apply setFrameTimer_one; [|apply frameRetryDelay_range].
  by apply (clearFrameTimer_none (setNotice _ (setFrame false _ _ d))).
Qed.

Lemma frameLoad_one d : oneTimer d → oneTimer (frameLoad d).
Proof. intros Hd. apply setFrameTimer_one; [|done]. by apply (clearFrameTimer_none (setFrame true _ _ d)). Qed.

Lemma deactivated_none d : oneTimer d → dk_timers (deactivated d) = [].
Proof.
  unfold deactivated. intros [Hd|(t & Ht & Hh & _)]; cbn.
  - destruct (dk_timer d); cbn; by rewrite ?Hd.
  - rewrite Hh. cbn. rewrite Ht. apply clear_own.
Qed.

Lemma fired_one h d : oneTimer d → oneTimer (setFrameTimers None (clearTimeout h (dk_timers d)) (dk_handles d) d) ∨
                      (∃ t, dk_timers d = [t] ∧ tm_handle t ≠ h).
Proof.
  intros [Hd|(t & Ht & Hh & _)]; [left; left; cbn; by rewrite Hd|].
  destruct (decide (tm_handle t = h)) as [<-|]; [|by right; exists t].
  left; left. cbn. rewrite Ht. apply clear_own.
Qed.

Section Props.
Context `{Platform}.
Variable encodeURIComponent decodeURIComponent : jstr → option jstr.
Variable cookies : jstr.
Variable double : Q → num.
Variable parseStatus : json → DesktopStatus.
Variable parseLease : json → ControlLease.
Let handler := desktopHandler encodeURIComponent decodeURIComponent cookies double parseStatus parseLease.

(** ** Queries keep what they do not load *)

Section Quiet.
Variable I : Desktop → Prop.
Variable Q : Effect → Prop.
Variable R : ∀ c : call, Error + answer c → Prop.
Hypothesis Q_escaped : ∀ e, Q (Escaped e).

Lemma safe_update f : (∀ d, I d → I (f d)) → safe I Q R (setState f).
Proof. done. Qed.

Lemma safe_json r : safe I Q R (bodyJSON r).
Proof. unfold bodyJSON. by destruct (hr_json r); [|apply Q_escaped]. Qed.

Lemma safe_member name v : safe I Q R (memberOf name v).
Proof. destruct v; try done. apply Q_escaped. Qed.

Lemma safe_statusQuery :
  Q (Issued (Fetch statusRequest)) → (∀ e d, I d → I (setDesktopStatus (dk_status d) e d)) →
  (∀ r v d, R (Fetch statusRequest) (inr r) → hr_ok r = true → hr_json r = Some v → I d →
     I (setDesktopStatus (Some (parseStatus v)) None d)) →
  safe I Q R (statusQuery parseStatus).
Proof.
  intros HQ He HI. apply safe_try_catch; [|intros e; apply safe_update; auto]. split; [done|].
  intros [e|r] Hr; [apply Q_escaped|]. cbn [mbind proc_bind]. unfold bodyJSON.
  destruct (hr_json r) as [v|] eqn:Hv; [|apply Q_escaped]. cbn [mbind proc_bind].
  destruct (hr_ok r) eqn:Hok; [apply safe_update; eauto|].
  apply safe_bind; [apply safe_member|]. intros e. apply Q_escaped.
Qed.

Lemma safe_issueTicket {A} kind session lease revision (k : json → proc Desktop A) :
  (∀ csrf, Q (Issued (Fetch (ticketRequest kind session lease revision csrf)))) →
  (∀ csrf r v, R (Fetch (ticketRequest kind session lease revision csrf)) (inr r) →
     hr_ok r = true → hr_json r = Some v → safe I Q R (k v)) →
  safe I Q R (issueTicket decodeURIComponent cookies kind (Some session) lease revision ≫= k).
Proof.
  intros HQ Hk. unfold issueTicket. destruct (desktopCookie _ _ _) as [csrf|]; [|apply Q_escaped].
  split; [apply HQ|]. intros [e|r] Hr; [apply Q_escaped|]. cbn [mbind proc_bind]. unfold bodyJSON.
  destruct (hr_json r) as [v|] eqn:Hv; [|apply Q_escaped]. cbn [mbind proc_bind].
  destruct (hr_ok r) eqn:Hok; [by eapply Hk|]. destruct v; apply Q_escaped.
Qed.

Lemma safe_viewTicketQuery session :
  (∀ csrf, Q (Issued (Fetch (ticketRequest ViewTicket session None None csrf)))) →
  (∀ v d, I d → I (setTickets (assoc_set session v (dk_view d)) (dk_input d) d)) →
  safe I Q R (viewTicketQuery decodeURIComponent cookies session).
Proof.
  intros HQ HI. apply safe_try_catch; [|done]. apply safe_issueTicket; [done|]. intros csrf r v _ _ _.
  apply safe_update. auto.
Qed.

Lemma safe_inputTicketQuery k :
  (∀ csrf, Q (Issued (Fetch (ticketRequest InputTicket k.1.1 k.1.2 k.2 csrf)))) →
  (∀ csrf r v d, R (Fetch (ticketRequest InputTicket k.1.1 k.1.2 k.2 csrf)) (inr r) → hr_ok r = true →
     hr_json r = Some v → I d → I (setTickets (dk_view d) (assoc_set k v (dk_input d)) d)) →
  safe I Q R (inputTicketQuery decodeURIComponent cookies k).
Proof.
  intros HQ HI. apply safe_try_catch; [|done]. apply safe_issueTicket; [done|]. intros csrf r v Hr Hok Hv.
  apply safe_update. eauto.
Qed.

Definition controlRequest (session : jstr) : Request := {|
  rq_kind := query; rq_operation := js "computer.control.get";
  rq_payload := JObj [(js "resource_kind", JStr (js "desktop")); (js "resource_id", JStr session);
                      (js "target_revision", JNum (num_of_Z 1))];
  rq_session := Some (JStr session) |}.

Lemma safe_controlQuery session :
  Q (Issued (Rpc (controlRequest session))) → (∀ l d, I d → I (setControl (dk_control d) l d)) →
  (∀ r result d, R (Rpc (controlRequest session)) (inr r) → resp_error r = None → resp_result r = Some result →
     I d → I (setControl (assoc_set session (parseLease result) (dk_control d)) false d)) →
  safe I Q R (controlQuery parseLease session).
Proof.
  intros HQ He Hl. apply safe_try_catch; [|intros e; apply safe_update; auto]. split; [done|].
  intros [e|r] Hr; [apply Q_escaped|]. cbn [mbind proc_bind].
  destruct (resp_error r) eqn:Herr; [apply Q_escaped|]. destruct (resp_result r) as [v|] eqn:Hres; [|apply Q_escaped].
  apply safe_update. eauto.
Qed.

Lemma safe_runControl x op d :
  (∀ op session p, Q (Issued (Rpc {| rq_kind := command; rq_operation := js (controlOperation op); rq_payload := p;
                                     rq_session := session |}))) →
  (∀ l, Q (Issued (Refetch l))) → (∀ n d, I d → I (setNotice n d)) → safe I Q R (runControl x op d).
Proof.
  intros HQ Hf Hn. unfold runControl. destruct (de_session x), (controlOf x d); try done.
  split; [apply HQ|]. intros [e|r] _; [apply Q_escaped|]. cbn [mbind proc_bind].
  destruct (resp_error r); [by apply safe_update, Hn|]. split; [apply Hn|]. split; [apply Hf|done].
Qed.

Lemma safe_sendInput x i d :
  (∀ ticket enc csrf, inputTicket x d = Some ticket → encodeURIComponent ticket = Some enc →
     Q (Issued (Fetch (inputRequest double enc csrf i)))) →
  (∀ l, Q (Issued (Refetch l))) → (∀ n d, I d → I (setNotice n d)) →
  safe I Q R (sendInput encodeURIComponent decodeURIComponent cookies double x i d).
Proof.
  intros HQ Hf Hn. unfold sendInput. destruct (inputTicket x d) as [ticket|] eqn:Ht; [|done].
  destruct (encodeURIComponent ticket) as [enc|] eqn:Henc; [|apply Q_escaped].
  destruct (desktopCookie _ _ _) as [csrf|]; [|apply Q_escaped]. split; [by eapply HQ|].
  intros [e|r] _; [apply Q_escaped|]. cbn [mbind proc_bind]. destruct (hr_ok r); [done|].
  split; [apply Hn|]. split; [apply Hf|done].
Qed.
End Quiet.

(** ** One timer *)

Definition anyEffect (e : Effect) : Prop := True.

Lemma timerFired_keeps x h d :
  oneTimer d → keeps oneTimer anyEffect anyAnswer (timerFired decodeURIComponent cookies x h d) d.
Proof.
  intros Hd. unfold timerFired. destruct (find _ (dk_timers d)) as [t|] eqn:Hf; [|done].
  apply List.find_some in Hf as [Hin Hh]. apply Nat.eqb_eq in Hh. cbn [mbind proc_bind setState keeps].
  destruct (fired_one h d Hd) as [Hone|(t' & Ht' & Hne)].
  - apply safe_keeps; [|done]. destruct (tm_job t).
    + destruct (de_session x) as [session|]; [|done].
      by apply safe_viewTicketQuery.
    + by apply safe_update.
  - rewrite Ht' in Hin. destruct Hin as [->|[]]. by destruct Hne.
Qed.

Lemma whenOwned_safe I Q R x d p : safe I Q R p → safe I Q R (whenOwned x d p).
Proof. unfold whenOwned. by destruct (_ && _). Qed.

Lemma sendInput_quiet x i d :
  safe oneTimer anyEffect anyAnswer (sendInput encodeURIComponent decodeURIComponent cookies double x i d).
Proof. by apply safe_sendInput. Qed.

Lemma desktopHandler_one d y : oneTimer d → keeps oneTimer anyEffect anyAnswer (handler d y) d.
Proof.
  destruct y as [x y]. intros Hd. unfold handler, desktopHandler. cbn [fst snd].
  destruct y as [| | |forced| |forced|op|p|p b n|p now|p dx dy|k| | |h];
    try (by apply timerFired_keeps); (apply safe_keeps; [|done]); try (apply whenOwned_safe, sendInput_quiet).
  - destruct (de_active x); [done|]. apply safe_update. intros d' Hd'. left. by apply deactivated_none.
  - apply safe_update. intros d' Hd'. left. by apply (clearFrameTimer_none (setUnmounted d')).
  - destruct (de_active x); [|done]. by apply safe_statusQuery.
  - destruct (de_session x); [|done]. destruct (de_active x || forced); [|done].
    by apply safe_controlQuery.
  - destruct (de_session x); [|done]. destruct (viewTicketEnabled x d); [|done].
    by apply safe_viewTicketQuery.
  - destruct (inputKey x d) as [k|]; [|done]. destruct (inputTicketEnabled x d || forced); [|done].
    by apply safe_inputTicketQuery.
  - destruct (controlButton x op d); [|done]. by apply safe_runControl.
  - apply whenOwned_safe. unfold desktopPointerMove. destruct (Qle_bool _ _); [|done].
    split; [done|apply sendInput_quiet].
  - apply whenOwned_safe. unfold keyDown. destruct (_ && _); [apply sendInput_quiet|].
    destruct (desktopKey (kp_key k)); [apply sendInput_quiet|done].
  - destruct (frameShown encodeURIComponent x d); [|done]. apply safe_update. apply frameError_one.
  - destruct (frameShown encodeURIComponent x d); [|done]. apply safe_update. apply frameLoad_one.
Qed.

(** The picture is refreshed by one timer: in every run of the desktop, however frames
    load or fail and calls are answered, at most one timer is pending; it is the one the
    component remembers, so the next event or the unmount can cancel it; it is due after a
    quarter of a second for the next picture, and after between half a second and ten
    seconds for a retry, a delay that doubles with every failure up to the limit. *)
Theorem frame_timer_is_single (xs : list (input (DesktopEnv * DesktopEvent))) w out :
  runs handler initialDesktop xs w out →
  oneTimer (here w) ∧ dk_timers (frameUnmounted (here w)) = [] ∧
  (∀ n, frameRetryDelay n = if n <=? 0 then 500 else if n <? 5 then 500 * 2 ^ n else 10000)%Z.
Proof.
  intros Hr. destruct (runs_keeps handler oneTimer anyEffect (λ _, True) anyAnswer initialDesktop xs w out) as [[Hone _] _].
  - intros s y _. apply desktopHandler_one.
  - by left.
  - done.
  - apply Forall_forall. by intros [].
  - split_and!; [done|by apply (clearFrameTimer_none (setUnmounted (here w)))|apply frameRetryDelay_cases].
Qed.

(** ** Input is bound to a lease *)

(** Where a pointer at [client] is on a screen of [size] pixels, shown from [start] on over
    [extent]: its share of the picture in pixels, cut at the first and the last pixel.  A
    picture without extent may have no such place. *)
Definition onAxis (size : Z) (client start extent : Q) (c : coord) : Prop :=
  match c with
  | None => (extent == 0)%Q
  | Some v =>
      (0 <= v)%Q ∧
      ((1 ≤ size)%Z → (v <= inject_Z size - 1)%Q ∧
         ((0 < extent)%Q →
            (client <= start → v == 0)%Q ∧
            ((inject_Z size - 1) * extent <= (client - start) * inject_Z size → v == inject_Z size - 1)%Q ∧
            (start <= client → (client - start) * inject_Z size <= (inject_Z size - 1) * extent →
             v * extent == (client - start) * inject_Z size)%Q))
  end.

Definition pointedAt (s : DesktopStatus) (p : PointerAt) (x y : coord) : Prop :=
  onAxis (ds_width s) (pt_clientX p) (pt_left p) (pt_width p) x ∧
  onAxis (ds_height s) (pt_clientY p) (pt_top p) (pt_height p) y.

(** The axis the wheel turns on, and its sign. *)
Definition turns (dx dy : Q) (dir : ScrollDirection) : Prop :=
  match dir with
  | ScrollUp => Qabs dx <= Qabs dy ∧ dy < 0
  | ScrollDown => Qabs dx <= Qabs dy ∧ 0 <= dy
  | ScrollLeft => Qabs dy < Qabs dx ∧ dx < 0
  | ScrollRight => Qabs dy < Qabs dx ∧ 0 <= dx
  end%Q.

(** The keys that are passed on, and their names on the desktop. *)
Definition keyNames : list (jstr * string) :=
  [(js "Enter", "enter"%string); (js "Tab", "tab"%string); (js "Escape", "esc"%string);
   (js "Backspace", "backspace"%string); (js "Delete", "delete"%string);
   (js "ArrowUp", "up"%string); (js "ArrowDown", "down"%string);
   (js "ArrowLeft", "left"%string); (js "ArrowRight", "right"%string);
   (js "Home", "home"%string); (js "End", "end"%string);
   (js "PageUp", "pageup"%string); (js "PageDown", "pagedown"%string)].

(** What an event may send to a desktop of that status. *)
Definition inputOk (s : DesktopStatus) (y : DesktopEvent) (i : DesktopInput) : Prop :=
  match y, i with
  | PointerMove p _, MoveInput x y => pointedAt s p x y
  | ContextMenu p, ClickInput x y b n => pointedAt s p x y ∧ b = RightButton ∧ n = 1%Z
  | PointerDown p button detail, ClickInput x y b n =>
      pointedAt s p x y ∧ (b = RightButton ↔ button = 2%Z) ∧ (b = MiddleButton ↔ button = 1%Z) ∧
      ((n = 2 ∧ detail > 1) ∨ (n = 1 ∧ detail ≤ 1))%Z
  | Wheel p dx dy, ScrollInput x y dir n => pointedAt s p x y ∧ turns dx dy dir ∧ (1 ≤ n ≤ 20)%Z
  | KeyDown k, TypeInput t =>
      t = kp_key k ∧ length t = 1 ∧ kp_ctrl k = false ∧ kp_alt k = false ∧ kp_meta k = false
  | KeyDown k, KeyInput name m =>
      (kp_key k, name) ∈ keyNames ∧
      ∀ n, n ∈ m ↔ (n = "ctrl" ∧ kp_ctrl k = true ∨ n = "alt" ∧ kp_alt k = true ∨
                    n = "shift" ∧ kp_shift k = true ∨ n = "meta" ∧ kp_meta k = true)%string
  | _, _ => False
  end.

Lemma clamp_range (size : Z) (v : Q) :
  (0 <= Qmax 0 (Qmin (inject_Z size - 1) v))%Q ∧
  ((1 ≤ size)%Z → (Qmax 0 (Qmin (inject_Z size - 1) v) <= inject_Z size - 1)%Q).
Proof.
  split; [apply Q.le_max_l|]. intros Hs. apply Q.max_lub; [|apply Q.le_min_l].
  assert (inject_Z 1 <= inject_Z size)%Q as Hq by (by rewrite <- Zle_Qle). change (inject_Z 1) with 1%Q in Hq. lra.
Qed.

Lemma clamp_cases (top v : Q) :
  (0 <= top)%Q → (v <= 0 → Qmax 0 (Qmin top v) == 0)%Q ∧ (top <= v → Qmax 0 (Qmin top v) == top)%Q ∧
  (0 <= v → v <= top → Qmax 0 (Qmin top v) == v)%Q.
Proof.
  intros Ht. split_and!.
  - intros Hv. rewrite Q.min_r, Q.max_l by lra. lra.
  - intros Hv. rewrite Q.min_l, Q.max_r by lra. lra.
  - intros H0 Hv. rewrite Q.min_r, Q.max_r by lra. lra.
Qed.

Lemma quotient_cases (size : Z) (offset extent : Q) :
  (1 ≤ size)%Z → (0 < extent)%Q →
  let v := (offset / extent * inject_Z size)%Q in
  (v * extent == offset * inject_Z size)%Q ∧ (offset <= 0 → v <= 0)%Q ∧ (0 <= offset → 0 <= v)%Q ∧
  (∀ top, (top * extent <= offset * inject_Z size → top <= v) ∧ (offset * inject_Z size <= top * extent → v <= top))%Q.
Proof.
  intros Hs He v. assert (Hv : (v * extent == offset * inject_Z size)%Q) by (unfold v; field; lra).
  assert (Hq : (0 < inject_Z size)%Q) by (change 0%Q with (inject_Z 0); rewrite <- Zlt_Qlt; lia).
  split_and!; [done|intros Ho|intros Ho|intros top; split; intros Ht].
  - apply (Qmult_le_r _ _ extent He). rewrite Hv. nra.
  - apply (Qmult_le_r _ _ extent He). rewrite Hv. nra.
  - apply (Qmult_le_r _ _ extent He). by rewrite Hv.
  - apply (Qmult_le_r _ _ extent He). by rewrite Hv.
Qed.

Lemma coordinate_onAxis size client start extent :
  onAxis size client start extent (coordinate size client start extent).
Proof.
  unfold coordinate. destruct (Qeq_bool extent 0) eqn:He.
  - apply Qeq_bool_iff in He.
    destruct (clamp_range size (inject_Z size - 1)) as [H0 H1]. rewrite Q.min_id in H0, H1.
    assert (onAxis size client start extent (Some (Qmax 0 (inject_Z size - 1)))).
    { split; [done|]. intros Hs. split; [by apply H1|]. intros. lra. }
    assert (onAxis size client start extent (Some 0%Q)).
    { split; [lra|]. intros Hs. split; [|intros; lra].
      assert (inject_Z 1 <= inject_Z size)%Q as Hq by (by rewrite <- Zle_Qle). change (inject_Z 1) with 1%Q in Hq. lra. }
    by destruct (client - start ?= 0)%Q, (size ?= 0)%Z.
  - destruct (clamp_range size ((client - start) / extent * inject_Z size)) as [H0 H1].
    split; [done|]. intros Hs. split; [by apply H1|]. intros Hpos.
    assert (inject_Z 1 <= inject_Z size)%Q as Hq by (by rewrite <- Zle_Qle). change (inject_Z 1) with 1%Q in Hq.
    destruct (quotient_cases size (client - start) extent Hs Hpos) as (Hv & Hneg & Hge & Htop).
    destruct (clamp_cases (inject_Z size - 1) ((client - start) / extent * inject_Z size)) as (Hc0 & Hc1 & Hc); [lra|].
    split_and!.
    + intros. apply Hc0, Hneg. lra.
    + intros Hl. by apply Hc1, Htop.
    + intros Hl Hr. rewrite Hc; [done|apply Hge; lra|by apply Htop].
Qed.

Lemma coordinates_pointed s p d :
  dk_status d = Some s → pointedAt s p (coordinates p d).1 (coordinates p d).2.
Proof. intros Hd. unfold coordinates. rewrite Hd. split; apply coordinate_onAxis. Qed.

Lemma desktopKey_known k name : desktopKey k = Some name → (k, name) ∈ keyNames.
Proof.
  unfold desktopKey. intros Hk%assoc_get_elem. revert Hk.
  apply (proj1 (Forall_forall (λ row, row ∈ keyNames) _)). unfold desktopKeys. cbn [map fst snd].
  repeat (apply Forall_cons; split; [unfold keyNames; rewrite !elem_of_cons; tauto|]). constructor.
Qed.

Lemma keyModifiers_elem k n :
  n ∈ keyModifiers k ↔ (n = "ctrl" ∧ kp_ctrl k = true ∨ n = "alt" ∧ kp_alt k = true ∨
                        n = "shift" ∧ kp_shift k = true ∨ n = "meta" ∧ kp_meta k = true)%string.
Proof.
  unfold keyModifiers. rewrite !elem_of_app.
  destruct (kp_ctrl k), (kp_alt k), (kp_shift k), (kp_meta k); rewrite ?list_elem_of_singleton, ?elem_of_nil; naive_solver.
Qed.

Lemma wheel_turns dx dy :
  turns dx dy (let horizontal := negb (Qle_bool (Qabs dx) (Qabs dy)) in
               let delta := if horizontal then dx else dy in
               let negative := negb (Qle_bool 0 delta) in
               if horizontal then (if negative then ScrollLeft else ScrollRight)
               else (if negative then ScrollUp else ScrollDown)).
Proof.
  assert (Hle : ∀ a b, if Qle_bool a b then (a <= b)%Q else (b < a)%Q).
  { intros a b. destruct (Qle_bool a b) eqn:Hab; [by apply Qle_bool_iff|].
    apply Qnot_le_lt. intros Hl%Qle_bool_iff. by rewrite Hl in Hab. }
  pose proof (Hle (Qabs dx) (Qabs dy)) as H1. pose proof (Hle 0%Q dx) as H2. pose proof (Hle 0%Q dy) as H3.
  destruct (Qle_bool (Qabs dx) (Qabs dy)); cbn [negb];
    [destruct (Qle_bool 0 dy)|destruct (Qle_bool 0 dx)]; by split.
Qed.

(** Whether a request sends input. *)
Definition inputCall (r : HttpRequest) : bool := startsWith (js "/v1/computer/input?ticket=") (http_url r).

Section Bound.
(** What was reported of a session's lease and of the desktop, which answer issued a
    ticket, and which events there were. *)
Variable reported : jstr → ControlLease → Prop.
Variable known : DesktopStatus → Prop.
Variable issued : ticketKey → json → Prop.
Variable happened : DesktopEnv * DesktopEvent → Prop.

Definition bound (d : Desktop) : Prop :=
  Forall (λ row, reported row.1 row.2) (dk_control d) ∧ Forall (λ row, issued row.1 row.2) (dk_input d) ∧
  ∀ s, dk_status d = Some s → known s.

Definition boundRequest (r : HttpRequest) : Prop :=
  ∃ session l v ticket enc csrf x y s i,
    happened (x, y) ∧ de_session x = Some session ∧ known s ∧ inputOk s y i ∧
    reported session l ∧ ownsControl l = true ∧ issued (session, cl_lease_id l, Some (cl_revision l)) v ∧
    asString (get "ticket" v) = Some ticket ∧ encodeURIComponent ticket = Some enc ∧
    r = inputRequest double enc csrf i.

Definition boundEffect (e : Effect) : Prop :=
  match e with Issued (Fetch r) => inputCall r = true → boundRequest r | _ => True end.

Definition boundAnswer (c : call) (o : Error + answer c) : Prop :=
  (∀ session (H : Rpc (controlRequest session) = c) r result,
     eq_rect _ (λ c, Error + answer c)%type (inr r) _ H = o → resp_error r = None → resp_result r = Some result →
     reported session (parseLease result)) ∧
  (∀ k csrf (H : Fetch (ticketRequest InputTicket k.1.1 k.1.2 k.2 csrf) = c) r v,
     eq_rect _ (λ c, Error + answer c)%type (inr r) _ H = o → hr_ok r = true → hr_json r = Some v → issued k v) ∧
  (∀ (H : Fetch statusRequest = c) r v,
     eq_rect _ (λ c, Error + answer c)%type (inr r) _ H = o → hr_ok r = true → hr_json r = Some v →
     known (parseStatus v)).

Lemma bound_kept f :
  (∀ d, dk_control (f d) = dk_control d ∧ dk_input (f d) = dk_input d ∧ dk_status (f d) = dk_status d) →
  safe bound boundEffect boundAnswer (setState f).
Proof. intros Hf. apply safe_update. intros d. unfold bound. by destruct (Hf d) as (-> & -> & ->). Qed.

Lemma ticket_bound kind session lease revision csrf :
  boundEffect (Issued (Fetch (ticketRequest kind session lease revision csrf))).
Proof. intros Hi. discriminate Hi. Qed.

Lemma live_status x d : liveShown x d = true → ∃ s, dk_status d = Some s.
Proof.
  unfold liveShown, desktopScreen. destruct (dk_mounted d); [|done]. cbn [andb].
  destruct (de_session x); [|done]. destruct (dk_status d) as [s|]; [by exists s|]. by destruct (dk_statusError d).
Qed.

Lemma sendInput_bound x y i s d :
  bound d → happened (x, y) → dk_status d = Some s → operatorOwnsControl x d = true → inputOk s y i →
  safe bound boundEffect boundAnswer (sendInput encodeURIComponent decodeURIComponent cookies double x i d).
Proof.
  intros (Hc & Hi & Hs) Hy Hd Ho Hok. apply safe_sendInput; try done. intros ticket enc csrf Ht Henc _.
  unfold inputTicket, inputKey, operatorOwnsControl, controlOf in *.
  destruct (de_session x) as [session|] eqn:Hx; [|done]. cbn [mbind option_bind] in *.
  destruct (assoc_get session (dk_control d)) as [l|] eqn:Hl; [|done]. cbn [mbind option_bind fmap option_fmap option_map] in Ht.
  apply bind_Some in Ht as (v & Hv & Ht).
  exists session, l, v, ticket, enc, csrf, x, y, s, i. split_and!; try done.
  - by apply Hs.
  - by apply (proj1 (Forall_forall _ _) Hc (session, l)), assoc_get_elem.
  - by apply (proj1 (Forall_forall _ _) Hi (session, cl_lease_id l, Some (cl_revision l), v)), assoc_get_elem.
Qed.

Lemma whenOwned_bound x y d p :
  bound d → happened (x, y) →
  (∀ s, dk_status d = Some s → operatorOwnsControl x d = true → safe bound boundEffect boundAnswer p) →
  safe bound boundEffect boundAnswer (whenOwned x d p).
Proof.
  intros Hd Hy Hp. unfold whenOwned. destruct (_ && _) eqn:Ho; [|done]. apply andb_true_iff in Ho as [Hl Ho].
  destruct (live_status x d Hl) as [s Hs]. by eapply Hp.
Qed.

Lemma pointer_bound x y d :
  bound d → happened (x, y) →
  match y with
  | ContextMenu _ | PointerDown _ _ _ | PointerMove _ _ | Wheel _ _ _ =>
      safe bound boundEffect boundAnswer (handler d (x, y))
  | _ => True
  end.
Proof.
  intros Hd Hy. destruct y as [| | | | | | |p|p b n|p now|p dx dy| | | |]; try done;
    apply (whenOwned_bound x _ d _ Hd Hy); intros s Hs Ho; pose proof (coordinates_pointed s p d Hs) as Hp.
  - unfold contextMenu. destruct (coordinates p d). by eapply sendInput_bound.
  - unfold desktopPointerDown. destruct (coordinates p d). eapply sendInput_bound; try done. cbn [inputOk].
    split; [done|]. destruct (Z.eqb_spec b 2), (Z.eqb_spec b 1), (Z.ltb_spec 1 n); (split_and!; [naive_solver lia..|lia]).
  - unfold desktopPointerMove. destruct (Qle_bool _ _); [|done]. split; [done|].
    destruct (coordinates p d). by eapply sendInput_bound.
  - unfold wheel. destruct (coordinates p d). eapply sendInput_bound; try done. cbn [inputOk].
    split_and!; [done|apply wheel_turns|unfold wheelAmount; lia..].
Qed.

Lemma keyDown_bound x k d :
  bound d → happened (x, KeyDown k) → safe bound boundEffect boundAnswer (handler d (x, KeyDown k)).
Proof.
  intros Hd Hy. apply (whenOwned_bound x _ d _ Hd Hy). intros s Hs Ho. unfold keyDown.
  destruct (_ && _ && _ && _) eqn:Hlen.
  - eapply sendInput_bound; try done. rewrite !andb_true_iff, !negb_true_iff, Nat.eqb_eq in Hlen. cbn [inputOk].
    destruct Hlen as (((Hlen & Hctrl) & Hmeta) & Halt). by split_and!.
  - destruct (desktopKey (kp_key k)) as [name|] eqn:Hk; [|done].
    eapply sendInput_bound; try done. split; [by apply desktopKey_known|]. intros n. apply keyModifiers_elem.
Qed.

Lemma queries_bound x y d :
  bound d →
  match y with
  | ContextMenu _ | PointerDown _ _ _ | PointerMove _ _ | Wheel _ _ _ | KeyDown _ => True
  | _ => safe bound boundEffect boundAnswer (handler d (x, y))
  end.
Proof.
  intros Hd. unfold handler, desktopHandler. cbn [fst snd].
  destruct y as [| | |forced| |forced|op| | | | | | | |h]; try done.
  - destruct (de_active x); [done|]. apply bound_kept. intros d'. unfold deactivated. cbn. by destruct (dk_timer d').
  - apply bound_kept. intros d'. unfold frameUnmounted, clearFrameTimer. cbn. by destruct (dk_timer d').
  - destruct (de_active x); [|done]. apply safe_statusQuery; [done|done|by intros e d' Hd'|].
    intros r v d' (_ & _ & Hr) Hok Hv (Hc & Hi & _). split_and!; try done. intros s [= <-]. by apply (Hr eq_refl r v).
  - destruct (de_session x); [|done]. destruct (de_active x || forced); [|done].
    apply safe_controlQuery; try done. intros r result d' [Hr _] He Hres (Hc & Hi & Hs). split_and!; [|done..].
    apply assoc_set_Forall; [|done]. by apply (Hr _ eq_refl r result).
  - destruct (de_session x); [|done]. destruct (viewTicketEnabled x d); [|done].
    by apply safe_viewTicketQuery; [|apply ticket_bound|].
  - destruct (inputKey x d) as [k|]; [|done]. destruct (inputTicketEnabled x d || forced); [|done].
    apply safe_inputTicketQuery; [done|apply ticket_bound|]. intros csrf r v d' (_ & Hr & _) Hok Hv (Hc & Hi & Hs).
    split_and!; [done| |done]. apply assoc_set_Forall; [|done]. by apply (Hr k csrf eq_refl r v).
  - destruct (controlButton x op d); [|done]. by apply safe_runControl.
  - destruct (frameShown encodeURIComponent x d); [|done]. apply bound_kept. intros d'.
    unfold frameFailed, clearFrameTimer. cbn [setNotice setFrame dk_timer]. by destruct (dk_timer d').
  - destruct (frameShown encodeURIComponent x d); [|done]. apply bound_kept. intros d'.
    unfold frameLoad, clearFrameTimer. cbn [setFrame dk_timer]. by destruct (dk_timer d').
  - unfold timerFired. destruct (find _ _) as [t|]; [|done]. split; [done|]. destruct (tm_job t); [|done].
    destruct (de_session x); [|done]. by apply safe_viewTicketQuery; [|apply ticket_bound|].
Qed.

Lemma desktopHandler_bound d y : happened y → bound d → safe bound boundEffect boundAnswer (handler d y).
Proof.
  destruct y as [x y]. intros Hy Hd. pose proof (pointer_bound x y d Hd Hy). pose proof (queries_bound x y d Hd).
  by destruct y; try done; apply keyDown_bound.
Qed.
End Bound.

(** The answers of a run. *)
Definition leaseReported (xs : list (input (DesktopEnv * DesktopEvent))) (session : jstr) (l : ControlLease) : Prop :=
  ∃ n o r result, Settled n o ∈ xs ∧ o (Rpc (controlRequest session)) = inr r ∧ resp_error r = None ∧
                  resp_result r = Some result ∧ l = parseLease result.

Definition ticketIssued (xs : list (input (DesktopEnv * DesktopEvent))) (k : ticketKey) (v : json) : Prop :=
  ∃ n o csrf r, Settled n o ∈ xs ∧ o (Fetch (ticketRequest InputTicket k.1.1 k.1.2 k.2 csrf)) = inr r ∧
                hr_ok r = true ∧ hr_json r = Some v.

Definition statusReported (xs : list (input (DesktopEnv * DesktopEvent))) (s : DesktopStatus) : Prop :=
  ∃ n o r v, Settled n o ∈ xs ∧ o (Fetch statusRequest) = inr r ∧ hr_ok r = true ∧ hr_json r = Some v ∧
             s = parseStatus v.

(** [C15] Mouse and keyboard input reaches the desktop only under the operator's lease, and is
    what the operator did.  In any run, a request that sends input carries a ticket the
    server issued, in answer to a ticket request naming the session, the lease and its
    revision, for a lease the control plane reported as active under the operator's
    authority.  It sends the input of an event of the run in that session: a move, a click
    or a scroll of 1 to 20 steps at the place of the pointer on a screen of the size the
    host reported, across for [x] and down for [y], from the first pixel to the last; or
    the typed character, or the desktop's name of a known key with the modifiers held. *)
Theorem desktop_input_is_lease_bound (xs : list (input (DesktopEnv * DesktopEvent))) w out :
  runs handler initialDesktop xs w out →
  ∀ r, Issued (Fetch r) ∈ out → inputCall r = true →
       boundRequest (leaseReported xs) (statusReported xs) (ticketIssued xs) (λ y, Act y ∈ xs) r.
Proof.
  intros Hr.
  destruct (runs_safe handler (bound (leaseReported xs) (statusReported xs) (ticketIssued xs))
              (boundEffect (leaseReported xs) (statusReported xs) (ticketIssued xs) (λ y, Act y ∈ xs)) (λ y, Act y ∈ xs)
              (boundAnswer (leaseReported xs) (statusReported xs) (ticketIssued xs)) initialDesktop xs w out) as [_ Hout].
  - intros s y. apply (desktopHandler_bound _ _ _ (λ y, Act y ∈ xs)).
  - by split_and!.
  - done.
  - apply Forall_forall. intros [y|n o] Hin; [done|]. intros c. split_and!.
    + intros session <- r result Ho He Hres. by exists n, o, r, result.
    + intros k csrf <- r v Ho Hok Hv. by exists n, o, csrf, r.
    + intros <- r v Ho Hok Hv. by exists n, o, r, v.
  - intros r Hin. by apply (proj1 (Forall_forall _ _) Hout (Issued (Fetch r))).
Qed.

(** ** Two faults *)

(** Pressing the right button over a controlled desktop sends the click twice: the
    browser reports the press both as a pointer event and as a request for the context
    menu, and each of the two handlers sends the same right click. *)
Theorem right_press_clicks_twice (x : DesktopEnv) (d : Desktop) (p : PointerAt) (ticket enc csrf : jstr) :
  liveShown x d = true → operatorOwnsControl x d = true → inputTicket x d = Some ticket →
  encodeURIComponent ticket = Some enc → desktopCookie decodeURIComponent cookies csrf_cookie = Some csrf →
  ∃ r w w', r = inputRequest double enc csrf (ClickInput (coordinates p d).1 (coordinates p d).2 RightButton 1) ∧
    run (handler d (x, PointerDown p 2 0)) d = (d, [Issued (Fetch r)], Some w) ∧
    run (handler d (x, ContextMenu p)) d = (d, [Issued (Fetch r)], Some w').
Proof.
  intros Hl Ho Ht He Hc. unfold handler, desktopHandler, whenOwned. cbn [fst snd]. rewrite Hl, Ho.
  unfold desktopPointerDown, contextMenu, sendInput. destruct (coordinates p d) as [a b]. rewrite Ht, He, Hc.
  by eexists _, _, _.
Qed.

Lemma frameShown_same x d d' :
  dk_mounted d' = dk_mounted d → dk_status d' = dk_status d → dk_statusError d' = dk_statusError d →
  dk_view d' = dk_view d → frameShown encodeURIComponent x d' = frameShown encodeURIComponent x d.
Proof.
  intros Hm Hs He Hv. unfold frameShown, liveShown, desktopScreen, streamAvailable. rewrite Hm, Hs, He. f_equal.
  apply bool_decide_ext. unfold frameURL, viewTicket. rewrite Hv.
  destruct (de_session x) as [session|]; cbn [mbind option_bind]; [|done].
  destruct (assoc_get session (dk_view d) ≫= _) as [t|]; cbn [mbind option_bind]; [|done].
  by destruct (encodeURIComponent t).
Qed.

Lemma deactivated_fields d :
  dk_mounted (deactivated d) = dk_mounted d ∧ dk_status (deactivated d) = dk_status d ∧
  dk_statusError (deactivated d) = dk_statusError d ∧ dk_view (deactivated d) = dk_view d ∧
  dk_handles (deactivated d) = dk_handles d ∧ dk_nonce (deactivated d) = dk_nonce d.
Proof. unfold deactivated. cbn [setNotice setFrame dk_timer]. by destruct (dk_timer d). Qed.

Lemma frameLoad_fields d :
  dk_mounted (frameLoad d) = dk_mounted d ∧ dk_status (frameLoad d) = dk_status d ∧
  dk_statusError (frameLoad d) = dk_statusError d ∧ dk_view (frameLoad d) = dk_view d ∧
  dk_nonce (frameLoad d) = dk_nonce d ∧ dk_ready (frameLoad d) = true.
Proof. unfold frameLoad, clearFrameTimer. cbn [setFrame dk_timer]. by destruct (dk_timer d). Qed.

Lemma frameLoad_timers d :
  oneTimer d →
  dk_timers (frameLoad d) = [{| tm_handle := dk_handles d; tm_job := NextFrame; tm_delay := 250 |}].
Proof.
  intros Hd. unfold frameLoad. set (d' := setFrame true (dk_nonce d) 0 d).
  assert (Hh : dk_handles (clearFrameTimer d') = dk_handles d)
    by (unfold clearFrameTimer, d'; cbn [setFrame dk_timer]; by destruct (dk_timer d)).
  unfold setFrameTimer. cbn [dk_timers setFrameTimers]. by rewrite (clearFrameTimer_none d' Hd), Hh.
Qed.

(** A stage that is not active goes on loading pictures: when a picture that was being
    fetched arrives after the deactivation, its handler starts the next timer, which asks
    for the next picture, and so on. *)
Theorem inactive_desktop_keeps_polling (x : DesktopEnv) (d : Desktop) :
  de_active x = false → oneTimer d → frameShown encodeURIComponent x d = true →
  ∃ w out, play handler [Act (x, Deactivated); Act (x, FrameLoaded); Act (x, TimerDue (dk_handles d))] (at_start d) []
           = Some (w, out) ∧
    dk_nonce (here w) = S (dk_nonce d) ∧ dk_ready (here w) = true ∧ frameShown encodeURIComponent x (here w) = true.
Proof.
  intros Ha Hd Hf. set (d1 := deactivated d). set (d2 := frameLoad d1).
  destruct (deactivated_fields d) as (Hm1 & Hs1 & He1 & Hv1 & Hh1 & Hn1). fold d1 in Hm1, Hs1, He1, Hv1, Hh1, Hn1.
  destruct (frameLoad_fields d1) as (Hm2 & Hs2 & He2 & Hv2 & Hn2 & Hr2). fold d2 in Hm2, Hs2, He2, Hv2, Hn2, Hr2.
  assert (Hf1 : frameShown encodeURIComponent x d1 = true) by (rewrite <- Hf; by apply frameShown_same).
  assert (Hf2 : frameShown encodeURIComponent x d2 = true) by (rewrite <- Hf1; by apply frameShown_same).
  assert (Ht2 : dk_timers d2 = [{| tm_handle := dk_handles d; tm_job := NextFrame; tm_delay := 250 |}]).
  { rewrite <- Hh1. apply frameLoad_timers. left. by apply deactivated_none. }
  assert (H1 : handler d (x, Deactivated) = setState deactivated) by (unfold handler, desktopHandler; cbn [fst snd]; by rewrite Ha).
  assert (H2 : handler d1 (x, FrameLoaded) = setState frameLoad) by (unfold handler, desktopHandler; cbn [fst snd]; by rewrite Hf1).
  assert (H3 : ∃ f, handler d2 (x, TimerDue (dk_handles d)) = f ∧
    f = (setState (λ d', setFrameTimers None (clearTimeout (dk_handles d) (dk_timers d')) (dk_handles d') d');;
         setState (λ d, setFrame (dk_ready d) (dk_nonce d + 1) (dk_failures d) d))).
  { eexists. split; [reflexivity|]. unfold handler, desktopHandler, timerFired. cbn [fst snd].
    rewrite Ht2. cbn [find tm_handle]. by rewrite Nat.eqb_refl. }
  destruct H3 as (f & H3 & ->).
  eexists _, _. cbn [play perform at_start here waiting]. rewrite H1.
  cbn [advance run setState option_list app mbind option_bind fst snd play perform here waiting]. fold d1. rewrite H2.
  cbn [advance run setState option_list app mbind option_bind fst snd play perform here waiting]. fold d2. rewrite H3.
  cbn [advance run setState option_list app mbind option_bind proc_bind fst snd play perform here waiting].
  split; [reflexivity|]. cbn [here]. split_and!; [|done|].
  { change (dk_nonce d2 + 1 = S (dk_nonce d)). rewrite Hn2, Hn1. lia. }
  rewrite <- Hf2. by apply frameShown_same.
Qed.
End Props.

(** ** Witnesses *)

Definition lease0 : ControlLease := {|
  cl_lease_id := Some (uuid "c"); cl_owner := JObj []; cl_owner_revision := 1; cl_state := LeaseActive;
  cl_authority := ByOperator; cl_revision := 4; cl_expires_at := None; cl_reconciliation := js "none" |}.
Definition status0 : DesktopStatus := {|
  ds_mode := js "clean"; ds_state := js "ready"; ds_width := 1280; ds_height := 720;
  ds_capabilities := [{| dc_kind := js "desktop_stream"; dc_available := true |}] |}.

(** A server that answers every request. *)
Definition desk_response : ResponseEnvelope := {|
  resp_request_id := uuid "1"; resp_revision := 1; resp_result := Some (JObj []); resp_error := None |}.
Definition ok_ticket : HttpResponse := {| hr_status := 200; hr_json := Some (JObj [(js "ticket", JStr (js "T"))]) |}.
Definition server : oracle := λ c,
  match c with
  | Rpc _ => inr desk_response
  | Fetch _ => inr ok_ticket
  | Refetch _ => inr ()
  | _ => inl (mkError (js "not answered"))
  end.

Definition desk_env : DesktopEnv := {| de_active := true; de_session := Some (uuid "b") |}.
Definition desk_pointer : PointerAt := {|
  pt_clientX := 400; pt_clientY := 300; pt_left := 0; pt_top := 0; pt_width := 800; pt_height := 600 |}.
#[local] Abbreviation desk_handler := (desktopHandler Some Some [] (λ _, num_of_Z 0) (λ _, status0) (λ _, lease0)).

(** A desktop that is watched and then controlled. *)
Definition desk_run : list (input (DesktopEnv * DesktopEvent)) :=
  [Act (desk_env, StatusDue); Settled 0 server; Act (desk_env, ControlDue false); Settled 0 server;
   Act (desk_env, ViewTicketDue); Settled 0 server; Act (desk_env, FrameLoaded);
   Act (desk_env, InputTicketDue false); Settled 0 server; Act (desk_env, Wheel desk_pointer 0 100)].

#[local] Abbreviation desk_world := (play desk_handler desk_run (at_start initialDesktop) []).

Lemma frame_timer_is_single_witness :
  match desk_world with
  | Some (w, out) => length (dk_timers (here w)) = 1 ∧ oneTimer (here w)
  | None => False
  end.
Proof.
  assert (Hlen : (λ r : World Desktop * list Effect, length (dk_timers (here r.1))) <$> desk_world = Some 1)
    by (vm_compute; reflexivity).
  destruct desk_world as [[w out]|] eqn:Hp; [|discriminate Hlen]. split; [by injection Hlen|].
  exact (proj1 (frame_timer_is_single Some Some [] (λ _, num_of_Z 0) (λ _, status0) (λ _, lease0) desk_run w out
                  (play_reaches desk_handler initialDesktop desk_run w out Hp))).
Defined.

Lemma desktop_input_is_lease_bound_witness :
  match desk_world with
  | Some (w, out) =>
      List.filter (λ e, match e with Issued (Fetch r) => inputCall r | _ => false end) out ≠ [] ∧
      ∀ r, Issued (Fetch r) ∈ out → inputCall r = true →
           boundRequest Some (λ _, num_of_Z 0) (leaseReported (λ _, lease0) desk_run)
             (statusReported (λ _, status0) desk_run) (ticketIssued desk_run) (λ y, Act y ∈ desk_run) r
  | None => False
  end.
Proof.
  assert (Hlen : (λ r : World Desktop * list Effect,
             length (List.filter (λ e, match e with Issued (Fetch r) => inputCall r | _ => false end) r.2)) <$> desk_world
             = Some 1) by (vm_compute; reflexivity).
  destruct desk_world as [[w out]|] eqn:Hp; [|discriminate Hlen]. split.
  - intros Hnil. injection Hlen as Hl. cbn [snd] in Hl. rewrite Hnil in Hl. discriminate Hl.
  - exact (desktop_input_is_lease_bound Some Some [] (λ _, num_of_Z 0) (λ _, status0) (λ _, lease0) desk_run w out
             (play_reaches desk_handler initialDesktop desk_run w out Hp)).
Defined.

(** Over a picture without width, a pointer at its left edge has no place: the coordinate is
    [NaN], and [null] is sent for it; one to the right of it is at the last pixel. *)
Example flat_picture_has_no_place :
  (coordinate 1280 400 400 0 = None) ∧ (get "x" (inputJSON (λ _, num_of_Z 0) (MoveInput None (Some 0%Q))) = Some JNull) ∧
  from_option (λ v, v == 1279)%Q False (coordinate 1280 401 400 0).
Proof. split_and!; reflexivity. Qed.

(** The desktop at the end of that run. *)
Definition desk : Desktop := match desk_world with Some (w, _) => here w | None => initialDesktop end.

Lemma right_press_clicks_twice_witness :
  ∃ r w w', r = inputRequest (λ _, num_of_Z 0) (js "T") [] (ClickInput (coordinates desk_pointer desk).1
                                                             (coordinates desk_pointer desk).2 RightButton 1) ∧
    run (desk_handler desk (desk_env, PointerDown desk_pointer 2 0)) desk = (desk, [Issued (Fetch r)], Some w) ∧
    run (desk_handler desk (desk_env, ContextMenu desk_pointer)) desk = (desk, [Issued (Fetch r)], Some w').
Proof.
  apply (right_press_clicks_twice Some Some [] (λ _, num_of_Z 0) (λ _, status0) (λ _, lease0)
           desk_env desk desk_pointer (js "T") (js "T") []); vm_compute; reflexivity.
Defined.

Lemma inactive_desktop_keeps_polling_witness :
  let x := {| de_active := false; de_session := Some (uuid "b") |} in
  ∃ w out, play desk_handler [Act (x, Deactivated); Act (x, FrameLoaded); Act (x, TimerDue (dk_handles desk))]
             (at_start desk) [] = Some (w, out) ∧
    dk_nonce (here w) = S (dk_nonce desk) ∧ dk_ready (here w) = true ∧ frameShown Some x (here w) = true.
Proof.
  apply (inactive_desktop_keeps_polling Some Some [] (λ _, num_of_Z 0) (λ _, status0) (λ _, lease0)
           {| de_active := false; de_session := Some (uuid "b") |} desk).
  - reflexivity.
  - right. eexists. split_and!; vm_compute; reflexivity.
  - vm_compute. reflexivity.
Defined.
