(* ===== verification/NativeApps.v ===== *)
(** * Native applications

    [ui/web/src/features/computer/NativeApplications.tsx]: how an accepted display model is
    rendered.  A model is decoded into the records of the protocol, [NativeApplication]
    chooses one of six renderers by its kind, and a rendering is the list of the pieces
    that are put on screen, in document order.

    [URL_toString] is the serialisation of a parsed address, [localDate] the date format. *)
From stdpp Require Import base list strings.
From Stdlib Require Import ZArith NArith.
From S2P Require Import Prelude JsString JsValue JsArray Regex Catalog Protocol Display Envelope.
From S2P Require Import Events TuiFormat TuiApp Async Computer.

(** ** Models *)

Record DisplayDatum : Type := {
  dt_value : jstr;
  dt_truth : jstr;
  dt_format : jstr;
  dt_sources : list Z;
}.

Record DisplayField : Type := { fl_label : jstr; fl_value : DisplayDatum }.

Record DisplayItem : Type := { it_fields : list DisplayField }.

Record DisplayBlock : Type := {
  bk_kind : jstr;
  bk_label : option jstr;
  bk_content : option DisplayDatum;
  bk_fields : option (list DisplayField);
  bk_items : option (list DisplayItem);
  bk_columns : option (list jstr);
  bk_rows : option (list (list DisplayDatum));
}.

Record DisplayModel : Type := {
  dm_kind : jstr;
  dm_title : DisplayDatum;
  dm_fields : option (list DisplayField);
  dm_blocks : option (list DisplayBlock);
}.

(** ** Decoding *)

(** The members of a JSON value by their declared types. *)
Definition listOf {A} (f : json → option A) (v : option json) : option (list A) := isArray v ≫= mapM f.

(** An optional member: absent, or of its type. *)
Definition optionally {A} (f : option json → option A) (v : option json) : option (option A) :=
  match v with None => Some None | Some _ => Some <$> f v end.

Definition integerOf (v : json) : option Z := match v with JNum n => num_to_Z n | _ => None end.

Definition datumOf (v : json) : option DisplayDatum :=
  value ← asString (get "value" v); truth ← asString (get "truth" v); format ← asString (get "format" v);
  sources ← listOf integerOf (get "sources" v);
  Some {| dt_value := value; dt_truth := truth; dt_format := format; dt_sources := sources |}.

Definition fieldOf (v : json) : option DisplayField :=
  label ← asString (get "label" v); value ← get "value" v ≫= datumOf;
  Some {| fl_label := label; fl_value := value |}.

Definition itemOf (v : json) : option DisplayItem :=
  fields ← listOf fieldOf (get "fields" v); Some {| it_fields := fields |}.

Definition rowOf (v : json) : option (list DisplayDatum) := listOf datumOf (Some v).

Definition textOf (v : json) : option jstr := asString (Some v).

Definition blockOf (v : json) : option DisplayBlock :=
  kind ← asString (get "kind" v); label ← optionally asString (get "label" v);
  content ← optionally (λ w, w ≫= datumOf) (get "content" v);
  fields ← optionally (listOf fieldOf) (get "fields" v); items ← optionally (listOf itemOf) (get "items" v);
  columns ← optionally (listOf textOf) (get "columns" v);
  rows ← optionally (listOf rowOf) (get "rows" v);
  Some {| bk_kind := kind; bk_label := label; bk_content := content; bk_fields := fields; bk_items := items;
          bk_columns := columns; bk_rows := rows |}.

Definition modelOf (v : json) : option DisplayModel :=
  kind ← asString (get "kind" v); title ← get "title" v ≫= datumOf;
  fields ← optionally (listOf fieldOf) (get "fields" v); blocks ← optionally (listOf blockOf) (get "blocks" v);
  Some {| dm_kind := kind; dm_title := title; dm_fields := fields; dm_blocks := blocks |}.

(** ** Pieces *)

(** A text of the client or a label, the text of a datum, a link, the truth and the
    sources of a datum, an entry of a source list. *)
Inductive Piece : Type :=
  | Words (s : jstr)
  | Value (d : DisplayDatum)
  | Anchor (href label : jstr)
  | Meta (d : DisplayDatum)
  | SourceRow (number : Z) (s : ComputerSourceReference).

Section Rendering.
Context `{Platform}.
Variable URL_toString : URL → jstr.
Variable localDate : jstr → jstr.

Definition phrase (s : string) : Piece := Words (js s).
Definition nothing : list Piece := [].

(** [value === undefined ? null : …]. *)
Definition whenSome {A} (o : option A) (f : A → list Piece) : list Piece :=
  match o with Some a => f a | None => nothing end.

Definition safeURL (value : jstr) : option jstr :=
  match URL_parse value with
  | Some parsed =>
      if jeqb (url_protocol parsed) (js "https:") || jeqb (url_protocol parsed) (js "http:")
      then Some (URL_toString parsed) else None
  | None => None
  end.

Definition SafeLink (datum : DisplayDatum) (label : option jstr) : list Piece :=
  match safeURL (dt_value datum), label with
  | None, None => [Value datum]
  | None, Some l => [Words l]
  | Some safe, _ => [Anchor safe (default (dt_value datum) label)]
  end.

(** The text of [DatumMeta]. *)
Definition metaText (d : DisplayDatum) : jstr :=
  humanizeWords (dt_truth d) ++ js " · " ++
  join (js ", ") (map (λ source, js "Source " ++ num_toString (num_of_Z (source + 1))) (dt_sources d)).

Definition SourceList (sources : list ComputerSourceReference) : list Piece :=
  imap (λ i s, SourceRow (Z.of_nat i + 1) s) sources.

Definition field (fields : option (list DisplayField)) (label : string) : option DisplayDatum :=
  fl_value <$> (fields ≫= find (λ f, jeqb (fl_label f) (js label))).

Definition itemField (item : DisplayItem) (label : string) : option DisplayDatum :=
  field (Some (it_fields item)) label.

(** [fields.filter((item) => !labels.includes(item.label))]. *)
Definition without (labels : list string) (fields : list DisplayField) : list DisplayField :=
  List.filter (λ f, negb (existsb (λ l, jeqb (fl_label f) (js l)) labels)) fields.

Definition FieldGrid (fields : list DisplayField) : list Piece :=
  flat_map (λ f, Words (fl_label f) ::
                 (if jeqb (dt_format (fl_value f)) (js "url") then SafeLink (fl_value f) None else [Value (fl_value f)])
                 ++ [Meta (fl_value f)]) fields.

Definition FieldCard (label : string) (value : option DisplayDatum) : list Piece :=
  phrase label :: match value with Some d => [Value d; Meta d] | None => [phrase "Unavailable"] end.

(** ** Blocks *)

Definition labelOr (fallback : jstr) (b : DisplayBlock) : Piece := Words (default fallback (bk_label b)).

Definition DataBlock (b : DisplayBlock) : list Piece :=
  labelOr (humanizeWords (bk_kind b)) b ::
  (if jeqb (bk_kind b) (js "chart")
   then [phrase "Validated chart data. Values remain available in the accessible table."] else nothing) ++
  labelOr (humanizeWords (bk_kind b) ++ js " data") b ::
  whenSome (bk_columns b) (map Words) ++
  flat_map (flat_map (λ d, [Value d; Meta d])) (default [] (bk_rows b)).

Definition NativeBlock (b : DisplayBlock) : list Piece :=
  if jeqb (bk_kind b) (js "list") then
    labelOr (js "Items") b ::
    flat_map (λ item, flat_map (λ f, [Words (fl_label f); Value (fl_value f)]) (it_fields item))
      (default [] (bk_items b))
  else if jeqb (bk_kind b) (js "table") || jeqb (bk_kind b) (js "chart") then DataBlock b
  else
    whenSome (bk_label b) (λ l, [Words l]) ++
    whenSome (bk_content b) (λ d, [Value d]) ++ whenSome (bk_content b) (λ d, [Meta d]) ++
    FieldGrid (default [] (bk_fields b)).

Definition searchResult (index : nat) (item : DisplayItem) : list Piece :=
  let title := orElse (itemField item "Title") (orElse (itemField item "Name") (itemField item "Path")) in
  let target := itemField item "URL" in
  let snippet := orElse (itemField item "Snippet") (itemField item "Text") in
  let metadata := without ["Title"; "Name"; "Path"; "URL"; "Snippet"; "Text"]%string (it_fields item) in
  Words (js "Result " ++ num_toString (num_of_Z (Z.of_nat index + 1))) ::
  match target with
  | None => match title with Some t => [Value t] | None => [phrase "Untitled result"] end
  | Some t => SafeLink t (Some (default (dt_value t) (dt_value <$> title)))
  end ++
  whenSome snippet (λ d, [Value d]) ++
  flat_map (λ f, [Words (fl_label f); Value (fl_value f)]) metadata ++
  whenSome title (λ d, [Meta d]) ++ whenSome target (λ d, [Meta d]).

Definition SearchResults (b : DisplayBlock) : list Piece :=
  labelOr (js "Results") b ::
  match bk_items b with Some [] => [phrase "No validated results were available."] | _ => nothing end ++
  concat (imap searchResult (default [] (bk_items b))).

Definition treeEntry (item : DisplayItem) : list Piece :=
  let name := orElse (itemField item "Name") (itemField item "Path") in
  let kind := itemField item "Type" in
  phrase (if bool_decide (dt_value <$> kind = Some (js "directory")) then "Folder" else "File") ::
  match name with Some d => [Value d] | None => [phrase "Unnamed entry"] end ++
  whenSome kind (λ d, [Meta d]).

Definition NavigationTree (b : DisplayBlock) : list Piece :=
  labelOr (js "Files") b :: flat_map treeEntry (default [] (bk_items b)).

(** ** Applications *)

Record ApplicationProps : Type := {
  ap_display : DisplayModel;
  ap_event : EventEnvelope;
  ap_migrated : bool;
  ap_sources : list ComputerSourceReference;
}.

Definition timestampText (value : jstr) : jstr :=
  match Date_parse value with None => value | Some _ => localDate value end.

Definition isCapture (s : ComputerSourceReference) : bool :=
  jeqb (sr_kind s) (js "screenshot") || jeqb (sr_kind s) (js "visual_snapshot").

Definition ApplicationFrame (family : string) (children : list Piece) (p : ApplicationProps) : list Piece :=
  let captured := List.filter isCapture (ap_sources p) in
  [phrase family; Value (dm_title (ap_display p)); Meta (dm_title (ap_display p))] ++
  (if ap_migrated p then [phrase "Compatible retained view"] else nothing) ++
  children ++
  (if (length captured =? 0)%nat then nothing
   else [phrase "Captured visual evidence";
         phrase "A sanitized capture is referenced for appearance review. Semantic data remains the primary view."]
        ++ SourceList captured) ++
  Words (js "Event " ++ num_toString (num_of_Z (ev_sequence (ap_event p))) ++ js " · " ++
         timestampText (ev_occurred_at (ap_event p))) :: SourceList (ap_sources p).

Definition blocksOf (render : DisplayBlock → list Piece) (m : DisplayModel) : list Piece :=
  flat_map render (default [] (dm_blocks m)).

Definition isList (b : DisplayBlock) : bool := jeqb (bk_kind b) (js "list").

(** The fields a renderer places itself; the others go into its grid. *)
Definition researchLabels : list string := ["Query"; "URL"]%string.
Definition workspaceLabels : list string := ["Path"; "Revision"; "Branch"]%string.
Definition terminalLabels : list string := ["Command"; "Exit code"; "Duration"; "Working directory"; "Status"]%string.
Definition taskLabels : list string := ["Assignment"; "Status"; "Budget"; "Coverage"]%string.

Definition ResearchApplication (p : ApplicationProps) : list Piece :=
  let m := ap_display p in
  ApplicationFrame "Research"
    (whenSome (field (dm_fields m) "Query") (λ d, [phrase "Search query"; Value d; Meta d]) ++
     whenSome (field (dm_fields m) "URL") (λ d, phrase "Opened address" :: SafeLink d None ++ [Meta d]) ++
     whenSome (dm_fields m) (λ l, FieldGrid (without researchLabels l)) ++
     blocksOf (λ b, if isList b && jeqb (dm_kind m) (js "search") then SearchResults b else NativeBlock b) m) p.

Definition WorkspaceApplication (p : ApplicationProps) : list Piece :=
  let m := ap_display p in
  ApplicationFrame "Repository & code"
    (FieldCard "Workspace path" (field (dm_fields m) "Path") ++
     FieldCard "Revision" (field (dm_fields m) "Revision") ++
     FieldCard "Branch" (field (dm_fields m) "Branch") ++
     whenSome (dm_fields m) (λ l, FieldGrid (without workspaceLabels l)) ++
     blocksOf (λ b, if isList b then NavigationTree b else NativeBlock b) m) p.

Definition TerminalApplication (p : ApplicationProps) : list Piece :=
  let m := ap_display p in
  ApplicationFrame "Terminal & process"
    (FieldCard "Working directory" (field (dm_fields m) "Working directory") ++
     FieldCard "Exit status" (field (dm_fields m) "Exit code") ++
     FieldCard "Duration" (field (dm_fields m) "Duration") ++
     FieldCard "Process state" (field (dm_fields m) "Status") ++
     whenSome (field (dm_fields m) "Command") (λ d, [phrase "Redacted command"; Value d; Meta d]) ++
     blocksOf NativeBlock m ++
     whenSome (dm_fields m) (λ l, FieldGrid (without terminalLabels l))) p.

Definition DeliverableApplication (p : ApplicationProps) : list Piece :=
  let m := ap_display p in
  ApplicationFrame "Document & data"
    (FieldGrid (default [] (dm_fields m)) ++ blocksOf NativeBlock m ++
     (if (length (default [] (dm_blocks m)) =? 0)%nat
      then [phrase "The validated artifact has metadata but no inline preview."] else nothing)) p.

Definition TaskApplication (p : ApplicationProps) : list Piece :=
  let m := ap_display p in
  ApplicationFrame "Task & agent"
    (FieldCard "Assignment" (field (dm_fields m) "Assignment") ++ FieldCard "Status" (field (dm_fields m) "Status") ++
     FieldCard "Budget" (field (dm_fields m) "Budget") ++ FieldCard "Coverage" (field (dm_fields m) "Coverage") ++
     FieldGrid (without taskLabels (default [] (dm_fields m))) ++ blocksOf NativeBlock m) p.

Definition GenericApplication (p : ApplicationProps) : list Piece :=
  let m := ap_display p in
  ApplicationFrame "Evidence" (FieldGrid (default [] (dm_fields m)) ++ blocksOf NativeBlock m) p.

(** The renderers by the kind of the model. *)
Inductive Renderer : Type := Research | Workspace | Terminal | Deliverable | Task | Generic.

Definition renderers : list (string * Renderer) :=
  [("search", Research); ("reader", Research); ("navigation", Workspace); ("repository", Workspace);
   ("code", Workspace); ("diff", Workspace); ("terminal", Terminal); ("process", Terminal);
   ("table", Deliverable); ("chart", Deliverable); ("document", Deliverable); ("artifact", Deliverable);
   ("task", Task); ("agent", Task); ("approval", Task); ("error", Generic); ("degraded", Generic)]%string.

Definition rendererOf (kind : jstr) : Renderer :=
  default Generic (snd <$> find (λ r, jeqb (js r.1) kind) renderers).

Definition render (r : Renderer) : ApplicationProps → list Piece :=
  match r with
  | Research => ResearchApplication
  | Workspace => WorkspaceApplication
  | Terminal => TerminalApplication
  | Deliverable => DeliverableApplication
  | Task => TaskApplication
  | Generic => GenericApplication
  end.

Definition NativeApplication (p : ApplicationProps) : list Piece := render (rendererOf (dm_kind (ap_display p))) p.
End Rendering.
