(* ===== verification/NativeAppsProps.v ===== *)
(** * What the native applications show

    Claims about [NativeApps]: accepted models decode, every piece on screen is backed by
    the model and its sources, links lead to web addresses only, and no field is left out
    unless its label is used twice. *)
From stdpp Require Import base sets list strings.
From Stdlib Require Import ZArith NArith.
From S2P Require Import Prelude JsString JsValue JsArray Regex Catalog Protocol Display Envelope.
From S2P Require Import Events EventsFacts Store EventsProps TuiFormat TuiApp Async Computer NativeApps.

(** ** Decoding accepted models *)

Definition safeText (s : jstr) : Prop := displayTextIsSafe s displayTextMaximum = true.

(** A datum of an accepted model: a safe text with a known truth and with sources that are
    recorded.  Its labels and columns are safe texts too; the label of a block may be
    empty. *)
Definition okDatum (n : Z) (d : DisplayDatum) : Prop :=
  safeText (dt_value d) ∧ dt_truth d ∈ map js displayTruths ∧ dt_sources d ≠ [] ∧
  Forall (λ z, (0 ≤ z < n)%Z) (dt_sources d).
Definition okField (n : Z) (f : DisplayField) : Prop := safeText (fl_label f) ∧ okDatum n (fl_value f).
Definition okItem (n : Z) (i : DisplayItem) : Prop := Forall (okField n) (it_fields i).
Definition okBlock (n : Z) (b : DisplayBlock) : Prop :=
  from_option (okDatum n) True (bk_content b) ∧ Forall (okField n) (default [] (bk_fields b)) ∧
  Forall (okItem n) (default [] (bk_items b)) ∧ Forall (Forall (okDatum n)) (default [] (bk_rows b)) ∧
  from_option (λ l, l = [] ∨ safeText l) True (bk_label b) ∧ Forall safeText (default [] (bk_columns b)) ∧
  bk_kind b ∈ map js displayBlockKinds.
Definition okModel (n : Z) (m : DisplayModel) : Prop :=
  okDatum n (dm_title m) ∧ Forall (okField n) (default [] (dm_fields m)) ∧
  Forall (okBlock n) (default [] (dm_blocks m)).

(** The decoder gives a value with the property. *)
Definition decodes {A} (o : option A) (P : A → Prop) : Prop := ∃ a, o = Some a ∧ P a.

Lemma mapM_decodes {A B} (f : A → option B) (P : B → Prop) (Q : A → Prop) l :
  (∀ x, Q x → decodes (f x) P) → Forall Q l → decodes (mapM f l) (Forall P).
Proof.
  intros Hf. induction 1 as [|x l Hx _ (bs & Hbs & Hok)]; [by exists []|].
  destruct (Hf x Hx) as (b & Hb & HP). exists (b :: bs). cbn. rewrite Hb. cbn. by rewrite Hbs; auto.
Qed.

Lemma listOf_decodes {A} (f : json → option A) (P : A → Prop) lo hi guard v :
  (∀ x, guard (Some x) = true → decodes (f x) P) → arrayOf lo hi guard v = true → decodes (listOf f v) (Forall P).
Proof.
  intros Hf Hv. unfold arrayOf in Hv. unfold listOf. destruct (isArray v) as [l|]; [|done]. bools. cbn.
  apply (mapM_decodes f P (λ x, guard (Some x) = true)); [done|].
  apply Forall_forall. intros x Hx. rewrite forallb_forall in *. rewrite list_elem_of_In in Hx. auto.
Qed.

Lemma optionally_decodes {A} (f : option json → option A) (P : A → Prop) guard v :
  (guard v = true → decodes (f v) P) → optional guard v = true →
  decodes (optionally f v) (from_option P True).
Proof.
  intros Hf Hv. destruct v as [v|]; [|by exists None]. destruct (Hf Hv) as (a & Ha & HP).
  exists (Some a). cbn. by rewrite Ha.
Qed.

Create HintDb native.

Section Props.
Context `{Platform}.
Variable n : Z.

Lemma sources_decode l zs :
  mapM (sourceIndex n) l = Some zs → mapM integerOf l = Some zs ∧ Forall (λ z, (0 ≤ z < n)%Z) zs.
Proof.
  revert zs; induction l as [|v l IH]; intros zs Hz; cbn in Hz; [injection Hz as <-; split; [done|constructor]|].
  destruct (sourceIndex n v) as [z|] eqn:Hv; [|done]. cbn in Hz. destruct (mapM _ l) as [zs'|] eqn:Hl; [|done].
  cbn in Hz. injection Hz as <-. destruct (IH zs' eq_refl) as [Hi Hf]. split.
  - cbn. rewrite Hi. destruct v; try done. cbn in *. destruct (isSafeInteger _); [|done].
    destruct (num_to_Z _) as [z'|]; [|done].
    destruct ((0 <=? z') && (z' <? n))%Z; [|done]. by injection Hv as ->.
  - constructor; [by eapply sourceIndex_bounds|done].
Qed.

Lemma asString_isName names v : isName names v = true → ∃ s, asString v = Some s ∧ s ∈ map js names.
Proof.
  unfold isName. destruct (asString v) as [s|]; [|done]. intros Hs. exists s. split; [done|].
  apply existsb_exists in Hs as (x & Hx & He). apply jeqb_eq in He as ->.
  apply list_elem_of_In, in_map_iff. by exists x.
Qed.

Lemma label_safe s : displayTextIsSafe s 128 = true → safeText s.
Proof.
  unfold safeText, displayTextIsSafe. rewrite !andb_true_iff, !N.leb_le. unfold displayTextMaximum.
  intros ((((((? & ?) & ?) & ?) & ?) & ?) & ?). split_and!; try done; lia.
Qed.

Lemma datum_decodes d : isDisplayDatum n (Some d) = true → decodes (datumOf d) (okDatum n).
Proof.
  unfold isDisplayDatum. intros Hd. bools. cbn [getO] in *.
  unfold textOk in *. destruct (asString (get "value" d)) as [text|] eqn:Ht; [|done].
  destruct (asString_isName displayTruths (get "truth" d)) as (truth & Htr & Hknown); [done|].
  destruct (asString_isName displayFormats (get "format" d)) as (format & Hfo & _); [done|].
  destruct (isArray (get "sources" d)) as [l|] eqn:Hl; [|done]. bools. unfold sourcesOk in *.
  destruct (mapM (sourceIndex n) l) as [zs|] eqn:Hz; [|done]. destruct (sources_decode l zs Hz) as [Hi Hf].
  exists {| dt_value := text; dt_truth := truth; dt_format := format; dt_sources := zs |}. split.
  - unfold datumOf, listOf. rewrite Ht, Htr, Hfo, Hl. cbn. by rewrite Hi.
  - split_and!; [done|done| |done]. cbn [dt_sources]. unfold arrayBetween in *. bools. apply length_mapM in Hz.
    destruct zs, l; simpl in *; [lia|done..].
Qed.

Lemma field_decodes f : isDisplayField n (Some f) = true → decodes (fieldOf f) (okField n).
Proof.
  unfold isDisplayField. intros Hf. bools. cbn [getO] in *. unfold textOk in *.
  destruct (asString (get "label" f)) as [l|] eqn:Hl; [|done]. destruct (get "value" f) as [v|] eqn:Hv; [|done].
  destruct (datum_decodes v) as (d & Hd & Hok); [done|].
  exists {| fl_label := l; fl_value := d |}. unfold fieldOf. rewrite Hl, Hv. cbn [mbind option_bind]. rewrite Hd.
  split; [done|]. split; [by apply label_safe|done].
Qed.

Lemma item_decodes i : isDisplayItem n (Some i) = true → decodes (itemOf i) (okItem n).
Proof.
  unfold isDisplayItem. intros Hi. bools. cbn [getO] in *.
  destruct (listOf_decodes fieldOf (okField n) 1 32 (isDisplayField n) (get "fields" i)) as (l & Hl & Hok);
    [apply field_decodes|done|].
  exists {| it_fields := l |}. unfold itemOf. by rewrite Hl.
Qed.

Lemma row_decodes columns r : isDisplayRow n columns (Some r) = true → decodes (rowOf r) (Forall (okDatum n)).
Proof.
  unfold isDisplayRow, rowOf. intros Hr. destruct (isArray (Some r)) as [l|] eqn:Hl; [|done]. bools.
  unfold listOf. rewrite Hl. cbn.
  apply (mapM_decodes datumOf (okDatum n) (λ x, isDisplayDatum n (Some x) = true)); [apply datum_decodes|].
  apply Forall_forall. intros x Hx. rewrite forallb_forall in *. rewrite list_elem_of_In in Hx. auto.
Qed.

Lemma from_default {A} (P : A → Prop) (o : option (list A)) :
  from_option (Forall P) True o → Forall P (default [] o).
Proof. by destruct o. Qed.

Lemma block_decodes b : isDisplayBlock n (Some b) = true → decodes (blockOf b) (okBlock n).
Proof.
  unfold isDisplayBlock. intros Hb. bools. cbn [getO] in *.
  destruct (asString_isName displayBlockKinds (get "kind" b)) as (kind & Hkind & Hknown); [done|].
  destruct (optionally_decodes asString (λ l, l = [] ∨ safeText l) (λ v, match asString v with
              | Some s => jeqb s [] || displayTextIsSafe s 128 | None => false end) (get "label" b))
    as (label & Hlabel & Hok5); [|done|].
  { destruct (asString (get "label" b)) as [s|]; [|done]. intros [->%jeqb_eq|Hs%label_safe]%orb_true_iff; eexists; auto. }
  destruct (optionally_decodes (λ w, w ≫= datumOf) (okDatum n) (isDisplayDatum n) (get "content" b))
    as (content & Hcontent & Hok1); [|done|].
  { destruct (get "content" b) as [v|]; [|done]. apply datum_decodes. }
  destruct (optionally_decodes (listOf fieldOf) (Forall (okField n)) (arrayOf 0 32 (isDisplayField n)) (get "fields" b))
    as (fields & Hfields & Hok2); [apply listOf_decodes, field_decodes|done|].
  destruct (optionally_decodes (listOf itemOf) (Forall (okItem n)) (arrayOf 0 64 (isDisplayItem n)) (get "items" b))
    as (items & Hitems & Hok3); [apply listOf_decodes, item_decodes|done|].
  destruct (optionally_decodes (listOf textOf) (Forall safeText) (arrayOf 0 16 (textOk 128)) (get "columns" b))
    as (columns & Hcolumns & Hok6); [apply listOf_decodes|done|].
  { intros x Hx. unfold textOk in Hx. unfold textOf. destruct (asString (Some x)) as [s|]; [|done].
    exists s. split; [done|]. by apply label_safe. }
  destruct (optionally_decodes (listOf rowOf) (Forall (Forall (okDatum n)))
              (arrayOf 0 64 (isDisplayRow n (get "columns" b))) (get "rows" b))
    as (rows & Hrows & Hok4); [apply listOf_decodes, row_decodes|done|].
  eexists. split.
  - unfold blockOf. rewrite Hkind, Hlabel, Hcontent, Hfields, Hitems, Hcolumns, Hrows. reflexivity.
  - split_and!; [done|by apply from_default..|done|by apply from_default|done].
Qed.

Lemma model_decodes v : isDisplayModel n v = true → decodes (modelOf v) (okModel n).
Proof.
  unfold isDisplayModel. intros Hv. bools.
  destruct (asString_isName displayKinds (get "kind" v)) as (kind & Hkind & _); [done|].
  destruct (get "title" v) as [t|] eqn:Ht; [|done]. destruct (datum_decodes t) as (title & Htitle & Hok0); [done|].
  destruct (optionally_decodes (listOf fieldOf) (Forall (okField n)) (arrayOf 0 32 (isDisplayField n)) (get "fields" v))
    as (fields & Hfields & Hok1); [apply listOf_decodes, field_decodes|done|].
  destruct (optionally_decodes (listOf blockOf) (Forall (okBlock n)) (arrayOf 0 16 (isDisplayBlock n)) (get "blocks" v))
    as (blocks & Hblocks & Hok2); [apply listOf_decodes, block_decodes|done|].
  eexists. split.
  - unfold modelOf. rewrite Hkind, Ht. cbn [mbind option_bind]. rewrite Htitle, Hfields, Hblocks. reflexivity.
  - split_and!; [done|by apply from_default..].
Qed.

(** ** What is on screen *)

Variable URL_toString : URL → jstr.
Variable localDate : jstr → jstr.

Definition webLink (href : jstr) : Prop :=
  ∃ value u, URL_parse value = Some u ∧ (url_protocol u = js "https:" ∨ url_protocol u = js "http:") ∧
             href = URL_toString u.

(** The texts of the client itself. *)
Definition clientTexts : list string :=
  ["Research"; "Repository & code"; "Terminal & process"; "Document & data"; "Task & agent"; "Evidence";
   "Compatible retained view"; "Captured visual evidence";
   "A sanitized capture is referenced for appearance review. Semantic data remains the primary view.";
   "Search query"; "Opened address"; "Workspace path"; "Revision"; "Branch"; "Working directory"; "Exit status";
   "Duration"; "Process state"; "Redacted command"; "Assignment"; "Status"; "Budget"; "Coverage"; "Unavailable";
   "Items"; "Results"; "No validated results were available."; "Untitled result";
   "Files"; "Folder"; "File"; "Unnamed entry";
   "Validated chart data. Values remain available in the accessible table.";
   "The validated artifact has metadata but no inline preview."]%string.

Variable event : EventEnvelope.
Variable sources : list ComputerSourceReference.

(** One of them, the name of a kind of block, the number of a result, the line of the
    event. *)
Definition ownText (s : jstr) : Prop :=
  s ∈ map js clientTexts ∨
  (∃ kind, kind ∈ map js displayBlockKinds ∧ (s = humanizeWords kind ∨ s = humanizeWords kind ++ js " data")) ∨
  (∃ i, s = js "Result " ++ num_toString (num_of_Z i)) ∨
  s = js "Event " ++ num_toString (num_of_Z (ev_sequence event)) ++ js " · " ++
      timestampText localDate (ev_occurred_at event).

Definition okPiece (p : Piece) : Prop :=
  match p with
  | Words s => s = [] ∨ safeText s ∨ ownText s
  | Value d | Meta d => okDatum n d
  | Anchor href label => webLink href ∧ safeText label
  | SourceRow _ s => s ∈ sources
  end.

Lemma own_phrase s : existsb (String.eqb s) clientTexts = true → ownText (js s).
Proof.
  intros Hs. left. apply list_elem_of_In, in_map. apply existsb_exists in Hs as (t & Ht & He).
  by apply String.eqb_eq in He as ->.
Qed.

Lemma ok_phrase s : existsb (String.eqb s) clientTexts = true → okPiece (phrase s).
Proof. intros Hs. right; right. by apply own_phrase. Qed.

Lemma ok_label f : okField n f → okPiece (Words (fl_label f)).
Proof. intros [Hl _]. by right; left. Qed.

Lemma ok_value f : okField n f → okDatum n (fl_value f).
Proof. by intros [_ Hd]. Qed.

Lemma ok_labelOr fallback b : okBlock n b → ownText fallback → okPiece (labelOr fallback b).
Proof.
  intros (_ & _ & _ & _ & Hl & _) Hf. unfold labelOr. destruct (bk_label b) as [l|]; cbn in *; [|by right; right].
  destruct Hl; auto.
Qed.

Lemma ok_kind b : okBlock n b → ownText (humanizeWords (bk_kind b)) ∧ ownText (humanizeWords (bk_kind b) ++ js " data").
Proof. intros (_ & _ & _ & _ & _ & _ & Hk). split; right; left; exists (bk_kind b); auto. Qed.

#[local] Hint Resolve ok_label ok_value ok_labelOr own_phrase : native.

(** A list of pieces that are fine at sight. *)
Ltac piece := solve [apply ok_phrase; reflexivity | apply ok_labelOr; [done|apply own_phrase; reflexivity] | done
                    | apply ok_label; done | apply ok_value; done].
Ltac pieces := repeat first [apply Forall_nil_2 | apply Forall_cons_2; [piece|]].

Lemma ok_words l : Forall safeText l → Forall okPiece (map Words l).
Proof. intros Hl. apply Forall_map. eapply Forall_impl; [exact Hl|]. intros x Hx. by right; left. Qed.

Lemma ok_when {A} (o : option A) f (P : A → Prop) :
  from_option P True o → (∀ a, P a → Forall okPiece (f a)) → Forall okPiece (whenSome o f).
Proof. destruct o as [a|]; [intros Ha Hf; by apply Hf|constructor]. Qed.

Lemma safeURL_web v href : safeURL URL_toString v = Some href → webLink href.
Proof.
  unfold safeURL. destruct (URL_parse v) as [u|] eqn:Hu; [|done]. destruct (_ || _) eqn:Hp; [|done].
  intros [= <-]. exists v, u. apply orb_true_iff in Hp. rewrite !jeqb_eq in Hp. done.
Qed.

Lemma ok_link d label :
  okDatum n d → from_option safeText True label → Forall okPiece (SafeLink URL_toString d label).
Proof.
  intros Hd Hl. pose proof Hd as [Hs _]. unfold SafeLink.
  destruct (safeURL _ _) as [href|] eqn:Hu, label; apply Forall_singleton; try done;
    [split; [by eapply safeURL_web|done]..|by right; left].
Qed.

Lemma ok_sources l : (∀ s, s ∈ l → s ∈ sources) → Forall okPiece (SourceList l).
Proof.
  intros Hl. unfold SourceList. apply Forall_forall. intros p Hp. apply elem_of_lookup_imap in Hp as (i & s & -> & Hs).
  by apply Hl, list_elem_of_lookup_2 with i.
Qed.

Lemma ok_field l label : Forall (okField n) l → from_option (okDatum n) True (field (Some l) label).
Proof.
  intros Hl. unfold field. cbn. destruct (find _ l) as [f|] eqn:Hf; [|done]. apply find_some in Hf as [Hf _].
  apply ok_value. by apply (proj1 (List.Forall_forall _ _) Hl).
Qed.

Lemma ok_optional_field o label :
  Forall (okField n) (default [] o) → from_option (okDatum n) True (field o label).
Proof. destruct o; [apply ok_field|done]. Qed.

Lemma ok_without labels l : Forall (okField n) l → Forall (okField n) (without labels l).
Proof. rewrite !List.Forall_forall. intros Hl f [Hf _]%filter_In. auto. Qed.

Lemma ok_grid l : Forall (okField n) l → Forall okPiece (FieldGrid URL_toString l).
Proof.
  intros Hl. apply Forall_flat_map. eapply Forall_impl; [exact Hl|]. intros f Hf. constructor; [by apply ok_label|].
  apply Forall_app. split; [|by pieces]. case_match; [by apply ok_link; [apply ok_value|]|by pieces].
Qed.

Lemma ok_card label o :
  existsb (String.eqb label) clientTexts = true → from_option (okDatum n) True o → Forall okPiece (FieldCard label o).
Proof. unfold FieldCard. intros Hl. destruct o; intros Ho; (constructor; [by apply ok_phrase|]); by pieces. Qed.

Lemma ok_pairs l : Forall (okField n) l → Forall okPiece (flat_map (λ f, [Words (fl_label f); Value (fl_value f)]) l).
Proof. intros Hl. apply Forall_flat_map. eapply Forall_impl; [exact Hl|]. intros f Hf. by pieces. Qed.

Lemma ok_orElse a b :
  from_option (okDatum n) True a → from_option (okDatum n) True b → from_option (okDatum n) True (orElse a b).
Proof. by destruct a. Qed.

Lemma ok_datum_when o : from_option (okDatum n) True o → Forall okPiece (whenSome o (λ d, [Meta d])).
Proof. intros Ho. apply (ok_when _ _ (okDatum n)); [done|]. intros d Hd. by pieces. Qed.

Lemma ok_value_when o : from_option (okDatum n) True o → Forall okPiece (whenSome o (λ d, [Value d])).
Proof. intros Ho. apply (ok_when _ _ (okDatum n)); [done|]. intros d Hd. by pieces. Qed.

#[local] Hint Resolve ok_field ok_optional_field ok_orElse ok_datum_when ok_value_when ok_grid ok_without
  ok_sources ok_words ok_pairs : native.

Lemma ok_data b : okBlock n b → Forall okPiece (DataBlock b).
Proof.
  intros Hb. pose proof Hb as (_ & _ & _ & Hrows & _ & Hcolumns & _). destruct (ok_kind b Hb).
  unfold DataBlock. constructor; [by apply ok_labelOr|]. apply Forall_app. split; [case_match; by pieces|].
  constructor; [by apply ok_labelOr|]. apply Forall_app.
  split; [destruct (bk_columns b); [by apply ok_words|constructor]|].
  apply Forall_flat_map. eapply Forall_impl; [exact Hrows|]. intros row Hrow. apply Forall_flat_map.
  eapply Forall_impl; [exact Hrow|]. intros d Hd. by pieces.
Qed.

Lemma ok_block b : okBlock n b → Forall okPiece (NativeBlock URL_toString b).
Proof.
  intros Hb. pose proof Hb as (Hcontent & Hfields & Hitems & Hrows & Hlabel & _). unfold NativeBlock.
  destruct (jeqb (bk_kind b) (js "list")).
  { constructor; [piece|]. apply Forall_flat_map. eapply Forall_impl; [exact Hitems|]. intros i Hi. by apply ok_pairs. }
  destruct (_ || _); [by apply ok_data|]. rewrite !Forall_app.
  split_and!; [|auto with native..].
  destruct (bk_label b); [|constructor]. apply Forall_singleton. destruct Hlabel; cbn; auto.
Qed.

Lemma ok_result i item : okItem n item → Forall okPiece (searchResult URL_toString i item).
Proof.
  intros Hi. unfold searchResult, itemField. constructor; [right; right; right; right; left; by eexists|].
  rewrite !Forall_app. split_and!; [|auto 6 with native..].
  assert (Htitle : from_option (okDatum n) True (orElse (field (Some (it_fields item)) "Title")
      (orElse (field (Some (it_fields item)) "Name") (field (Some (it_fields item)) "Path")))) by auto 6 with native.
  pose proof (ok_field (it_fields item) "URL" Hi) as Ht. destruct (field (Some (it_fields item)) "URL") as [t|].
  - apply ok_link; [done|]. destruct (orElse _ _); cbn in *; [apply Htitle|apply Ht].
  - destruct (orElse _ _); by pieces.
Qed.

Lemma ok_results b : okBlock n b → Forall okPiece (SearchResults URL_toString b).
Proof.
  intros Hb. pose proof Hb as (_ & _ & Hitems & _). unfold SearchResults. constructor; [piece|]. apply Forall_app.
  split; [repeat case_match; by pieces|]. apply Forall_concat, Forall_forall. intros l Hl.
  apply elem_of_lookup_imap in Hl as (i & item & -> & Hi). apply ok_result.
  by apply (proj1 (Forall_lookup _ _) Hitems i).
Qed.

Lemma ok_tree b : okBlock n b → Forall okPiece (NavigationTree b).
Proof.
  intros Hb. pose proof Hb as (_ & _ & Hitems & _). constructor; [piece|].
  apply Forall_flat_map. eapply Forall_impl; [exact Hitems|].
  intros i Hi. unfold treeEntry, itemField. constructor; [case_bool_decide; piece|].
  apply Forall_app. split; [|auto with native].
  assert (Hname : from_option (okDatum n) True (orElse (field (Some (it_fields i)) "Name")
      (field (Some (it_fields i)) "Path"))) by auto with native.
  destruct (orElse _ _); by pieces.
Qed.

Lemma ok_blocks f m :
  okModel n m → (∀ b, okBlock n b → Forall okPiece (f b)) → Forall okPiece (blocksOf f m).
Proof. intros (_ & _ & Hb) Hf. apply Forall_flat_map. eapply Forall_impl; [exact Hb|done]. Qed.

Lemma ok_frame family children p :
  existsb (String.eqb family) clientTexts = true → ap_event p = event → ap_sources p = sources →
  okModel n (ap_display p) → Forall okPiece children → Forall okPiece (ApplicationFrame localDate family children p).
Proof.
  intros Hf He Hs (Ht & _) Hc. unfold ApplicationFrame. rewrite !Forall_app. split_and!; [| |done| |].
  - constructor; [by apply ok_phrase|by pieces].
  - destruct (ap_migrated p); by pieces.
  - destruct (_ =? _)%nat; [constructor|]. rewrite Forall_app. split; [by pieces|]. apply ok_sources. intros s. rewrite !list_elem_of_In, filter_In, Hs. tauto.
  - constructor; [do 5 right; by rewrite He|]. apply ok_sources. by rewrite Hs.
Qed.

Lemma ok_grid_when o labels :
  Forall (okField n) (default [] o) → Forall okPiece (whenSome o (λ l, FieldGrid URL_toString (without labels l))).
Proof. destruct o; cbn; [auto with native|constructor]. Qed.

#[local] Hint Resolve ok_grid_when ok_block ok_results ok_tree : native.

Lemma ok_application p :
  ap_event p = event → ap_sources p = sources → okModel n (ap_display p) →
  Forall okPiece (NativeApplication URL_toString localDate p).
Proof.
  intros He Hs Hm. pose proof Hm as (_ & Hf & _). unfold NativeApplication.
  destruct (rendererOf _); cbn [render]; (apply ok_frame; [reflexivity|done|done|done|]);
    rewrite ?Forall_app; split_and!; auto with native;
    try (apply ok_card; [reflexivity|auto with native]);
    try (apply ok_blocks; [done|]; intros b Hb; try case_match; auto with native).
  - apply (ok_when _ _ (okDatum n)); [auto with native|]. intros d Hd. by pieces.
  - apply (ok_when _ _ (okDatum n)); [auto with native|]. intros d Hd. constructor; [piece|].
    apply Forall_app. split; [by apply ok_link|by pieces].
  - apply (ok_when _ _ (okDatum n)); [auto with native|]. intros d Hd. by pieces.
  - case_match; by pieces.
Qed.

Lemma source_listed p z s :
  ap_sources p !! z = Some s → SourceRow (Z.of_nat z + 1) s ∈ NativeApplication URL_toString localDate p.
Proof.
  intros Hs. assert (SourceRow (Z.of_nat z + 1) s ∈ SourceList (ap_sources p)) as Hin.
  { unfold SourceList. apply elem_of_lookup_imap. by exists z, s. }
  assert (Hframe : ∀ family children, SourceRow (Z.of_nat z + 1) s ∈ ApplicationFrame localDate family children p).
  { intros family children. unfold ApplicationFrame. do 4 (apply elem_of_app; right).
    apply elem_of_cons. by right. }
  unfold NativeApplication. destruct (rendererOf _); apply Hframe.
Qed.

(** ** Every field has a place *)

(** The text of a datum is on screen. *)
Definition shown (d : DisplayDatum) (l : list Piece) : Prop :=
  Value d ∈ l ∨ ∃ href, Anchor href (dt_value d) ∈ l.

Lemma shown_app d l1 l2 : shown d l1 ∨ shown d l2 → shown d (l1 ++ l2).
Proof. unfold shown. intros [[Hv|[h Hh]]|[Hv|[h Hh]]];
  [left|right; exists h|left|right; exists h]; apply elem_of_app; tauto. Qed.

Lemma shown_cons d p l : shown d l → shown d (p :: l).
Proof. unfold shown. intros [Hv|[h Hh]]; [left|right; exists h]; apply elem_of_cons; tauto. Qed.

Lemma shown_link d : shown d (SafeLink URL_toString d None).
Proof.
  unfold SafeLink, shown. destruct (safeURL _ _) as [href|]; [right; exists href|left]; by apply list_elem_of_singleton.
Qed.

Lemma shown_grid f l : f ∈ l → shown (fl_value f) (FieldGrid URL_toString l).
Proof.
  unfold FieldGrid. induction l as [|g l IH]; [by intros ?%not_elem_of_nil|].
  intros [->|Hf]%elem_of_cons; cbn [flat_map]; apply shown_app; [left|right; auto].
  apply shown_cons, shown_app. left. case_match; [apply shown_link|left; by apply list_elem_of_singleton].
Qed.

Lemma shown_card label d : shown d (FieldCard label (Some d)).
Proof. left. set_solver. Qed.

Lemma field_first f l label :
  find (λ g, jeqb (fl_label g) (fl_label f)) l = Some f → fl_label f = js label → field (Some l) label = Some (fl_value f).
Proof. intros Hf Hl. unfold field. cbn [mbind option_bind]. by rewrite Hl in Hf; rewrite Hf. Qed.

(** A field is placed by its label, or goes into the grid with the others. *)
Lemma without_or f l labels :
  f ∈ l → (∃ label, label ∈ labels ∧ fl_label f = js label) ∨ f ∈ without labels l.
Proof.
  intros Hf. destruct (existsb (λ l, jeqb (fl_label f) (js l)) labels) eqn:He.
  - left. apply existsb_exists in He as (label & Hin & Hl). apply jeqb_eq in Hl. exists label. by rewrite list_elem_of_In.
  - right. rewrite list_elem_of_In in *. apply filter_In. split; [done|]. by rewrite He.
Qed.

Lemma frame_shows d family children p : shown d children → shown d (ApplicationFrame localDate family children p).
Proof. intros Hd. unfold ApplicationFrame. do 2 (apply shown_app; right). apply shown_app. by left. Qed.

Section Complete.
Variable p : ApplicationProps.
Variable l : list DisplayField.
Variable f : DisplayField.
Hypothesis Hl : dm_fields (ap_display p) = Some l.
Hypothesis Hf : find (λ g, jeqb (fl_label g) (fl_label f)) l = Some f.

Lemma first_elem : f ∈ l.
Proof. apply find_some in Hf as [Hin _]. by rewrite list_elem_of_In. Qed.

Ltac place := repeat (apply shown_app; (left; solve [apply shown_card|apply shown_cons; apply shown_app; left; apply shown_link|left; set_solver]) || right).

Lemma research_shows : shown (fl_value f) (ResearchApplication URL_toString localDate p).
Proof.
  apply frame_shows. cbv zeta. rewrite Hl.
  destruct (without_or f l researchLabels first_elem) as [(label & Hin & Hlab)|Hg].
  - pose proof (field_first f l label Hf Hlab) as Hx. unfold researchLabels in Hin.
    repeat (apply elem_of_cons in Hin as [->|Hin]); [| |by apply not_elem_of_nil in Hin]; rewrite Hx.
    + apply shown_app; left; left. set_solver.
    + apply shown_app; right. apply shown_app; left. apply shown_cons, shown_app. left. apply shown_link.
  - do 2 (apply shown_app; right). apply shown_app; left. by apply shown_grid.
Qed.

Lemma workspace_shows : shown (fl_value f) (WorkspaceApplication URL_toString localDate p).
Proof.
  apply frame_shows. cbv zeta. rewrite Hl.
  destruct (without_or f l workspaceLabels first_elem) as [(label & Hin & Hlab)|Hg].
  - pose proof (field_first f l label Hf Hlab) as Hx. unfold workspaceLabels in Hin.
    repeat (apply elem_of_cons in Hin as [->|Hin]); [| | |by apply not_elem_of_nil in Hin]; rewrite Hx; place.
  - do 3 (apply shown_app; right). apply shown_app; left. by apply shown_grid.
Qed.

Lemma terminal_shows : shown (fl_value f) (TerminalApplication URL_toString localDate p).
Proof.
  apply frame_shows. cbv zeta. rewrite Hl.
  destruct (without_or f l terminalLabels first_elem) as [(label & Hin & Hlab)|Hg].
  - pose proof (field_first f l label Hf Hlab) as Hx. unfold terminalLabels in Hin.
    repeat (apply elem_of_cons in Hin as [->|Hin]); [| | | | |by apply not_elem_of_nil in Hin]; rewrite Hx; place.
  - do 6 (apply shown_app; right). by apply shown_grid.
Qed.

Lemma task_shows : shown (fl_value f) (TaskApplication URL_toString localDate p).
Proof.
  apply frame_shows. cbv zeta. rewrite Hl.
  destruct (without_or f l taskLabels first_elem) as [(label & Hin & Hlab)|Hg].
  - pose proof (field_first f l label Hf Hlab) as Hx. unfold taskLabels in Hin.
    repeat (apply elem_of_cons in Hin as [->|Hin]); [| | | |by apply not_elem_of_nil in Hin]; rewrite Hx; place.
  - do 4 (apply shown_app; right). apply shown_app; left. by apply shown_grid.
Qed.
End Complete.

(** No field disappears: whatever the kind of the model, and so whichever renderer is
    chosen, the text of every field is on screen, in a place of its own or in the grid,
    provided no earlier field has the same label. *)
Theorem every_field_is_shown (p : ApplicationProps) (l : list DisplayField) (f : DisplayField) :
  dm_fields (ap_display p) = Some l → find (λ g, jeqb (fl_label g) (fl_label f)) l = Some f →
  shown (fl_value f) (NativeApplication URL_toString localDate p).
Proof.
  intros Hl Hf. pose proof (first_elem l f Hf) as Hin. unfold NativeApplication.
  destruct (rendererOf _); cbn [render];
    eauto using research_shows, workspace_shows, terminal_shows, task_shows;
    apply frame_shows; cbv zeta; rewrite Hl; apply shown_app; left; by apply shown_grid.
Qed.
End Props.


(** ** Witnesses *)

Definition datum_json (text format : string) : json :=
  JObj [(js "value", JStr (js text)); (js "truth", JStr (js "observed")); (js "format", JStr (js format));
        (js "sources", JArr [JNum (NFin 0 0)])].
Definition field_json (label text : string) : json :=
  JObj [(js "label", JStr (js label)); (js "value", datum_json text "text")].

(** A terminal run: a command, an exit code twice, and its output. *)
Definition run_json : json :=
  JObj [(js "protocol_version", JStr (js DISPLAY_MODEL_VERSION)); (js "kind", JStr (js "terminal"));
        (js "title", datum_json "Tests" "text");
        (js "fields", JArr [field_json "Command" "make test"; field_json "Exit code" "0"; field_json "Exit code" "1"]);
        (js "blocks", JArr [JObj [(js "kind", JStr (js "terminal")); (js "content", datum_json "ok" "terminal")]])].

Definition run_sources : list ComputerSourceReference := [{| sr_kind := js "tool_event"; sr_id := uuid "1" |}].


Definition run_datum (text : string) : DisplayDatum := {|
  dt_value := js text; dt_truth := js "observed"; dt_format := js "text"; dt_sources := [0%Z] |}.
Definition run_field (label text : string) : DisplayField := {| fl_label := js label; fl_value := run_datum text |}.
Definition run_fields : list DisplayField :=
  [run_field "Command" "make test"; run_field "Exit code" "0"; run_field "Exit code" "1"].
Definition run_props : ApplicationProps := {|
  ap_display := {| dm_kind := js "terminal"; dm_title := run_datum "Tests"; dm_fields := Some run_fields; dm_blocks := None |};
  ap_event := tool_event 1 completed; ap_migrated := false; ap_sources := run_sources |}.

Lemma every_field_is_shown_witness :
  shown (run_datum "0") (@NativeApplication test_platform url_protocol (λ s, s) run_props).
Proof.
  apply (@every_field_is_shown test_platform url_protocol (λ s, s) run_props run_fields (run_field "Exit code" "0"));
    vm_compute; reflexivity.
Defined.

(** The proviso is needed: a second field with a placed label is not shown anywhere. *)
Example second_exit_code_is_dropped :
  existsb (λ p, match p with
                | Value d => jeqb (dt_value d) (js "1")
                | Anchor _ label => jeqb label (js "1")
                | _ => false
                end) (@NativeApplication test_platform url_protocol (λ s, s) run_props) = false.
Proof. vm_compute. reflexivity. Qed.
