(* ===== verification/Sessions.v ===== *)
(** * Overview, conversations and event pages

    [ui/web/src/routes/CriticalRoutes.tsx]: the cards of the command center, the
    conversation library with its operations, and the security and integrity pages.

    [ToNumber] converts a text to a number ([None]: NaN); the date formats are parameters;
    [now] is [Date.now()]. *)
From stdpp Require Import base list strings.
From Stdlib Require Import ZArith NArith.
From S2P Require Import Prelude JsString JsValue JsArray Regex Catalog Protocol Display Envelope.
From S2P Require Import Events LocalClient Client Operator TuiFormat TuiApp Async Computer.

(** ** Text *)

Section Text.
Context `{Platform}.
Variable localTime localDay : jstr → jstr.

Definition routeLabels : list (string * string) :=
  [("approval.requested", "A decision is waiting for you"); ("approval.responded", "Your decision was recorded");
   ("approval.resolved", "Your decision was recorded"); ("circuit.opened", "A safety limit stopped an action");
   ("integrity.generated", "A safety check finished"); ("memory.created", "Knowledge was saved");
   ("memory.deleted", "Saved knowledge was removed"); ("memory.updated", "Saved knowledge changed");
   ("policy.allowed", "An action passed its safety checks"); ("policy.decision", "A safety decision was recorded");
   ("policy.denied", "An action was blocked by a safety rule"); ("premise.created", "An assumption was recorded");
   ("premise.updated", "An assumption changed"); ("security.alert", "A security issue needs attention")]%string.

Definition capitalized (value : jstr) : jstr :=
  let s := spaced value in toUpperCase (take 1 s) ++ drop 1 s.

Definition routeTitle (type : jstr) : jstr :=
  match find (λ row, jeqb type (js row.1)) routeLabels with
  | Some row => js row.2
  | None => join (js " · ") (map capitalized (splitOn 46 type))
  end.

Definition compact (value : json) : jstr := clip 160 157 (stringify value).

Definition eventPayload (e : EventEnvelope) : jstr :=
  if startsWith (js "approval.") (ev_type e) then stringify (ev_payload e) else compact (ev_payload e).

Definition clockTime (value : jstr) : jstr := match Date_parse value with None => value | Some _ => localTime value end.

Definition relativeTime (now : Z) (value : jstr) : jstr :=
  match Date_parse value with
  | None => value
  | Some date =>
      let elapsed := (now - date)%Z in
      let ago (unit : Z) (suffix : string) := string_of_Z (elapsed / unit) ++ js suffix in
      if (elapsed <? 60000)%Z then js "Just now"
      else if (elapsed <? 3600000)%Z then ago 60000%Z "m ago"
      else if (elapsed <? 86400000)%Z then ago 3600000%Z "h ago"
      else if (elapsed <? 604800000)%Z then ago 86400000%Z "d ago"
      else localDay value
  end.

(** ** Event pages *)

Definition prefixed (prefixes : list string) (e : EventEnvelope) : bool :=
  existsb (λ p, startsWith (js p) (ev_type e)) prefixes.

Definition securityEvents (s : OperatorState) : list EventEnvelope :=
  List.filter (prefixed ["policy."; "security."; "circuit."; "approval."]%string) (recent_events s).

Definition integrityEvents (s : OperatorState) : list EventEnvelope :=
  List.filter (λ e, jeqb (ev_type e) (js "integrity.generated") || prefixed ["memory."; "premise."]%string e)
    (recent_events s).

(** The row of an event: when, what, the related work, the details. *)
Definition pageRow (e : EventEnvelope) : jstr * jstr * jstr * jstr :=
  (clockTime (ev_occurred_at e), routeTitle (ev_type e),
   default (js "System-wide") (orElse (take 8 <$> cor_turn_id (ev_correlation e))
                                      (take 8 <$> cor_session_id (ev_correlation e))),
   ev_type e ++ js ": " ++ eventPayload e).

Definition EventPage (events : list EventEnvelope) : list (jstr * jstr * jstr * jstr) := map pageRow (reverse events).
End Text.

(** ** The command center *)

Section Overview.
Variable ToNumber : jstr → option num.

(** A check: its last data and whether its last run failed. *)
Record Check : Type := { ck_data : option json; ck_error : bool }.

Definition record (v : option json) : option json := if isRecord v then v else None.

(** [value ?? fallback]: [null] counts as missing. *)
Definition present (v : option json) : option json := match v with Some JNull => None | _ => v end.

(** [Number(v ?? 0)], [None] for NaN. *)
Definition numberOf (v : option json) : option num :=
  match present v with
  | None => Some (num_of_Z 0)
  | Some (JNum n) => Some n
  | Some (JBool b) => Some (num_of_Z (if b then 1 else 0))
  | Some (JStr s) => ToNumber s
  | Some (JArr l) => ToNumber (toStr (JArr l))
  | Some _ => None
  end.

Definition numText (n : option num) : jstr := match n with Some n => num_toString n | None => js "NaN" end.

Definition positive (n : option num) : bool :=
  match n with Some (NFin m _) => (0 <? m)%Z | Some (NInf neg) => negb neg | None => false end.

Definition textOr (fallback : string) (v : option json) : jstr :=
  match present v with Some v => toStr v | None => js fallback end.

Record Card : Type := { cd_label : jstr; cd_status : string; cd_detail : jstr; cd_to : string }.

Definition cardAttention (c : Card) : bool :=
  String.eqb (cd_status c) "Needs attention" || String.eqb (cd_status c) "Setup needed".

Record Metric : Type := { mt_label : string; mt_value : nat; mt_detail : string }.

Definition overviewMetrics (s : OperatorState) : list Metric :=
  let active := length (List.filter (λ kv, bool_decide (t_status kv.2 = Running)) (turns s)) in
  let pending := length (pending_approvals s) in
  let alerts := length (List.filter (λ e, jeqb (ev_type e) (js "security.alert") ||
                                          jeqb (ev_type e) (js "circuit.opened")) (recent_events s)) in
  [{| mt_label := "Working now"; mt_value := active;
      mt_detail := if (active =? 0)%nat then "No request is running" else "Request in progress" |};
   {| mt_label := "Needs your decision"; mt_value := pending;
      mt_detail := if (pending =? 0)%nat then "Nothing is waiting" else "Review before action continues" |};
   {| mt_label := "Safety issues"; mt_value := alerts;
      mt_detail := if (alerts =? 0)%nat then "No recent alerts" else "Review recent alerts" |}].

Definition workCard (brief : Check) : Card :=
  let workBrief := record (ck_data brief) in
  let contract := record (getO "contract" workBrief) in
  {| cd_label := match contract with
                 | None => js "What should happen next"
                 | Some c => textOr "Current outcome" (get "goal" c)
                 end;
     cd_status := match asString (getO "blocking_reason" workBrief) with
                  | Some (_ :: _) => "Waiting"
                  | _ => match contract with None => "Not set" | Some _ => "In progress" end
                  end;
     cd_detail := match contract with
                  | None => js "Set a concrete deliverable and proof of completion before substantial work begins."
                  | Some _ => textOr "Choose the next action" (getO "next_action" workBrief) ++ js " · " ++
                              numText (numberOf (getO "completion_percentage" workBrief)) ++ js "% verified"
                  end;
     cd_to := "/work" |}.

Definition healthReady (c : Check) : bool := isLit "ready" (getO "status" (record (ck_data c))).

Definition healthCard (c : Check) : Card :=
  {| cd_label := js "Agent service";
     cd_status := if ck_error c then "Needs attention" else if healthReady c then "Ready" else "Checking";
     cd_detail := js (if ck_error c then "Ion did not answer its health check."
                      else if healthReady c then "Encrypted sessions and live updates are available."
                      else "Checking the running service.");
     cd_to := "/diagnostics" |}.

Definition providerCard (c : Check) : Card :=
  let provider := record (head (default [] (isArray (ck_data c)))) in
  {| cd_label := js "Model connection";
     cd_status := match provider with None => "Setup needed" | Some _ => "Configured" end;
     cd_detail := match provider with
                  | None => js "Connect a model before starting real agent work."
                  | Some p => textOr "Model" (get "name" p) ++ js " · " ++ textOr "model selected" (get "model" p)
                  end;
     cd_to := "/extensions" |}.

(** The status of a check that counts something. *)
Definition countStatus (c : Check) (count : option num) : string :=
  if ck_error c then "Needs attention"
  else match record (ck_data c) with
       | None => "Checking"
       | Some _ => if positive count then "Ready" else "Setup needed"
       end.

Definition toolCard (c : Check) : Card :=
  let tools := record (ck_data c) in
  let ready := numberOf (getO "ready" tools) in
  {| cd_label := js "Actions Ion can take"; cd_status := countStatus c ready;
     cd_detail := match tools with
                  | None => js "Checking available actions."
                  | Some t => numText ready ++ js " ready · " ++ numText (numberOf (get "unavailable" t)) ++ js " need setup"
                  end;
     cd_to := "/execution" |}.

Definition channelCard (c : Check) : Card :=
  let channels := record (ck_data c) in
  let configured := numberOf (getO "configured" channels) in
  {| cd_label := js "Availability"; cd_status := countStatus c configured;
     cd_detail := match channels with
                  | None => js "Checking dashboard and external channels."
                  | Some t => numText (numberOf (get "healthy" t)) ++ js " of " ++ numText configured ++
                              js " configured channels healthy"
                  end;
     cd_to := "/presence" |}.

(** The five checks of the page, in the order of their cards on screen. *)
Record Checks : Type := { ck_health : Check; ck_providers : Check; ck_tools : Check; ck_channels : Check; ck_work : Check }.

Definition overviewCards (c : Checks) : list Card :=
  [workCard (ck_work c); healthCard (ck_health c); providerCard (ck_providers c); toolCard (ck_tools c);
   channelCard (ck_channels c)].
End Overview.

(** ** The conversation library *)

Record SessionRow : Type := {
  sn_id : jstr;
  sn_parent_id : option jstr;
  sn_title : jstr;
  sn_preview : option jstr;
  sn_created_at : jstr;
  sn_updated_at : jstr;
}.

Inductive LibraryView : Type := ActiveView | ArchivedView.
#[export] Instance LibraryView_eq_dec : EqDecision LibraryView.
Proof. solve_decision. Defined.

(** [lb_session] is the operator's selected session. *)
Record Library : Type := {
  lb_session : option jstr;
  lb_notice : option jstr;
  lb_search : jstr;
  lb_view : LibraryView;
  lb_editing : option jstr;
  lb_draft : jstr;
  lb_confirm : option jstr;
  lb_pending : option jstr;
}.

Definition initialLibrary : Library := {|
  lb_session := None; lb_notice := None; lb_search := []; lb_view := ActiveView; lb_editing := None;
  lb_draft := []; lb_confirm := None; lb_pending := None |}.

Definition setSession v b : Library :=
  {| lb_session := v; lb_notice := lb_notice b; lb_search := lb_search b; lb_view := lb_view b;
     lb_editing := lb_editing b; lb_draft := lb_draft b; lb_confirm := lb_confirm b; lb_pending := lb_pending b |}.
Definition setLibraryNotice v b : Library :=
  {| lb_session := lb_session b; lb_notice := v; lb_search := lb_search b; lb_view := lb_view b;
     lb_editing := lb_editing b; lb_draft := lb_draft b; lb_confirm := lb_confirm b; lb_pending := lb_pending b |}.
Definition setSearch v b : Library :=
  {| lb_session := lb_session b; lb_notice := lb_notice b; lb_search := v; lb_view := lb_view b;
     lb_editing := lb_editing b; lb_draft := lb_draft b; lb_confirm := lb_confirm b; lb_pending := lb_pending b |}.
Definition setLibraryView v b : Library :=
  {| lb_session := lb_session b; lb_notice := lb_notice b; lb_search := lb_search b; lb_view := v;
     lb_editing := lb_editing b; lb_draft := lb_draft b; lb_confirm := lb_confirm b; lb_pending := lb_pending b |}.
Definition setEditingID v b : Library :=
  {| lb_session := lb_session b; lb_notice := lb_notice b; lb_search := lb_search b; lb_view := lb_view b;
     lb_editing := v; lb_draft := lb_draft b; lb_confirm := lb_confirm b; lb_pending := lb_pending b |}.
Definition setRenameDraft v b : Library :=
  {| lb_session := lb_session b; lb_notice := lb_notice b; lb_search := lb_search b; lb_view := lb_view b;
     lb_editing := lb_editing b; lb_draft := v; lb_confirm := lb_confirm b; lb_pending := lb_pending b |}.
Definition setDeleteConfirmID v b : Library :=
  {| lb_session := lb_session b; lb_notice := lb_notice b; lb_search := lb_search b; lb_view := lb_view b;
     lb_editing := lb_editing b; lb_draft := lb_draft b; lb_confirm := v; lb_pending := lb_pending b |}.
Definition setPendingID v b : Library :=
  {| lb_session := lb_session b; lb_notice := lb_notice b; lb_search := lb_search b; lb_view := lb_view b;
     lb_editing := lb_editing b; lb_draft := lb_draft b; lb_confirm := lb_confirm b; lb_pending := v |}.

(** The query's request for the list. *)
Definition listPayload (v : LibraryView) : json := JObj [(js "archived", JBool (bool_decide (v = ArchivedView)))].

Section Library_.
Context `{Platform}.

Definition matchesSearch (search : jstr) (s : SessionRow) : bool :=
  includes (toLowerCase (trim search)) (toLowerCase (sn_title s ++ js " " ++ default [] (sn_preview s))).

Definition filtered (sessions : list SessionRow) (b : Library) : list SessionRow :=
  List.filter (matchesSearch (lb_search b)) sessions.

Definition emptyText (b : Library) : string * string :=
  if jeqb (lb_search b) [] then
    ("No conversations yet", match lb_view b with
                             | ArchivedView => "Archived conversations will appear here."
                             | ActiveView => "Start a conversation and it will appear here automatically."
                             end)%string
  else ("No conversations found", "Try a different search.")%string.

(** ** Operations *)

Definition complain (n : option jstr) : proc Library unit := setState (setLibraryNotice n).

Definition relist : proc Library unit := refetch ["session.list"%string].

(** [response.result?.id] is a conversation to go to. *)
Definition openCreated (fallback : string) (response : ResponseEnvelope) : proc Library unit :=
  match resp_error response, resp_result response ≫= λ v, asString (get "id" v) with
  | None, Some id => setState (setSession (Some id));; relist;; emit (Navigate (js "/chat"))
  | _, _ => complain (Some (errorText fallback response))
  end.

Definition create : proc Library unit :=
  response ← rpc command "session.create" (JObj []) None;
  openCreated "Session creation failed" response.

Definition branch (b : Library) : proc Library unit :=
  match lb_session b with
  | None => skip
  | Some session =>
      response ← rpc command "session.branch" (JObj []) (Some session);
      openCreated "Session branch failed" response
  end.

(** The part the row operations share: mark the row, send the command, unmark. *)
Definition rowCommand (operation : string) (payload : json) (id : jstr)
    (done : proc Library unit) : proc Library unit :=
  setState (setPendingID (Some id));;
  complain None;;
  response ← rpc command operation payload (Some id);
  setState (setPendingID None);;
  match resp_error response with
  | Some e => complain (Some (err_message e))
  | None => done
  end.

Definition rename (id : jstr) (b : Library) : proc Library unit :=
  let title := trim (lb_draft b) in
  if jeqb title [] then skip
  else rowCommand "session.rename" (JObj [(js "title", JStr title)]) id
         (setState (setEditingID None);; setState (setRenameDraft []);; relist).

Definition archive (id : jstr) (archived : bool) (b : Library) : proc Library unit :=
  rowCommand "session.archive" (JObj [(js "archived", JBool archived)]) id
    ((if archived && bool_decide (lb_session b = Some id) then setState (setSession None) else skip);; relist).

(** A turn of the conversation runs. *)
Definition turnRunning (s : OperatorState) (id : jstr) : bool :=
  existsb (λ kv, bool_decide (t_session_id kv.2 = Some id) && is_live (t_status kv.2)) (turns s).

Definition deletePayload (id : jstr) : json := JObj [(js "confirm_session_id", JStr id)].

Definition remove (s : OperatorState) (id : jstr) (b : Library) : proc Library unit :=
  if turnRunning s id then complain (Some (js "Stop the active turn before deleting this conversation."))
  else rowCommand "session.delete" (deletePayload id) id
         ((if bool_decide (lb_session b = Some id) then setState (setSession None) else skip);;
          setState (setDeleteConfirmID None);; relist).

(** ** The component *)

Inductive LibraryInput : Type :=
  | NewPressed | BranchPressed
  | ViewPressed (v : LibraryView)
  | SearchTyped (v : jstr)
  | OpenPressed (id : jstr)
  | RenamePressed (s : SessionRow)
  | DraftTyped (v : jstr)
  | RenameSubmitted (id : jstr)
  | RenameCancelled
  | ArchivePressed (id : jstr)
  | DeletePressed (id : jstr)
  | DeleteCancelled
  | DeleteConfirmed (id : jstr).

(** Each control with what it needs to be on screen and enabled; a submit button of a form
    that is not disabled also submits on Enter. *)
Definition libraryHandler (b : Library) (y : OperatorState * LibraryInput) : proc Library unit :=
  match y.2 with
  | NewPressed => create
  | BranchPressed => branch b
  | ViewPressed v => setState (setLibraryView v)
  | SearchTyped v => setState (setSearch v)
  | OpenPressed id => setState (setSession (Some id));; emit (Navigate (js "/chat"))
  | RenamePressed s => setState (setEditingID (Some (sn_id s)));; setState (setRenameDraft (sn_title s));;
                       setState (setDeleteConfirmID None)
  | DraftTyped v => setState (setRenameDraft v)
  | RenameSubmitted id =>
      if bool_decide (lb_editing b = Some id) && negb (bool_decide (lb_pending b = Some id)) then rename id b else skip
  | RenameCancelled => setState (setEditingID None)
  | ArchivePressed id =>
      if bool_decide (lb_editing b = Some id) then skip
      else archive id (bool_decide (lb_view b = ActiveView)) b
  | DeletePressed id => setState (setDeleteConfirmID (if bool_decide (lb_confirm b = Some id) then None else Some id))
  | DeleteCancelled => setState (setDeleteConfirmID None)
  | DeleteConfirmed id =>
      if bool_decide (lb_confirm b = Some id) && negb (bool_decide (lb_editing b = Some id)) &&
         negb (bool_decide (lb_pending b = Some id))
      then remove y.1 id b else skip
  end.
End Library_.
