(* ===== verification/SessionsProps.v ===== *)
(** * What the conversation library guarantees

    Claims about [Sessions]: when a conversation can be deleted, what the elapsed times
    say, and two faults of the mark on a pending row. *)
From stdpp Require Import base sets list strings.
From Stdlib Require Import ZArith NArith.
From S2P Require Import Prelude JsString JsValue JsArray Regex Catalog Protocol Display Envelope.
From S2P Require Import Events EventsFacts Store EventsProps LocalClient Client Operator TuiFormat TuiApp.
From S2P Require Import Async Computer Sessions.

(** ** Deleting *)

Definition deleteRequest (id : jstr) : Request := {|
  rq_kind := command; rq_operation := js "session.delete"; rq_payload := deletePayload id;
  rq_session := Some (JStr id) |}.

Section Deleting.
Variable asked : jstr → Prop.
Variable confirmed : OperatorState → jstr → Prop.

Definition known (y : OperatorState * LibraryInput) : Prop :=
  match y.2 with DeletePressed id => asked id | DeleteConfirmed id => confirmed y.1 id | _ => True end.

Definition confirmAsked (b : Library) : Prop := ∀ id, lb_confirm b = Some id → asked id.

Definition deleteChecked (e : Effect) : Prop :=
  match e with
  | Issued (Rpc r) => rq_operation r = js "session.delete" →
      ∃ s id, r = deleteRequest id ∧ asked id ∧ confirmed s id ∧ turnRunning s id = false
  | _ => True
  end.

Lemma confirm_kept f :
  (∀ b, lb_confirm (f b) = lb_confirm b ∨ lb_confirm (f b) = None) →
  ∀ b, confirmAsked b → confirmAsked (f b).
Proof. intros Hf b Hb id Hid. destruct (Hf b) as [He|He]; rewrite He in Hid; [by apply Hb|done]. Qed.

Lemma kept_update f :
  (∀ b, lb_confirm (f b) = lb_confirm b ∨ lb_confirm (f b) = None) → safe confirmAsked deleteChecked anyAnswer (setState f).
Proof. intros Hf. split; [|done]. by apply confirm_kept. Qed.

Lemma rowCommand_safe o payload id d :
  deleteChecked (Issued (Rpc {| rq_kind := command; rq_operation := js o; rq_payload := payload;
                                rq_session := Some (JStr id) |})) →
  safe confirmAsked deleteChecked anyAnswer d →
  safe confirmAsked deleteChecked anyAnswer (rowCommand o payload id d).
Proof.
  intros HQ Hd. split; [by apply confirm_kept; left|]. split; [by apply confirm_kept; left|].
  split; [exact HQ|]. intros [e|r] _; [done|]. split; [by apply confirm_kept; left|].
  cbn [mbind proc_bind]. destruct (resp_error r); [apply kept_update; by left|exact Hd].
Qed.

Lemma openCreated_safe fallback r : safe confirmAsked deleteChecked anyAnswer (openCreated fallback r).
Proof.
  unfold openCreated. destruct (resp_error r); [by apply kept_update; left|].
  destruct (resp_result r ≫= λ v, asString (get "id" v)); [|by apply kept_update; left].
  split; [by apply confirm_kept; left|]. by split.
Qed.

Lemma ends_safe b id (t : bool) :
  safe confirmAsked deleteChecked anyAnswer
    ((if t && bool_decide (lb_session b = Some id) then setState (setSession None) else skip) : proc Library unit).
Proof. destruct (_ && _); [by apply kept_update; left|done]. Qed.

Lemma libraryHandler_safe b y :
  known y → confirmAsked b → safe confirmAsked deleteChecked anyAnswer (libraryHandler b y).
Proof.
  destruct y as [s y]. unfold libraryHandler, known. cbn [fst snd]. intros Hy Hb.
  destruct y as [| |v|v|id|row|v|id| |id|id| |id]; try (by apply kept_update; auto).
  - split; [done|]. intros [e|r] _; [done|]. apply openCreated_safe.
  - unfold branch. destruct (lb_session b); [|done]. split; [done|]. intros [e|r] _; [done|]. apply openCreated_safe.
  - split; [by apply confirm_kept; left|done].
  - split; [by apply confirm_kept; left|]. split; [by apply confirm_kept; left|]. by apply kept_update; right.
  - destruct (_ && _); [|done]. unfold rename. destruct (jeqb _ []); [done|]. apply rowCommand_safe; [done|].
    split; [by apply confirm_kept; left|]. split; [by apply confirm_kept; left|done].
  - destruct (bool_decide _); [done|]. apply rowCommand_safe; [done|]. apply safe_bind; [apply ends_safe|done].
  - split; [|done]. intros b' Hb' i. cbn. case_bool_decide; [done|]. by intros [= <-].
  - destruct (_ && _) eqn:Hc; [|done]. bools. unfold remove. destruct (turnRunning s id) eqn:Hr.
    { by apply kept_update; left. }
    apply rowCommand_safe.
    + intros _. exists s, id. split_and!; auto.
    + apply safe_bind; [apply (ends_safe b id true)|]. intros _. split; [by apply confirm_kept; right|done].
Qed.
End Deleting.

(** A conversation is deleted only when the operator asked for it and confirmed it,
    and no turn of it runs: in any run of the library every delete command names the same
    conversation in its scope and in its confirmation, its delete button and then its
    confirmation were pressed, and when it was confirmed no turn of that conversation was
    running or recovering. *)
Theorem deletion_is_confirmed (xs : list (input (OperatorState * LibraryInput))) w out :
  runs libraryHandler initialLibrary xs w out →
  Forall (λ e, ∀ r, e = Issued (Rpc r) → rq_operation r = js "session.delete" →
            ∃ s s' id, r = deleteRequest id ∧ Act (s', DeletePressed id) ∈ xs ∧
                       Act (s, DeleteConfirmed id) ∈ xs ∧ turnRunning s id = false) out.
Proof.
  intros Hr. set (asked := λ id, ∃ s : OperatorState, Act (s, DeletePressed id) ∈ xs).
  set (confirmed := λ s id, Act (s, DeleteConfirmed id) ∈ xs).
  destruct (runs_safe libraryHandler (confirmAsked asked) (deleteChecked asked confirmed) (known asked confirmed)
              anyAnswer initialLibrary xs w out) as [_ Hout].
  - intros b y. apply libraryHandler_safe.
  - done.
  - done.
  - apply Forall_forall. intros [[s y]|i o] Hin; [|done]. destruct y; try done. by exists s.
  - eapply Forall_impl; [exact Hout|]. intros e He r -> Ho. destruct (He Ho) as (s & id & -> & [s' Hs'] & Hs & Ht).
    by exists s, s', id.
Qed.

(** ** Faults of the pending mark *)

(** A rejected command leaves its row marked: the mark is cleared only after an
    answer, so when the request itself fails the row's save and delete buttons stay
    disabled, and nothing is said. *)
Theorem rejected_command_keeps_the_row_pending (o : string) (payload : json) (id : jstr) (d : proc Library unit)
    (b : Library) :
  ∃ r k, run (rowCommand o payload id d) b =
           (setLibraryNotice None (setPendingID (Some id) b), [Issued (Rpc r)], Some (Waiter (Rpc r) k)) ∧
         ∀ e b', run (k (inl e)) b' = (b', [Escaped e], None).
Proof. eexists _, _. by split. Qed.

Lemma confirm_sends s a b :
  lb_confirm b = Some a → lb_editing b = None → lb_pending b ≠ Some a → turnRunning s a = false →
  ∃ t, run (libraryHandler b (s, DeleteConfirmed a)) b =
         (setLibraryNotice None (setPendingID (Some a) b), [Issued (Rpc (deleteRequest a))], Some t).
Proof.
  intros Hc He Hp Hr. unfold libraryHandler. cbn [fst snd]. rewrite Hc, He, bool_decide_true by done.
  rewrite (bool_decide_false (lb_pending b = Some a)), (bool_decide_false (None = Some a)) by done.
  unfold remove. rewrite Hr. by eexists.
Qed.

Lemma archive_sends s c b :
  lb_editing b = None →
  ∃ r t, run (libraryHandler b (s, ArchivePressed c)) b =
           (setLibraryNotice None (setPendingID (Some c) b), [Issued (Rpc r)], Some t).
Proof.
  intros He. unfold libraryHandler. cbn [fst snd]. rewrite He, (bool_decide_false (None = Some c)) by done.
  by eexists _, _.
Qed.

(** The mark is one for the whole library: starting another row's command moves it,
    so while a conversation is being deleted its delete button is enabled again, and a
    second delete of it can be sent, by archiving any other conversation in between. *)
Theorem pending_mark_is_shared (s : OperatorState) (a c : jstr) (b : Library) :
  a ≠ c → turnRunning s a = false → lb_confirm b = Some a → lb_editing b = None → lb_pending b = None →
  ∃ w r, play libraryHandler [Act (s, DeleteConfirmed a); Act (s, ArchivePressed c); Act (s, DeleteConfirmed a)]
           (at_start b) [] =
         Some (w, [Issued (Rpc (deleteRequest a)); Issued (Rpc r); Issued (Rpc (deleteRequest a))]) ∧
       length (waiting w) = 3.
Proof.
  intros Hac Hr Hc He Hp.
  destruct (confirm_sends s a b) as [t1 H1]; [done|done|by rewrite Hp|done|].
  set (b1 := setLibraryNotice None (setPendingID (Some a) b)) in *.
  destruct (archive_sends s c b1 He) as (r & t2 & H2). set (b2 := setLibraryNotice None (setPendingID (Some c) b1)) in *.
  destruct (confirm_sends s a b2) as [t3 H3]; [done|done|by intros [= ->]|done|].
  eexists _, r. cbn [play perform at_start here waiting].
  rewrite (advance_run _ _ _ _ _ _ H1). cbn [mbind option_bind fst snd here waiting app option_list].
  rewrite (advance_run _ _ _ _ _ _ H2). cbn [mbind option_bind fst snd here waiting app option_list].
  rewrite (advance_run _ _ _ _ _ _ H3). cbn [mbind option_bind fst snd here waiting app option_list].
  split; [reflexivity|done].
Qed.

(** ** Elapsed times *)

(** A text that names [n] whole units of the elapsed time. *)
Definition names (elapsed unit limit : Z) (suffix : string) (text : jstr) : Prop :=
  ∃ n, text = string_of_Z n ++ js suffix ∧ (1 ≤ n < limit)%Z ∧ (n * unit ≤ elapsed < (n + 1) * unit)%Z.

(** The library's times say how long ago a conversation changed: within a minute
    [Just now], within the hour a number of minutes from 1 to 59, within the day of hours
    from 1 to 23, within the week of days from 1 to 6, in each case the whole units that
    have passed; older ones their date, and an unreadable date is shown as it is. *)
Theorem relative_times_are_whole_units `{Platform} (localDay : jstr → jstr) (now : Z) (value : jstr) :
  match Date_parse value with
  | None => relativeTime localDay now value = value
  | Some date =>
      let elapsed := (now - date)%Z in
      let text := relativeTime localDay now value in
      (elapsed < 60000 ∧ text = js "Just now")%Z ∨
      (60000 ≤ elapsed < 3600000)%Z ∧ names elapsed 60000 60 "m ago" text ∨
      (3600000 ≤ elapsed < 86400000)%Z ∧ names elapsed 3600000 24 "h ago" text ∨
      (86400000 ≤ elapsed < 604800000)%Z ∧ names elapsed 86400000 7 "d ago" text ∨
      (604800000 ≤ elapsed)%Z ∧ text = localDay value
  end.
Proof.
  unfold relativeTime. destruct (Date_parse value) as [date|]; [|done]. cbv zeta.
  set (elapsed := (now - date)%Z).
  assert (Hn : ∀ unit limit suffix, (0 < unit ≤ elapsed)%Z → (elapsed < limit * unit)%Z →
            names elapsed unit limit suffix (string_of_Z (elapsed / unit) ++ js suffix)).
  { intros unit limit suffix Hu Hl. exists (elapsed / unit)%Z. split; [done|].
    pose proof (Z.div_mod elapsed unit ltac:(lia)). pose proof (Z.mod_pos_bound elapsed unit ltac:(lia)). nia. }
  destruct (Z.ltb_spec elapsed 60000); [by left|right].
  destruct (Z.ltb_spec elapsed 3600000); [left; split; [lia|apply Hn; lia]|right].
  destruct (Z.ltb_spec elapsed 86400000); [left; split; [lia|apply Hn; lia]|right].
  destruct (Z.ltb_spec elapsed 604800000); [left; split; [lia|apply Hn; lia]|by right].
Qed.

(** An empty search keeps every conversation. *)
Lemma empty_search_keeps_all `{Platform} sessions b : trim (lb_search b) = [] → filtered sessions b = sessions.
Proof.
  intros Hs. unfold filtered, matchesSearch. rewrite Hs. induction sessions as [|s l IH]; [done|]. cbn [List.filter].
  assert (He : ∀ t, includes (toLowerCase []) t = true) by (intros []; reflexivity). by rewrite He, IH.
Qed.

(** ** Witnesses *)

Definition library_run : list (input (OperatorState * LibraryInput)) :=
  [Act (emptyOperatorState, DeletePressed (uuid "1")); Act (emptyOperatorState, DeleteConfirmed (uuid "1"))].

Lemma deletion_is_confirmed_witness :
  match play libraryHandler library_run (at_start initialLibrary) [] with
  | Some (w, out) =>
      length out = 1 ∧
      Forall (λ e, ∀ r, e = Issued (Rpc r) → rq_operation r = js "session.delete" →
                ∃ s s' id, r = deleteRequest id ∧ Act (s', DeletePressed id) ∈ library_run ∧
                           Act (s, DeleteConfirmed id) ∈ library_run ∧ turnRunning s id = false) out
  | None => False
  end.
Proof.
  assert (Hlen : (λ r : _ * list Effect, length r.2) <$> play libraryHandler library_run (at_start initialLibrary) []
                 = Some 1) by (vm_compute; reflexivity).
  destruct (play _ _ _ _) as [[w out]|] eqn:Hp; [|discriminate Hlen].
  split; [by injection Hlen|].
  exact (deletion_is_confirmed library_run w out (play_reaches libraryHandler initialLibrary library_run w out Hp)).
Defined.

Lemma pending_mark_is_shared_witness :
  let b := setDeleteConfirmID (Some (uuid "1")) initialLibrary in
  ∃ w r, play libraryHandler [Act (emptyOperatorState, DeleteConfirmed (uuid "1"));
                              Act (emptyOperatorState, ArchivePressed (uuid "2"));
                              Act (emptyOperatorState, DeleteConfirmed (uuid "1"))] (at_start b) [] =
         Some (w, [Issued (Rpc (deleteRequest (uuid "1"))); Issued (Rpc r); Issued (Rpc (deleteRequest (uuid "1")))]) ∧
       length (waiting w) = 3.
Proof.
  apply (pending_mark_is_shared emptyOperatorState (uuid "1") (uuid "2")
           (setDeleteConfirmID (Some (uuid "1")) initialLibrary)); try reflexivity.
  vm_compute. discriminate.
Defined.
