(* ===== verification/Auth.v ===== *)
(** * Signing in and out, and the layout

    [ui/web/src/app/AuthScreen.tsx], the sign-in form, and the state of
    [ui/web/src/components/OperatorLayout.tsx]: the side bar, its navigation, and signing
    out. *)
From stdpp Require Import base sets list strings.
From Stdlib Require Import ZArith NArith.
From S2P Require Import Prelude JsString JsValue JsArray Regex Catalog Protocol Display Envelope.
From S2P Require Import Events EventsFacts Store EventsProps LocalClient Client Operator TuiFormat TuiApp Async.
From S2P Require Import Computer Sessions.

(** ** The sign-in form *)

Record Auth : Type := {
  au_username : jstr;
  au_password : jstr;
  au_submitting : bool;
  au_message : jstr;
  au_active : bool;
}.

Definition initialAuth : Auth := {|
  au_username := []; au_password := []; au_submitting := false; au_message := []; au_active := true |}.

Definition setUsername v a : Auth :=
  {| au_username := v; au_password := au_password a; au_submitting := au_submitting a;
     au_message := au_message a; au_active := au_active a |}.
Definition setPassword v a : Auth :=
  {| au_username := au_username a; au_password := v; au_submitting := au_submitting a;
     au_message := au_message a; au_active := au_active a |}.
Definition setSubmitting v a : Auth :=
  {| au_username := au_username a; au_password := au_password a; au_submitting := v;
     au_message := au_message a; au_active := au_active a |}.
Definition setMessage v a : Auth :=
  {| au_username := au_username a; au_password := au_password a; au_submitting := au_submitting a;
     au_message := v; au_active := au_active a |}.
Definition setInactive a : Auth :=
  {| au_username := au_username a; au_password := au_password a; au_submitting := au_submitting a;
     au_message := au_message a; au_active := false |}.

(** A value used as a condition. *)
Definition truthy (v : option json) : bool :=
  match v with
  | None | Some JNull | Some (JBool false) | Some (JStr []) => false
  | Some (JNum (NFin m _)) => negb (m =? 0)%Z
  | Some _ => true
  end.

Definition authStatusRequest : HttpRequest := {|
  http_url := js "/v1/auth/status"; http_method := js "GET";
  http_headers := [(js "Accept", js "application/json")]; http_body := None |}.

Definition tell (text : string) : proc Auth unit := setState (setMessage (js text)).

(** A step of the effect that asks for the status, dropped once the form is gone. *)
Definition whileActive (p : proc Auth unit) : proc Auth unit := a ← readState; if au_active a then p else skip.

Definition statusEffect : proc Auth unit :=
  try_catch
    (response ← fetch authStatusRequest;
     if negb (hr_ok response) then skip else
     status ← bodyJSON response;
     whileActive
       match status with
       | JNull => throw (mkError (js "Cannot read properties of null"))
       | _ => if truthy (get "authenticated" status) then emit Reload
              else if negb (truthy (get "required" status))
              then tell "The local operator session is unavailable. Restart Ion and try again." else skip
       end)
    (λ _, whileActive (tell "Ion is unavailable. Check the deployment and try again.")).

Definition loginRequest (username password : jstr) : HttpRequest := {|
  http_url := js "/v1/auth/login"; http_method := js "POST";
  http_headers := [(js "Accept", js "application/json"); (js "Content-Type", js "application/json")];
  http_body := Some (stringify (JObj [(js "username", JStr username); (js "password", JStr password)])) |}.

(** The message of a refusal: the body is ignored when it is not JSON. *)
Definition refusal (r : HttpResponse) : jstr :=
  if (hr_status r =? 429)%Z then js "Too many attempts. Wait before trying again."
  else textOr "Username or password is incorrect." (hr_json r ≫= get "error").

Definition login (a : Auth) : proc Auth unit :=
  response ← fetch (loginRequest (au_username a) (au_password a));
  if hr_ok response then emit (Assign (js "/chat"))
  else setState (setMessage (refusal response));; setState (setPassword []).

Definition submit (a : Auth) : proc Auth unit :=
  if au_submitting a then skip
  else
    setState (setSubmitting true);;
    setState (setMessage []);;
    try_finally
      (try_catch (login a) (λ _, tell "Ion is unavailable. Check your connection and try again."))
      (setSubmitting false).

Inductive AuthInput : Type :=
  | AuthMounted | AuthUnmounted
  | UsernameTyped (v : jstr)
  | PasswordTyped (v : jstr)
  | AuthSubmitted.

(** A required field that is empty keeps the browser from submitting. *)
Definition authHandler (a : Auth) (y : AuthInput) : proc Auth unit :=
  match y with
  | AuthMounted => statusEffect
  | AuthUnmounted => setState setInactive
  | UsernameTyped v => setState (setUsername v)
  | PasswordTyped v => setState (setPassword v)
  | AuthSubmitted => if jeqb (au_username a) [] || jeqb (au_password a) [] then skip else submit a
  end.

(** ** The layout *)

Record Layout : Type := {
  ly_session : option jstr;
  ly_mobileOpen : bool;
  ly_collapsed : bool;
  ly_controlsOpen : bool;
  ly_signingOut : bool;
  ly_failed : bool;
}.

Definition conversationNavigation : list (string * string) := [("/chat", "Chat"); ("/sessions", "Conversations")]%string.
Definition workspaceNavigation : list (string * string) :=
  [("/computer", "Computer"); ("/media", "Media Studio"); ("/office", "Office Studio"); ("/studio", "Software Studio");
   ("/work", "Projects & tasks"); ("/knowledge", "Knowledge")]%string.
Definition mainNavigation : list (string * string) := conversationNavigation ++ workspaceNavigation.
Definition controlNavigation : list (string * string) :=
  [("/overview", "Overview"); ("/extensions", "Models & connections"); ("/execution", "Actions & decisions");
   ("/presence", "Schedules & availability"); ("/identity", "Personalization"); ("/security", "Safety");
   ("/integrity", "Trust & sources"); ("/diagnostics", "System")]%string.

Definition pageTitles : list (string * string) :=
  [("/chat", "Ion"); ("/sessions", "Conversations"); ("/work", "Projects & tasks"); ("/projects", "Software Studio");
   ("/studio", "Software Studio"); ("/knowledge", "Knowledge"); ("/computer", "Computer");
   ("/media", "Image & Video Studio"); ("/office", "Office Studio"); ("/extensions", "Models & connections");
   ("/execution", "Actions & decisions"); ("/presence", "Schedules & availability"); ("/identity", "Personalization");
   ("/security", "Safety"); ("/integrity", "Trust & sources"); ("/diagnostics", "System"); ("/overview", "Overview")]%string.

Definition pageTitle (pathname : jstr) : string :=
  if startsWith (js "/studio/") pathname then "Software Studio"
  else match find (λ row, jeqb (js row.1) pathname) pageTitles with Some row => row.2 | None => "Ion"%string end.

Definition topbarContext (pathname : jstr) : string :=
  if jeqb pathname (js "/chat") then "Agent workspace"
  else if jeqb pathname (js "/computer") then "Live private desktop"
  else if jeqb pathname (js "/media") then "Creative generation workspace"
  else if jeqb pathname (js "/office") then "Documents, sheets, and presentations"
  else if startsWith (js "/studio") pathname then "Embedded project workspace"
  else "Ion workspace".

Definition mobileTabs : list (string * string) :=
  map (λ row, (row.1, if String.eqb row.2 "Conversations" then "Chats"%string else row.2)) (take 3 mainNavigation).

Definition connectionLabel (c : ConnectionStatus) : string :=
  match c with ReadyStatus => "Ready" | Connecting => "Connecting" | Degraded => "Offline" end.

Definition sidebarStatus (c : ConnectionStatus) : string :=
  match c with Degraded => "Reconnecting" | Connecting => "Connecting securely" | ReadyStatus => "Ready · Protected" end.

Definition isControlPath (pathname : jstr) : bool := existsb (λ row, jeqb (js row.1) pathname) controlNavigation.

Definition initialLayout (pathname : jstr) : Layout := {|
  ly_session := None; ly_mobileOpen := false; ly_collapsed := false; ly_controlsOpen := isControlPath pathname;
  ly_signingOut := false; ly_failed := false |}.

Definition setMobileOpen v l : Layout :=
  {| ly_session := ly_session l; ly_mobileOpen := v; ly_collapsed := ly_collapsed l;
     ly_controlsOpen := ly_controlsOpen l; ly_signingOut := ly_signingOut l; ly_failed := ly_failed l |}.
Definition setCollapsed v l : Layout :=
  {| ly_session := ly_session l; ly_mobileOpen := ly_mobileOpen l; ly_collapsed := v;
     ly_controlsOpen := ly_controlsOpen l; ly_signingOut := ly_signingOut l; ly_failed := ly_failed l |}.
Definition setControlsOpen v l : Layout :=
  {| ly_session := ly_session l; ly_mobileOpen := ly_mobileOpen l; ly_collapsed := ly_collapsed l;
     ly_controlsOpen := v; ly_signingOut := ly_signingOut l; ly_failed := ly_failed l |}.
Definition setSigning out failed l : Layout :=
  {| ly_session := ly_session l; ly_mobileOpen := ly_mobileOpen l; ly_collapsed := ly_collapsed l;
     ly_controlsOpen := ly_controlsOpen l; ly_signingOut := out; ly_failed := failed |}.
Definition setLayoutSession v l : Layout :=
  {| ly_session := v; ly_mobileOpen := ly_mobileOpen l; ly_collapsed := ly_collapsed l;
     ly_controlsOpen := ly_controlsOpen l; ly_signingOut := ly_signingOut l; ly_failed := ly_failed l |}.

(** The effect on the path. *)
Definition pathEffect (pathname : jstr) (l : Layout) : Layout :=
  let l := setMobileOpen false l in if isControlPath pathname then setControlsOpen true l else l.

(** The button of the settings. *)
Definition toggleControls (l : Layout) : Layout :=
  if ly_collapsed l then setControlsOpen true (setCollapsed false l) else setControlsOpen (negb (ly_controlsOpen l)) l.

Section SignOut.
Variable decodeURIComponent : jstr → option jstr.
Variable cookies : jstr.

Definition logoutRequest (csrf : jstr) : HttpRequest := {|
  http_url := js "/v1/auth/logout"; http_method := js "POST";
  http_headers := [(js "Accept", js "application/json"); (js "X-Ion-CSRF", csrf)]; http_body := None |}.

Definition signOutFailed : proc Layout unit := setState (λ l, setSigning (ly_signingOut l) true l).

Definition logout : proc Layout unit :=
  match readCookie decodeURIComponent (Some cookies) csrf_cookie with
  | None => throw uriError
  | Some csrf =>
      response ← fetch (logoutRequest csrf);
      if negb (hr_ok response) && negb (hr_status response =? 401)%Z then signOutFailed else emit (Assign (js "/"))
  end.

Definition signOut (l : Layout) : proc Layout unit :=
  if ly_signingOut l then skip
  else
    setState (setSigning true false);;
    try_finally (try_catch logout (λ _, signOutFailed)) (λ l, setSigning false (ly_failed l) l).

Inductive LayoutInput : Type :=
  | PathChanged (pathname : jstr)
  | MenuOpened | MenuClosed
  | SidebarToggled
  | ControlsToggled
  | NewTask
  | ConversationOpened (id : jstr)
  | SignOutPressed (required : bool).

(** The button to sign out is there when the server requires authentication. *)
Definition layoutHandler (l : Layout) (y : LayoutInput) : proc Layout unit :=
  match y with
  | PathChanged pathname => setState (pathEffect pathname)
  | MenuOpened => setState (setMobileOpen true)
  | MenuClosed => setState (setMobileOpen false)
  | SidebarToggled => setState (λ l, setCollapsed (negb (ly_collapsed l)) l)
  | ControlsToggled => setState toggleControls
  | NewTask => setState (setLayoutSession None);; emit (Navigate (js "/chat"))
  | ConversationOpened id => setState (setLayoutSession (Some id));; emit (Navigate (js "/chat"))
  | SignOutPressed required => if required then signOut l else skip
  end.
End SignOut.

(** ** What they guarantee *)

Definition isLogin (c : call) : bool :=
  match c with Fetch r => jeqb (http_url r) (js "/v1/auth/login") | _ => false end.

Definition loginHolds (a : Auth) : Prop :=
  holds au_submitting isLogin (try_finally
      (try_catch (login a) (λ _, tell "Ion is unavailable. Check your connection and try again."))
      (setSubmitting false)) (setMessage [] (setSubmitting true a)).

Lemma login_holds a : loginHolds a.
Proof.
  split; [done|]. split; [done|]. intros [e|r] s' Hs'; [done|]. cbn [mbind proc_bind try_catch try_finally].
  by destruct (hr_ok r).
Qed.

Lemma whileActive_neutral p :
  neutral au_submitting isLogin p → neutral au_submitting isLogin (whileActive p).
Proof. intros Hp a. cbn [mbind proc_bind]. by destruct (au_active a). Qed.

Lemma status_neutral : neutral au_submitting isLogin statusEffect.
Proof.
  apply neutral_try_catch; [|intros e; by apply whileActive_neutral]. split; [done|]. intros [e|r]; [done|].
  cbn [mbind proc_bind]. destruct (hr_ok r); [|done]. unfold bodyJSON. destruct (hr_json r) as [v|]; [|done].
  apply whileActive_neutral. destruct v; try done; destruct (truthy _); try done; by destruct (truthy _).
Qed.

Lemma auth_disciplined a y : disciplined au_submitting isLogin (authHandler a y) a.
Proof.
  destruct y; try (by left); [left; apply status_neutral|].
  unfold authHandler. destruct (_ || _); [by left|]. unfold submit. destruct (au_submitting a) eqn:Ha; [by left|].
  right. split; [done|]. apply login_holds.
Qed.

(** The sign-in form sends one login at a time: in every run exactly one login request
    is in flight while the form is submitting and none otherwise, so a second press or
    Enter does nothing and the form is never left disabled by an answer or a failure. *)
Theorem one_login_at_a_time (xs : list (input AuthInput)) w out :
  runs authHandler initialAuth xs w out →
  guardedWaits isLogin (waiting w) = if au_submitting (here w) then 1 else 0.
Proof.
  intros Hr. by destruct (runs_exclusive authHandler au_submitting isLogin initialAuth xs w out auth_disciplined eq_refl Hr).
Qed.

(** What a login comes to: the request carries the two fields as they were submitted;
    when it is accepted the browser goes to the chat; when it is refused the password is
    cleared and a message shown, the server's own one if it gives one; when it fails the
    form keeps its fields and says so; in every case the form is usable again, and no
    exception escapes. *)
Theorem login_outcomes (a a' : Auth) :
  au_submitting a = false →
  ∃ k, run (submit a) a =
         (setMessage [] (setSubmitting true a),
          [Issued (Fetch (loginRequest (au_username a) (au_password a)))],
          Some (Waiter (Fetch (loginRequest (au_username a) (au_password a))) k)) ∧
       (∀ r, run (k (inr r)) a' =
          if hr_ok r then (setSubmitting false a', [Assign (js "/chat")], None)
          else (setSubmitting false (setPassword [] (setMessage (refusal r) a')), [], None)) ∧
       (∀ e, run (k (inl e)) a' =
          (setSubmitting false (setMessage (js "Ion is unavailable. Check your connection and try again.") a'), [], None)).
Proof.
  intros Ha. unfold submit. rewrite Ha. eexists. split; [reflexivity|]. split; [|done].
  intros r. cbn [mbind proc_bind try_catch try_finally]. by destruct (hr_ok r).
Qed.

Definition isLogout (c : call) : bool :=
  match c with Fetch r => jeqb (http_url r) (js "/v1/auth/logout") | _ => false end.

Lemma layout_disciplined decode cookies l y :
  disciplined ly_signingOut isLogout (layoutHandler decode cookies l y) l.
Proof.
  destruct y; try (by left).
  - left. split; [|done]. intros s. unfold pathEffect. by destruct (isControlPath pathname).
  - left. split; [|done]. intros s. unfold toggleControls. by destruct (ly_collapsed s).
  - cbn [layoutHandler]. destruct required; [|by left]. unfold signOut. destruct (ly_signingOut l) eqn:Hl; [by left|].
    right. split; [done|]. unfold logout. cbn [mbind proc_bind setState holds]. 
    destruct (readCookie decode (Some cookies) csrf_cookie) as [csrf|]; [|done].
    split; [done|]. split; [done|]. intros [e|r] s' Hs'; [done|]. cbn [mbind proc_bind try_catch try_finally].
    by destruct (_ && _).
Qed.

(** Signing out is guarded the same way. *)
Theorem one_logout_at_a_time decode cookies pathname (xs : list (input LayoutInput)) w out :
  runs (layoutHandler decode cookies) (initialLayout pathname) xs w out →
  guardedWaits isLogout (waiting w) = if ly_signingOut (here w) then 1 else 0.
Proof.
  intros Hr. by destruct (runs_exclusive (layoutHandler decode cookies) ly_signingOut isLogout (initialLayout pathname)
                            xs w out (layout_disciplined decode cookies) eq_refl Hr).
Qed.

(** Every page of the navigation has a title of its own in the bar. *)
Example navigation_has_titles :
  forallb (λ row, existsb (λ t, String.eqb t.1 row.1) pageTitles) (mainNavigation ++ controlNavigation) = true.
Proof. vm_compute. reflexivity. Qed.

(** *** Witnesses *)

Definition login_run : list (input AuthInput) :=
  [Act AuthMounted; Act (UsernameTyped (js "ion")); Act (PasswordTyped (js "pw")); Act AuthSubmitted; Act AuthSubmitted].

Lemma one_login_at_a_time_witness :
  match play authHandler login_run (at_start initialAuth) [] with
  | Some (w, out) => au_submitting (here w) = true ∧
                     guardedWaits isLogin (waiting w) = if au_submitting (here w) then 1 else 0
  | None => False
  end.
Proof.
  assert (Hs : (λ r : World Auth * list Effect, au_submitting (here r.1)) <$> play authHandler login_run (at_start initialAuth) []
               = Some true) by (vm_compute; reflexivity).
  destruct (play _ _ _ _) as [[w out]|] eqn:Hp; [|discriminate Hs]. split; [by injection Hs|].
  exact (one_login_at_a_time login_run w out (play_reaches authHandler initialAuth login_run w out Hp)).
Defined.

Lemma login_outcomes_witness :
  let a := setPassword (js "pw") (setUsername (js "ion") initialAuth) in
  ∃ k, run (submit a) a =
         (setMessage [] (setSubmitting true a),
          [Issued (Fetch (loginRequest (au_username a) (au_password a)))],
          Some (Waiter (Fetch (loginRequest (au_username a) (au_password a))) k)) ∧
       (∀ r, run (k (inr r)) a =
          if hr_ok r then (setSubmitting false a, [Assign (js "/chat")], None)
          else (setSubmitting false (setPassword [] (setMessage (refusal r) a)), [], None)) ∧
       (∀ e, run (k (inl e)) a =
          (setSubmitting false (setMessage (js "Ion is unavailable. Check your connection and try again.") a), [], None)).
Proof.
  exact (login_outcomes (setPassword (js "pw") (setUsername (js "ion") initialAuth))
           (setPassword (js "pw") (setUsername (js "ion") initialAuth)) eq_refl).
Defined.
