(* ===== verification/Media.v ===== *)
(** * The media studio

    [ui/web/src/routes/MediaStudio.tsx]: the form of a generation with its controls, the
    jobs, and the requests that create and remove them.

    The pending and error flags of a mutation are those its library documents: a mutation
    is pending from its call until its callbacks are done.  Data fetched by a query is cast
    to its declared type, which [parseJobs] and [parseProvider] do here; members that no
    code reads are left out.  A size in bytes is a natural number; the numbers of the form
    are decimal. *)
From stdpp Require Import base list strings.
From Stdlib Require Import ZArith NArith.
From S2P Require Import Prelude JsString JsValue JsArray Regex Catalog Protocol Display Envelope.
From S2P Require Import Events LocalClient Client Operator TuiFormat TuiApp Async Computer Sessions.

(** ** Data *)

Inductive MediaKind : Type :=
  | TextToImage | ImageToImage | TextToVideo | ImageToVideo | Inpainting | Cleanup | RemoveBackground
  | ReplaceBackground | RemoveText | MergeFace | Upscale.
#[export] Instance MediaKind_eq_dec : EqDecision MediaKind.
Proof. solve_decision. Defined.

Definition kindName (k : MediaKind) : string :=
  match k with
  | TextToImage => "text-to-image" | ImageToImage => "image-to-image" | TextToVideo => "text-to-video"
  | ImageToVideo => "image-to-video" | Inpainting => "inpainting" | Cleanup => "cleanup"
  | RemoveBackground => "remove-background" | ReplaceBackground => "replace-background"
  | RemoveText => "remove-text" | MergeFace => "merge-face" | Upscale => "upscale"
  end.

Inductive MediaStatus : Type := Queued | Submitting | MediaRunning | MediaSucceeded | MediaFailed.
#[export] Instance MediaStatus_eq_dec : EqDecision MediaStatus.
Proof. solve_decision. Defined.

Record MediaProviderStatus : Type := { mp_configured : bool; mp_provider : jstr; mp_message : jstr }.

Record MediaRequest : Type := {
  mr_kind : MediaKind;
  mr_prompt : option jstr;
  mr_negative_prompt : option jstr;
  mr_model : option jstr;
  mr_sampler : option jstr;
  mr_width : option num;
  mr_height : option num;
  mr_steps : option num;
  mr_guidance : option num;
  mr_seed : num;
  mr_image_count : option num;
  mr_strength : option num;
  mr_frames : option num;
  mr_fps : option num;
  mr_scale : option num;
  mr_resize_mode : option jstr;
  mr_has_image : bool;
  mr_has_mask : bool;
  mr_has_face : bool;
}.

Record MediaAsset : Type := { ma_id : jstr; ma_video : bool; ma_size : N; ma_url : jstr }.

Record MediaJob : Type := {
  mj_id : jstr;
  mj_kind : MediaKind;
  mj_status : MediaStatus;
  mj_provider : jstr;
  mj_progress : Z;
  mj_error : option jstr;
  mj_request : MediaRequest;
  mj_assets : list MediaAsset;
  mj_created_at : jstr;
  mj_updated_at : jstr;
}.

Record StudioForm : Type := {
  sf_kind : MediaKind;
  sf_prompt : jstr;
  sf_negative_prompt : jstr;
  sf_model : jstr;
  sf_sampler : jstr;
  sf_width : num;
  sf_height : num;
  sf_steps : num;
  sf_guidance : num;
  sf_seed : num;
  sf_image_count : num;
  sf_strength : num;
  sf_frames : num;
  sf_fps : num;
  sf_scale : num;
  sf_resize_mode : jstr;
  sf_image_base64 : jstr;
  sf_mask_base64 : jstr;
  sf_face_base64 : jstr;
  sf_image_name : jstr;
  sf_mask_name : jstr;
  sf_face_name : jstr;
}.

Inductive NumericFormField : Type :=
  | Width | Height | Steps | Guidance | Seed | ImageCount | Strength | Frames | FPS | Scale.
#[export] Instance NumericFormField_eq_dec : EqDecision NumericFormField.
Proof. solve_decision. Defined.

(** The texts a control edits, and the images the form holds. *)
Inductive TextField : Type := Prompt | NegativePrompt | Model | Sampler | ResizeMode.
#[export] Instance TextField_eq_dec : EqDecision TextField.
Proof. solve_decision. Defined.
Inductive Slot : Type := SourceSlot | MaskSlot | FaceSlot.
#[export] Instance Slot_eq_dec : EqDecision Slot.
Proof. solve_decision. Defined.

Definition numberAt (f : NumericFormField) (s : StudioForm) : num :=
  match f with
  | Width => sf_width s | Height => sf_height s | Steps => sf_steps s | Guidance => sf_guidance s
  | Seed => sf_seed s | ImageCount => sf_image_count s | Strength => sf_strength s | Frames => sf_frames s
  | FPS => sf_fps s | Scale => sf_scale s
  end.

(** [{ ...current, [field]: number }]. *)
Definition setNumber (f : NumericFormField) (v : num) (s : StudioForm) : StudioForm :=
  let at_ g := if decide (f = g) then v else numberAt g s in
  {| sf_kind := sf_kind s; sf_prompt := sf_prompt s; sf_negative_prompt := sf_negative_prompt s;
     sf_model := sf_model s; sf_sampler := sf_sampler s; sf_width := at_ Width; sf_height := at_ Height;
     sf_steps := at_ Steps; sf_guidance := at_ Guidance; sf_seed := at_ Seed; sf_image_count := at_ ImageCount;
     sf_strength := at_ Strength; sf_frames := at_ Frames; sf_fps := at_ FPS; sf_scale := at_ Scale;
     sf_resize_mode := sf_resize_mode s; sf_image_base64 := sf_image_base64 s; sf_mask_base64 := sf_mask_base64 s;
     sf_face_base64 := sf_face_base64 s; sf_image_name := sf_image_name s; sf_mask_name := sf_mask_name s;
     sf_face_name := sf_face_name s |}.

(** [{ ...current, field: text }]. *)
Definition setFormText (f : TextField) (v : jstr) (s : StudioForm) : StudioForm :=
  let at_ g d := if decide (f = g) then v else d in
  {| sf_kind := sf_kind s; sf_prompt := at_ Prompt (sf_prompt s);
     sf_negative_prompt := at_ NegativePrompt (sf_negative_prompt s); sf_model := at_ Model (sf_model s);
     sf_sampler := at_ Sampler (sf_sampler s); sf_width := sf_width s; sf_height := sf_height s;
     sf_steps := sf_steps s; sf_guidance := sf_guidance s; sf_seed := sf_seed s;
     sf_image_count := sf_image_count s; sf_strength := sf_strength s; sf_frames := sf_frames s;
     sf_fps := sf_fps s; sf_scale := sf_scale s; sf_resize_mode := at_ ResizeMode (sf_resize_mode s);
     sf_image_base64 := sf_image_base64 s; sf_mask_base64 := sf_mask_base64 s;
     sf_face_base64 := sf_face_base64 s; sf_image_name := sf_image_name s; sf_mask_name := sf_mask_name s;
     sf_face_name := sf_face_name s |}.

(** [{ ...current, image_base64: encoded, image_name: name }], and for the other images. *)
Definition setSource (f : Slot) (encoded name : jstr) (s : StudioForm) : StudioForm :=
  let at_ g (v d : jstr) := if decide (f = g) then v else d in
  {| sf_kind := sf_kind s; sf_prompt := sf_prompt s; sf_negative_prompt := sf_negative_prompt s;
     sf_model := sf_model s; sf_sampler := sf_sampler s; sf_width := sf_width s; sf_height := sf_height s;
     sf_steps := sf_steps s; sf_guidance := sf_guidance s; sf_seed := sf_seed s;
     sf_image_count := sf_image_count s; sf_strength := sf_strength s; sf_frames := sf_frames s;
     sf_fps := sf_fps s; sf_scale := sf_scale s; sf_resize_mode := sf_resize_mode s;
     sf_image_base64 := at_ SourceSlot encoded (sf_image_base64 s);
     sf_mask_base64 := at_ MaskSlot encoded (sf_mask_base64 s);
     sf_face_base64 := at_ FaceSlot encoded (sf_face_base64 s);
     sf_image_name := at_ SourceSlot name (sf_image_name s); sf_mask_name := at_ MaskSlot name (sf_mask_name s);
     sf_face_name := at_ FaceSlot name (sf_face_name s) |}.

(** The encoded image and the name of a slot. *)
Definition sourceAt (f : Slot) (s : StudioForm) : jstr * jstr :=
  match f with
  | SourceSlot => (sf_image_base64 s, sf_image_name s)
  | MaskSlot => (sf_mask_base64 s, sf_mask_name s)
  | FaceSlot => (sf_face_base64 s, sf_face_name s)
  end.

(** [JSON.stringify(form)] as a value. *)
Definition formJSON (s : StudioForm) : json :=
  JObj [(js "kind", JStr (js (kindName (sf_kind s)))); (js "prompt", JStr (sf_prompt s));
        (js "negative_prompt", JStr (sf_negative_prompt s)); (js "model", JStr (sf_model s));
        (js "sampler", JStr (sf_sampler s)); (js "width", JNum (sf_width s)); (js "height", JNum (sf_height s));
        (js "steps", JNum (sf_steps s)); (js "guidance", JNum (sf_guidance s)); (js "seed", JNum (sf_seed s));
        (js "image_count", JNum (sf_image_count s)); (js "strength", JNum (sf_strength s));
        (js "frames", JNum (sf_frames s)); (js "fps", JNum (sf_fps s)); (js "scale", JNum (sf_scale s));
        (js "resize_mode", JStr (sf_resize_mode s)); (js "image_base64", JStr (sf_image_base64 s));
        (js "mask_base64", JStr (sf_mask_base64 s)); (js "face_base64", JStr (sf_face_base64 s));
        (js "image_name", JStr (sf_image_name s)); (js "mask_name", JStr (sf_mask_name s));
        (js "face_name", JStr (sf_face_name s))].

(** ** Workflows *)

Record Workflow : Type := { wf_kind : MediaKind; wf_label : string; wf_detail : string }.

Definition workflow (k : MediaKind) (label detail : string) : Workflow :=
  {| wf_kind := k; wf_label := label; wf_detail := detail |}.

Definition workflows : list (string * list Workflow) :=
  [("Create images"%string,
    [workflow TextToImage "Text to image" "Create from a written direction";
     workflow ImageToImage "Image to image" "Restyle or transform a source";
     workflow Inpainting "Inpaint" "Replace a masked region"]);
   ("Create video"%string,
    [workflow TextToVideo "Text to video" "Generate a short motion sequence";
     workflow ImageToVideo "Image to video" "Animate a still image"]);
   ("Edit images"%string,
    [workflow Cleanup "Clean up" "Erase a masked object";
     workflow RemoveBackground "Remove background" "Create a clean cutout";
     workflow ReplaceBackground "Replace background" "Generate a new setting";
     workflow RemoveText "Remove text" "Clear detected lettering";
     workflow MergeFace "Merge face" "Apply a face reference";
     workflow Upscale "Upscale" "Increase image resolution"])].

(** [new Map(...)] with the kinds as keys: the last entry of a kind counts. *)
Definition workflowByKind (k : MediaKind) : option Workflow :=
  last (List.filter (λ w, bool_decide (wf_kind w = k)) (concat (map snd workflows))).

Definition isVideo (k : MediaKind) : bool := bool_decide (k ∈ [TextToVideo; ImageToVideo]).

Definition defaultModel (k : MediaKind) : string :=
  match k with
  | TextToVideo => "darkSushiMixMix_225D_64380.safetensors"
  | ImageToVideo => "SVD-XT"
  | Upscale => "RealESRNet_x4plus"
  | Inpainting => "realisticVisionV51_v51VAE-inpainting_94324.safetensors"
  | _ => "sd_xl_base_1.0.safetensors"
  end.

Definition defaultForm (k : MediaKind) : StudioForm := {|
  sf_kind := k; sf_prompt := []; sf_negative_prompt := []; sf_model := js (defaultModel k);
  sf_sampler := js "DPM++ 2M Karras";
  sf_width := num_of_Z (if isVideo k then 640 else 1024); sf_height := num_of_Z (if isVideo k then 480 else 1024);
  sf_steps := num_of_Z 20; sf_guidance := NFin 75 (-1); sf_seed := num_of_Z (-1); sf_image_count := num_of_Z 1;
  sf_strength := NFin 7 (-1); sf_frames := num_of_Z (if decide (k = ImageToVideo) then 25 else 16);
  sf_fps := num_of_Z 6; sf_scale := num_of_Z 2; sf_resize_mode := js "ORIGINAL_RESOLUTION";
  sf_image_base64 := []; sf_mask_base64 := []; sf_face_base64 := [];
  sf_image_name := []; sf_mask_name := []; sf_face_name := [] |}.

(** The form with the settings of a request: the images are not kept. *)
Definition settingsOf (k : MediaKind) (r : MediaRequest) : StudioForm :=
  let next := defaultForm k in {|
  sf_kind := k; sf_prompt := default [] (mr_prompt r); sf_negative_prompt := default [] (mr_negative_prompt r);
  sf_model := default (sf_model next) (mr_model r); sf_sampler := default (sf_sampler next) (mr_sampler r);
  sf_width := default (sf_width next) (mr_width r); sf_height := default (sf_height next) (mr_height r);
  sf_steps := default (sf_steps next) (mr_steps r); sf_guidance := default (sf_guidance next) (mr_guidance r);
  sf_seed := mr_seed r; sf_image_count := default (sf_image_count next) (mr_image_count r);
  sf_strength := default (sf_strength next) (mr_strength r); sf_frames := default (sf_frames next) (mr_frames r);
  sf_fps := default (sf_fps next) (mr_fps r); sf_scale := default (sf_scale next) (mr_scale r);
  sf_resize_mode := default (sf_resize_mode next) (mr_resize_mode r);
  sf_image_base64 := []; sf_mask_base64 := []; sf_face_base64 := [];
  sf_image_name := []; sf_mask_name := []; sf_face_name := [] |}.

(** ** Labels *)

Definition activeStatus (s : MediaStatus) : bool := bool_decide (s ∈ [Queued; Submitting; MediaRunning]).

Definition statusLabel (j : MediaJob) : jstr :=
  match mj_status j with
  | Queued => js "Queued"
  | Submitting => js "Sending to Novita"
  | MediaRunning =>
      if (5 <? mj_progress j)%Z then js "Generating · " ++ string_of_Z (mj_progress j) ++ js "%" else js "Generating"
  | MediaSucceeded => js "Ready"
  | MediaFailed => js "Failed"
  end.

Definition actionLabel (k : MediaKind) : string :=
  if isVideo k then "Generate video"
  else if bool_decide (k ∈ [Cleanup; RemoveBackground; ReplaceBackground; RemoveText; MergeFace; Upscale; Inpainting])
  then "Apply edit" else "Generate images".

Definition promptPlaceholder (k : MediaKind) : string :=
  match k with
  | ReplaceBackground => "A quiet sunlit gallery with pale stone walls…"
  | Inpainting => "Describe what should appear inside the masked area…"
  | ImageToImage => "Transform the source into a cinematic editorial photograph…"
  | TextToVideo => "A slow tracking shot through a rain-lit city at night…"
  | _ => "Describe the subject, composition, light, mood, and finish…"
  end.

(** [(v / 2 ** k).toFixed(1)] for a size [v]: the quotient is exact, and of the two
    nearest tenths the larger one is taken. *)
Definition tenths (v unit : N) : N := ((20 * v + unit) / (2 * unit))%N.
Definition fixed1 (n : N) : jstr := digits (n / 10)%N ++ js "." ++ digits (n mod 10)%N.

Definition formatBytes (v : N) : jstr :=
  if (v <? 1024)%N then digits v ++ js " B"
  else if (v <? 1048576)%N then fixed1 (tenths v 1024) ++ js " KB"
  else fixed1 (tenths v 1048576) ++ js " MB".

Section Dates.
Context `{Platform}.
Variable localDateTime : jstr → jstr.
(** [formatter.format(n, unit)]. *)
Variable relativeFormat : Z → string → jstr.

(** Both formats throw on an invalid date. *)
Definition formatDate (value : jstr) : option jstr := Date_parse value ≫= λ _, Some (localDateTime value).

(** [Math.round(n / d)] of integers. *)
Definition mathRound (n d : Z) : Z := ((2 * n + d) / (2 * d))%Z.

Definition mediaRelativeTime (now : Z) (value : jstr) : option jstr :=
  date ← Date_parse value;
  let seconds := mathRound (date - now) 1000 in
  let absolute := Z.abs seconds in
  Some (if (absolute <? 60)%Z then relativeFormat seconds "second"
        else if (absolute <? 3600)%Z then relativeFormat (mathRound seconds 60) "minute"
        else if (absolute <? 86400)%Z then relativeFormat (mathRound seconds 3600) "hour"
        else relativeFormat (mathRound seconds 86400) "day").
End Dates.

(** ** Controls *)

(** Comparison and steps of decimal numbers, at a common exponent. *)
Definition scaleTo (e : Z) (m e' : Z) : Z := (m * 10 ^ (e' - e))%Z.

Definition numLeb (a b : num) : bool :=
  match a, b with
  | NFin m e, NFin m' e' => let d := Z.min e e' in (scaleTo d m e <=? scaleTo d m' e')%Z
  | NInf true, _ | _, NInf false => true
  | _, _ => false
  end.

(** [v] is a whole number of steps from [base]. *)
Definition onStep (v base step : num) : bool :=
  match v, base, step with
  | NFin m e, NFin m' e', NFin m'' e'' =>
      let d := Z.min e (Z.min e' e'') in ((scaleTo d m e - scaleTo d m' e') mod scaleTo d m'' e'' =? 0)%Z
  | _, _, _ => false
  end.

Inductive Control : Type :=
  | UploadControl (slot : Slot) (label : string)
  | PromptControl (label placeholder : string)
  | NegativePromptControl
  | ModelSelect
  | ModelInput
  | NumberField (label : string) (field : NumericFormField) (min max step : num)
  | SamplerSelect
  | ImageFitSelect.

Definition whole (label : string) (f : NumericFormField) (min max : Z) : Control :=
  NumberField label f (num_of_Z min) (num_of_Z max) (num_of_Z 1).

Definition showIf (b : bool) (l : list Control) : list Control := if b then l else [].

Definition MediaControls (s : StudioForm) : list Control :=
  let k := sf_kind s in
  let needsImage := negb (bool_decide (k = TextToImage)) && negb (bool_decide (k = TextToVideo)) in
  let needsMask := bool_decide (k ∈ [Cleanup; Inpainting]) in
  let needsFace := bool_decide (k = MergeFace) in
  let needsPrompt := bool_decide (k ∈ [TextToImage; ImageToImage; TextToVideo; ReplaceBackground; Inpainting]) in
  let advancedGeneration := bool_decide (k ∈ [TextToImage; ImageToImage; TextToVideo; ImageToVideo; Inpainting]) in
  let imageGeneration := bool_decide (k ∈ [TextToImage; ImageToImage; Inpainting]) in
  let animates := bool_decide (k = ImageToVideo) in
  showIf needsImage [UploadControl SourceSlot "Source image"] ++
  showIf needsMask [UploadControl MaskSlot "Mask"] ++
  showIf needsFace [UploadControl FaceSlot "Face reference"] ++
  showIf needsPrompt
    [PromptControl (if bool_decide (k = ReplaceBackground) then "New background" else "Prompt") (promptPlaceholder k)] ++
  showIf (imageGeneration || bool_decide (k = TextToVideo)) [NegativePromptControl] ++
  showIf (advancedGeneration || bool_decide (k = Upscale)) [if animates then ModelSelect else ModelInput] ++
  showIf advancedGeneration
    [whole "Width" Width 128 2048; whole "Height" Height 128 2048; whole "Steps" Steps 1 100;
     NumberField "Guidance" Guidance (num_of_Z 1) (num_of_Z 30) (NFin 5 (-1)); whole "Seed" Seed (-1) 2147483647] ++
  showIf imageGeneration
    [whole "Outputs" ImageCount 1 4;
     if bool_decide (k = TextToImage) then SamplerSelect
     else NumberField "Strength" Strength (NFin 5 (-2)) (num_of_Z 1) (NFin 5 (-2))] ++
  showIf (isVideo k)
    [NumberField "Frames" Frames (if animates then sf_frames s else num_of_Z 8)
       (if animates then sf_frames s else num_of_Z 64) (num_of_Z 1);
     whole "FPS" FPS (if animates then 6 else 1) (if animates then 6 else 24)] ++
  showIf animates [ImageFitSelect] ++
  showIf (bool_decide (k = Upscale)) [NumberField "Scale factor" Scale (NFin 11 (-1)) (num_of_Z 4) (NFin 1 (-1))].

(** What the browser asks of a control before it submits the form. *)
Definition controlAccepts (s : StudioForm) (c : Control) : bool :=
  match c with
  | PromptControl _ _ => negb (jeqb (sf_prompt s) [])
  | ModelInput => negb (jeqb (sf_model s) [])
  | NumberField _ f min max step =>
      let v := numberAt f s in numLeb min v && numLeb v max && onStep v min step
  | _ => true
  end.

Definition formValid (s : StudioForm) : bool := forallb (controlAccepts s) (MediaControls s).

(** The controls that edit a field; [maxLength] bounds what can be typed. *)
Definition editsText (f : TextField) (c : Control) : bool :=
  match f, c with
  | Prompt, PromptControl _ _ | NegativePrompt, NegativePromptControl | Model, ModelSelect | Model, ModelInput
  | Sampler, SamplerSelect | ResizeMode, ImageFitSelect => true
  | _, _ => false
  end.
Definition editsNumber (f : NumericFormField) (c : Control) : bool :=
  match c with NumberField _ g _ _ _ => bool_decide (f = g) | _ => false end.
Definition editsSlot (f : Slot) (c : Control) : bool :=
  match c with UploadControl g _ => bool_decide (f = g) | _ => false end.

Definition maxLength (f : TextField) : nat := match f with Model => 256 | _ => 2048 end.

(** What a text control stores: choosing the model of an animation sets its frames. *)
Definition editText (f : TextField) (v : jstr) (c : Control) (s : StudioForm) : StudioForm :=
  match c with
  | ModelSelect => setNumber Frames (num_of_Z (if jeqb v (js "SVD") then 14 else 25)) (setFormText Model v s)
  | _ => setFormText f v s
  end.

(** ** State *)

Record Upload : Type := { ul_error : jstr; ul_preview : jstr }.
Definition Uploads : Type := Slot → Upload.
Definition freshUploads : Uploads := λ _, {| ul_error := []; ul_preview := [] |}.

(** [md_mount] numbers the mounted upload controls: their keys carry the kind of the form,
    so another kind mounts new ones. *)
Record Media : Type := {
  md_form : StudioForm;
  md_selectedID : option jstr;
  md_deleteArmedID : option jstr;
  md_notice : jstr;
  md_status : option MediaProviderStatus;
  md_jobs : option (list MediaJob);
  md_creating : bool;
  md_createFailed : bool;
  md_removing : bool;
  md_removeFailed : bool;
  md_mount : nat;
  md_uploads : Uploads;
}.

Definition initialMedia : Media := {|
  md_form := defaultForm TextToImage; md_selectedID := None; md_deleteArmedID := None; md_notice := [];
  md_status := None; md_jobs := None; md_creating := false; md_createFailed := false; md_removing := false;
  md_removeFailed := false; md_mount := 0; md_uploads := freshUploads |}.

Definition setSelectedID v m : Media :=
  {| md_form := md_form m; md_selectedID := v; md_deleteArmedID := md_deleteArmedID m;
     md_notice := md_notice m; md_status := md_status m; md_jobs := md_jobs m; md_creating := md_creating m;
     md_createFailed := md_createFailed m; md_removing := md_removing m; md_removeFailed := md_removeFailed m;
     md_mount := md_mount m; md_uploads := md_uploads m |}.
Definition setDeleteArmedID v m : Media :=
  {| md_form := md_form m; md_selectedID := md_selectedID m; md_deleteArmedID := v; md_notice := md_notice m;
     md_status := md_status m; md_jobs := md_jobs m; md_creating := md_creating m;
     md_createFailed := md_createFailed m; md_removing := md_removing m; md_removeFailed := md_removeFailed m;
     md_mount := md_mount m; md_uploads := md_uploads m |}.
Definition setMediaNotice v m : Media :=
  {| md_form := md_form m; md_selectedID := md_selectedID m; md_deleteArmedID := md_deleteArmedID m;
     md_notice := v; md_status := md_status m; md_jobs := md_jobs m; md_creating := md_creating m;
     md_createFailed := md_createFailed m; md_removing := md_removing m; md_removeFailed := md_removeFailed m;
     md_mount := md_mount m; md_uploads := md_uploads m |}.
Definition setMediaStatus v m : Media :=
  {| md_form := md_form m; md_selectedID := md_selectedID m; md_deleteArmedID := md_deleteArmedID m;
     md_notice := md_notice m; md_status := v; md_jobs := md_jobs m; md_creating := md_creating m;
     md_createFailed := md_createFailed m; md_removing := md_removing m; md_removeFailed := md_removeFailed m;
     md_mount := md_mount m; md_uploads := md_uploads m |}.
Definition setJobs v m : Media :=
  {| md_form := md_form m; md_selectedID := md_selectedID m; md_deleteArmedID := md_deleteArmedID m;
     md_notice := md_notice m; md_status := md_status m; md_jobs := v; md_creating := md_creating m;
     md_createFailed := md_createFailed m; md_removing := md_removing m; md_removeFailed := md_removeFailed m;
     md_mount := md_mount m; md_uploads := md_uploads m |}.
Definition setUploads v m : Media :=
  {| md_form := md_form m; md_selectedID := md_selectedID m; md_deleteArmedID := md_deleteArmedID m;
     md_notice := md_notice m; md_status := md_status m; md_jobs := md_jobs m; md_creating := md_creating m;
     md_createFailed := md_createFailed m; md_removing := md_removing m; md_removeFailed := md_removeFailed m;
     md_mount := md_mount m; md_uploads := v |}.
Definition setCreating pending failed m : Media :=
  {| md_form := md_form m; md_selectedID := md_selectedID m; md_deleteArmedID := md_deleteArmedID m;
     md_notice := md_notice m; md_status := md_status m; md_jobs := md_jobs m; md_creating := pending;
     md_createFailed := failed; md_removing := md_removing m; md_removeFailed := md_removeFailed m;
     md_mount := md_mount m; md_uploads := md_uploads m |}.
Definition setRemoving pending failed m : Media :=
  {| md_form := md_form m; md_selectedID := md_selectedID m; md_deleteArmedID := md_deleteArmedID m;
     md_notice := md_notice m; md_status := md_status m; md_jobs := md_jobs m; md_creating := md_creating m;
     md_createFailed := md_createFailed m; md_removing := pending; md_removeFailed := failed;
     md_mount := md_mount m; md_uploads := md_uploads m |}.

(** A new form; another kind mounts new upload controls. *)
Definition setForm (f : StudioForm → StudioForm) m : Media :=
  let s := f (md_form m) in
  let same := decide (sf_kind s = sf_kind (md_form m)) in
  {| md_form := s; md_selectedID := md_selectedID m; md_deleteArmedID := md_deleteArmedID m;
     md_notice := md_notice m; md_status := md_status m; md_jobs := md_jobs m; md_creating := md_creating m;
     md_createFailed := md_createFailed m; md_removing := md_removing m; md_removeFailed := md_removeFailed m;
     md_mount := if same then md_mount m else S (md_mount m);
     md_uploads := if same then md_uploads m else freshUploads |}.

(** State of an upload control, dropped once the control is gone. *)
Definition setUpload (mount : nat) (f : Slot) (u : Upload → Upload) m : Media :=
  if decide (md_mount m = mount)
  then setUploads (λ g, if decide (f = g) then u (md_uploads m g) else md_uploads m g) m else m.

(** ** What is on screen *)

Definition selected (m : Media) : option MediaJob :=
  jobs ← md_jobs m;
  orElse (find (λ j, bool_decide (Some (mj_id j) = md_selectedID m)) jobs) (head jobs).

Definition labelOf (k : MediaKind) : string := from_option wf_label EmptyString (workflowByKind k).

Definition toolbarLabel (m : Media) : string :=
  labelOf (match selected m with None => sf_kind (md_form m) | Some j => mj_kind j end).

(** The provider and the line under it; [loading] is the first fetch. *)
Definition providerLine (loading : bool) (m : Media) : jstr * jstr :=
  (from_option mp_provider (js "Novita") (md_status m),
   if loading then js "Checking connection" else from_option mp_message (js "Connection unavailable") (md_status m)).

Inductive Canvas : Type :=
  | CanvasEmpty
  | CanvasFailed (reason : jstr)
  | CanvasWorking (label : jstr)
  | CanvasOutput (alt : jstr) (assets : list (MediaAsset * jstr * jstr)).

(** The assets with their size and download link. *)
Definition MediaCanvas (job : option MediaJob) : Canvas :=
  match job with
  | None => CanvasEmpty
  | Some j =>
      if decide (mj_status j = MediaFailed)
      then CanvasFailed (default (js "The provider could not complete this media job.") (mj_error j))
      else match mj_assets j with
           | [] => CanvasWorking (statusLabel j)
           | assets => CanvasOutput
               (from_option (λ p, js "Generated output for " ++ p) (js "Generated media output") (mr_prompt (mj_request j)))
               (map (λ a, (a, formatBytes (ma_size a), ma_url a ++ js "?download=1")) assets)
           end
  end.

Inductive Thumbnail : Type := ProgressThumb (text : jstr) | IconThumb | VideoThumb | ImageThumb (url : jstr).

Definition MediaThumbnail (j : MediaJob) : Thumbnail :=
  match mj_assets j with
  | [] => if activeStatus (mj_status j) then ProgressThumb (string_of_Z (mj_progress j) ++ js "%") else IconThumb
  | a :: _ => if ma_video a then VideoThumb else ImageThumb (ma_url a)
  end.

(** The width of the progress bar in percent, shown while the job is active. *)
Definition progressBar (m : Media) : option Z :=
  j ← selected m; if activeStatus (mj_status j) then Some (Z.max 4 (mj_progress j)) else None.

Definition libraryLine (loading : bool) (m : Media) : option string :=
  if loading then Some "Loading the media library…"%string
  else match md_jobs m with
       | None | Some [] => Some "Your generated images and videos will stay available here."%string
       | Some _ => None
       end.

Definition noticeDanger (m : Media) : bool := md_createFailed m || md_removeFailed m.

Definition configured (m : Media) : bool := from_option mp_configured false (md_status m).

Definition generateDisabled (m : Media) : bool := md_creating m || negb (configured m).
Definition generateLabel (m : Media) : string := if md_creating m then "Starting…" else actionLabel (sf_kind (md_form m)).

Definition deleteDisabled (j : MediaJob) (m : Media) : bool := activeStatus (mj_status j) || md_removing m.
Definition deleteLabel (j : MediaJob) (m : Media) : string :=
  if bool_decide (md_deleteArmedID m = Some (mj_id j)) then "Confirm delete" else "Delete".

(** The name beside an upload control and the line under it. *)
Definition uploadText (label : string) (name : jstr) (u : Upload) : jstr * jstr :=
  (if jeqb name [] then js label else name,
   if jeqb (ul_error u) []
   then js (if jeqb name [] then "PNG, JPEG, or WebP · up to 30 MB" else "Choose another file") else ul_error u).

(** How often the jobs are fetched again, in milliseconds. *)
Definition refetchInterval (m : Media) : option Z :=
  if from_option (existsb (λ j, activeStatus (mj_status j))) false (md_jobs m) then Some 2000%Z else None.

(** ** Requests *)

Section Surroundings.
Variable decodeURIComponent : jstr → option jstr.
(** [document.cookie]. *)
Variable cookies : jstr.
Variable parseProvider : json → MediaProviderStatus.
Variable parseJobs : json → list MediaJob.

(** [new Error(body.error ?? fallback)]; reading a member of [null] throws. *)
Definition bodyError {A} (fallback : string) (body : json) : proc Media A :=
  match body with
  | JNull => throw (mkError (js "Cannot read properties of null"))
  | _ => throw (mkError (textOr fallback (get "error" body)))
  end.

Definition getRequest (path : jstr) : HttpRequest := {|
  http_url := path; http_method := js "GET"; http_headers := [(js "Accept", js "application/json")];
  http_body := None |}.

Definition mediaFetch (path : string) : proc Media json :=
  response ← fetch (getRequest (js path));
  body ← bodyJSON response;
  if hr_ok response then mret body else bodyError "The media service is unavailable." body.

Definition mediaRequest (path : jstr) (method : string) (csrf : jstr) (key : option jstr) (body : option json)
    : HttpRequest := {|
  http_url := path; http_method := js method;
  http_headers := [(js "Accept", js "application/json")] ++
    match body with None => [] | Some _ => [(js "Content-Type", js "application/json")] end ++
    [(js "X-Ion-CSRF", csrf)] ++
    match key with None => [] | Some k => [(js "X-Ion-Idempotency-Key", k)] end;
  http_body := stringify <$> body |}.

(** [None] is the answer without a body; a POST carries a key of its own. *)
Definition mediaMutation (path : jstr) (method : string) (key : option jstr) (body : option json)
    : proc Media (option json) :=
  match readCookie decodeURIComponent (Some cookies) csrf_cookie with
  | None => throw uriError
  | Some csrf =>
      response ← fetch (mediaRequest path method csrf key body);
      if (hr_status response =? 204)%Z then mret None
      else result ← bodyJSON response;
           if hr_ok response then mret (Some result)
           else bodyError "The media request could not be completed." result
  end.

(** A mutation with its callbacks: pending until they are done. *)
Definition mutation {A} (flag : bool → bool → Media → Media) (p : proc Media A) (onSuccess : A → proc Media unit)
    : proc Media unit :=
  setState (flag true false);;
  try_catch (a ← p; onSuccess a;; setState (flag false false))
    (λ e, setState (setMediaNotice (error_message e));; setState (flag false true)).

Definition relistJobs : proc Media unit := refetch ["media.jobs"%string].

Definition jobsPath : jstr := js "/v1/media/jobs".

(** [key] is [crypto.randomUUID()]. *)
Definition createJob (key : jstr) (form : StudioForm) : proc Media unit :=
  mutation setCreating (mediaMutation jobsPath "POST" (Some key) (Some (formJSON form)))
    (λ job, match job with
            | None | Some JNull => throw (mkError (js "Cannot read properties of undefined"))
            | Some job =>
                setState (setSelectedID (asString (get "id" job)));;
                setState (setMediaNotice
                  (js "Generation started. You can leave this page while Ion keeps the job running."));;
                relistJobs
            end).

Definition removeJob (id : jstr) : proc Media unit :=
  mutation setRemoving (mediaMutation (jobsPath ++ js "/" ++ id) "DELETE" None None)
    (λ _, setState (setSelectedID None);;
          setState (setDeleteArmedID None);;
          setState (setMediaNotice (js "The generation and its stored outputs were removed."));;
          relistJobs).

Definition providerQuery : proc Media unit :=
  try_catch (v ← mediaFetch "/v1/media/status"; setState (setMediaStatus (Some (parseProvider v)))) (λ _, skip).

Definition jobsQuery : proc Media unit :=
  try_catch (v ← mediaFetch "/v1/media/jobs"; setState (setJobs (Some (parseJobs v)))) (λ _, skip).

(** ** Images *)

Definition imageTypes : list string := ["image/jpeg"; "image/png"; "image/webp"]%string.

Definition imageLimit : N := 30 * 1024 * 1024.

(** The part of a data URL after its first comma. *)
Definition afterComma (url : jstr) : jstr := match indexOf 44 url with Some i => drop (S i) url | None => url end.

Definition readImage (f : File) : proc Media (jstr * jstr) :=
  if negb (existsb (λ t, jeqb (fl_type f) (js t)) imageTypes)
  then throw (mkError (js "Choose a PNG, JPEG, or WebP image."))
  else if (imageLimit <? fl_size f)%N then throw (mkError (js "The image must be 30 MB or smaller."))
  else Await (ReadDataURL f) (λ o,
         match o with
         | inl _ => throw (mkError (js "The image could not be read."))
         | inr url => mret (afterComma url, url)
         end).

Definition chooseImage (slot : Slot) (f : File) (m : Media) : proc Media unit :=
  let mine := setUpload (md_mount m) slot in
  try_catch
    (image ← readImage f;
     setState (mine (λ u, {| ul_error := []; ul_preview := ul_preview u |}));;
     setState (mine (λ u, {| ul_error := ul_error u; ul_preview := image.2 |}));;
     setState (setForm (setSource slot image.1 (fl_name f))))
    (λ e, setState (mine (λ u, {| ul_error := error_message e; ul_preview := ul_preview u |}))).

(** ** The component *)

Definition chooseWorkflow (k : MediaKind) : proc Media unit :=
  setState (setForm (λ _, defaultForm k));; setState (setMediaNotice []).

Definition useSettings (j : MediaJob) : proc Media unit :=
  setState (setForm (λ _, settingsOf (mj_kind j) (mj_request j)));;
  setState (setMediaNotice (js (if mr_has_image (mj_request j)
                                then "Settings restored. Re-add source images before generating."
                                else "Settings restored and ready to generate again."))).

Definition submitMedia (key : jstr) (m : Media) : proc Media unit :=
  setState (setMediaNotice []);; createJob key (md_form m).

Definition pressDelete (j : MediaJob) (m : Media) : proc Media unit :=
  if bool_decide (md_deleteArmedID m = Some (mj_id j)) then removeJob (mj_id j)
  else setState (setDeleteArmedID (Some (mj_id j)));;
       setState (setMediaNotice
         (js "Select Confirm delete to permanently remove this job and its stored outputs.")).

(** The effect that selects the first job. *)
Definition selectionEffect (m : Media) : proc Media unit :=
  match md_selectedID m, md_jobs m ≫= head with
  | None, Some j => setState (setSelectedID (Some (mj_id j)))
  | _, _ => skip
  end.

Inductive MediaInput : Type :=
  | StatusFetched | JobsFetched | SelectionSettled
  | WorkflowPressed (k : MediaKind)
  | TextTyped (f : TextField) (v : jstr)
  | NumberTyped (f : NumericFormField) (v : num)
  | ImageChosen (slot : Slot) (f : File)
  | MediaSubmitted (key : jstr)
  | JobPressed (id : jstr)
  | SettingsPressed
  | MediaDeletePressed.

(** Each control with what it needs to be on screen, enabled and, for the form, accepted
    by the browser.  The value of a number control is a number or empty, which
    [Number(...)] reads as 0. *)
Definition mediaHandler (m : Media) (y : MediaInput) : proc Media unit :=
  match y with
  | StatusFetched => providerQuery
  | JobsFetched => jobsQuery
  | SelectionSettled => selectionEffect m
  | WorkflowPressed k => chooseWorkflow k
  | TextTyped f v =>
      match find (editsText f) (MediaControls (md_form m)) with
      | Some c => if (length v <=? maxLength f)%nat then setState (setForm (editText f v c)) else skip
      | None => skip
      end
  | NumberTyped f v =>
      if existsb (editsNumber f) (MediaControls (md_form m)) then setState (setForm (setNumber f v)) else skip
  | ImageChosen slot f =>
      if existsb (editsSlot slot) (MediaControls (md_form m)) then chooseImage slot f m else skip
  | MediaSubmitted key => if generateDisabled m || negb (formValid (md_form m)) then skip else submitMedia key m
  | JobPressed id =>
      if existsb (λ j, jeqb (mj_id j) id) (default [] (md_jobs m)) then setState (setSelectedID (Some id)) else skip
  | SettingsPressed => match selected m with Some j => useSettings j | None => skip end
  | MediaDeletePressed =>
      match selected m with
      | Some j => if deleteDisabled j m then skip else pressDelete j m
      | None => skip
      end
  end.
End Surroundings.
