(* ===== verification/MediaServer.v ===== *)
(** * The server's side of a generation

    [internal/media/types.go], as far as the settings of a job depend on it: what the
    server makes of a submitted form ([normalizeRequest], [defaultRequest]) and the view of
    it that a job carries ([view]).

    A form is received as JSON: an infinite number arrives as [null] and leaves the member
    at zero, a whole-number member refuses other numbers, and a lone surrogate arrives as
    U+FFFD.  [validImage] is the test of an uploaded image, which decodes it and sniffs its
    type. *)
From stdpp Require Import base list strings.
From Stdlib Require Import ZArith NArith.
From S2P Require Import Prelude JsString JsValue JsArray Regex Catalog Protocol Display Envelope.
From S2P Require Import Events LocalClient Client Operator TuiFormat TuiApp Async Computer Sessions Media.

(** ** Texts and numbers *)

(** A received text: every lone surrogate is U+FFFD. *)
Fixpoint receivedText (s : jstr) : jstr :=
  match s with
  | [] => []
  | h :: t =>
      match t with
      | l :: r =>
          if is_high h && is_low l then h :: l :: receivedText r
          else (if is_high h || is_low h then 65533%N else h) :: receivedText t
      | [] => [if is_high h || is_low h then 65533%N else h]
      end
  end.

(** [unicode.IsSpace]. *)
Definition goSpace (c : N) : bool :=
  ((9 <=? c) && (c <=? 13) || (c =? 32) || (c =? 133) || (c =? 160) || (c =? 5760) || (8192 <=? c) && (c <=? 8202)
   || (c =? 8232) || (c =? 8233) || (c =? 8239) || (c =? 8287) || (c =? 12288))%N.

Fixpoint dropSpace (s : jstr) : jstr :=
  match s with
  | [] => []
  | c :: s' => if goSpace c then dropSpace s' else s
  end.

(** [strings.TrimSpace]. *)
Definition TrimSpace (s : jstr) : jstr := reverse (dropSpace (reverse (dropSpace s))).

Definition goText (s : jstr) : jstr := TrimSpace (receivedText s).

(** A received number. *)
Definition received (v : num) : num := match v with NInf _ => num_of_Z 0 | _ => v end.

Definition isZero (v : num) : bool := match v with NFin m _ => (m =? 0)%Z | NInf _ => false end.

(** The number can be stored in an [int]. *)
Definition isInt (v : num) : bool :=
  match num_to_Z v with Some z => (- 2 ^ 63 <=? z)%Z && (z <? 2 ^ 63)%Z | None => false end.

(** ** Defaults *)

Definition filledNumber (d : num) (v : num) : num := if isZero v then d else v.
Definition filledText (d : string) (s : jstr) : jstr := if jeqb s [] then js d else s.

Definition serverModel (k : MediaKind) : string :=
  match k with
  | TextToVideo => "darkSushiMixMix_225D_64380.safetensors"
  | ImageToVideo => "SVD-XT"
  | Upscale => "RealESRNet_x4plus"
  | Inpainting => "realisticVisionV51_v51VAE-inpainting_94324.safetensors"
  | _ => "sd_xl_base_1.0.safetensors"
  end.

Definition defaultRequest (s : StudioForm) : StudioForm := {|
  sf_kind := sf_kind s; sf_prompt := sf_prompt s; sf_negative_prompt := sf_negative_prompt s;
  sf_model := filledText (serverModel (sf_kind s)) (sf_model s); sf_sampler := filledText "DPM++ 2M Karras" (sf_sampler s);
  sf_width := filledNumber (num_of_Z 1024) (sf_width s); sf_height := filledNumber (num_of_Z 1024) (sf_height s);
  sf_steps := filledNumber (num_of_Z 20) (sf_steps s); sf_guidance := filledNumber (NFin 75 (-1)) (sf_guidance s);
  sf_seed := filledNumber (num_of_Z (-1)) (sf_seed s); sf_image_count := filledNumber (num_of_Z 1) (sf_image_count s);
  sf_strength := filledNumber (NFin 7 (-1)) (sf_strength s); sf_frames := filledNumber (num_of_Z 25) (sf_frames s);
  sf_fps := filledNumber (num_of_Z 6) (sf_fps s); sf_scale := filledNumber (num_of_Z 2) (sf_scale s);
  sf_resize_mode := filledText "ORIGINAL_RESOLUTION" (sf_resize_mode s);
  sf_image_base64 := sf_image_base64 s; sf_mask_base64 := sf_mask_base64 s; sf_face_base64 := sf_face_base64 s;
  sf_image_name := sf_image_name s; sf_mask_name := sf_mask_name s; sf_face_name := sf_face_name s |}.

(** ** Normalisation *)

Definition normalizeBase64 (value : jstr) : jstr :=
  let value := goText value in
  match startsWith (js "data:") value, list_find (λ c, c = 44%N) value with
  | true, Some (i, _) => drop (S i) value
  | _, _ => value
  end.

Section Server.
Variable validImage : jstr → bool.
(** The name of an uploaded file, cut to its last element. *)
Variable safeName : jstr → jstr.

(** The form as it is received, with its texts trimmed. *)
Definition trimmedForm (s : StudioForm) : StudioForm := {|
  sf_kind := sf_kind s; sf_prompt := goText (sf_prompt s); sf_negative_prompt := goText (sf_negative_prompt s);
  sf_model := goText (sf_model s); sf_sampler := goText (sf_sampler s);
  sf_width := received (sf_width s); sf_height := received (sf_height s); sf_steps := received (sf_steps s);
  sf_guidance := received (sf_guidance s); sf_seed := received (sf_seed s);
  sf_image_count := received (sf_image_count s); sf_strength := received (sf_strength s);
  sf_frames := received (sf_frames s); sf_fps := received (sf_fps s); sf_scale := received (sf_scale s);
  sf_resize_mode := goText (sf_resize_mode s);
  sf_image_base64 := normalizeBase64 (sf_image_base64 s); sf_mask_base64 := normalizeBase64 (sf_mask_base64 s);
  sf_face_base64 := normalizeBase64 (sf_face_base64 s); sf_image_name := safeName (sf_image_name s);
  sf_mask_name := safeName (sf_mask_name s); sf_face_name := safeName (sf_face_name s) |}.

Definition textsFit (s : StudioForm) : bool :=
  (utf8_length (sf_prompt s) <=? 2048)%N && (utf8_length (sf_negative_prompt s) <=? 2048)%N &&
  (utf8_length (sf_model s) <=? 256)%N && (utf8_length (sf_sampler s) <=? 128)%N.

Definition requiredPresent (s : StudioForm) : bool :=
  let present (needed : bool) (text : jstr) := negb needed || negb (jeqb text []) in
  let k := sf_kind s in
  present (bool_decide (k ∈ [TextToImage; TextToVideo; ImageToImage; ReplaceBackground; Inpainting])) (sf_prompt s) &&
  present (negb (bool_decide (k ∈ [TextToImage; TextToVideo]))) (sf_image_base64 s) &&
  present (bool_decide (k ∈ [Cleanup; Inpainting])) (sf_mask_base64 s) &&
  present (bool_decide (k = MergeFace)) (sf_face_base64 s).

Definition imagesValid (s : StudioForm) : bool :=
  forallb (λ encoded, (utf8_length encoded <=? 41943040)%N && (jeqb encoded [] || validImage encoded))
    [sf_image_base64 s; sf_mask_base64 s; sf_face_base64 s].

Definition numberWithin (lo hi : num) (v : num) : bool := numLeb lo v && numLeb v hi.

Definition numbersInRange (s : StudioForm) : bool :=
  let whole (lo hi : Z) v := numberWithin (num_of_Z lo) (num_of_Z hi) v in
  let k := sf_kind s in
  whole 128%Z 2048%Z (sf_width s) && whole 128%Z 2048%Z (sf_height s) &&
  whole 1%Z 100%Z (sf_steps s) && whole 1%Z 30%Z (sf_guidance s) &&
  whole 1%Z 4%Z (sf_image_count s) && whole 0%Z 1%Z (sf_strength s) &&
  negb (numLeb (sf_scale s) (num_of_Z 1)) && numLeb (sf_scale s) (num_of_Z 4) &&
  whole 8%Z 128%Z (sf_frames s) && whole 1%Z 24%Z (sf_fps s) &&
  (negb (bool_decide (k = TextToVideo)) ||
   numLeb (sf_frames s) (num_of_Z 64) && whole 256%Z 1024%Z (sf_width s) && whole 256%Z 1024%Z (sf_height s)) &&
  (negb (bool_decide (k = ImageToVideo)) ||
   let expectedFrames := if jeqb (map fold_iu (sf_model s)) (js "svd") then 14%Z else 25%Z in
   bool_decide (num_to_Z (sf_frames s) = Some expectedFrames) && bool_decide (num_to_Z (sf_fps s) = Some 6%Z)).

Definition integersFit (s : StudioForm) : bool :=
  forallb (λ f, isInt (numberAt f s)) [Width; Height; Steps; Seed; ImageCount; Frames; FPS].

(** [None] is a refusal. *)
Definition normalizeRequest (s : StudioForm) : option StudioForm :=
  let input := trimmedForm s in
  let result := defaultRequest input in
  if integersFit input && textsFit input && requiredPresent input && imagesValid input && numbersInRange result
  then Some result else None.
End Server.

(** ** The view of a request *)

(** [omitempty]. *)
Definition unlessEmpty (s : jstr) : option jstr := if jeqb s [] then None else Some s.
Definition unlessZero (v : num) : option num := if isZero v then None else Some v.

Definition requestView (s : StudioForm) : MediaRequest := {|
  mr_kind := sf_kind s; mr_prompt := unlessEmpty (sf_prompt s); mr_negative_prompt := unlessEmpty (sf_negative_prompt s);
  mr_model := unlessEmpty (sf_model s); mr_sampler := unlessEmpty (sf_sampler s);
  mr_width := unlessZero (sf_width s); mr_height := unlessZero (sf_height s); mr_steps := unlessZero (sf_steps s);
  mr_guidance := unlessZero (sf_guidance s); mr_seed := sf_seed s; mr_image_count := unlessZero (sf_image_count s);
  mr_strength := unlessZero (sf_strength s); mr_frames := unlessZero (sf_frames s); mr_fps := unlessZero (sf_fps s);
  mr_scale := unlessZero (sf_scale s); mr_resize_mode := unlessEmpty (sf_resize_mode s);
  mr_has_image := negb (jeqb (sf_image_base64 s) []); mr_has_mask := negb (jeqb (sf_mask_base64 s) []);
  mr_has_face := negb (jeqb (sf_face_base64 s) []) |}.
