(* ===== verification/MediaProps.v ===== *)
(** * What the media studio guarantees

    Claims about [Media]: when a job is deleted, which generations are sent and with which
    images, one generation at a time, the round trip of settings through the server
    ([MediaServer]), and four faults of the form. *)
From stdpp Require Import base sets list strings.
From Stdlib Require Import ZArith NArith.
From S2P Require Import Prelude JsString JsValue JsArray Regex Catalog Protocol Display Envelope.
From S2P Require Import Events EventsFacts Store EventsProps LocalClient Client Operator TuiFormat TuiApp.
From S2P Require Import Async Computer Sessions Media MediaServer.

(** ** The steps of the handlers *)

Section Steps.
Variable decodeURIComponent : jstr → option jstr.
Variable cookies : jstr.
Variable parseProvider : json → MediaProviderStatus.
Variable parseJobs : json → list MediaJob.
Local Abbreviation handler := (mediaHandler decodeURIComponent cookies parseProvider parseJobs).

(** An invariant of the form, and what the effects must satisfy. *)
Variable J : StudioForm → Prop.
Variable Q : Effect → Prop.
Variable R : ∀ c : call, Error + answer c → Prop.
Variable chosen : Slot → File → Prop.
Local Abbreviation I := (λ m, J (md_form m)).

Hypothesis escapes : ∀ e, Q (Escaped e).
Hypothesis refetches : ∀ l, Q (Issued (Refetch l)).
Hypothesis gets : ∀ path, Q (Issued (Fetch (getRequest path))).
Hypothesis reads : ∀ f, Q (Issued (ReadDataURL f)).
Hypothesis defaults : ∀ k, J (defaultForm k).
Hypothesis restores : ∀ k r, J (settingsOf k r).
Hypothesis numbers : ∀ f v s, J s → J (setNumber f v s).
Hypothesis texts : ∀ f v s, J s → J (setFormText f v s).
Hypothesis sources : ∀ slot f url s,
  chosen slot f → fl_type f ∈ (js <$> imageTypes) → (fl_size f ≤ imageLimit)%N → R (ReadDataURL f) (inr url) → J s →
  J (setSource slot (afterComma url) (fl_name f) s).

Lemma same_form f : (∀ m, md_form (f m) = md_form m) → ∀ m, I m → I (f m).
Proof. intros Hf m. cbv beta. by rewrite Hf. Qed.

Lemma mediaFetch_safe path : safe I Q R (mediaFetch path).
Proof.
  split; [apply gets|]. intros [e|r] _; [apply escapes|]. unfold bodyJSON. cbn [mbind proc_bind].
  destruct (hr_json r) as [v|]; [|apply escapes]. cbn [mbind proc_bind]. destruct (hr_ok r); [done|].
  unfold bodyError. destruct v; apply escapes.
Qed.

Lemma mediaMutation_safe path method key body :
  (∀ csrf, Q (Issued (Fetch (mediaRequest path method csrf key body)))) →
  safe I Q R (mediaMutation decodeURIComponent cookies path method key body).
Proof.
  intros HQ. unfold mediaMutation. destruct (readCookie _ _ _) as [csrf|]; [|apply escapes].
  split; [apply HQ|]. intros [e|r] _; [apply escapes|]. cbn [mbind proc_bind].
  destruct (hr_status r =? 204)%Z; [done|]. unfold bodyJSON. destruct (hr_json r) as [v|]; [|apply escapes].
  cbn [mbind proc_bind]. destruct (hr_ok r); [done|]. unfold bodyError. destruct v; apply escapes.
Qed.

Lemma mutation_safe {A} flag (p : proc Media A) onSuccess :
  (∀ b c m, md_form (flag b c m) = md_form m) → safe I Q R p → (∀ a, safe I Q R (onSuccess a)) →
  safe I Q R (mutation flag p onSuccess).
Proof.
  intros Hf Hp Hs. split; [by apply same_form|]. apply safe_try_catch.
  - apply safe_bind; [done|]. intros a. apply safe_bind; [done|]. intros _. split; [by apply same_form|done].
  - intros e. split; [by apply same_form|]. split; [by apply same_form|done].
Qed.

Lemma createJob_safe key form :
  (∀ csrf, Q (Issued (Fetch (mediaRequest jobsPath "POST" csrf (Some key) (Some (formJSON form)))))) →
  safe I Q R (createJob decodeURIComponent cookies key form).
Proof.
  intros HQ. apply mutation_safe; [done|by apply mediaMutation_safe|]. intros [v|]; [|apply escapes].
  destruct v; try apply escapes;
    (split; [by apply same_form|]; split; [by apply same_form|]; split; [apply refetches|done]).
Qed.

Lemma removeJob_safe id :
  (∀ csrf, Q (Issued (Fetch (mediaRequest (jobsPath ++ js "/" ++ id) "DELETE" csrf None None)))) →
  safe I Q R (removeJob decodeURIComponent cookies id).
Proof.
  intros HQ. apply mutation_safe; [done|by apply mediaMutation_safe|]. intros _.
  do 3 (split; [by apply same_form|]). split; [apply refetches|done].
Qed.

Lemma readImage_safe f : safe I Q R (readImage f).
Proof.
  unfold readImage. destruct (negb _); [apply escapes|]. destruct (_ <? _)%N; [apply escapes|].
  split; [apply reads|]. intros [e|url] _; [apply escapes|done].
Qed.

Lemma setUpload_form mount slot u m : md_form (setUpload mount slot u m) = md_form m.
Proof. unfold setUpload. by destruct (decide _). Qed.

Lemma chooseImage_safe slot f m : chosen slot f → safe I Q R (chooseImage slot f m).
Proof.
  intros Hc. assert (∀ mount u m', I m' → I (setUpload mount slot u m')) as Hu.
  { intros mount u. apply same_form, setUpload_form. }
  apply safe_try_catch; [|intros e; split; [apply Hu|done]].
  unfold readImage. destruct (existsb _ imageTypes) eqn:Ht; cbn [negb]; [|apply escapes].
  destruct (imageLimit <? fl_size f)%N eqn:Hl; [apply escapes|].
  split; [apply reads|]. intros [e|url] Hr; [apply escapes|]. cbn [mbind proc_bind mret proc_ret].
  split; [apply Hu|]. split; [apply Hu|]. split; [|done]. intros m' Hm'. cbn. apply sources; auto.
  - apply existsb_exists in Ht as (t & Hin & Ht). apply list_elem_of_In in Hin.
    apply bool_decide_eq_true in Ht. rewrite Ht. by apply list_elem_of_fmap_2.
  - apply N.ltb_ge in Hl. exact Hl.
Qed.

Lemma editText_keeps f v c s : J s → J (editText f v c s).
Proof. intros Hs. unfold editText. destruct c; auto. Qed.

(** Every handler keeps the invariant; the two that send a mutation need their request to
    be allowed. *)
Lemma mediaHandler_safe m y :
  I m →
  (∀ slot f, y = ImageChosen slot f → chosen slot f) →
  (∀ key csrf, y = MediaSubmitted key → generateDisabled m = false → formValid (md_form m) = true →
     Q (Issued (Fetch (mediaRequest jobsPath "POST" csrf (Some key) (Some (formJSON (md_form m))))))) →
  (∀ j csrf, y = MediaDeletePressed → selected m = Some j →
     Q (Issued (Fetch (mediaRequest (jobsPath ++ js "/" ++ mj_id j) "DELETE" csrf None None)))) →
  safe I Q R (handler m y).
Proof.
  intros Hm Hc Hs Hd. destruct y as [| | |k|f v|f v|slot f|key|id| |]; cbn [mediaHandler].
  - apply safe_try_catch; [|done]. by apply safe_bind; [apply mediaFetch_safe|].
  - apply safe_try_catch; [|done]. by apply safe_bind; [apply mediaFetch_safe|].
  - unfold selectionEffect. destruct (md_selectedID m), (md_jobs m ≫= head); done.
  - split; [intros ? _; apply defaults|]. split; [by apply same_form|done].
  - destruct (find _ _); [|done]. destruct (_ <=? _)%nat; [|done]. split; [|done]. intros m' Hm'.
    by apply editText_keeps.
  - destruct (existsb _ _); [|done]. split; [|done]. intros m' Hm'. by apply numbers.
  - destruct (existsb _ _); [|done]. by apply chooseImage_safe, Hc.
  - destruct (generateDisabled m) eqn:Hg; [done|]. destruct (formValid (md_form m)) eqn:Hv; [|done].
    split; [by apply same_form|]. apply createJob_safe. intros csrf. by apply Hs.
  - destruct (existsb _ _); [|done]. split; [by apply same_form|done].
  - destruct (selected m) as [j|]; [|done]. split; [intros ? _; apply restores|]. split; [by apply same_form|done].
  - destruct (selected m) as [j|]; [|done]. destruct (deleteDisabled j m); [done|]. unfold pressDelete.
    destruct (bool_decide _); [apply removeJob_safe; auto|]. split; [by apply same_form|].
    split; [by apply same_form|done].
Qed.
End Steps.

(** ** Deleting *)

Section Runs.
Variable decodeURIComponent : jstr → option jstr.
Variable cookies : jstr.
Variable parseProvider : json → MediaProviderStatus.
Variable parseJobs : json → list MediaJob.
Local Abbreviation handler := (mediaHandler decodeURIComponent cookies parseProvider parseJobs).

Definition isDelete (e : Effect) : Prop :=
  match e with Issued (Fetch r) => http_method r = js "DELETE" | _ => False end.

(** The delete button of [id]'s job was pressed in [m], where it was enabled. *)
Definition deletePressed (m : Media) (y : MediaInput) (id : jstr) : Prop :=
  y = MediaDeletePressed ∧ ∃ j, selected m = Some j ∧ mj_id j = id ∧ deleteDisabled j m = false.

Lemma other_inputs_do_not_delete m y : y ≠ MediaDeletePressed → safe (λ _, True) (λ e, ~ isDelete e) anyAnswer (handler m y).
Proof.
  intros Hy. apply (mediaHandler_safe _ _ _ _ (λ _, True) _ _ (λ _ _, True)); try done.
  all: auto.
Qed.

Lemma removal_is_late id : late (λ e, ~ isDelete e) (removeJob decodeURIComponent cookies id).
Proof.
  apply late_try_catch; [|by split]. apply late_bind; [|intros a; apply safe_bind; [by repeat (split || intros ?)|by split]].
  unfold mediaMutation. destruct (readCookie _ _ _); [|done]. intros [e|r]; [by intros []|].
  cbn [mbind proc_bind]. destruct (_ =? _)%Z; [done|]. unfold bodyJSON.
  destruct (hr_json r) as [v|]; [|by intros []]. cbn [mbind proc_bind]. destruct (hr_ok r); [done|].
  unfold bodyError. destruct v; by intros [].
Qed.

Lemma handler_is_late m y : late (λ e, ~ isDelete e) (handler m y).
Proof.
  destruct y; try by apply safe_late, other_inputs_do_not_delete.
  cbn [mediaHandler]. destruct (selected m) as [j|]; [|done]. destruct (deleteDisabled j m); [done|].
  unfold pressDelete. destruct (bool_decide _); [apply removal_is_late|done].
Qed.
(** An update that leaves the armed job alone or clears it. *)
Lemma arms_nothing (G : jstr → Prop) f :
  (∀ m, md_deleteArmedID (f m) = md_deleteArmedID m ∨ md_deleteArmedID (f m) = None) →
  quiet md_deleteArmedID G (setState f).
Proof. intros Hf. split; [|done]. intros m v Hv. destruct (Hf m) as [He|He]; rewrite He in Hv; [by left|done]. Qed.

Lemma mediaFetch_quiet path : quiet md_deleteArmedID (λ _, False) (mediaFetch path).
Proof.
  intros [e|r]; [done|]. cbn [mbind proc_bind]. unfold bodyJSON. destruct (hr_json r) as [v|]; [|done].
  cbn [mbind proc_bind]. destruct (hr_ok r); [done|]. unfold bodyError. by destruct v.
Qed.

Lemma mediaMutation_quiet path method key body :
  quiet md_deleteArmedID (λ _, False) (mediaMutation decodeURIComponent cookies path method key body).
Proof.
  unfold mediaMutation. destruct (readCookie _ _ _); [|done]. intros [e|r]; [done|]. cbn [mbind proc_bind].
  destruct (_ =? _)%Z; [done|]. unfold bodyJSON. destruct (hr_json r) as [v|]; [|done].
  cbn [mbind proc_bind]. destruct (hr_ok r); [done|]. unfold bodyError. by destruct v.
Qed.

Lemma mutation_quiet {A} flag (p : proc Media A) onSuccess :
  (∀ b c m, md_deleteArmedID (flag b c m) = md_deleteArmedID m) →
  quiet md_deleteArmedID (λ _, False) p → (∀ a, quiet md_deleteArmedID (λ _, False) (onSuccess a)) →
  quiet md_deleteArmedID (λ _, False) (mutation flag p onSuccess).
Proof.
  intros Hf Hp Hs. apply quiet_bind; [by apply arms_nothing; left|]. intros _. apply quiet_try_catch.
  - apply quiet_bind; [done|]. intros a. apply quiet_bind; [done|]. intros _. by apply arms_nothing; left.
  - intros e. apply quiet_bind; [by apply arms_nothing; left|]. intros _. by apply arms_nothing; left.
Qed.

Lemma setUpload_armed mount slot u m : md_deleteArmedID (setUpload mount slot u m) = md_deleteArmedID m.
Proof. unfold setUpload. by destruct (decide _). Qed.

Lemma chooseImage_quiet slot f m : quiet md_deleteArmedID (λ _, False) (chooseImage slot f m).
Proof.
  apply quiet_try_catch; [|intros e; apply arms_nothing; left; apply setUpload_armed].
  apply quiet_bind.
  - unfold readImage. destruct (negb _); [done|]. destruct (_ <? _)%N; [done|]. by intros [].
  - intros i. apply quiet_bind; [apply arms_nothing; left; apply setUpload_armed|]. intros _.
    apply quiet_bind; [apply arms_nothing; left; apply setUpload_armed|]. intros _. by apply arms_nothing; left.
Qed.

Lemma create_quiet key form : quiet md_deleteArmedID (λ _, False) (createJob decodeURIComponent cookies key form).
Proof.
  apply mutation_quiet; [done|apply mediaMutation_quiet|]. intros [v|]; [|done]. destruct v; try done;
    (apply quiet_bind; [by apply arms_nothing; left|]; intros _;
     apply quiet_bind; [by apply arms_nothing; left|]; by intros _ []).
Qed.

Lemma remove_quiet id : quiet md_deleteArmedID (λ _, False) (removeJob decodeURIComponent cookies id).
Proof.
  apply mutation_quiet; [done|apply mediaMutation_quiet|]. intros _.
  apply quiet_bind; [by apply arms_nothing; left|]. intros _. apply quiet_bind; [by apply arms_nothing; right|].
  intros _. apply quiet_bind; [by apply arms_nothing; left|]. by intros _ [].
Qed.

(** Only pressing the delete button of the selected job arms its deletion. *)
Lemma handler_arms m y : quiet md_deleteArmedID (deletePressed m y) (handler m y).
Proof.
  destruct y as [| | |k|f v|f v|slot f|key|id| |]; cbn [mediaHandler].
  11: { destruct (selected m) as [j|] eqn:Hj; [|done]. destruct (deleteDisabled j m) eqn:Hd; [done|].
        unfold pressDelete. destruct (bool_decide _).
        { eapply quiet_mono; [|apply remove_quiet]. done. }
        split; [|split; [by left|done]]. intros s v [= <-]. right. split; [done|]. by exists j. }
  all: apply (quiet_mono _ (λ _, False)); [done|].
  - apply quiet_try_catch; [|done]. apply quiet_bind; [apply mediaFetch_quiet|]. intros v. by apply arms_nothing; left.
  - apply quiet_try_catch; [|done]. apply quiet_bind; [apply mediaFetch_quiet|]. intros v. by apply arms_nothing; left.
  - unfold selectionEffect. destruct (md_selectedID m), (md_jobs m ≫= head); try done. by apply arms_nothing; left.
  - apply quiet_bind; [by apply arms_nothing; left|]. intros _. by apply arms_nothing; left.
  - destruct (find _ _); [|done]. destruct (_ <=? _)%nat; [|done]. by apply arms_nothing; left.
  - destruct (existsb _ _); [|done]. by apply arms_nothing; left.
  - destruct (existsb _ _); [|done]. apply chooseImage_quiet.
  - destruct (_ || _); [done|]. apply quiet_bind; [by apply arms_nothing; left|]. intros _. apply create_quiet.
  - destruct (existsb _ _); [|done]. by apply arms_nothing; left.
  - destruct (selected m); [|done]. apply quiet_bind; [by apply arms_nothing; left|]. intros _.
    by apply arms_nothing; left.
Qed.

Lemma delete_effect m e :
  isDelete e → e ∈ (run (handler m MediaDeletePressed) m).1.2 →
  ∃ j csrf, selected m = Some j ∧ deleteDisabled j m = false ∧ md_deleteArmedID m = Some (mj_id j) ∧
            readCookie decodeURIComponent (Some cookies) csrf_cookie = Some csrf ∧
            e = Issued (Fetch (mediaRequest (jobsPath ++ js "/" ++ mj_id j) "DELETE" csrf None None)).
Proof.
  intros Hd. cbn [mediaHandler]. destruct (selected m) as [j|]; [|by intros []%not_elem_of_nil].
  destruct (deleteDisabled j m) eqn:Hj; [by intros []%not_elem_of_nil|]. unfold pressDelete.
  destruct (bool_decide _) eqn:Ha; [|by intros []%not_elem_of_nil]. apply bool_decide_eq_true in Ha.
  unfold removeJob, mutation, mediaMutation. destruct (readCookie _ _ _) as [csrf|] eqn:Hc.
  - intros ->%list_elem_of_singleton. by exists j, csrf.
  - by intros []%not_elem_of_nil.
Qed.
End Runs.

(** A job is deleted only by the second press of its own delete button: in any run, an
    input or an answer that sends a delete request is that press, for the job on screen,
    which is neither active nor already being removed; the request names that job, and
    the deletion of the same job was armed by an earlier press while it was on screen,
    however the selection and the list changed in between. *)
Theorem media_deletion_is_armed decode cookies pp pj (xs : list (input MediaInput)) w out x w' out' e :
  runs (mediaHandler decode cookies pp pj) initialMedia xs w out →
  perform (mediaHandler decode cookies pp pj) x w = Some (w', out') → e ∈ out' → isDelete e →
  x = Act MediaDeletePressed ∧
  ∃ j csrf, selected (here w) = Some j ∧ activeStatus (mj_status j) = false ∧ md_removing (here w) = false ∧
            e = Issued (Fetch (mediaRequest (js "/v1/media/jobs/" ++ mj_id j) "DELETE" csrf None None)) ∧
            originates (mediaHandler decode cookies pp pj) deletePressed initialMedia xs (mj_id j).
Proof.
  intros Hr Hp He Hd.
  destruct (late_effect _ (λ e, ~ isDelete e) _ _ _ _ _ _ _ e (handler_is_late decode cookies pp pj) Hr Hp He)
    as (y & -> & Hy); [by intros []|].
  assert (y = MediaDeletePressed) as ->.
  { assert (y ≠ MediaDeletePressed → False) as Hne; [|by destruct y; try done; destruct Hne].
    intros Hne. pose proof (safe_effects _ _ (here w) (other_inputs_do_not_delete decode cookies pp pj (here w) y Hne)) as Hs.
    by apply (proj1 (Forall_forall _ _) Hs e Hy). }
  split; [done|]. apply delete_effect in Hy as (j & csrf & Hj & Hdis & Harm & Hc & ->); [|done].
  exists j, csrf. unfold deleteDisabled in Hdis. apply orb_false_iff in Hdis as [Hact Hrem].
  split_and!; try done.
  destruct (runs_origin (mediaHandler decode cookies pp pj) md_deleteArmedID deletePressed initialMedia xs w out
              (handler_arms decode cookies pp pj) eq_refl Hr) as [Ho _]. by apply Ho.
Qed.

(** ** Sending a generation *)

(** What [readAsDataURL] gives for a file with these contents. *)
Definition dataURL (contents : File → jstr) (f : File) : jstr :=
  js "data:" ++ fl_type f ++ js ";base64," ++ contents f.

Definition dataURLs (contents : File → jstr) (c : call) : Error + answer c → Prop :=
  match c with ReadDataURL f => λ o, match o with inl _ => True | inr url => url = dataURL contents f end
             | _ => λ _, True end.

(** The encoded part of the data URL of an image is its contents. *)
Lemma afterComma_contents contents f :
  fl_type f ∈ (js <$> imageTypes) → afterComma (dataURL contents f) = contents f.
Proof.
  unfold dataURL. intros Ht. unfold imageTypes in Ht. cbn [fmap list_fmap] in Ht.
  repeat (apply elem_of_cons in Ht as [Ht|Ht]; [rewrite Ht; reflexivity|]). by apply not_elem_of_nil in Ht.
Qed.

(** The slot is empty or holds an accepted image that was chosen for it. *)
Definition sourced (contents : File → jstr) (chosen : Slot → File → Prop) (s : StudioForm) : Prop :=
  ∀ slot, sourceAt slot s = ([], []) ∨
    ∃ f, chosen slot f ∧ fl_type f ∈ (js <$> imageTypes) ∧ (fl_size f ≤ 31457280)%N ∧
         sourceAt slot s = (contents f, fl_name f).

Lemma sourced_setSource contents chosen slot f url s :
  chosen slot f → fl_type f ∈ (js <$> imageTypes) → (fl_size f ≤ imageLimit)%N →
  dataURLs contents (ReadDataURL f) (inr url) → sourced contents chosen s →
  sourced contents chosen (setSource slot (afterComma url) (fl_name f) s).
Proof.
  intros Hc Ht Hl -> Hs g. rewrite afterComma_contents by done. destruct (decide (slot = g)) as [<-|Hne].
  - right. exists f. split_and!; try done. destruct slot; done.
  - replace (sourceAt g (setSource slot (contents f) (fl_name f) s)) with (sourceAt g s); [apply Hs|].
    by destruct slot, g.
Qed.

Definition isPost (e : Effect) : Prop :=
  match e with Issued (Fetch r) => http_method r = js "POST" | _ => False end.

(** [C20] A generation is sent only from a form that its controls accept, with the images that
    were chosen for it: in any run every POST carries the whole form as its body, each
    number the form shows lies between the bounds of its control, the prompt is not empty
    where the workflow has one, and each image of it is empty or the contents of a PNG,
    JPEG or WebP file of at most 30 MB chosen in that control, under the file's name. *)
Theorem generations_are_valid decode cookies pp pj contents (xs : list (input MediaInput)) w out :
  runs (mediaHandler decode cookies pp pj) initialMedia xs w out →
  Forall (allowed (λ _, True) (dataURLs contents)) xs →
  Forall (λ e, isPost e →
    ∃ s key csrf,
      e = Issued (Fetch (mediaRequest jobsPath "POST" csrf (Some key) (Some (formJSON s)))) ∧
      (∀ label f min max step, NumberField label f min max step ∈ MediaControls s →
         numLeb min (numberAt f s) = true ∧ numLeb (numberAt f s) max = true) ∧
      (∀ label text, PromptControl label text ∈ MediaControls s → sf_prompt s ≠ []) ∧
      sourced contents (λ slot f, Act (ImageChosen slot f) ∈ xs) s) out.
Proof.
  intros Hr Hx. set (chosen := λ slot f, Act (ImageChosen slot f) ∈ xs).
  set (Q := λ e, isPost e → ∃ s key csrf,
    e = Issued (Fetch (mediaRequest jobsPath "POST" csrf (Some key) (Some (formJSON s)))) ∧
    formValid s = true ∧ sourced contents chosen s).
  assert (Forall Q out) as HQ.
  { apply (runs_safe (mediaHandler decode cookies pp pj) (λ m, sourced contents chosen (md_form m)) Q
             (λ y, ∀ slot f, y = ImageChosen slot f → chosen slot f) (dataURLs contents) initialMedia xs w).
    - intros m y Hy Hm. apply (mediaHandler_safe _ _ _ _ _ _ _ chosen); try done; try (by intros ? []).
      + intros k slot. left. by destruct slot.
      + intros k r slot. left. by destruct slot.
      + intros slot f url s ???. by apply sourced_setSource.
      + intros key csrf -> Hg Hv _. by exists (md_form m), key, csrf.
    - intros slot. left. by destruct slot.
    - done.
    - apply Forall_forall. intros [y|i o] Hin; cbn.
      + intros slot f ->. exact Hin.
      + exact (proj1 (Forall_forall _ _) Hx _ Hin). }
  eapply Forall_impl; [exact HQ|]. intros e He Hp. destruct (He Hp) as (s & key & csrf & -> & Hv & Hs).
  exists s, key, csrf. unfold formValid in Hv. rewrite forallb_forall in Hv. split_and!; try done.
  - intros label f min max step Hin%list_elem_of_In. specialize (Hv _ Hin). cbn [controlAccepts] in Hv.
    by apply andb_true_iff in Hv as [[]%andb_true_iff _].
  - intros label text Hin%list_elem_of_In Hp'. specialize (Hv _ Hin). cbn [controlAccepts] in Hv.
    by rewrite Hp' in Hv.
Qed.

(** ** One generation at a time *)

Definition isGeneration (c : call) : bool :=
  match c with Fetch r => jeqb (http_method r) (js "POST") | _ => false end.

Section Exclusion.
Variable decodeURIComponent : jstr → option jstr.
Variable cookies : jstr.
Variable parseProvider : json → MediaProviderStatus.
Variable parseJobs : json → list MediaJob.
Local Abbreviation handler := (mediaHandler decodeURIComponent cookies parseProvider parseJobs).
Local Abbreviation aside := (neutral md_creating isGeneration).

Lemma aside_fetch path : aside (mediaFetch path).
Proof.
  split; [done|]. intros [e|r]; [done|]. cbn [mbind proc_bind]. unfold bodyJSON.
  destruct (hr_json r) as [v|]; [|done]. cbn [mbind proc_bind]. destruct (hr_ok r); [done|].
  unfold bodyError. by destruct v.
Qed.

Lemma aside_delete path : aside (mediaMutation decodeURIComponent cookies path "DELETE" None None).
Proof.
  unfold mediaMutation. destruct (readCookie _ _ _); [|done]. split; [done|]. intros [e|r]; [done|].
  cbn [mbind proc_bind]. destruct (_ =? _)%Z; [done|]. unfold bodyJSON. destruct (hr_json r) as [v|]; [|done].
  cbn [mbind proc_bind]. destruct (hr_ok r); [done|]. unfold bodyError. by destruct v.
Qed.

Lemma aside_remove id : aside (removeJob decodeURIComponent cookies id).
Proof.
  split; [done|]. apply neutral_try_catch; [|by repeat split].
  apply neutral_bind; [apply aside_delete|]. intros _. by repeat (split || intros ?).
Qed.

Lemma aside_choose slot f m : aside (chooseImage slot f m).
Proof.
  assert (∀ mount u m', md_creating (setUpload mount slot u m') = md_creating m') as Hu.
  { intros mount u m'. unfold setUpload. by destruct (decide _). }
  apply neutral_try_catch; [|intros e; split; [intros; apply Hu|done]]. apply neutral_bind.
  - unfold readImage. destruct (negb _); [done|]. destruct (_ <? _)%N; [done|]. split; [done|]. by intros [].
  - intros i. split; [intros; apply Hu|]. split; [intros; apply Hu|]. by split.
Qed.

(** After the answer the flag is cleared on every path: by the callbacks, or where the
    request fails. *)
Lemma create_spans key form m : md_creating m = false → spans md_creating (createJob decodeURIComponent cookies key form) m.
Proof.
  intros Hm. unfold createJob, mutation, mediaMutation. cbn [mbind proc_bind setState spans].
  destruct (readCookie _ _ _) as [csrf|]; [|done]. cbn [fetch await mbind proc_bind try_catch spans].
  split; [done|]. intros [e|r] m' Hm'; [done|]. cbn [mbind proc_bind mret proc_ret].
  assert (∀ job m1, md_creating m1 = true →
    spans md_creating (try_catch
      ((match job with
        | None | Some JNull => throw (mkError (js "Cannot read properties of undefined"))
        | Some job =>
            setState (setSelectedID (asString (get "id" job)));;
            setState (setMediaNotice
              (js "Generation started. You can leave this page while Ion keeps the job running."));;
            relistJobs
        end);; setState (setCreating false false))
      (λ e, setState (setMediaNotice (error_message e));; setState (setCreating false true))) m1) as Hjob.
  { intros [v|] m1 Hm1; [|done]. destruct v; done. }
  destruct (hr_status r =? 204)%Z; [done|]. unfold bodyJSON. destruct (hr_json r) as [v|]; [|done].
  cbn [mbind proc_bind]. destruct (hr_ok r); [by apply (Hjob (Some v))|]. unfold bodyError. by destruct v.
Qed.

Lemma handler_spans m y : aside (handler m y) ∨ (md_creating m = false ∧ spans md_creating (handler m y) m).
Proof.
  destruct y as [| | |k|f v|f v|slot f|key|id| |]; cbn [mediaHandler].
  8: { destruct (generateDisabled m) eqn:Hg; [by left|]. destruct (formValid (md_form m)); [|by left]. right.
       unfold generateDisabled in Hg. apply orb_false_iff in Hg as [Hg _]. split; [done|]. by apply create_spans. }
  all: left.
  - apply neutral_try_catch; [|done]. by apply neutral_bind; [apply aside_fetch|].
  - apply neutral_try_catch; [|done]. by apply neutral_bind; [apply aside_fetch|].
  - unfold selectionEffect. by destruct (md_selectedID m), (md_jobs m ≫= head).
  - by repeat split.
  - destruct (find _ _); [|done]. by destruct (_ <=? _)%nat.
  - by destruct (existsb _ _).
  - destruct (existsb _ _); [apply aside_choose|done].
  - by destruct (existsb _ _).
  - destruct (selected m); [by repeat split|done].
  - destruct (selected m) as [j|]; [|done]. destruct (deleteDisabled j m); [done|]. unfold pressDelete.
    destruct (bool_decide _); [apply aside_remove|by repeat split].
Qed.
End Exclusion.

(** At most one generation request is awaited at any time, and only while the generate
    button is disabled as pending. *)
Theorem one_generation_at_a_time decode cookies pp pj (xs : list (input MediaInput)) w out :
  runs (mediaHandler decode cookies pp pj) initialMedia xs w out →
  guardedWaits isGeneration (waiting w) ≤ (if md_creating (here w) then 1 else 0).
Proof. intros Hr. by eapply (runs_spanning _ md_creating), Hr; [apply handler_spans|]. Qed.

(** ** Settings *)

Definition withoutSources (s : StudioForm) : StudioForm :=
  setSource SourceSlot [] [] (setSource MaskSlot [] [] (setSource FaceSlot [] [] s)).

(** A form the server stores as it is, but for its images: texts without surrounding spaces
    and without lone surrogates, no zeros and no infinities, and no required text empty. *)
Definition plain (s : StudioForm) : Prop :=
  Forall (λ t, goText t = t) [sf_prompt s; sf_negative_prompt s; sf_model s; sf_sampler s; sf_resize_mode s] ∧
  Forall (λ t, t ≠ []) [sf_model s; sf_sampler s; sf_resize_mode s] ∧
  ∀ f, match numberAt f s with NFin m _ => m ≠ 0%Z | NInf _ => False end.

Lemma filledNumber_nonzero d v : isZero d = false → isZero (filledNumber d v) = false.
Proof. unfold filledNumber. by destruct (isZero v) eqn:Hv. Qed.

Lemma filledText_nonempty d t : js d ≠ [] → filledText d t ≠ [].
Proof. unfold filledText. destruct t; [by cbn|done]. Qed.

Lemma default_unlessZero d v : isZero v = false → default d (unlessZero v) = v.
Proof. unfold unlessZero. by intros ->. Qed.

Lemma default_unlessEmpty d t : t ≠ [] → default d (unlessEmpty t) = t.
Proof. by destruct t. Qed.

Lemma unlessEmpty_text t : default [] (unlessEmpty t) = t.
Proof. by destruct t. Qed.

Lemma settings_restored s : settingsOf (sf_kind s) (requestView (defaultRequest s)) = withoutSources (defaultRequest s).
Proof.
  unfold settingsOf, requestView, withoutSources, setSource, defaultRequest.
  cbn [mr_prompt mr_negative_prompt mr_model mr_sampler mr_width mr_height mr_steps mr_guidance mr_seed mr_image_count
       mr_strength mr_frames mr_fps mr_scale mr_resize_mode sf_kind sf_prompt sf_negative_prompt sf_model sf_sampler
       sf_width sf_height sf_steps sf_guidance sf_seed sf_image_count sf_strength sf_frames sf_fps sf_scale sf_resize_mode].
  rewrite !unlessEmpty_text, !default_unlessZero by by apply filledNumber_nonzero.
  rewrite !default_unlessEmpty by (apply filledText_nonempty; by destruct (sf_kind s)). reflexivity.
Qed.

Lemma normalized_form validImage safeName s s' :
  normalizeRequest validImage safeName s = Some s' →
  s' = defaultRequest (trimmedForm safeName s) ∧ requiredPresent (trimmedForm safeName s) = true.
Proof.
  unfold normalizeRequest. cbv zeta. destruct (_ && _ && _ && _ && _) eqn:Hb; [|done]. intros [= <-].
  rewrite !andb_true_iff in Hb. by split; [|apply Hb].
Qed.

Lemma plain_kept safeName s :
  plain s → withoutSources (defaultRequest (trimmedForm safeName s)) = withoutSources s.
Proof.
  intros (Ht & Hn & Hf). rewrite !Forall_cons in Ht. rewrite !Forall_cons in Hn.
  destruct Ht as (H1 & H2 & H3 & H4 & H5 & _), Hn as (N1 & N2 & N3 & _).
  assert (Hnum : ∀ f d, filledNumber d (received (numberAt f s)) = numberAt f s).
  { intros f d. specialize (Hf f). destruct (numberAt f s) as [m e|b]; [|done]. unfold filledNumber. cbn.
    by rewrite (proj2 (Z.eqb_neq m 0)). }
  assert (Htext : ∀ d t, t ≠ [] → filledText d t = t) by (by intros d [|? ?]).
  pose proof (Hnum Width) as W. pose proof (Hnum Height) as Hh. pose proof (Hnum Steps) as St.
  pose proof (Hnum Guidance) as Gu. pose proof (Hnum Seed) as Se. pose proof (Hnum ImageCount) as Im.
  pose proof (Hnum Strength) as Sg. pose proof (Hnum Frames) as Fr. pose proof (Hnum FPS) as Fp. pose proof (Hnum Scale) as Sc.
  cbn [numberAt] in *. unfold withoutSources, setSource, defaultRequest, trimmedForm.
  cbn [sf_kind sf_prompt sf_negative_prompt sf_model sf_sampler sf_width sf_height sf_steps sf_guidance sf_seed
       sf_image_count sf_strength sf_frames sf_fps sf_scale sf_resize_mode].
  by rewrite H1, H2, H3, H4, H5, !Htext, W, Hh, St, Gu, Se, Im, Sg, Fr, Fp, Sc by done.
Qed.

Lemma formValid_setSource slot a b s : formValid (setSource slot a b s) = formValid s.
Proof.
  unfold formValid. change (MediaControls (setSource slot a b s)) with (MediaControls s).
  induction (MediaControls s) as [|c l IH]; [done|]. cbn [forallb]. rewrite IH. by f_equal.
Qed.

(** A number in a range above zero is kept. *)
Lemma number_kept lo e v max step d :
  (0 < lo)%Z → numLeb (NFin lo e) v && numLeb v max && onStep v (NFin lo e) step = true → filledNumber d (received v) = v.
Proof.
  intros Hlo. rewrite !andb_true_iff. intros ((Hle & _) & Hstep). destruct v as [m e'|b]; [|done]. unfold filledNumber. cbn [received isZero].
  destruct (Z.eqb_spec m 0) as [->|]; [|done]. cbn in Hle. apply Z.leb_le in Hle. unfold scaleTo in Hle.
  assert (0 < 10 ^ (e - Z.min e e'))%Z by (apply Z.pow_pos_nonneg; lia). nia.
Qed.

Lemma seed_kept v :
  numLeb (num_of_Z (-1)) v && numLeb v (num_of_Z 2147483647) && onStep v (num_of_Z (-1)) (num_of_Z 1) = true →
  let v' := filledNumber (num_of_Z (-1)) (received v) in
  numLeb (num_of_Z (-1)) v' && numLeb v' (num_of_Z 2147483647) && onStep v' (num_of_Z (-1)) (num_of_Z 1) = true.
Proof.
  intros Hv. destruct v as [m e|b]; [|by rewrite andb_false_r in Hv]. unfold filledNumber. cbn [received isZero].
  by destruct (m =? 0)%Z.
Qed.

Lemma frames_kept v :
  numLeb v v && numLeb v v && onStep v v (num_of_Z 1) = true →
  let v' := filledNumber (num_of_Z 25) (received v) in numLeb v' v' && numLeb v' v' && onStep v' v' (num_of_Z 1) = true.
Proof.
  intros Hv. destruct v as [m e|b]; [|by rewrite andb_false_r in Hv]. unfold filledNumber. cbn [received isZero].
  by destruct (m =? 0)%Z.
Qed.

Lemma prompt_kept safeName s :
  requiredPresent (trimmedForm safeName s) = true →
  sf_kind s ∈ [TextToImage; TextToVideo; ImageToImage; ReplaceBackground; Inpainting] →
  negb (jeqb (goText (sf_prompt s)) []) = true.
Proof.
  unfold requiredPresent. cbn [trimmedForm sf_kind sf_prompt]. rewrite !andb_true_iff. intros (((Hp & _) & _) & _) Hk.
  rewrite bool_decide_eq_true_2 in Hp by done. done.
Qed.

(** The controls depend on the workflow and on the frames only. *)
Definition controlsOf (k : MediaKind) (frames : num) : list Control := MediaControls (setNumber Frames frames (defaultForm k)).

Lemma controlsOf_form s : MediaControls s = controlsOf (sf_kind s) (sf_frames s).
Proof. reflexivity. Qed.

Lemma range_kept lo e v max step d :
  (0 < lo)%Z → numLeb (NFin lo e) v && numLeb v max && onStep v (NFin lo e) step = true →
  numLeb (NFin lo e) (filledNumber d (received v)) && numLeb (filledNumber d (received v)) max &&
  onStep (filledNumber d (received v)) (NFin lo e) step = true.
Proof. intros Hlo Hv. by rewrite (number_kept lo e v max step d). Qed.

Lemma restored_valid safeName s :
  requiredPresent (trimmedForm safeName s) = true → formValid s = true →
  formValid (defaultRequest (trimmedForm safeName s)) = true.
Proof.
  intros Hr Hv. pose proof (prompt_kept safeName s Hr) as Hp. clear Hr.
  assert (Hm : ∀ k t, negb (jeqb (filledText (serverModel k) t) []) = true) by (intros k [|? ?]; [by destruct k|done]).
  pose proof seed_kept as Hseed. pose proof frames_kept as Hframes. cbv zeta in Hseed, Hframes.
  unfold formValid in *. rewrite controlsOf_form in *. cbn [defaultRequest trimmedForm sf_kind sf_frames].
  set (s' := defaultRequest _). destruct (sf_kind s) eqn:Hk.
  all: match goal with |- forallb _ (controlsOf ?k ?f) = true =>
         let l := eval vm_compute in (controlsOf k f) in change (controlsOf k f) with l end.
  all: match type of Hv with forallb _ (controlsOf ?k ?f) = true =>
         let l := eval vm_compute in (controlsOf k f) in change (controlsOf k f) with l in Hv end.
  all: cbn [forallb controlAccepts numberAt] in Hv |- *.
  all: repeat (apply andb_true_iff in Hv as [Hc Hv]; apply andb_true_iff; split;
         [first [reflexivity | apply Hm | apply Hp; set_solver | refine (range_kept _ _ _ _ _ _ _ Hc); lia
                | apply Hseed, Hc | apply Hframes, Hc]|clear Hc]; try reflexivity).
Qed.

(** [C22] Using the settings of a job gives back the form it was generated from, as the
    server stored it and without the images.  When the job on screen was created from a
    form [s] (the server normalised it to [s'] and shows the view of [s']), the form
    becomes [s'] without images.  That is [s] without images when [s] has no text with
    surrounding spaces or lone surrogates, no required text missing and no number that is
    zero or infinite; in general the server trims the texts and puts defaults for zeros
    and missing texts, so that a seed of 0 comes back as -1.  The browser accepts the
    restored form whenever it accepted [s], and the notice asks for the images again
    exactly when the job had a source image. *)
Theorem settings_round_trip validImage safeName decode cookies pp pj (m : Media) (j : MediaJob) (s s' : StudioForm) :
  selected m = Some j → normalizeRequest validImage safeName s = Some s' →
  mj_kind j = sf_kind s → mj_request j = requestView s' →
  ∃ m', run (mediaHandler decode cookies pp pj m SettingsPressed) m = (m', [], None) ∧
        md_form m' = withoutSources s' ∧ (plain s → md_form m' = withoutSources s) ∧
        (formValid s = true → formValid (md_form m') = true) ∧
        (sf_image_base64 s' ≠ [] ↔
         md_notice m' = js "Settings restored. Re-add source images before generating.").
Proof.
  intros Hj Hn Hk Hr. destruct (normalized_form _ _ _ _ Hn) as [-> Hreq]. cbn [mediaHandler]. rewrite Hj. unfold useSettings.
  rewrite Hk, Hr. change (sf_kind s) with (sf_kind (trimmedForm safeName s)). rewrite settings_restored.
  eexists. split; [reflexivity|]. cbn [md_form setMediaNotice setForm]. split; [done|]. split; [by apply plain_kept|]. split.
  { intros Hv. unfold withoutSources. rewrite !formValid_setSource. by apply restored_valid. }
  cbn [md_notice setMediaNotice requestView mr_has_image].
  destruct (sf_image_base64 (defaultRequest (trimmedForm safeName s))); cbn [jeqb negb].
  - split; [intros Hne; by destruct Hne|]. intros He. vm_compute in He. discriminate He.
  - split; [reflexivity|]. intros _ Hne. discriminate Hne.
Qed.

(** A seed of 0 is accepted by the form and by the server, which takes it for a missing one:
    the job gets a random seed, and its settings give -1. *)
Theorem seed_zero_is_not_kept validImage safeName (s s' : StudioForm) (e : Z) :
  sf_seed s = NFin 0 e → normalizeRequest validImage safeName s = Some s' → mr_seed (requestView s') = num_of_Z (-1).
Proof. intros Hs Hn. destruct (normalized_form _ _ _ _ Hn) as [-> _]. cbn. by rewrite Hs. Qed.

(** Every workflow starts with settings its own controls accept: only the prompt, where it
    has one, is left to fill in. *)
Theorem defaults_need_only_a_prompt (k : MediaKind) (p : jstr) :
  p ≠ [] → formValid (setFormText Prompt p (defaultForm k)) = true.
Proof. intros Hp. destruct p as [|c p]; [done|]. by destruct k; vm_compute. Qed.

(** ** Faults of the form *)

Lemma animation_controls s :
  sf_kind s = ImageToVideo →
  MediaControls s =
    [UploadControl SourceSlot "Source image"; ModelSelect; whole "Width" Width 128 2048; whole "Height" Height 128 2048;
     whole "Steps" Steps 1 100; NumberField "Guidance" Guidance (num_of_Z 1) (num_of_Z 30) (NFin 5 (-1));
     whole "Seed" Seed (-1) 2147483647; NumberField "Frames" Frames (sf_frames s) (sf_frames s) (num_of_Z 1);
     whole "FPS" FPS 6 6; ImageFitSelect].
Proof. unfold MediaControls. by intros ->. Qed.

Lemma pinned_accepts v : v ≠ NInf true → v ≠ NInf false → numLeb v v && numLeb v v && onStep v v (num_of_Z 1) = true.
Proof.
  destruct v as [m e|[]]; try done. intros _ _. unfold numLeb, onStep, num_of_Z. rewrite Z.leb_refl, Z.sub_diag. cbn [andb].
  apply Z.eqb_eq, Zmod_0_l.
Qed.

(** The frames of an animation are meant to follow its model: the control takes the
    current value as both its bounds.  That value is the one being edited, so the bounds
    move with it, and a form with any finite number of frames is accepted and sent. *)
Theorem frames_are_not_pinned decode cookies pp pj (m : Media) (v : num) :
  sf_kind (md_form m) = ImageToVideo → formValid (md_form m) = true → v ≠ NInf true → v ≠ NInf false →
  ∃ m', run (mediaHandler decode cookies pp pj m (NumberTyped Frames v)) m = (m', [], None) ∧
        sf_frames (md_form m') = v ∧ sf_model (md_form m') = sf_model (md_form m) ∧ formValid (md_form m') = true.
Proof.
  intros Hk Hv H1 H2. cbn [mediaHandler]. rewrite (animation_controls _ Hk). eexists. split; [reflexivity|].
  split; [done|]. split; [done|]. cbn [md_form setForm]. unfold formValid in *.
  rewrite (animation_controls (setNumber Frames v (md_form m))) by exact Hk. rewrite (animation_controls _ Hk) in Hv.
  cbn [forallb controlAccepts whole] in Hv |- *. unfold whole in *. cbn [controlAccepts] in Hv |- *.
  change (sf_frames (setNumber Frames v (md_form m))) with v.
  change (numberAt Frames (setNumber Frames v (md_form m))) with v. rewrite (pinned_accepts v) by done.
  rewrite !andb_true_iff in Hv. rewrite !andb_true_iff. tauto.
Qed.

(** Pressing the current workflow again empties the form but not the control: the image
    is gone from the form while its preview stays on screen. *)
Theorem preview_outlives_the_source decode cookies pp pj (m : Media) (slot : Slot) :
  ∃ m', run (mediaHandler decode cookies pp pj m (WorkflowPressed (sf_kind (md_form m)))) m = (m', [], None) ∧
        sourceAt slot (md_form m') = ([], []) ∧ ul_preview (md_uploads m' slot) = ul_preview (md_uploads m slot).
Proof.
  eexists. split; [reflexivity|]. split; [by destruct slot|].
  cbn [md_uploads setMediaNotice setForm sf_kind defaultForm]. by rewrite decide_True.
Qed.

Lemma readImage_accepts f :
  fl_type f ∈ (js <$> imageTypes) → (fl_size f ≤ imageLimit)%N →
  readImage f = Await (ReadDataURL f) (λ o,
    match o with
    | inl _ => throw (mkError (js "The image could not be read."))
    | inr url => mret (afterComma url, url)
    end).
Proof.
  intros Ht Hs. unfold readImage. rewrite (proj2 (existsb_exists _ _)); cbn [negb].
  - by rewrite (proj2 (N.ltb_ge _ _)).
  - apply list_elem_of_fmap in Ht as (t & -> & Ht). exists t. split; [by apply list_elem_of_In|].
    unfold jeqb. by apply bool_decide_eq_true.
Qed.

(** An image that is still being read when the workflow changes joins the next form: the
    text-to-image form has no image control, yet holds and sends the file. *)
Theorem late_image_joins_the_next_workflow decode cookies pp pj contents (m : Media) (f : File) (o : oracle) :
  sf_kind (md_form m) = ImageToImage → fl_type f ∈ (js <$> imageTypes) → (fl_size f ≤ imageLimit)%N →
  o (ReadDataURL f) = inr (dataURL contents f) →
  ∃ w, play (mediaHandler decode cookies pp pj)
         [Act (ImageChosen SourceSlot f); Act (WorkflowPressed TextToImage); Settled 0 o] (at_start m) [] =
       Some (w, [Issued (ReadDataURL f)]) ∧
       sf_kind (md_form (here w)) = TextToImage ∧
       sourceAt SourceSlot (md_form (here w)) = (contents f, fl_name f) ∧
       existsb (editsSlot SourceSlot) (MediaControls (md_form (here w))) = false.
Proof.
  intros Hk Ht Hs Ho. cbn [play perform at_start here waiting mediaHandler].
  replace (existsb (editsSlot SourceSlot) (MediaControls (md_form m))) with true
    by (unfold MediaControls; rewrite Hk; reflexivity).
  unfold chooseImage. rewrite readImage_accepts by done.
  cbn -[js setUpload setForm setSource setMediaNotice defaultForm dataURL afterComma answer MediaControls].
  rewrite Ho. cbn -[js setUpload setForm setSource setMediaNotice defaultForm dataURL afterComma MediaControls].
  eexists. split; [reflexivity|]. cbn [here]. rewrite afterComma_contents by done.
  cbn [md_form setForm]. rewrite !setUpload_form. split_and!; reflexivity.
Qed.

(** ** Examples *)

Definition request0 : MediaRequest := {|
  mr_kind := Upscale; mr_prompt := None; mr_negative_prompt := None; mr_model := None; mr_sampler := None;
  mr_width := None; mr_height := None; mr_steps := None; mr_guidance := None; mr_seed := num_of_Z (-1);
  mr_image_count := None; mr_strength := None; mr_frames := None; mr_fps := None; mr_scale := Some (num_of_Z 4);
  mr_resize_mode := None; mr_has_image := true; mr_has_mask := false; mr_has_face := false |}.
Definition job0 : MediaJob := {|
  mj_id := js "j1"; mj_kind := Upscale; mj_status := MediaSucceeded; mj_provider := js "Novita"; mj_progress := 100;
  mj_error := None; mj_request := request0; mj_assets := []; mj_created_at := []; mj_updated_at := [] |}.
Definition form0 : StudioForm := setSource SourceSlot (js "AAAA") (js "cat.png") (setNumber Scale (num_of_Z 4) (defaultForm Upscale)).
Definition photo : File := {| fl_name := js "cat.png"; fl_type := js "image/png"; fl_size := 3 |}.
Definition bytes0 : File → jstr := λ _, js "AAAA".

(** A server with one finished job and a configured provider. *)
Definition mediaServer : oracle := λ c,
  match c with
  | Fetch r => inr {| hr_status := 200; hr_json := Some (JObj [(js "id", JStr (js "j2"))]) |}
  | ReadDataURL f => inr (dataURL bytes0 f)
  | Refetch _ => inr ()
  | _ => inl (mkError (js "not answered"))
  end.
#[local] Abbreviation media_handler :=
  (mediaHandler Some [] (λ _, {| mp_configured := true; mp_provider := js "Novita"; mp_message := [] |}) (λ _, [job0])).

(** The job list is loaded and the job's deletion armed. *)
Definition armed : list (input MediaInput) := [Act JobsFetched; Settled 0 mediaServer; Act MediaDeletePressed].

Lemma media_deletion_is_armed_witness :
  ∃ w out w' out' e, runs media_handler initialMedia armed w out ∧
    perform media_handler (Act MediaDeletePressed) w = Some (w', out') ∧ e ∈ out' ∧
    originates media_handler deletePressed initialMedia armed (js "j1").
Proof.
  assert (option_map (λ r, selected (here r.1)) (play media_handler armed (at_start initialMedia) []) = Some (Some job0))
    as Hj by (vm_compute; reflexivity).
  destruct (play media_handler armed (at_start initialMedia) []) as [[w out]|] eqn:Hp; [|discriminate Hj].
  apply (inj Some) in Hj. cbn [fst] in Hj.
  assert (option_map (λ r, snd <$> perform media_handler (Act MediaDeletePressed) r.1)
            (play media_handler armed (at_start initialMedia) []) =
          Some (Some [Issued (Fetch (mediaRequest (js "/v1/media/jobs/j1") "DELETE" [] None None))]))
    as Hx by (vm_compute; reflexivity). rewrite Hp in Hx. apply (inj Some) in Hx. cbn [fst] in Hx.
  destruct (perform media_handler (Act MediaDeletePressed) w) as [[w' out']|] eqn:Hpx; [|done].
  apply (inj Some) in Hx. cbn [snd] in Hx. apply play_reaches in Hp.
  exists w, out, w', out', (Issued (Fetch (mediaRequest (js "/v1/media/jobs/j1") "DELETE" [] None None))).
  assert (Issued (Fetch (mediaRequest (js "/v1/media/jobs/j1") "DELETE" [] None None)) ∈ out') as He
    by (rewrite Hx; apply list_elem_of_here).
  split; [exact Hp|]. split; [exact Hpx|]. split; [exact He|].
  destruct (media_deletion_is_armed _ _ _ _ _ _ _ _ _ _ _ Hp Hpx He eq_refl) as (_ & j & csrf & Hs & _ & _ & _ & Ho).
  rewrite Hj in Hs. apply (inj Some) in Hs. subst j. exact Ho.
Defined.

(** A source image is chosen, a prompt written and the form submitted. *)
Definition generating : list (input MediaInput) :=
  [Act StatusFetched; Settled 0 mediaServer; Act (WorkflowPressed ImageToImage); Act (ImageChosen SourceSlot photo);
   Settled 0 mediaServer; Act (TextTyped Prompt (js "sunset")); Act (MediaSubmitted (js "k1"))].

Lemma generations_are_valid_witness :
  ∃ w out, runs media_handler initialMedia generating w out ∧ existsb (λ e, match e with Issued c => isGeneration c | _ => false end) out = true ∧
           Forall (λ e, isPost e → ∃ s key csrf,
             e = Issued (Fetch (mediaRequest jobsPath "POST" csrf (Some key) (Some (formJSON s))))) out.
Proof.
  assert (option_map (λ r, existsb (λ e, match e with Issued c => isGeneration c | _ => false end) r.2)
            (play media_handler generating (at_start initialMedia) []) = Some true) as Hl by (vm_compute; reflexivity).
  destruct (play media_handler generating (at_start initialMedia) []) as [[w out]|] eqn:Hp; [|discriminate Hl].
  apply (inj Some) in Hl. apply play_reaches in Hp.
  exists w, out. split; [exact Hp|]. split; [exact Hl|].
  eapply Forall_impl; [apply (generations_are_valid _ _ _ _ bytes0 _ _ _ Hp)|].
  - unfold generating. repeat (apply Forall_cons_2 || apply Forall_nil_2); cbn [allowed]; try exact Logic.I;
      intros []; cbn [dataURLs mediaServer]; done.
  - intros e He Hpost. destruct (He Hpost) as (s & key & csrf & Hs & _). by exists s, key, csrf.
Defined.

Lemma one_generation_at_a_time_witness :
  ∃ w out, runs media_handler initialMedia generating w out ∧ guardedWaits isGeneration (waiting w) = 1 ∧
           guardedWaits isGeneration (waiting w) ≤ (if md_creating (here w) then 1 else 0).
Proof.
  assert (option_map (λ r, guardedWaits isGeneration (waiting r.1))
            (play media_handler generating (at_start initialMedia) []) = Some 1) as Hl by (vm_compute; reflexivity).
  destruct (play media_handler generating (at_start initialMedia) []) as [[w out]|] eqn:Hp; [|discriminate Hl].
  apply (inj Some) in Hl. apply play_reaches in Hp.
  exists w, out. split; [exact Hp|]. split; [exact Hl|]. exact (one_generation_at_a_time _ _ _ _ _ _ _ Hp).
Defined.

(** The server's answer to a form of an enlarged picture, with spaces around its prompt. *)
Definition sent0 : StudioForm := setFormText Prompt (js " cat ") form0.
Definition stored0 : StudioForm := setFormText Prompt (js "cat") form0.
Definition stored_job : MediaJob := {|
  mj_id := uuid "2"; mj_kind := Upscale; mj_status := MediaSucceeded; mj_provider := js "Novita"; mj_progress := 100;
  mj_error := None; mj_request := requestView stored0; mj_assets := []; mj_created_at := []; mj_updated_at := [] |}.

Lemma settings_round_trip_witness :
  ∃ m', run (media_handler (setJobs (Some [stored_job]) initialMedia) SettingsPressed) (setJobs (Some [stored_job]) initialMedia) =
          (m', [], None) ∧
        md_form m' = setFormText Prompt (js "cat") (setNumber Scale (num_of_Z 4) (defaultForm Upscale)).
Proof.
  destruct (settings_round_trip (λ _, true) (λ n, n) Some []
              (λ _, {| mp_configured := true; mp_provider := js "Novita"; mp_message := [] |})
              (λ _, [job0]) (setJobs (Some [stored_job]) initialMedia) stored_job sent0 stored0) as (m' & Hr & Hf & _).
  - reflexivity.
  - vm_compute. reflexivity.
  - reflexivity.
  - reflexivity.
  - exists m'. split; [exact Hr|]. rewrite Hf. vm_compute. reflexivity.
Defined.

Lemma seed_zero_is_not_kept_witness :
  ∃ s', mr_seed (requestView s') = num_of_Z (-1).
Proof.
  destruct (normalizeRequest (λ _, true) (λ n, n) (setNumber Seed (num_of_Z 0) form0)) as [s'|] eqn:Hn.
  - exists s'. apply (seed_zero_is_not_kept (λ _, true) (λ n, n) (setNumber Seed (num_of_Z 0) form0) s' 0); [reflexivity|exact Hn].
  - vm_compute in Hn. discriminate.
Defined.

Lemma frames_are_not_pinned_witness :
  ∃ m', sf_frames (md_form m') = num_of_Z 999 ∧ formValid (md_form m') = true.
Proof.
  destruct (frames_are_not_pinned Some [] (λ _, {| mp_configured := true; mp_provider := []; mp_message := [] |})
              (λ _, []) (setForm (λ _, defaultForm ImageToVideo) initialMedia) (num_of_Z 999)) as (m' & _ & Hf & _ & Hv).
  - reflexivity.
  - vm_compute. reflexivity.
  - discriminate.
  - discriminate.
  - by exists m'.
Defined.
