(* ===== verification/Office.v ===== *)
(** * The office studio

    [ui/web/src/routes/OfficeStudio.tsx]: the library of documents with its operations,
    and the life of the embedded editor.

    The bodies of answers are cast to their declared types, which the [parse] parameters
    do here ([None] is an answer without a body); members that no code reads are left out;
    [multipart] is the body the browser
    builds for a form with a file and a title.  The answers of [window.prompt] and
    [window.confirm] come with the press that asks them. *)
From stdpp Require Import base list strings.
From Stdlib Require Import ZArith NArith.
From S2P Require Import Prelude JsString JsValue JsArray Regex Catalog Protocol Display Envelope.
From S2P Require Import Events LocalClient Client Operator TuiFormat TuiApp Async Computer Sessions Media.

(** ** Data *)

Inductive OfficeKind : Type := Document | Spreadsheet | Presentation | PDF.
#[export] Instance OfficeKind_eq_dec : EqDecision OfficeKind.
Proof. solve_decision. Defined.

Definition officeKindName (k : OfficeKind) : string :=
  match k with
  | Document => "document" | Spreadsheet => "spreadsheet" | Presentation => "presentation" | PDF => "pdf"
  end.

Record OfficeDocument : Type := {
  od_id : jstr;
  od_title : jstr;
  od_kind : OfficeKind;
  od_extension : jstr;
  od_current_version_id : jstr;
  od_starred : bool;
  od_updated_at : jstr;
}.
#[export] Instance OfficeDocument_eq_dec : EqDecision OfficeDocument.
Proof. solve_decision. Defined.

Record OfficeVersion : Type := {
  ov_id : jstr;
  ov_sequence : Z;
  ov_size_bytes : N;
  ov_origin : jstr;
  ov_created_at : jstr;
}.
#[export] Instance OfficeVersion_eq_dec : EqDecision OfficeVersion.
Proof. solve_decision. Defined.

Record OfficeStatus : Type := {
  oa_configured : bool;
  oa_available : bool;
  oa_engine : jstr;
  oa_message : jstr;
  oa_public_path : jstr;
}.

Record OfficeSession : Type := { os_id : jstr; os_document_id : jstr; os_editor_config : json }.

(** The [Promise.all] of the first load: how many of its two requests are still awaited,
    until it settles. *)
Inductive Mounting : Type := AwaitingAll (left : nat) | AllSettled.

Record Office : Type := {
  of_status : option OfficeStatus;
  of_documents : list OfficeDocument;
  of_active : option OfficeDocument;
  of_session : option OfficeSession;
  of_versions : list OfficeVersion;
  of_archived : bool;
  of_search : jstr;
  of_busy : bool;
  of_notice : jstr;
  of_mounting : Mounting;
}.

Definition initialOffice : Office := {|
  of_status := None; of_documents := []; of_active := None; of_session := None; of_versions := [];
  of_archived := false; of_search := []; of_busy := true; of_notice := []; of_mounting := AwaitingAll 2 |}.

Definition setOfficeStatus v o : Office :=
  {| of_status := v; of_documents := of_documents o; of_active := of_active o; of_session := of_session o;
     of_versions := of_versions o; of_archived := of_archived o; of_search := of_search o;
     of_busy := of_busy o; of_notice := of_notice o; of_mounting := of_mounting o |}.
Definition setDocuments v o : Office :=
  {| of_status := of_status o; of_documents := v; of_active := of_active o; of_session := of_session o;
     of_versions := of_versions o; of_archived := of_archived o; of_search := of_search o;
     of_busy := of_busy o; of_notice := of_notice o; of_mounting := of_mounting o |}.
Definition setActiveDocument v o : Office :=
  {| of_status := of_status o; of_documents := of_documents o; of_active := v; of_session := of_session o;
     of_versions := of_versions o; of_archived := of_archived o; of_search := of_search o;
     of_busy := of_busy o; of_notice := of_notice o; of_mounting := of_mounting o |}.
Definition setOfficeSession v o : Office :=
  {| of_status := of_status o; of_documents := of_documents o; of_active := of_active o; of_session := v;
     of_versions := of_versions o; of_archived := of_archived o; of_search := of_search o;
     of_busy := of_busy o; of_notice := of_notice o; of_mounting := of_mounting o |}.
Definition setVersions v o : Office :=
  {| of_status := of_status o; of_documents := of_documents o; of_active := of_active o;
     of_session := of_session o; of_versions := v; of_archived := of_archived o; of_search := of_search o;
     of_busy := of_busy o; of_notice := of_notice o; of_mounting := of_mounting o |}.
Definition setArchived v o : Office :=
  {| of_status := of_status o; of_documents := of_documents o; of_active := of_active o;
     of_session := of_session o; of_versions := of_versions o; of_archived := v; of_search := of_search o;
     of_busy := of_busy o; of_notice := of_notice o; of_mounting := of_mounting o |}.
Definition setOfficeSearch v o : Office :=
  {| of_status := of_status o; of_documents := of_documents o; of_active := of_active o;
     of_session := of_session o; of_versions := of_versions o; of_archived := of_archived o; of_search := v;
     of_busy := of_busy o; of_notice := of_notice o; of_mounting := of_mounting o |}.
Definition setOfficeBusy v o : Office :=
  {| of_status := of_status o; of_documents := of_documents o; of_active := of_active o;
     of_session := of_session o; of_versions := of_versions o; of_archived := of_archived o;
     of_search := of_search o; of_busy := v; of_notice := of_notice o; of_mounting := of_mounting o |}.
Definition setOfficeNotice v o : Office :=
  {| of_status := of_status o; of_documents := of_documents o; of_active := of_active o;
     of_session := of_session o; of_versions := of_versions o; of_archived := of_archived o;
     of_search := of_search o; of_busy := of_busy o; of_notice := v; of_mounting := of_mounting o |}.
Definition setMounting v o : Office :=
  {| of_status := of_status o; of_documents := of_documents o; of_active := of_active o;
     of_session := of_session o; of_versions := of_versions o; of_archived := of_archived o;
     of_search := of_search o; of_busy := of_busy o; of_notice := of_notice o; of_mounting := v |}.

(** ** What is on screen *)

Definition engineReady (o : Office) : bool :=
  match of_status o with Some s => oa_configured s && oa_available s | None => false end.

Definition engineLine (o : Office) : jstr * jstr :=
  (from_option oa_engine (js "ONLYOFFICE") (of_status o),
   from_option oa_message (js "Checking engine connection") (of_status o)).

Definition setupText (o : Office) : string * string :=
  if from_option oa_configured false (of_status o)
  then ("ONLYOFFICE is unavailable",
        "Ion cannot reach the configured editor engine. Existing encrypted versions remain safe; restore the engine connection to edit them.")%string
  else ("Connect a private ONLYOFFICE service",
        "Add the Office deployment variables and shared JWT secret, then restart Ion. Documents remain unavailable until the engine passes its health check.")%string.

(** [origin.replaceAll('_', ' ')]. *)
Definition humanOrigin (origin : jstr) : jstr := replaceUnit 95 [32%N] origin.

(** The entry of a version: its title, its origin and size, and whether it can be restored. *)
Definition versionEntry (d : OfficeDocument) (v : OfficeVersion) : jstr * jstr * bool :=
  (js "Version " ++ string_of_Z (ov_sequence v),
   humanOrigin (ov_origin v) ++ js " · " ++ formatBytes (ov_size_bytes v),
   negb (jeqb (ov_id v) (od_current_version_id d))).

(** What the editor pane shows without a session. *)
Definition editorMissing (o : Office) : jstr :=
  if jeqb (of_notice o) [] then js "The editor session is not connected." else of_notice o.

Definition emptyLibrary (o : Office) : string :=
  if jeqb (of_search o) [] then "No files here yet." else "No files match this search.".

(** [file.name.replace(/\.[^.]+$/, '')]: without the last dot and what follows it, when
    something does. *)
Fixpoint finalDot (s : jstr) : option nat :=
  match s with
  | [] => None
  | c :: s' => match finalDot s' with
               | Some i => Some (S i)
               | None => if (c =? 46)%N then Some 0 else None
               end
  end.
Definition withoutExtension (name : jstr) : jstr :=
  match finalDot name with
  | Some i => if (S i =? length name)%nat then name else take i name
  | None => name
  end.

(** [permissions.add('unload')] on a set that keeps the order of insertion. *)
Fixpoint distinct (l : list jstr) (seen : list jstr) : list jstr :=
  match l with
  | [] => seen
  | x :: l => distinct l (if bool_decide (x ∈ seen) then seen else seen ++ [x])
  end.

Definition permissionsWithUnload (value : jstr) : jstr :=
  let given := List.filter (λ p, negb (jeqb p [])) (map trim (splitOn 59 value)) in
  join (js "; ") (distinct (given ++ [js "unload"]) []).

(** ** Requests *)

Definition API_BASE : string := "/v1/office".

Definition officeGet (path : jstr) : HttpRequest := {|
  http_url := js API_BASE ++ path; http_method := js "GET";
  http_headers := [(js "Accept", js "application/json")]; http_body := None |}.

(** What a mutation sends: nothing, a JSON value, or a form with a file. *)
Inductive OfficeBody : Type := NoBody | JSONBody (v : json) | FormBody (text : jstr).

Definition officeChange (path : jstr) (method : string) (csrf : jstr) (b : OfficeBody) : HttpRequest := {|
  http_url := js API_BASE ++ path; http_method := js method;
  http_headers := [(js "Accept", js "application/json"); (js "X-Ion-CSRF", csrf)] ++
    match b with JSONBody _ => [(js "Content-Type", js "application/json")] | _ => [] end;
  http_body := match b with NoBody => None | JSONBody v => Some (stringify v) | FormBody t => Some t end |}.

(** The value of an answer, [None] without a body; a refusal is an exception. *)
Definition decodeOfficeResponse {S} (r : HttpResponse) : proc S (option json) :=
  if hr_ok r then if (hr_status r =? 204)%Z then mret None else v ← bodyJSON r; mret (Some v)
  else match hr_json r with
       | Some JNull => throw (mkError (js "Cannot read properties of null"))
       | Some v => throw (mkError (textOr "The Office request failed." (get "error" v)))
       | None => throw (mkError (js "The Office request failed."))
       end.

Section Studio.
Context `{Platform}.
Variable decodeURIComponent : jstr → option jstr.
Variable cookies : jstr.
Variable multipart : File → jstr → jstr.
Variable parseStatus : option json → OfficeStatus.
Variable parseDocument : option json → OfficeDocument.
Variable parseDocuments : json → list OfficeDocument.
Variable parseSession : option json → OfficeSession.
Variable parseVersions : json → list OfficeVersion.

Definition officeCookie : option jstr := readCookie decodeURIComponent (Some cookies) csrf_cookie.

Definition visibleDocuments (o : Office) : list OfficeDocument :=
  let query := toLowerCase (trim (of_search o)) in
  if jeqb query [] then of_documents o
  else List.filter (λ d, includes query (toLowerCase (od_title d))) (of_documents o).

Definition officeRequest (path : jstr) : proc Office (option json) :=
  r ← fetch (officeGet path); decodeOfficeResponse r.

Definition officeMutation (path : jstr) (method : string) (b : OfficeBody) : proc Office (option json) :=
  match officeCookie with
  | None => throw uriError
  | Some csrf => r ← fetch (officeChange path method csrf b); decodeOfficeResponse r
  end.

(** [found ?? []]. *)
Definition orNone {A} (parse : json → list A) (v : option json) : list A :=
  match present v with Some v => parse v | None => [] end.

Definition note (text : jstr) : proc Office unit := setState (setOfficeNotice text).
Definition sayError (e : Error) : proc Office unit := note (error_message e).

(** ** Operations *)

Definition loadDocuments (showArchived : bool) : proc Office unit :=
  found ← officeRequest (js "/documents?archived=" ++ js (if showArchived then "true" else "false"));
  setState (setDocuments (orNone parseDocuments found)).

(** A request of the first load ends: all are done, or one failed first. *)
Definition legDone (o : Office) : Office :=
  match of_mounting o with
  | AwaitingAll (S (S n)) => setMounting (AwaitingAll (S n)) o
  | AwaitingAll _ => setOfficeBusy false (setMounting AllSettled o)
  | AllSettled => o
  end.
Definition legFailed (e : Error) (o : Office) : Office :=
  match of_mounting o with
  | AwaitingAll _ => setOfficeBusy false (setMounting AllSettled (setOfficeNotice (error_message e) o))
  | AllSettled => o
  end.

Definition mountLeg (p : proc Office unit) : proc Office unit :=
  try_catch (p;; setState legDone) (λ e, setState (legFailed e)).

Definition mountStatus : proc Office unit :=
  mountLeg (v ← officeRequest (js "/status"); setState (setOfficeStatus (Some (parseStatus v)))).
Definition mountDocuments : proc Office unit := mountLeg (loadDocuments false).

Definition documentPath (id : jstr) : jstr := js "/documents/" ++ id.
Definition versionsPath (id : jstr) : jstr := documentPath id ++ js "/versions".

(** [Promise.all] of two requests, with the values of both answers. *)
Definition bothOf (a b : HttpRequest) : proc Office (option json * option json) :=
  await (Both (Fetch a) (Fetch b)) (λ r,
    x ← decodeOfficeResponse r.1; y ← decodeOfficeResponse r.2; mret (x, y)).

Definition openDocument (d : OfficeDocument) : proc Office unit :=
  setState (setActiveDocument (Some d));;
  setState (setOfficeSession None);;
  setState (setVersions []);;
  note (js "Opening editor…");;
  try_catch
    (match officeCookie with
     | None => emit (Issued (Fetch (officeGet (versionsPath (od_id d)))));; throw uriError
     | Some csrf =>
         r ← bothOf (officeChange (documentPath (od_id d) ++ js "/session") "POST" csrf NoBody)
                    (officeGet (versionsPath (od_id d)));
         setState (setOfficeSession (Some (parseSession r.1)));;
         setState (setVersions (orNone parseVersions r.2));;
         note []
     end) sayError.

Definition createDocument (k : OfficeKind) (title : string) : proc Office unit :=
  note [];;
  try_catch
    (v ← officeMutation (js "/documents") "POST"
           (JSONBody (JObj [(js "kind", JStr (js (officeKindName k))); (js "title", JStr (js title))]));
     let d := parseDocument v in
     setState (λ o, setDocuments (d :: of_documents o) o);;
     openDocument d) sayError.

Definition uploadDocument (file : option File) : proc Office unit :=
  match file with
  | None => skip
  | Some f =>
      note (js "Importing document…");;
      try_catch
        (v ← officeMutation (js "/documents/upload") "POST" (FormBody (multipart f (withoutExtension (fl_name f))));
         setState (λ o, setDocuments (parseDocument v :: of_documents o) o);;
         note (js "The imported file is stored as an encrypted immutable version.")) sayError
  end.

Definition updateDocument (d : OfficeDocument) (update : json) (o : Office) : proc Office unit :=
  officeMutation (documentPath (od_id d)) "PATCH" (JSONBody update);; loadDocuments (of_archived o).

Definition renameDocument (d : OfficeDocument) (typed : option jstr) (o : Office) : proc Office unit :=
  match trim <$> typed with
  | None => skip
  | Some title =>
      if jeqb title [] || jeqb title (od_title d) then skip
      else try_catch (updateDocument d (JObj [(js "title", JStr title)]) o) sayError
  end.

Definition archiveDocument (d : OfficeDocument) (o : Office) : proc Office unit :=
  try_catch (updateDocument d (JObj [(js "archive", JBool (negb (of_archived o)))]) o) sayError.

(** Starring does not catch a refusal. *)
Definition starDocument (d : OfficeDocument) (o : Office) : proc Office unit :=
  updateDocument d (JObj [(js "star", JBool (negb (od_starred d)))]) o.

Definition deleteDocument (d : OfficeDocument) (confirmed : bool) (o : Office) : proc Office unit :=
  if confirmed then
    try_catch (officeMutation (documentPath (od_id d)) "DELETE" NoBody;; loadDocuments (of_archived o)) sayError
  else skip.

Definition restorePath (id version : jstr) : jstr := versionsPath id ++ js "/" ++ version ++ js "/restore".

Definition restoreVersion (v : OfficeVersion) (o : Office) : proc Office unit :=
  match of_active o with
  | None => skip
  | Some d =>
      note (js "Restoring version " ++ string_of_Z (ov_sequence v) ++ js "…");;
      try_catch
        (officeMutation (restorePath (od_id d) (ov_id v)) "POST" NoBody;;
         r ← bothOf (officeGet (documentPath (od_id d))) (officeGet (versionsPath (od_id d)));
         setState (setActiveDocument (Some (parseDocument r.1)));;
         setState (setVersions (orNone parseVersions r.2));;
         setState (setOfficeSession None);;
         note (js "The historical content was restored as a new immutable version. Reopen the editor to continue."))
        sayError
  end.

Definition showArchived (o : Office) : proc Office unit :=
  let next := negb (of_archived o) in
  setState (setArchived next);;
  setState (setOfficeBusy true);;
  try_finally (try_catch (loadDocuments next) sayError) (setOfficeBusy false).

(** Back to the library; a failed load is not caught. *)
Definition backToLibrary (o : Office) : proc Office unit :=
  setState (setActiveDocument None);; setState (setOfficeSession None);; loadDocuments (of_archived o).

(** ** The component *)

Inductive OfficeInput : Type :=
  | OfficeMountedStatus | OfficeMountedDocuments
  | CreatePressed (k : OfficeKind)
  | FilePicked (file : option File)
  | OfficeSearchTyped (v : jstr)
  | ArchivedPressed
  | DocumentPressed (d : OfficeDocument)
  | StarPressed (d : OfficeDocument)
  | RenameAnswered (d : OfficeDocument) (typed : option jstr)
  | DocumentArchivePressed (d : OfficeDocument)
  | DeleteAnswered (d : OfficeDocument) (confirmed : bool)
  | BackPressed | RetryPressed
  | RestorePressed (v : OfficeVersion)
  | EditorSaid (message : jstr).

Definition newTitle (k : OfficeKind) : option string :=
  match k with
  | Document => Some "Untitled document"%string
  | Spreadsheet => Some "Untitled spreadsheet"%string
  | Presentation => Some "Untitled presentation"%string
  | PDF => None
  end.

(** The library, with its controls, is on screen. *)
Definition libraryShown (o : Office) : bool := bool_decide (of_active o = None) && engineReady o.
Definition rowShown (d : OfficeDocument) (o : Office) : bool :=
  libraryShown o && bool_decide (d ∈ visibleDocuments o).

Definition onlyIf (b : bool) (p : proc Office unit) : proc Office unit := if b then p else skip.

Definition officeHandler (o : Office) (y : OfficeInput) : proc Office unit :=
  match y with
  | OfficeMountedStatus => mountStatus
  | OfficeMountedDocuments => mountDocuments
  | CreatePressed k =>
      match newTitle k with Some title => onlyIf (libraryShown o) (createDocument k title) | None => skip end
  | FilePicked file => onlyIf (libraryShown o) (uploadDocument file)
  | OfficeSearchTyped v => onlyIf (libraryShown o) (setState (setOfficeSearch v))
  | ArchivedPressed => onlyIf (libraryShown o) (showArchived o)
  | DocumentPressed d => onlyIf (rowShown d o) (openDocument d)
  | StarPressed d => onlyIf (rowShown d o && negb (of_archived o)) (starDocument d o)
  | RenameAnswered d typed => onlyIf (rowShown d o) (renameDocument d typed o)
  | DocumentArchivePressed d => onlyIf (rowShown d o) (archiveDocument d o)
  | DeleteAnswered d confirmed => onlyIf (rowShown d o) (deleteDocument d confirmed o)
  | BackPressed => onlyIf (bool_decide (is_Some (of_active o))) (backToLibrary o)
  | RetryPressed =>
      match of_active o, of_session o with Some d, None => openDocument d | _, _ => skip end
  | RestorePressed v =>
      match of_active o with
      | Some d => onlyIf (bool_decide (v ∈ of_versions o) && negb (jeqb (ov_id v) (od_current_version_id d)))
                    (restoreVersion v o)
      | None => skip
      end
  | EditorSaid message => onlyIf (bool_decide (is_Some (of_session o))) (note message)
  end.
End Studio.

(** ** The editor *)

(** The state of a script element for the editor's interface. *)
Inductive ScriptState : Type := ScriptLoading | ScriptLoaded | ScriptFailed.
#[export] Instance ScriptState_eq_dec : EqDecision ScriptState.
Proof. solve_decision. Defined.

(** One run of the effect: what its closure holds, and how many editors it made and
    destroyed.  [in_listening] is the script whose events it listens to. *)
Record Instance : Type := {
  in_session : jstr;
  in_config : json;
  in_publicPath : jstr;
  in_started : Z;
  in_editor : bool;
  in_built : nat;
  in_destroyed : nat;
  in_cancelled : bool;
  in_ready : bool;
  in_listening : option jstr;
}.

Definition setEditor v i : Instance :=
  {| in_session := in_session i; in_config := in_config i; in_publicPath := in_publicPath i;
     in_started := in_started i; in_editor := v; in_built := in_built i; in_destroyed := in_destroyed i;
     in_cancelled := in_cancelled i; in_ready := in_ready i; in_listening := in_listening i |}.
Definition setBuilt v i : Instance :=
  {| in_session := in_session i; in_config := in_config i; in_publicPath := in_publicPath i;
     in_started := in_started i; in_editor := in_editor i; in_built := v; in_destroyed := in_destroyed i;
     in_cancelled := in_cancelled i; in_ready := in_ready i; in_listening := in_listening i |}.
Definition setDestroyed v i : Instance :=
  {| in_session := in_session i; in_config := in_config i; in_publicPath := in_publicPath i;
     in_started := in_started i; in_editor := in_editor i; in_built := in_built i; in_destroyed := v;
     in_cancelled := in_cancelled i; in_ready := in_ready i; in_listening := in_listening i |}.
Definition setCancelled v i : Instance :=
  {| in_session := in_session i; in_config := in_config i; in_publicPath := in_publicPath i;
     in_started := in_started i; in_editor := in_editor i; in_built := in_built i;
     in_destroyed := in_destroyed i; in_cancelled := v; in_ready := in_ready i;
     in_listening := in_listening i |}.
Definition setDocumentReady v i : Instance :=
  {| in_session := in_session i; in_config := in_config i; in_publicPath := in_publicPath i;
     in_started := in_started i; in_editor := in_editor i; in_built := in_built i;
     in_destroyed := in_destroyed i; in_cancelled := in_cancelled i; in_ready := v;
     in_listening := in_listening i |}.
Definition setListening v i : Instance :=
  {| in_session := in_session i; in_config := in_config i; in_publicPath := in_publicPath i;
     in_started := in_started i; in_editor := in_editor i; in_built := in_built i;
     in_destroyed := in_destroyed i; in_cancelled := in_cancelled i; in_ready := in_ready i;
     in_listening := v |}.

(** [ed_now] is [performance.now()] in microseconds, [ed_api] whether [window.DocsAPI] is
    there, [ed_patched] whether [setAttribute] of frames is replaced. *)
Record Editor : Type := {
  ed_now : Z;
  ed_api : bool;
  ed_scripts : list (jstr * ScriptState);
  ed_instances : list Instance;
  ed_patched : bool;
  ed_notice : jstr;
}.

Definition setNow v d : Editor :=
  {| ed_now := v; ed_api := ed_api d; ed_scripts := ed_scripts d; ed_instances := ed_instances d;
     ed_patched := ed_patched d; ed_notice := ed_notice d |}.
Definition setApi v d : Editor :=
  {| ed_now := ed_now d; ed_api := v; ed_scripts := ed_scripts d; ed_instances := ed_instances d;
     ed_patched := ed_patched d; ed_notice := ed_notice d |}.
Definition setScripts v d : Editor :=
  {| ed_now := ed_now d; ed_api := ed_api d; ed_scripts := v; ed_instances := ed_instances d;
     ed_patched := ed_patched d; ed_notice := ed_notice d |}.
Definition setInstances v d : Editor :=
  {| ed_now := ed_now d; ed_api := ed_api d; ed_scripts := ed_scripts d; ed_instances := v;
     ed_patched := ed_patched d; ed_notice := ed_notice d |}.
Definition setPatched v d : Editor :=
  {| ed_now := ed_now d; ed_api := ed_api d; ed_scripts := ed_scripts d; ed_instances := ed_instances d;
     ed_patched := v; ed_notice := ed_notice d |}.
Definition setEditorNotice v d : Editor :=
  {| ed_now := ed_now d; ed_api := ed_api d; ed_scripts := ed_scripts d; ed_instances := ed_instances d;
     ed_patched := ed_patched d; ed_notice := v |}.

Definition initialEditor : Editor := {|
  ed_now := 0; ed_api := false; ed_scripts := []; ed_instances := []; ed_patched := false; ed_notice := [] |}.

Definition changeInstance (n : nat) (f : Instance → Instance) (d : Editor) : Editor :=
  setInstances (alter f n (ed_instances d)) d.

Inductive OfficeClientEvent : Type :=
  | MountStarted | ApiLoaded | ConstructorStarted | ConstructorReturned | AppReady | DocumentReady | EditorErrored
  | OutdatedVersion | CleanupBeforeReady | CleanupAfterReady | ApiLoadFailed | CacheResetFailed.

Definition eventName (e : OfficeClientEvent) : string :=
  match e with
  | MountStarted => "mount_started" | ApiLoaded => "api_loaded" | ConstructorStarted => "constructor_started"
  | ConstructorReturned => "constructor_returned" | AppReady => "app_ready" | DocumentReady => "document_ready"
  | EditorErrored => "editor_error" | OutdatedVersion => "outdated_version"
  | CleanupBeforeReady => "cleanup_before_ready" | CleanupAfterReady => "cleanup_after_ready"
  | ApiLoadFailed => "api_load_failed" | CacheResetFailed => "cache_reset_failed"
  end.

(** [publicPath.replace(/\/?$/, '/')] and the path of the script. *)
Definition scriptSource (publicPath : jstr) : jstr :=
  (if endsWith (js "/") publicPath then publicPath else publicPath ++ js "/") ++ js "web-apps/apps/api/documents/api.js".

Section EditorLife.
Variable encodeURIComponent decodeURIComponent : jstr → option jstr.
Variable cookies : jstr.
(** Whether the page has service workers and caches; the path of an address ([None]: not
    an address); whether the editor's constructor returns. *)
Variable hasWorkers hasCaches : bool.
Variable pathname : jstr → option jstr.
Variable constructs : json → bool.

Definition lifecycleRequest (session csrf : jstr) (e : OfficeClientEvent) (elapsed : Z) (code : option num)
    : HttpRequest := {|
  http_url := js API_BASE ++ js "/sessions/" ++ session ++ js "/events"; http_method := js "POST";
  http_headers := [(js "Accept", js "application/json"); (js "Content-Type", js "application/json");
                   (js "X-Ion-CSRF", csrf)];
  http_body := Some (stringify (JObj ([(js "event", JStr (js (eventName e)));
                                       (js "elapsed_ms", JNum (num_of_Z (Z.max 0 (mathRound elapsed 1000))))] ++
                 match code with Some (NFin m x) => [(js "error_code", JNum (NFin m x))] | _ => [] end))) |}.

(** [report]: the request is not awaited and its failure is dropped. *)
Definition report (i : Instance) (e : OfficeClientEvent) (code : option num) : proc Editor unit :=
  d ← readState;
  match encodeURIComponent (in_session i), readCookie decodeURIComponent (Some cookies) csrf_cookie with
  | Some session, Some csrf => emit (Issued (Fetch (lifecycleRequest session csrf e (ed_now d - in_started i) code)))
  | _, _ => emit (Escaped uriError)
  end.

(** The part of a handler that runs with the instance [n]. *)
Definition withInstance (n : nat) (k : Instance → proc Editor unit) : proc Editor unit :=
  d ← readState; match ed_instances d !! n with Some i => k i | None => skip end.

Definition editorSays (text : string) : proc Editor unit := setState (setEditorNotice (js text)).

Definition clearOfficeServiceWorkers (publicPath : jstr) : proc Editor unit :=
  if negb hasWorkers then skip
  else match pathname publicPath with
       | None => throw (mkError (js "Invalid URL"))
       | Some officePath =>
           await ServiceWorkers (λ scopes,
             await (Unregister (List.filter (λ s, match pathname s with
                                                  | Some p => startsWith officePath p
                                                  | None => false
                                                  end) scopes)) (λ _,
               if negb hasCaches then skip
               else await CacheKeys (λ names,
                      await (CacheDelete (List.filter (startsWith (js "document_editor_static_")) names)) (λ _, skip))))
       end.

(** The constructor under the replaced [setAttribute], which is put back in any case. *)
Definition construct (n : nat) (i : Instance) : proc Editor unit :=
  setState (setPatched true);;
  try_finally
    (if constructs (in_config i)
     then setState (changeInstance n (λ i, setEditor true (setBuilt (S (in_built i)) i)));;
          report i ConstructorReturned None
     else throw (mkError (js "The editor could not be created")))
    (setPatched false).

Definition mountEditor (n : nat) (publicPath : jstr) : proc Editor unit :=
  cleared ← try_catch (clearOfficeServiceWorkers publicPath;; mret true)
    (λ _, withInstance n (λ i, if in_cancelled i then skip
                               else report i CacheResetFailed None;;
                                    editorSays "The Office editor cache could not be reset. Reload Ion and try again.");;
          mret false);
  if negb cleared then skip
  else withInstance n (λ i,
         d ← readState;
         if in_cancelled i || negb (ed_api d) then skip
         else report i ConstructorStarted None;; construct n i).

Definition apiReady (n : nat) (publicPath : jstr) : proc Editor unit :=
  withInstance n (λ i, report i ApiLoaded None);; mountEditor n publicPath.

(** The effect's body. *)
Definition startEffect (session : jstr) (config : json) (publicPath : jstr) (d : Editor) : proc Editor unit :=
  let n := length (ed_instances d) in
  let i := {| in_session := session; in_config := config; in_publicPath := publicPath; in_started := ed_now d;
              in_editor := false; in_built := 0; in_destroyed := 0; in_cancelled := false; in_ready := false; in_listening := None |} in
  setState (λ d, setInstances (ed_instances d ++ [i]) d);;
  report i MountStarted None;;
  if ed_api d then apiReady n publicPath
  else
    let source := scriptSource publicPath in
    setState (changeInstance n (setListening (Some source)));;
    if existsb (λ s, jeqb s.1 source) (ed_scripts d) then skip
    else setState (λ d, setScripts (ed_scripts d ++ [(source, ScriptLoading)]) d).

(** The effect's cleanup. *)
Definition cleanupEffect (n : nat) : proc Editor unit :=
  setState (changeInstance n (λ i, setListening None (setCancelled true i)));;
  withInstance n (λ i,
    report i (if in_ready i then CleanupAfterReady else CleanupBeforeReady) None;;
    if in_editor i then setState (changeInstance n (λ i, setDestroyed (S (in_destroyed i)) i)) else skip).

Inductive EditorInput : Type :=
  | TimePassed (now : Z)
  | EffectStarted (session : jstr) (config : json) (publicPath : jstr)
  | EffectCleaned
  | ScriptLoadEvent (source : jstr)
  | ScriptErrorEvent (source : jstr)
  | EditorAppReady | EditorDocumentReady
  | EditorStateChanged (saving : bool)
  | EditorFailed (code : option num)
  | EditorOutdated.

(** The instance whose effect is in place. *)
Definition current (d : Editor) : option (nat * Instance) :=
  match last (ed_instances d) with
  | Some i => if in_cancelled i then None else Some (pred (length (ed_instances d)), i)
  | None => None
  end.

Definition settleScript (source : jstr) (s : ScriptState) (d : Editor) : Editor :=
  setScripts (map (λ e, if jeqb e.1 source then (e.1, s) else e) (ed_scripts d)) d.

Definition loading (source : jstr) (d : Editor) : bool :=
  existsb (λ e, jeqb e.1 source && bool_decide (e.2 = ScriptLoading)) (ed_scripts d).

(** A script of the page fires one event, its load or its error; the editor fires its
    events while it is there. *)
Definition onEditor (d : Editor) (k : nat → Instance → proc Editor unit) : proc Editor unit :=
  match current d with Some (n, i) => if in_editor i then k n i else skip | None => skip end.

Definition editorHandler (d : Editor) (y : EditorInput) : proc Editor unit :=
  match y with
  | TimePassed now => setState (setNow now)
  | EffectStarted session config publicPath =>
      match current d with None => startEffect session config publicPath d | Some _ => skip end
  | EffectCleaned => match current d with Some (n, _) => cleanupEffect n | None => skip end
  | ScriptLoadEvent source =>
      if loading source d then
        setState (settleScript source ScriptLoaded);;
        setState (setApi true);;
        match current d with
        | Some (n, i) => if bool_decide (in_listening i = Some source) then apiReady n (in_publicPath i) else skip
        | None => skip
        end
      else skip
  | ScriptErrorEvent source =>
      if loading source d then
        setState (settleScript source ScriptFailed);;
        match current d with
        | Some (n, i) => if bool_decide (in_listening i = Some source)
                         then report i ApiLoadFailed None;;
                              editorSays "The ONLYOFFICE editor client could not be loaded."
                         else skip
        | None => skip
        end
      else skip
  | EditorAppReady =>
      onEditor d (λ n i, report i AppReady None;; editorSays "Office editor connected. Loading document…")
  | EditorDocumentReady =>
      onEditor d (λ n i, setState (changeInstance n (setDocumentReady true));; report i DocumentReady None;; editorSays EmptyString)
  | EditorStateChanged saving =>
      onEditor d (λ n i, editorSays (if saving then "Saving changes…" else "All changes saved"))
  | EditorFailed code =>
      onEditor d (λ n i, report i EditorErrored code;;
        editorSays "ONLYOFFICE reported an editor error. Your last committed version is still available.")
  | EditorOutdated =>
      onEditor d (λ n i, report i OutdatedVersion None;;
        editorSays "A newer document version is available. Return to the library and reopen this file.")
  end.
End EditorLife.
