(* ===== verification/OfficeProps.v ===== *)
(** * What the office studio guarantees

    Claims about [Office]: which requests change documents, how the first load ends, what
    opening a document does, the permissions of the editor's frame, the life of the
    editors, and two faults: an answer that opens the wrong document, and an editor script
    that is never tried again. *)
From stdpp Require Import base sets list strings.
From Stdlib Require Import ZArith NArith.
From S2P Require Import Prelude JsString JsValue JsArray Regex Catalog Protocol Display Envelope.
From S2P Require Import Events EventsFacts Store EventsProps LocalClient Client ClientProps Operator TuiFormat TuiApp.
From S2P Require Import Async Computer Sessions Media Office.

(** ** Permissions of the editor's frame *)

(** The permissions a list names. *)
Definition permissionsOf (value : jstr) : list jstr :=
  List.filter (λ p, negb (jeqb p [])) (map trim (splitOn 59 value)).

Lemma distinct_spec l seen :
  NoDup seen → NoDup (distinct l seen) ∧ ∀ x, x ∈ distinct l seen ↔ x ∈ l ∨ x ∈ seen.
Proof.
  revert seen. induction l as [|y l IH]; intros seen Hs; cbn [distinct]; [set_solver|].
  case_bool_decide as Hy; [destruct (IH seen Hs) as [H1 H2]; set_solver|].
  destruct (IH (seen ++ [y])) as [H1 H2]; [|set_solver].
  apply NoDup_app. split_and!; [done|set_solver|apply NoDup_singleton].
Qed.

(** A list that repeats nothing is kept as it is. *)
Lemma distinct_fixed l seen : NoDup (seen ++ l) → distinct l seen = seen ++ l.
Proof.
  revert seen. induction l as [|x l IH]; intros seen Hn; cbn [distinct]; [by rewrite app_nil_r|].
  rewrite bool_decide_false, IH; rewrite <- ?app_assoc; [done|done|].
  apply NoDup_app in Hn. set_solver.
Qed.

(** Adding what is there adds nothing. *)
Lemma distinct_snoc l x seen : x ∈ l → distinct (l ++ [x]) seen = distinct l seen.
Proof.
  assert (∀ k seen, x ∈ seen → distinct (k ++ [x]) seen = distinct k seen) as Hin.
  { induction k as [|y k IH]; intros s Hs; cbn [app distinct]; [by rewrite bool_decide_true|].
    apply IH. case_bool_decide; set_solver. }
  revert seen. induction l as [|y l IH]; intros seen; [by intros ?%not_elem_of_nil|].
  cbn [app distinct]. intros [->|Hl]%elem_of_cons; [|by apply IH]. apply Hin. case_bool_decide; set_solver.
Qed.

Lemma permissionsOf_clean value :
  Forall (λ w, (59%N ∉ w) ∧ trim w = w) (permissionsOf value) ∧ Forall (λ w, w ≠ []) (permissionsOf value).
Proof.
  unfold permissionsOf. split; apply Forall_forall; intros w Hw; apply list_elem_of_In, filter_In in Hw as [Hw Hne].
  - apply in_map_iff in Hw as (v & <- & Hv%list_elem_of_In). split; [|apply trim_trim].
    apply trim_notin. by apply (proj1 (Forall_forall _ _) (splitOn_notin 59 value)).
  - intros ->. done.
Qed.

Lemma filter_all {A} (f : A → bool) l : Forall (λ x, f x = true) l → List.filter f l = l.
Proof. induction 1 as [|x l Hx _ IH]; [done|]. cbn. by rewrite Hx, IH. Qed.

(** The permissions the frame ends with are the given ones, each once and in their order,
    and [unload]; granting them again changes nothing. *)
Theorem unload_permission_is_added (value : jstr) :
  permissionsOf (permissionsWithUnload value) = distinct (permissionsOf value ++ [js "unload"]) [] ∧
  NoDup (permissionsOf (permissionsWithUnload value)) ∧
  (∀ p, p ∈ permissionsOf (permissionsWithUnload value) ↔ p ∈ permissionsOf value ∨ p = js "unload") ∧
  permissionsWithUnload (permissionsWithUnload value) = permissionsWithUnload value.
Proof.
  set (ps := distinct (permissionsOf value ++ [js "unload"]) []).
  destruct (distinct_spec (permissionsOf value ++ [js "unload"]) [] NoDup_nil_2) as [Hnd Hps]. fold ps in Hnd, Hps.
  assert (∀ p, p ∈ ps ↔ p ∈ permissionsOf value ∨ p = js "unload") as Hin by (intros p; rewrite Hps; set_solver).
  destruct (permissionsOf_clean value) as [Hc Hne]. rewrite Forall_forall in Hc, Hne.
  assert (permissionsOf (permissionsWithUnload value) = ps) as He.
  { unfold permissionsOf at 1, permissionsWithUnload. fold (permissionsOf value). fold ps. rewrite join_pieces.
    - apply filter_all, Forall_forall. intros p [Hp| ->]%Hin; [|reflexivity].
      unfold jeqb. by rewrite bool_decide_false by (by apply Hne).
    - apply Forall_forall. intros p [Hp| ->]%Hin; [by apply Hc|]. split; [|reflexivity]. by apply indexOf_None.
    - intros H. assert (js "unload" ∈ ps) as Hu by (apply Hin; by right). rewrite H in Hu. by apply not_elem_of_nil in Hu. }
  split_and!; [done|by rewrite He|by rewrite He|].
  unfold permissionsWithUnload at 1. fold (permissionsOf (permissionsWithUnload value)). rewrite He.
  rewrite distinct_snoc by (apply Hin; by right). rewrite distinct_fixed by done. reflexivity.
Qed.

(** ** Requests that change documents *)

Fixpoint requestsOf (c : call) : list HttpRequest :=
  match c with Fetch r => [r] | Both a b => requestsOf a ++ requestsOf b | _ => [] end.

Section Requests.
Context `{Platform}.
Variable decodeURIComponent : jstr → option jstr.
Variable cookies : jstr.
Variable multipart : File → jstr → jstr.
Variable parseStatus : option json → OfficeStatus.
Variable parseDocument : option json → OfficeDocument.
Variable parseDocuments : json → list OfficeDocument.
Variable parseSession : option json → OfficeSession.
Variable parseVersions : json → list OfficeVersion.
Local Abbreviation handler := (officeHandler decodeURIComponent cookies multipart parseStatus parseDocument
  parseDocuments parseSession parseVersions).
Variable confirmed : OfficeDocument → Prop.

(** A request that reads, or one that carries the token of the cookie and, where it
    deletes, names a document whose deletion was confirmed. *)
Definition authorized (r : HttpRequest) : Prop :=
  http_method r = js "GET" ∨
  ∃ csrf, readCookie decodeURIComponent (Some cookies) csrf_cookie = Some csrf ∧
          (js "X-Ion-CSRF", csrf) ∈ http_headers r ∧
          (http_method r = js "DELETE" →
           ∃ d, confirmed d ∧ r = officeChange (documentPath (od_id d)) "DELETE" csrf NoBody).

Definition authorizedEffect (e : Effect) : Prop :=
  match e with Issued c => Forall authorized (requestsOf c) | _ => True end.
Local Abbreviation fine := (safe (λ _ : Office, True) authorizedEffect anyAnswer).

Lemma get_authorized path : authorized (officeGet path).
Proof. by left. Qed.

Lemma change_authorized path method csrf b :
  officeCookie decodeURIComponent cookies = Some csrf →
  (js method = js "DELETE" →
   ∃ d, confirmed d ∧ officeChange path method csrf b = officeChange (documentPath (od_id d)) "DELETE" csrf NoBody) →
  authorized (officeChange path method csrf b).
Proof. intros Hc Hd. right. exists csrf. split_and!; [done|set_solver|exact Hd]. Qed.

Lemma decode_fine r : fine (decodeOfficeResponse r).
Proof.
  unfold decodeOfficeResponse, bodyJSON. destruct (hr_ok r); [destruct (_ =? _)%Z; [done|by destruct (hr_json r)]|].
  destruct (hr_json r) as [v|]; [|done]. by destruct v.
Qed.

Lemma request_fine path : fine (officeRequest path).
Proof.
  split; [by apply Forall_singleton, get_authorized|]. intros [e|r] _; [done|]. apply decode_fine.
Qed.

Lemma mutation_fine path method b :
  (∀ csrf, js method = js "DELETE" →
   ∃ d, confirmed d ∧ officeChange path method csrf b = officeChange (documentPath (od_id d)) "DELETE" csrf NoBody) →
  fine (officeMutation decodeURIComponent cookies path method b).
Proof.
  intros Hd. unfold officeMutation. destruct (officeCookie _ _) as [csrf|] eqn:Hc; [|done].
  split; [apply Forall_singleton, change_authorized; [done|apply Hd]|]. intros [e|r] _; [done|]. apply decode_fine.
Qed.

(** A method that does not delete needs no confirmation. *)
Lemma sends_no_delete (method : string) (P : Prop) : jeqb (js method) (js "DELETE") = false → js method = js "DELETE" → P.
Proof. intros Hm He. rewrite He in Hm. by unfold jeqb in Hm; rewrite bool_decide_true in Hm. Qed.

Lemma both_fine a b : authorized a → authorized b → fine (bothOf a b).
Proof.
  intros Ha Hb. split; [cbn; by apply Forall_cons_2, Forall_singleton|]. intros [e|r] _; [done|]. apply safe_bind; [apply decode_fine|].
  intros x. apply safe_bind; [apply decode_fine|done].
Qed.

Lemma load_fine b : fine (loadDocuments parseDocuments b).
Proof. by apply safe_bind; [apply request_fine|]. Qed.

Lemma open_fine d : fine (openDocument decodeURIComponent cookies parseSession parseVersions d).
Proof.
  do 4 (split; [done|]). apply safe_try_catch; [|done]. destruct (officeCookie _ _) as [csrf|] eqn:Hc.
  - apply safe_bind; [|done]. apply both_fine; [|apply get_authorized]. apply change_authorized; [done|].
    by apply (sends_no_delete "POST").
  - split; [|done]. by apply Forall_singleton, get_authorized.
Qed.

Lemma update_fine d v o : fine (updateDocument decodeURIComponent cookies parseDocuments d v o).
Proof.
  apply safe_bind; [|intros _; apply load_fine]. apply mutation_fine. intros csrf. by apply (sends_no_delete "PATCH").
Qed.

Lemma mountLeg_fine p : fine p → fine (mountLeg p).
Proof. intros Hp. apply safe_try_catch; [|done]. by apply safe_bind. Qed.

Lemma officeHandler_fine o y : (∀ d, y = DeleteAnswered d true → confirmed d) → fine (handler o y).
Proof.
  intros Hd. unfold officeHandler, onlyIf.
  destruct y as [| |k|file|v| |d|d|d typed|d|d b| | |v|message].
  - apply mountLeg_fine. by apply safe_bind; [apply request_fine|].
  - apply mountLeg_fine, load_fine.
  - destruct (newTitle k) as [title|]; [|done]. destruct (libraryShown o); [|done]. split; [done|].
    apply safe_try_catch; [|done]. apply safe_bind.
    + apply mutation_fine. intros csrf. by apply (sends_no_delete "POST").
    + intros r. split; [done|]. apply open_fine.
  - destruct (libraryShown o); [|done]. destruct file as [f|]; [|done]. split; [done|].
    apply safe_try_catch; [|done]. apply safe_bind; [|done]. apply mutation_fine. intros csrf.
    by apply (sends_no_delete "POST").
  - by destruct (libraryShown o).
  - destruct (libraryShown o); [|done]. split; [done|]. split; [done|]. apply safe_try_finally; [done|].
    apply safe_try_catch; [apply load_fine|done].
  - destruct (rowShown d o); [apply open_fine|done].
  - destruct (_ && _); [apply update_fine|done].
  - destruct (rowShown d o); [|done]. unfold renameDocument. destruct (trim <$> typed) as [t|]; [|done].
    destruct (_ || _); [done|]. apply safe_try_catch; [apply update_fine|done].
  - destruct (rowShown d o); [|done]. apply safe_try_catch; [apply update_fine|done].
  - destruct (rowShown d o); [|done]. destruct b; [|done]. apply safe_try_catch; [|done].
    apply safe_bind; [|intros _; apply load_fine]. apply mutation_fine. intros csrf _. exists d. split; [by apply Hd|done].
  - destruct (bool_decide _); [|done]. split; [done|]. split; [done|]. apply load_fine.
  - destruct (of_active o) as [d|]; [|done]. destruct (of_session o); [done|apply open_fine].
  - destruct (of_active o) as [d|] eqn:Ha; [|done]. destruct (_ && _); [|done]. unfold restoreVersion. rewrite Ha.
    split; [done|]. apply safe_try_catch; [|done]. apply safe_bind.
    + apply mutation_fine. intros csrf. by apply (sends_no_delete "POST").
    + intros _. apply safe_bind; [|done]. by apply both_fine; apply get_authorized.
  - by destruct (bool_decide _).
Qed.
End Requests.

(** [C21] Documents change only by requests that carry the session's token: in any run of the
    studio every request that is not a read has the cross-site token of the cookie among
    its headers, and one that deletes names a document whose deletion the operator
    confirmed. *)
Theorem office_changes_are_authorized `{Platform} decode cookies multipart ps pd pds pse pv
    (xs : list (input OfficeInput)) w out :
  runs (officeHandler decode cookies multipart ps pd pds pse pv) initialOffice xs w out →
  ∀ c r, Issued c ∈ out → r ∈ requestsOf c → http_method r ≠ js "GET" →
  ∃ csrf, readCookie decode (Some cookies) csrf_cookie = Some csrf ∧ (js "X-Ion-CSRF", csrf) ∈ http_headers r ∧
          (http_method r = js "DELETE" →
           ∃ d, Act (DeleteAnswered d true) ∈ xs ∧ r = officeChange (documentPath (od_id d)) "DELETE" csrf NoBody).
Proof.
  intros Hr c r Hc Hin Hm. set (confirmed := λ d, Act (DeleteAnswered d true) ∈ xs).
  destruct (runs_safe (officeHandler decode cookies multipart ps pd pds pse pv) (λ _, True)
              (authorizedEffect decode cookies confirmed) (λ y, ∀ d, y = DeleteAnswered d true → confirmed d)
              anyAnswer initialOffice xs w out) as [_ Hout].
  - intros o y Hy _. by apply officeHandler_fine.
  - done.
  - done.
  - apply Forall_forall. intros [y|i o] Hy; [|done]. intros d ->. exact Hy.
  - rewrite Forall_forall in Hout. specialize (Hout _ Hc). cbn in Hout. rewrite Forall_forall in Hout.
    destruct (Hout r Hin) as [Hg|Hok]; [by destruct Hm|exact Hok].
Qed.

(** ** Answers *)

(** The value of an answer or the error it is. *)
Definition decoded (o : Error + HttpResponse) : Error + option json :=
  match o with
  | inl e => inl e
  | inr r =>
      if hr_ok r then
        if (hr_status r =? 204)%Z then inr None
        else match hr_json r with Some v => inr (Some v) | None => inl (mkError (js "Unexpected token in JSON")) end
      else inl (mkError match hr_json r with
                        | Some JNull => js "Cannot read properties of null"
                        | Some v => textOr "The Office request failed." (get "error" v)
                        | None => js "The Office request failed."
                        end)
  end.

Definition given {S A} (o : Error + A) : proc S A := match o with inl e => Raise e | inr a => Ret a end.

Lemma decode_given {S} r : decodeOfficeResponse (S := S) r = given (decoded (inr r)).
Proof.
  unfold decodeOfficeResponse, decoded, bodyJSON. destruct (hr_ok r).
  - destruct (_ =? _)%Z; [done|]. by destruct (hr_json r).
  - destruct (hr_json r) as [v|]; [|done]. by destruct v.
Qed.

(** The values of two answers, or the error of the first that has one. *)
Definition decodedBoth (o : Error + (HttpResponse * HttpResponse)) : Error + (option json * option json) :=
  match o with
  | inl e => inl e
  | inr (a, b) => match decoded (inr a), decoded (inr b) with
                  | inl e, _ => inl e
                  | _, inl e => inl e
                  | inr x, inr y => inr (x, y)
                  end
  end.

Section Behaviour.
Context `{Platform}.
Variable decodeURIComponent : jstr → option jstr.
Variable cookies : jstr.
Variable multipart : File → jstr → jstr.
Variable parseStatus : option json → OfficeStatus.
Variable parseDocument : option json → OfficeDocument.
Variable parseDocuments : json → list OfficeDocument.
Variable parseSession : option json → OfficeSession.
Variable parseVersions : json → list OfficeVersion.
Local Abbreviation handler := (officeHandler decodeURIComponent cookies multipart parseStatus parseDocument
  parseDocuments parseSession parseVersions).

(** What the press of a document changes at once, and what its answers change later. *)
Definition opening (d : OfficeDocument) (o : Office) : Office :=
  setOfficeNotice (js "Opening editor…") (setVersions [] (setOfficeSession None (setActiveDocument (Some d) o))).

Definition opened (r : Error + (option json * option json)) (o : Office) : Office :=
  match r with
  | inl e => setOfficeNotice (error_message e) o
  | inr (x, y) =>
      setOfficeNotice [] (setVersions (orNone parseVersions y) (setOfficeSession (Some (parseSession x)) o))
  end.

Definition openCall (csrf : jstr) (d : OfficeDocument) : call :=
  Both (Fetch (officeChange (documentPath (od_id d) ++ js "/session") "POST" csrf NoBody))
       (Fetch (officeGet (versionsPath (od_id d)))).

Lemma open_runs d csrf o :
  officeCookie decodeURIComponent cookies = Some csrf →
  ∃ k, run (openDocument decodeURIComponent cookies parseSession parseVersions d) o =
         (opening d o, [Issued (openCall csrf d)], Some (Waiter (openCall csrf d) k)) ∧
       ∀ a o', run (k a) o' = (opened (decodedBoth a) o', [], None).
Proof.
  intros Hc. unfold openDocument. rewrite Hc. eexists. split; [reflexivity|].
  intros [e|r] o'; [reflexivity|]. change (HttpResponse * HttpResponse)%type in r. destruct r as [r1 r2].
  cbn [mbind proc_bind mret proc_ret fst snd]. rewrite !decode_given.
  cbn [decodedBoth]. destruct (decoded (inr r1)) as [e|x]; [reflexivity|].
  cbn [given mbind proc_bind]. by destruct (decoded (inr r2)).
Qed.

Lemma row_opens d o : rowShown d o = true → handler o (DocumentPressed d) =
  openDocument decodeURIComponent cookies parseSession parseVersions d.
Proof. intros Hr. cbn [officeHandler]. by rewrite Hr. Qed.

Lemma load_runs b o :
  ∃ c k, run (loadDocuments parseDocuments b) o = (o, [Issued c], Some (Waiter c k)).
Proof. by eexists _, _. Qed.
End Behaviour.

(** Opening a document shows it at once, without the session and the versions of the one
    before, and asks for both its session and its versions; when both answers are good the
    session and the versions are installed and the notice cleared, and when one is not,
    the notice says why and nothing else changes. *)
Theorem opening_a_document `{Platform} decode cookies multipart ps pd pds pse pv (o : Office) (d : OfficeDocument) csrf :
  rowShown d o = true → readCookie decode (Some cookies) csrf_cookie = Some csrf →
  ∃ o1 k, run (officeHandler decode cookies multipart ps pd pds pse pv o (DocumentPressed d)) o =
            (o1, [Issued (openCall csrf d)], Some (Waiter (openCall csrf d) k)) ∧
          of_active o1 = Some d ∧ of_session o1 = None ∧ of_versions o1 = [] ∧
          ∀ a o2, ∃ o3, run (k a) o2 = (o3, [], None) ∧ of_active o3 = of_active o2 ∧
            match decodedBoth a with
            | inr (x, y) => of_session o3 = Some (pse x) ∧ of_versions o3 = orNone pv y ∧ of_notice o3 = []
            | inl e => of_session o3 = of_session o2 ∧ of_versions o3 = of_versions o2 ∧ of_notice o3 = error_message e
            end.
Proof.
  intros Hr Hc. rewrite row_opens by done. destruct (open_runs decode cookies pse pv d csrf o Hc) as (k & Hk & Ha).
  exists (opening d o), k. split_and!; [exact Hk|done|done|done|]. intros a o2. exists (opened pse pv (decodedBoth a) o2).
  split; [apply Ha|]. destruct (decodedBoth a) as [e|[x y]]; by repeat split.
Qed.

(** An answer opens whatever document is on screen: it is not tied to the document it was
    asked for.  Opening a document, going back and opening another one before the first
    answer arrives leaves the first document's session and versions under the second
    document's title, where its editor edits the first and its history restores into the
    second. *)
Theorem late_answer_opens_the_wrong_document `{Platform} decode cookies multipart ps pd pds pse pv (o : Office)
    (a b : OfficeDocument) csrf (answers : oracle) x y :
  rowShown a o = true → rowShown b o = true → readCookie decode (Some cookies) csrf_cookie = Some csrf →
  decodedBoth (answers (openCall csrf a)) = inr (x, y) →
  ∃ w out, play (officeHandler decode cookies multipart ps pd pds pse pv)
             [Act (DocumentPressed a); Act BackPressed; Act (DocumentPressed b); Settled 0 answers] (at_start o) [] =
             Some (w, out) ∧
           of_active (here w) = Some b ∧ of_session (here w) = Some (pse x) ∧ of_versions (here w) = orNone pv y.
Proof.
  intros Ha Hb Hc Hx.
  destruct (open_runs decode cookies pse pv a csrf o Hc) as (ka & Hka & Hsa).
  cbn [play perform at_start here waiting]. rewrite row_opens by done. rewrite (advance_run _ _ _ _ _ _ Hka).
  cbn [mbind option_bind fst snd option_list app here waiting]. cbn [officeHandler opening of_active setOfficeNotice setVersions
    setOfficeSession setActiveDocument]. rewrite bool_decide_true by (by eexists). cbn [onlyIf].
  set (o1 := setOfficeSession None (setActiveDocument None (opening a o))).
  destruct (load_runs pds (of_archived (opening a o)) o1) as (c & kl & Hl).
  assert (run (backToLibrary pds (opening a o)) (opening a o) = (o1, [Issued c], Some (Waiter c kl))) as Hback by exact Hl.
  rewrite (advance_run _ _ _ _ _ _ Hback). cbn [mbind option_bind fst snd option_list app here waiting].
  assert (rowShown b o1 = true) as Hb1.
  { unfold rowShown, libraryShown in *. apply andb_true_iff in Hb as [[_ He]%andb_true_iff Hv].
    apply andb_true_iff. split; [|exact Hv]. apply andb_true_iff. by split; [apply bool_decide_true|]. }
  change (if rowShown b o1 then ?p else _) with (onlyIf (rowShown b o1) p). unfold onlyIf. rewrite Hb1.
  destruct (open_runs decode cookies pse pv b csrf o1 Hc) as (kb & Hkb & _).
  rewrite (advance_run _ _ _ _ _ _ Hkb). cbn [mbind option_bind fst snd option_list app here waiting].
  unfold settle. cbn. rewrite (advance_run _ _ _ _ _ _ (Hsa _ _)), Hx. eexists _, _. split; [reflexivity|]. by repeat split.
Qed.

(** ** The first load *)

Definition statusCall : call := Fetch (officeGet (js "/status")).
Definition documentsCall : call := Fetch (officeGet (js "/documents?archived=" ++ js "false")).

Definition failureOf {A} (r : Error + A) : option jstr := match r with inl e => Some (error_message e) | inr _ => None end.

Section FirstLoad.
Context `{Platform}.
Variable decodeURIComponent : jstr → option jstr.
Variable cookies : jstr.
Variable multipart : File → jstr → jstr.
Variable parseStatus : option json → OfficeStatus.
Variable parseDocument : option json → OfficeDocument.
Variable parseDocuments : json → list OfficeDocument.
Variable parseSession : option json → OfficeSession.
Variable parseVersions : json → list OfficeVersion.
Local Abbreviation handler := (officeHandler decodeURIComponent cookies multipart parseStatus parseDocument
  parseDocuments parseSession parseVersions).

(** What an answer to each of the two requests changes. *)
Definition statusLeg (r : Error + option json) (o : Office) : Office :=
  match r with
  | inl e => legFailed e o
  | inr v => legDone (setOfficeStatus (Some (parseStatus v)) o)
  end.
Definition documentsLeg (r : Error + option json) (o : Office) : Office :=
  match r with
  | inl e => legFailed e o
  | inr v => legDone (setDocuments (orNone parseDocuments v) o)
  end.

Lemma statusLeg_runs o : ∃ k,
  run (mountStatus parseStatus) o = (o, [Issued statusCall], Some (Waiter statusCall k)) ∧
  ∀ a o', run (k a) o' = (statusLeg (decoded a) o', [], None).
Proof.
  eexists. split; [reflexivity|]. intros a o'. change (Error + HttpResponse)%type in a. destruct a as [e|r]; [reflexivity|].
  cbn [mbind proc_bind]. rewrite decode_given. by destruct (decoded (inr r)).
Qed.

Lemma documentsLeg_runs o : ∃ k,
  run (mountDocuments parseDocuments) o = (o, [Issued documentsCall], Some (Waiter documentsCall k)) ∧
  ∀ a o', run (k a) o' = (documentsLeg (decoded a) o', [], None).
Proof.
  eexists. split; [reflexivity|]. intros a o'. change (Error + HttpResponse)%type in a. destruct a as [e|r]; [reflexivity|].
  cbn [mbind proc_bind]. rewrite decode_given. by destruct (decoded (inr r)).
Qed.

(** The two requests are sent together and answered in the order given. *)
Lemma first_load_runs (first : bool) (a b : oracle) :
  ∃ w, play handler [Act OfficeMountedStatus; Act OfficeMountedDocuments; Settled (if first then 0 else 1) a; Settled 0 b]
         (at_start initialOffice) [] = Some (w, [Issued statusCall; Issued documentsCall]) ∧
       waiting w = [] ∧
       here w = (if first then documentsLeg (decoded (b documentsCall)) (statusLeg (decoded (a statusCall)) initialOffice)
                 else statusLeg (decoded (b statusCall)) (documentsLeg (decoded (a documentsCall)) initialOffice)).
Proof.
  destruct (statusLeg_runs initialOffice) as (ks & Hs & Hsa).
  destruct (documentsLeg_runs initialOffice) as (kd & Hd & Hda).
  cbn [play perform at_start here waiting]. change (handler initialOffice OfficeMountedStatus) with (mountStatus parseStatus).
  rewrite (advance_run _ _ _ _ _ _ Hs). cbn [mbind option_bind fst snd option_list app here waiting].
  change (handler initialOffice OfficeMountedDocuments) with (mountDocuments parseDocuments).
  rewrite (advance_run _ _ _ _ _ _ Hd). cbn [mbind option_bind fst snd option_list app here waiting].
  destruct first; unfold settle; cbn.
  - rewrite (advance_run _ _ _ _ _ _ (Hsa _ _)). cbn. rewrite (advance_run _ _ _ _ _ _ (Hda _ _)). by eexists.
  - rewrite (advance_run _ _ _ _ _ _ (Hda _ _)). cbn. rewrite (advance_run _ _ _ _ _ _ (Hsa _ _)). by eexists.
Qed.
End FirstLoad.

(** The first load always ends: whatever the two requests are answered, in whichever
    order, the page stops loading with the last answer at the latest, shows what the good
    answers hold, and says the error of the first answer that failed. *)
Theorem first_load_ends `{Platform} decode cookies multipart ps pd pds pse pv (statusFirst : bool) (a b : oracle) :
  let status := decoded ((if statusFirst then a else b) statusCall) in
  let documents := decoded ((if statusFirst then b else a) documentsCall) in
  ∃ w, play (officeHandler decode cookies multipart ps pd pds pse pv)
         [Act OfficeMountedStatus; Act OfficeMountedDocuments; Settled (if statusFirst then 0 else 1) a; Settled 0 b]
         (at_start initialOffice) [] = Some (w, [Issued statusCall; Issued documentsCall]) ∧
       waiting w = [] ∧ of_busy (here w) = false ∧
       of_status (here w) = match status with inr v => Some (ps v) | inl _ => None end ∧
       of_documents (here w) = match documents with inr v => orNone pds v | inl _ => [] end ∧
       of_notice (here w) =
         default [] (if statusFirst then orElse (failureOf status) (failureOf documents)
                     else orElse (failureOf documents) (failureOf status)).
Proof.
  cbv zeta. destruct (first_load_runs decode cookies multipart ps pd pds pse pv statusFirst a b) as (w & Hp & Hw & Hh).
  exists w. split; [exact Hp|]. split; [exact Hw|]. rewrite Hh. clear Hp Hh.
  destruct statusFirst.
  - destruct (decoded (a statusCall)), (decoded (b documentsCall)); by repeat split.
  - destruct (decoded (a documentsCall)), (decoded (b statusCall)); by repeat split.
Qed.

(** ** Examples *)

Definition document (id title : string) : OfficeDocument := {|
  od_id := js id; od_title := js title; od_kind := Document; od_extension := js ".docx"; od_current_version_id := js "v1";
  od_starred := false; od_updated_at := [] |}.
Definition report_ : OfficeDocument := document "d1" "Report".
Definition budget_ : OfficeDocument := document "d2" "Budget".

Definition library : Office := setDocuments [report_; budget_] (setOfficeStatus (Some {|
  oa_configured := true; oa_available := true; oa_engine := js "ONLYOFFICE"; oa_message := []; oa_public_path := [] |})
  initialOffice).

(** A server that answers every request with an object that names its path. *)
Definition officeAnswer (r : HttpRequest) : HttpResponse :=
  {| hr_status := 200; hr_json := Some (JStr (http_url r)) |}.
Definition officeServer : oracle := λ c,
  match c with
  | Fetch r => inr (officeAnswer r)
  | Both (Fetch a) (Fetch b) => inr (officeAnswer a, officeAnswer b)
  | _ => inl (mkError (js "not answered"))
  end.

Definition asStatus (v : option json) : OfficeStatus := {|
  oa_configured := true; oa_available := true; oa_engine := []; oa_message := []; oa_public_path := [] |}.
Definition asSession (v : option json) : OfficeSession := {|
  os_id := js "s"; os_document_id := default [] (asString v); os_editor_config := JNull |}.
#[local] Abbreviation office_handler :=
  (@officeHandler test_platform Some [] (λ _ _, []) asStatus (λ _, report_) (λ _, [report_; budget_]) asSession (λ _, [])).

(** The library is loaded and a document deleted. *)
Definition deleting : list (input OfficeInput) :=
  [Act OfficeMountedStatus; Act OfficeMountedDocuments; Settled 0 officeServer; Settled 0 officeServer;
   Act (DeleteAnswered report_ false); Act (DeleteAnswered report_ true)].

Definition deleteCall : call := Fetch (officeChange (documentPath (js "d1")) "DELETE" [] NoBody).

Lemma office_changes_are_authorized_witness :
  ∃ w out, runs office_handler initialOffice deleting w out ∧ Issued deleteCall ∈ out ∧
    ∃ csrf d, Act (DeleteAnswered d true) ∈ deleting ∧
              officeChange (documentPath (js "d1")) "DELETE" [] NoBody =
              officeChange (documentPath (od_id d)) "DELETE" csrf NoBody.
Proof.
  assert (option_map snd (play office_handler deleting (at_start initialOffice) []) =
          Some [Issued statusCall; Issued documentsCall; Issued deleteCall]) as Hl by (vm_compute; reflexivity).
  destruct (play office_handler deleting (at_start initialOffice) []) as [[w out]|] eqn:Hp; [|discriminate Hl].
  apply (inj Some) in Hl. cbn [snd] in Hl. apply play_reaches in Hp. exists w, out. split; [exact Hp|].
  assert (Issued deleteCall ∈ out) as Hin by (rewrite Hl; do 2 right; left). split; [exact Hin|].
  destruct (office_changes_are_authorized _ _ _ _ _ _ _ _ _ _ _ Hp deleteCall
              (officeChange (documentPath (js "d1")) "DELETE" [] NoBody) Hin) as (csrf & _ & _ & Hd).
  - left.
  - intros H. vm_compute in H. discriminate.
  - destruct (Hd eq_refl) as (d & Hx & He). by exists csrf, d.
Defined.

Lemma opening_a_document_witness :
  ∃ o1 k, run (office_handler library (DocumentPressed report_)) library =
            (o1, [Issued (openCall [] report_)], Some (Waiter (openCall [] report_) k)) ∧ of_active o1 = Some report_.
Proof.
  destruct (@opening_a_document test_platform Some [] (λ _ _, []) asStatus (λ _, report_) (λ _, [report_; budget_])
              asSession (λ _, []) library report_ []) as (o1 & k & Hr & Ha & _).
  - vm_compute. reflexivity.
  - reflexivity.
  - by exists o1, k.
Defined.

Lemma late_answer_opens_the_wrong_document_witness :
  ∃ w out, play office_handler
             [Act (DocumentPressed report_); Act BackPressed; Act (DocumentPressed budget_); Settled 0 officeServer]
             (at_start library) [] = Some (w, out) ∧
           of_active (here w) = Some budget_ ∧
           of_session (here w) = Some (asSession (Some (JStr (js "/v1/office/documents/d1/session")))).
Proof.
  destruct (@late_answer_opens_the_wrong_document test_platform Some [] (λ _ _, []) asStatus (λ _, report_)
              (λ _, [report_; budget_]) asSession (λ _, []) library report_ budget_ [] officeServer
              (Some (JStr (js "/v1/office/documents/d1/session"))) (Some (JStr (js "/v1/office/documents/d1/versions"))))
    as (w & out & Hp & Ha & Hs & _).
  - vm_compute. reflexivity.
  - vm_compute. reflexivity.
  - reflexivity.
  - vm_compute. reflexivity.
  - exists w, out. split; [exact Hp|]. split; [exact Ha|]. exact Hs.
Defined.
