(* ===== verification/EditorProps.v ===== *)
(** * The life of the office editors

    Claims about the editor effect of [Office]: over any interleaving of mounts, cleanups,
    script events and cache answers at most one editor lives, and each is destroyed with
    its effect; a script that failed is not tried again. *)
From stdpp Require Import base sets list strings.
From Stdlib Require Import ZArith NArith.
From S2P Require Import Prelude JsString JsValue JsArray Regex Catalog Protocol Display Envelope.
From S2P Require Import Events LocalClient Client Operator TuiFormat TuiApp Async Computer Sessions Media Office.

Lemma alter_twice {A} (f g : A → A) (n : nat) (l : list A) : alter f n (alter g n l) = alter (λ x, f (g x)) n l.
Proof. revert n. induction l as [|x l IH]; intros [|n]; try done. cbn. f_equal. apply IH. Qed.

(** ** The invariant *)

(** An effect makes at most one editor, and destroys it exactly when it is cleaned up.  A
    mount in progress ([n ∈ ks]) has made none yet, and none is in progress while the
    effect still listens to a script that may load. *)
Record instanceOK (d : Editor) (ks : list nat) (n : nat) (i : Instance) : Prop := {
  ok_built : in_built i ≤ 1;
  ok_editor : in_editor i = (in_built i =? 1);
  ok_destroyed : in_destroyed i = if in_cancelled i then in_built i else 0;
  ok_deaf : in_cancelled i = true → in_listening i = None;
  ok_listening : ∀ source, in_listening i = Some source → loading source d = true → n ∉ ks ∧ in_built i = 0;
  ok_mounting : n ∈ ks → in_built i = 0;
}.

Record editorInv (d : Editor) (ks : list nat) : Prop := {
  inv_patched : ed_patched d = false;
  inv_tokens : NoDup ks;
  inv_range : ∀ n, n ∈ ks → n < length (ed_instances d);
  inv_last : ∀ n i, ed_instances d !! n = Some i → S n < length (ed_instances d) → in_cancelled i = true;
  inv_instances : ∀ n i, ed_instances d !! n = Some i → instanceOK d ks n i;
}.

Lemma editorInv_permutation d ks ks' : ks ≡ₚ ks' → editorInv d ks → editorInv d ks'.
Proof.
  intros Hp [H1 H2 H3 H4 H5]. split; try done.
  - by rewrite <- Hp.
  - intros n. rewrite <- Hp. apply H3.
  - intros n i Hi. destruct (H5 n i Hi) as [G1 G2 G3 G4 G5 G6]. split; try done.
    + intros source. rewrite <- Hp. apply G5.
    + rewrite <- Hp. apply G6.
Qed.

(** A part of the state the invariant does not read, or scripts that stop loading. *)
Lemma editorInv_same d d' ks :
  ed_patched d' = false → ed_instances d' = ed_instances d → (∀ s, loading s d' = true → loading s d = true) →
  editorInv d ks → editorInv d' ks.
Proof.
  intros Hp Hi Hl [H1 H2 H3 H4 H5]. split; rewrite ?Hi; try done.
  intros n i Hn. destruct (H5 n i Hn) as [G1 G2 G3 G4 G5 G6]. split; try done. intros s Hs Hls. by apply (G5 s), Hl.
Qed.

Lemma editorInv_notice v d ks : editorInv d ks → editorInv (setEditorNotice v d) ks.
Proof. intros Hd. apply (editorInv_same d); [apply Hd|done|done|exact Hd]. Qed.

Lemma editorInv_drop d n ks : editorInv d (n :: ks) → editorInv d ks.
Proof.
  intros [H1 H2 H3 H4 H5]. apply NoDup_cons in H2 as [_ H2]. split; try done.
  - intros m Hm. apply H3. by right.
  - intros m i Hm. destruct (H5 m i Hm) as [G1 G2 G3 G4 G5 G6]. split; try done.
    + intros s Hs Hl. destruct (G5 s Hs Hl) as [Hn Hb]. split; [|done]. intros Hin. apply Hn. by right.
    + intros Hin. apply G6. by right.
Qed.

(** The mount of an effect can start: none is in progress and no script can start another. *)
Lemma editorInv_take d n i ks :
  editorInv d ks → ed_instances d !! n = Some i → in_built i = 0 → n ∉ ks →
  (∀ s, in_listening i = Some s → loading s d = false) → editorInv d (n :: ks).
Proof.
  intros [H1 H2 H3 H4 H5] Hi Hb Hn Hl. split; try done.
  - by apply NoDup_cons.
  - intros m [->|Hm]%elem_of_cons; [by apply lookup_lt_Some in Hi|by apply H3].
  - intros m j Hj. destruct (H5 m j Hj) as [G1 G2 G3 G4 G5 G6]. split; try done.
    + intros s Hs Hls. destruct (G5 s Hs Hls) as [Hm Hbj]. split; [|done].
      intros [->|Hm']%elem_of_cons; [|done]. rewrite Hi in Hj. injection Hj as <-. by rewrite (Hl s Hs) in Hls.
    + intros [->|Hm]%elem_of_cons; [|by apply G6]. rewrite Hi in Hj. by injection Hj as <-.
Qed.

(** A change of one instance. *)
Lemma editorInv_change d n f ks :
  editorInv d ks →
  (∀ i, ed_instances d !! n = Some i → instanceOK d ks n i →
     instanceOK d ks n (f i) ∧ (in_cancelled i = true → in_cancelled (f i) = true)) →
  editorInv (changeInstance n f d) ks.
Proof.
  intros [H1 H2 H3 H4 H5] Hf.
  assert (∀ m i, ed_instances (changeInstance n f d) !! m = Some i →
            ∃ j, ed_instances d !! m = Some j ∧ ((n = m ∧ i = f j) ∨ (n ≠ m ∧ i = j))) as Hat.
  { intros m i. cbn [changeInstance ed_instances setInstances]. destruct (decide (n = m)) as [<-|Hne].
    - rewrite list_lookup_alter_eq. intros (j & Hj & ->)%fmap_Some. exists j. auto.
    - rewrite list_lookup_alter_ne by done. intros Hi. exists i. auto. }
  assert (length (ed_instances (changeInstance n f d)) = length (ed_instances d)) as Hlen by apply length_alter.
  split; try done.
  - intros m Hm. rewrite Hlen. by apply H3.
  - intros m i Hi Hm. rewrite Hlen in Hm. destruct (Hat m i Hi) as (j & Hj & [[<- ->]|[_ ->]]); [|by apply (H4 m)].
    by apply (Hf j Hj (H5 n j Hj)), (H4 n).
  - intros m i Hi. destruct (Hat m i Hi) as (j & Hj & [[<- ->]|[_ ->]]).
    + destruct (Hf j Hj (H5 n j Hj)) as [[G1 G2 G3 G4 G5 G6] _]. by split.
    + destruct (H5 m j Hj) as [G1 G2 G3 G4 G5 G6]. by split.
Qed.

(** ** The handlers *)

Section Life.
Variable encodeURIComponent decodeURIComponent : jstr → option jstr.
Variable cookies : jstr.
Variable hasWorkers hasCaches : bool.
Variable pathname : jstr → option jstr.
Variable constructs : json → bool.
Local Abbreviation handler :=
  (editorHandler encodeURIComponent decodeURIComponent cookies hasWorkers hasCaches pathname constructs).
Local Abbreviation report := (report encodeURIComponent decodeURIComponent cookies).
Local Abbreviation mount := (mountEditor encodeURIComponent decodeURIComponent cookies hasWorkers hasCaches pathname constructs).
Local Abbreviation keep := (owns editorInv (λ _ _, True)).

Lemma report_owns {A} k i e c (f : unit → proc Editor A) d ks : keep k (f ()) d ks → keep k (report i e c ≫= f) d ks.
Proof.
  intros Hf. unfold Office.report, readState. cbn [mbind proc_bind owns].
  by destruct (encodeURIComponent (in_session i)), (readCookie decodeURIComponent (Some cookies) csrf_cookie).
Qed.

Lemma report_ends k i e c d ks : editorInv d ks → keep k (report i e c) d ks.
Proof.
  intros Hd. unfold Office.report, readState. cbn [mbind proc_bind owns].
  by destruct (encodeURIComponent (in_session i)), (readCookie decodeURIComponent (Some cookies) csrf_cookie).
Qed.

(** The continuation of a cache reset, whether it worked or not. *)
Lemma reset_owns n path (f : bool → proc Editor unit) :
  (∀ b d ks, editorInv d (n :: ks) → keep n (f b) d ks) →
  ∀ d ks, editorInv d (n :: ks) →
  keep n (try_catch (clearOfficeServiceWorkers hasWorkers hasCaches pathname path;; mret true)
            (λ _, withInstance n (λ i, if in_cancelled i then skip
                                       else report i CacheResetFailed None;;
                                            editorSays "The Office editor cache could not be reset. Reload Ion and try again.");;
                  mret false) ≫= f) d ks.
Proof.
  intros Hf.
  assert (∀ d ks, editorInv d (n :: ks) →
    keep n ((withInstance n (λ i, if in_cancelled i then skip
                                  else report i CacheResetFailed None;;
                                       editorSays "The Office editor cache could not be reset. Reload Ion and try again.");;
             mret false) ≫= f) d ks) as Hfail.
  { intros d ks Hd. cbn [withInstance readState mbind proc_bind owns].
    destruct (ed_instances d !! n) as [i|]; [|by apply Hf]. destruct (in_cancelled i); [by apply Hf|].
    cbn [Office.report readState mbind proc_bind owns].
    by destruct (encodeURIComponent (in_session i)), (readCookie decodeURIComponent (Some cookies) csrf_cookie); apply Hf, editorInv_notice. }
  intros d ks Hd. unfold clearOfficeServiceWorkers. destruct hasWorkers; [|by apply Hf]. cbn [negb].
  destruct (pathname path) as [p|]; [|by apply Hfail].
  split; [done|]. split; [done|]. intros [e|scopes] d1 ks1 H1; [by apply Hfail|].
  split; [done|]. split; [done|]. intros [e|u] d2 ks2 H2; [by apply Hfail|].
  destruct hasCaches; [|by apply Hf]. cbn [negb].
  split; [done|]. split; [done|]. intros [e|names] d3 ks3 H3; [by apply Hfail|].
  split; [done|]. split; [done|]. intros [e|u'] d4 ks4 H4; [by apply Hfail|]. by apply Hf.
Qed.

Lemma construct_owns n i d ks :
  editorInv d (n :: ks) → ed_instances d !! n = Some i → in_cancelled i = false →
  keep n (construct encodeURIComponent decodeURIComponent cookies constructs n i) d ks.
Proof.
  intros Hd Hi Hc. unfold construct. cbn [mbind proc_bind setState owns].
  assert (editorInv (setPatched false (setPatched true d)) ks) as Hsame.
  { eapply editorInv_same; [..|by eapply editorInv_drop]; done. }
  destruct (constructs (in_config i)); [|exact Hsame].
  cbn [mbind proc_bind setState try_finally owns Office.report readState].
  assert (editorInv (setPatched false (changeInstance n (λ i, setEditor true (setBuilt (S (in_built i)) i)) (setPatched true d))) ks)
    as Hbuilt.
  { apply (editorInv_same (changeInstance n (λ i, setEditor true (setBuilt (S (in_built i)) i))
             (setPatched false (setPatched true d)))); [done|done|done|].
    apply editorInv_change; [exact Hsame|]. intros j Hj [G1 G2 G3 G4 G5 G6]. split; [|done].
    assert (j = i) as -> by (cbn in Hj; rewrite Hi in Hj; by injection Hj). 
    destruct (inv_instances _ _ Hd n i Hi) as [_ _ _ _ L5 L6].
    assert (in_built i = 0) as Hb by (apply L6; by left).
    split; cbn [setEditor setBuilt in_built in_editor in_destroyed in_cancelled in_listening]; rewrite ?Hb; try done.
    - rewrite Hb, Hc in G3. by rewrite Hc.
    - intros s Hs Hl. exfalso. destruct (L5 s Hs Hl) as [Hn _]. apply Hn. by left.
    - intros Hin. exfalso. pose proof (inv_tokens _ _ Hd) as Hnd. by apply NoDup_cons in Hnd as []. }
  by destruct (encodeURIComponent (in_session i)), (readCookie decodeURIComponent (Some cookies) csrf_cookie).
Qed.

Lemma mount_owns n path d ks : editorInv d (n :: ks) → keep n (mount n path) d ks.
Proof.
  revert d ks. apply reset_owns. intros [] d ks Hd; cbn [negb]; [|by eapply editorInv_drop].
  cbn [withInstance readState mbind proc_bind owns].
  destruct (ed_instances d !! n) as [i|] eqn:Hi; [|by eapply editorInv_drop].
  cbn [mbind proc_bind owns]. destruct (in_cancelled i || negb (ed_api d)) eqn:Hc; [by eapply editorInv_drop|].
  apply orb_false_iff in Hc as [Hc _]. apply report_owns. by apply construct_owns.
Qed.

Lemma apiReady_owns n i path d ks :
  editorInv d ks → ed_instances d !! n = Some i → in_built i = 0 → n ∉ ks →
  (∀ s, in_listening i = Some s → loading s d = false) →
  keep n (apiReady encodeURIComponent decodeURIComponent cookies hasWorkers hasCaches pathname constructs n path) d ks.
Proof.
  intros Hd Hi Hb Hn Hl. unfold apiReady. cbn [withInstance readState mbind proc_bind owns]. rewrite Hi.
  apply report_owns, mount_owns. by eapply editorInv_take.
Qed.
(** ** Starting and cleaning up *)

Lemma current_Some d n i : current d = Some (n, i) → ed_instances d !! n = Some i ∧ in_cancelled i = false ∧ S n = length (ed_instances d).
Proof.
  unfold current. destruct (last (ed_instances d)) as [j|] eqn:Hl; [|done]. destruct (in_cancelled j) eqn:Hc; [done|].
  intros [= <- <-]. rewrite last_lookup in Hl. split_and!; [done|done|]. apply lookup_lt_Some in Hl. lia.
Qed.

Lemma current_None d ks : editorInv d ks → current d = None → ∀ n i, ed_instances d !! n = Some i → in_cancelled i = true.
Proof.
  intros Hd. unfold current. destruct (last (ed_instances d)) as [j|] eqn:Hl.
  - destruct (in_cancelled j) eqn:Hc; [|done]. intros _ n i Hi.
    destruct (decide (S n < length (ed_instances d))) as [Hn|Hn]; [by apply (inv_last _ _ Hd n)|].
    rewrite last_lookup in Hl. pose proof (lookup_lt_Some _ _ _ Hi).
    assert (n = pred (length (ed_instances d))) as -> by lia. by rewrite Hi in Hl; injection Hl as ->.
  - intros _ n i Hi. apply last_None in Hl. by rewrite Hl in Hi.
Qed.

(** A new instance after cleaned-up ones, whatever the scripts are: those listen to none. *)
Lemma editorInv_push d d' i ks :
  editorInv d ks → (∀ n j, ed_instances d !! n = Some j → in_cancelled j = true) →
  ed_patched d' = false → ed_instances d' = ed_instances d ++ [i] →
  in_built i = 0 → in_editor i = false → in_destroyed i = 0 → in_cancelled i = false →
  editorInv d' ks.
Proof.
  intros [H1 H2 H3 H4 H5] Hall Hp Hi B1 B2 B3 B4. split; rewrite ?Hi; try done.
  - intros n Hn. rewrite length_app. apply H3 in Hn. lia.
  - intros n j Hj Hn. rewrite length_app in Hn. cbn in Hn. rewrite lookup_app_l in Hj by lia. by apply (Hall n).
  - intros n j [Hj|[Hn Hj]]%lookup_app_Some.
    + destruct (H5 n j Hj) as [G1 G2 G3 G4 G5 G6]. split; try done. intros s Hs. by rewrite (G4 (Hall n j Hj)) in Hs.
    + destruct (n - length (ed_instances d)) as [|k] eqn:Hk; [|done]. injection Hj as <-.
      assert (n ∉ ks) as Hnk by (intros Hin%H3; lia).
      split; rewrite ?B1, ?B2, ?B3, ?B4; try done; try lia.
Qed.

Lemma start_owns session config path d ks :
  editorInv d ks → current d = None →
  keep (length (ed_instances d))
    (startEffect encodeURIComponent decodeURIComponent cookies hasWorkers hasCaches pathname constructs session config path d)
    d ks.
Proof.
  intros Hd Hc. pose proof (current_None d ks Hd Hc) as Hall. unfold startEffect.
  set (i := {| in_session := session |}). cbn [mbind proc_bind setState owns]. apply report_owns.
  assert (editorInv (setInstances (ed_instances d ++ [i]) d) ks) as H1 by (by eapply editorInv_push; try done; apply Hd).
  destruct (ed_api d).
  - apply (apiReady_owns _ i); [exact H1| | | |done].
    + cbn [setInstances ed_instances]. rewrite lookup_app_r, Nat.sub_diag by lia. reflexivity.
    + done.
    + intros Hin. apply (inv_range _ _ Hd) in Hin. lia.
  - cbn [mbind proc_bind setState owns].
    assert (∀ v d', ed_instances d' = alter (setListening v) (length (ed_instances d)) (ed_instances d ++ [i]) →
              ed_patched d' = false → editorInv d' ks) as Hlisten.
    { intros v d' Hi' Hp'. apply (editorInv_push d d' (setListening v i) ks); try done.
      rewrite Hi', alter_app_r_alt, Nat.sub_diag by lia. reflexivity. }
    destruct (existsb _ (ed_scripts d)); cbn [skip setState owns];
      (eapply Hlisten; [reflexivity|apply Hd]).
Qed.

Lemma cleanup_owns k n i d ks :
  editorInv d ks → current d = Some (n, i) →
  keep k (cleanupEffect encodeURIComponent decodeURIComponent cookies n) d ks.
Proof.
  intros Hd Hc. apply current_Some in Hc as (Hi & Hci & _). unfold cleanupEffect. cbn [mbind proc_bind setState owns].
  set (off := λ i, setListening None (setCancelled true i)).
  unfold withInstance, readState. cbn [mbind proc_bind owns].
  cbn [changeInstance setInstances ed_instances]. rewrite list_lookup_alter_eq, Hi. cbn [fmap option_fmap option_map].
  apply report_owns. destruct (inv_instances _ _ Hd n i Hi) as [G1 G2 G3 G4 G5 G6]. rewrite Hci in G3.
  destruct (in_editor (off i)) eqn:He; cbn [skip setState owns].
  - set (gone := λ i, setDestroyed (S (in_destroyed i)) (off i)).
    apply (editorInv_same (changeInstance n gone d)); [apply Hd| |done|].
    + cbn [changeInstance setInstances ed_instances]. by rewrite alter_twice.
    + apply editorInv_change; [exact Hd|]. intros j Hj _. rewrite Hi in Hj. injection Hj as <-. split; [|done].
      change (in_editor i = true) in He. rewrite He in G2. symmetry in G2. apply Nat.eqb_eq in G2.
      split; cbn; rewrite ?G2, ?G3, ?He; try done. intros Hin. by rewrite G6 in G2.
  - apply editorInv_change; [exact Hd|]. intros j Hj _. rewrite Hi in Hj. injection Hj as <-. split; [|done].
    change (in_editor i = false) in He. rewrite He in G2. symmetry in G2. apply Nat.eqb_neq in G2.
    assert (in_built i = 0) as Hb by lia. split; cbn; rewrite ?Hb, ?G3, ?He; try done; try lia.
Qed.
Lemma settled_not_loading source s v d : s ≠ ScriptLoading → loading v (settleScript source s d) = true → loading v d = true ∧ v ≠ source.
Proof.
  intros Hs. unfold loading, settleScript. cbn [setScripts ed_scripts]. rewrite !existsb_exists.
  intros (e & He & Hl). apply in_map_iff in He as (e0 & <- & He0).
  destruct (jeqb e0.1 source) eqn:Hj; cbn [fst snd] in Hl.
  - apply andb_true_iff in Hl as [_ Hl]. by apply bool_decide_eq_true in Hl.
  - split; [by exists e0|]. intros ->. by rewrite Hj in Hl.
Qed.

Lemma editorInv_settle source s d ks : s ≠ ScriptLoading → editorInv d ks → editorInv (settleScript source s d) ks.
Proof.
  intros Hs Hd. apply (editorInv_same d); [apply Hd|done| |exact Hd]. intros v Hv. by apply (settled_not_loading source s).
Qed.

Lemma onEditor_owns k d ks (f : nat → Instance → proc Editor unit) :
  editorInv d ks → (∀ n i, keep k (f n i) d ks) → keep k (onEditor d f) d ks.
Proof. intros Hd Hf. unfold onEditor. destruct (current d) as [[n i]|]; [|done]. by destruct (in_editor i). Qed.

(** Reports and notices only. *)
Lemma says_owns k i e c text d ks : editorInv d ks → keep k (report i e c;; editorSays text) d ks.
Proof. intros Hd. apply report_owns. by apply editorInv_notice. Qed.

Lemma scriptLoad_owns source d ks :
  editorInv d ks → loading source d = true → ∃ k, keep k (handler d (ScriptLoadEvent source)) d ks.
Proof.
  intros Hd Hl. cbn [editorHandler]. rewrite Hl. cbn [mbind proc_bind setState owns].
  assert (editorInv (setApi true (settleScript source ScriptLoaded d)) ks) as H1.
  { apply (editorInv_same (settleScript source ScriptLoaded d)); [apply Hd|done|done|by apply editorInv_settle]. }
  destruct (current d) as [[n i]|] eqn:Hc; [|by exists 0].
  destruct (bool_decide (in_listening i = Some source)) eqn:Hs; [|by exists 0]. apply bool_decide_eq_true in Hs.
  apply current_Some in Hc as (Hi & _ & _). destruct (inv_instances _ _ Hd n i Hi) as [_ _ _ _ G5 _].
  destruct (G5 source Hs Hl) as [Hn Hb]. exists n. apply (apiReady_owns n i); [done|exact Hi|done|done|].
  intros s Hs'. rewrite Hs in Hs'. injection Hs' as <-. apply not_true_iff_false. intros Ht.
  change (loading source (settleScript source ScriptLoaded d) = true) in Ht.
  by apply settled_not_loading in Ht as [_ ?].
Qed.

Lemma editorHandler_owns d y ks : editorInv d ks → ∃ k, keep k (handler d y) d ks.
Proof.
  intros Hd. destruct y as [now|session config path| |source|source| | |b|code| ]; cbn [editorHandler].
  - exists 0. apply (editorInv_same d); [apply Hd|done|done|exact Hd].
  - destruct (current d) eqn:Hc; [by exists 0|]. eexists. by apply start_owns.
  - destruct (current d) as [[n i]|] eqn:Hc; [|by exists 0]. exists 0. by eapply cleanup_owns.
  - destruct (loading source d) eqn:Hl; [|by exists 0].
    destruct (scriptLoad_owns source d ks Hd Hl) as [k Hk]. exists k. cbn [editorHandler] in Hk. by rewrite Hl in Hk.
  - destruct (loading source d) eqn:Hl; [|by exists 0]. exists 0. cbn [mbind proc_bind setState owns].
    assert (editorInv (settleScript source ScriptFailed d) ks) as H1 by (by apply editorInv_settle).
    destruct (current d) as [[n i]|]; [|done]. destruct (bool_decide _); [|done]. by apply says_owns.
  - exists 0. apply onEditor_owns; [done|]. intros n i. by apply says_owns.
  - exists 0. apply onEditor_owns; [done|]. intros n i. cbn [mbind proc_bind setState owns]. apply says_owns.
    apply editorInv_change; [done|]. intros j _ [G1 G2 G3 G4 G5 G6]. split; [by split|done].
  - exists 0. apply onEditor_owns; [done|]. intros n i. by apply editorInv_notice.
  - exists 0. apply onEditor_owns; [done|]. intros n i. by apply says_owns.
  - exists 0. apply onEditor_owns; [done|]. intros n i. by apply says_owns.
Qed.
End Life.

(** An editor that was made and not destroyed. *)
Definition lives (i : Instance) : bool := (in_destroyed i <? in_built i)%nat.

Lemma at_most_one_lives d ks : editorInv d ks → length (List.filter lives (ed_instances d)) ≤ 1.
Proof.
  intros Hd. destruct (list_eq_nil_dec (ed_instances d)) as [->|Hne]; [cbn; lia|].
  destruct (exists_last Hne) as (l & i & He). rewrite He, List.filter_app, length_app.
  assert (List.filter lives l = []) as ->; [|cbn [List.filter]; destruct (lives i); cbn [length]; lia].
  assert (Forall (λ j, lives j = false) l) as Hl.
  { apply Forall_lookup_2. intros n j Hj. assert (ed_instances d !! n = Some j) as Hn.
    { rewrite He. by apply lookup_app_l_Some. }
    destruct (inv_instances _ _ Hd n j Hn) as [_ _ G3 _ _ _].
    rewrite (inv_last _ _ Hd n j Hn) in G3.
    - unfold lives. rewrite G3. apply Nat.ltb_irrefl.
    - rewrite He, length_app. apply lookup_lt_Some in Hj. cbn. lia. }
  clear He. induction Hl as [|j l Hj _ IH]; [done|]. cbn [List.filter]. by rewrite Hj.
Qed.

(** [C19] At most one editor lives: over any interleaving of effects, cleanups, script events,
    cache resets and editor events, each effect makes at most one editor, destroys it when
    it is cleaned up and not before, and makes none afterwards, so that at most one editor
    is on the page, and the replaced frame attribute setter is always put back. *)
Theorem at_most_one_editor encode decode cookies hasWorkers hasCaches pathname constructs
    (xs : list (input EditorInput)) w out :
  runs (editorHandler encode decode cookies hasWorkers hasCaches pathname constructs) initialEditor xs w out →
  length (List.filter lives (ed_instances (here w))) ≤ 1 ∧ ed_patched (here w) = false ∧
  Forall (λ i, in_built i ≤ 1 ∧ in_destroyed i = (if in_cancelled i then in_built i else 0)) (ed_instances (here w)).
Proof.
  intros Hr. destruct (runs_owned (editorHandler encode decode cookies hasWorkers hasCaches pathname constructs)
    editorInv (λ _ _, True) editorInv_permutation initialEditor xs w out) as (ks & _ & Hd); [| |exact Hr|].
  { intros d y ks. apply editorHandler_owns. }
  { split; try done. - apply NoDup_nil_2. - by intros n ?%not_elem_of_nil. }
  split_and!; [by eapply at_most_one_lives|apply Hd|]. apply Forall_lookup_2. intros n i Hi.
  by destruct (inv_instances _ _ Hd n i Hi).
Qed.

(** ** A script that failed *)

Section Failed.
Variable encodeURIComponent decodeURIComponent : jstr → option jstr.
Variable cookies : jstr.
Variable hasWorkers hasCaches : bool.
Variable pathname : jstr → option jstr.
Variable constructs : json → bool.
Local Abbreviation handler :=
  (editorHandler encodeURIComponent decodeURIComponent cookies hasWorkers hasCaches pathname constructs).
Variable source notice : jstr.

(** The script is on the page, none is loading, nothing was made and nothing is said. *)
Definition scriptGone (d : Editor) : Prop :=
  ed_api d = false ∧ existsb (λ s, jeqb s.1 source) (ed_scripts d) = true ∧ (∀ s, loading s d = false) ∧
  Forall (λ i, in_built i = 0 ∧ in_editor i = false) (ed_instances d) ∧ ed_notice d = notice.

Lemma gone_current d n i : scriptGone d → current d = Some (n, i) → in_editor i = false.
Proof.
  intros (_ & _ & _ & Hi & _) Hc. apply current_Some in Hc as (Hn & _ & _).
  by apply (proj1 (Forall_lookup _ _) Hi) in Hn as [_ ?].
Qed.

Lemma gone_change f n d :
  (∀ i, in_built (f i) = in_built i ∧ in_editor (f i) = in_editor i) → scriptGone d → scriptGone (changeInstance n f d).
Proof.
  intros Hf (H1 & H2 & H3 & H4 & H5). split_and!; try done. cbn [changeInstance setInstances ed_instances].
  apply Forall_alter; [exact H4|]. intros i _ [Hb He]. destruct (Hf i) as [-> ->]. by split.
Qed.

Local Abbreviation still := (keeps scriptGone (λ _, True) anyAnswer).

Lemma still_report i e c f d : still (f ()) d → still (Office.report encodeURIComponent decodeURIComponent cookies i e c ≫= f : proc Editor unit) d.
Proof.
  intros Hf. unfold Office.report, readState. cbn [mbind proc_bind keeps].
  by destruct (encodeURIComponent (in_session i)), (readCookie decodeURIComponent (Some cookies) csrf_cookie).
Qed.

(** Effects for the same script path. *)
Definition samePath (y : EditorInput) : Prop :=
  match y with EffectStarted _ _ path => scriptSource path = source | _ => True end.

Lemma gone_start session config path d :
  scriptSource path = source → scriptGone d → still (handler d (EffectStarted session config path)) d.
Proof.
  intros Hp Hd. cbn [editorHandler]. destruct (current d); [done|]. unfold startEffect.
  set (i := {| in_session := session |}). cbn [mbind proc_bind setState keeps]. apply still_report.
  pose proof Hd as (H1 & H2 & H3 & H4 & H5). rewrite H1, Hp, H2. cbn [mbind proc_bind setState keeps skip].
  apply gone_change; [done|]. split_and!; try done. cbn [setInstances ed_instances]. apply Forall_app. split; [done|].
  by apply Forall_singleton.
Qed.

Lemma gone_clean d : scriptGone d → still (handler d EffectCleaned) d.
Proof.
  intros Hd. cbn [editorHandler]. destruct (current d) as [[n i]|]; [|done]. unfold cleanupEffect.
  cbn [mbind proc_bind setState keeps]. set (off := λ i, setListening None (setCancelled true i)).
  assert (scriptGone (changeInstance n off d)) as H1 by (by apply gone_change).
  unfold withInstance, readState. cbn [mbind proc_bind keeps].
  destruct (ed_instances (changeInstance n off d) !! n) as [j|]; [|done]. apply still_report.
  destruct (in_editor j); [|done]. cbn [setState keeps]. by apply gone_change.
Qed.

Lemma gone_handler d y : samePath y → scriptGone d → still (handler d y) d.
Proof.
  intros Hy Hd. assert (∀ f, onEditor d f = skip) as Hon.
  { intros f. unfold onEditor. destruct (current d) as [[n i]|] eqn:Hc; [|done]. by rewrite (gone_current d n i Hd Hc). }
  destruct y as [now|session config path| |s|s| | |b|code| ]; cbn [editorHandler]; rewrite ?Hon; try done.
  - by apply gone_start.
  - by apply gone_clean.
  - destruct Hd as (H1 & H2 & H3 & H4 & H5). by rewrite H3.
  - destruct Hd as (H1 & H2 & H3 & H4 & H5). by rewrite H3.
Qed.
End Failed.

(** A script that failed is never tried again: once the editor's script has failed, every
    later effect finds its element on the page, listens to it and adds no other, so that in
    any run after that no editor is made and nothing is said, however often the operator
    tries again. *)
Theorem failed_script_is_never_retried encode decode cookies hasWorkers hasCaches pathname constructs source
    (d : Editor) (xs : list (input EditorInput)) w out :
  ed_api d = false → ed_scripts d = [(source, ScriptFailed)] → ed_instances d = [] →
  runs (editorHandler encode decode cookies hasWorkers hasCaches pathname constructs) d xs w out →
  Forall (λ x, match x with Act y => samePath source y | Settled _ _ => True end) xs →
  Forall (λ i, in_built i = 0) (ed_instances (here w)) ∧ ed_notice (here w) = ed_notice d.
Proof.
  intros Ha Hs Hi Hr Hxs.
  destruct (runs_keeps (editorHandler encode decode cookies hasWorkers hasCaches pathname constructs)
              (scriptGone source (ed_notice d)) (λ _, True) (samePath source) anyAnswer d xs w out) as [[H1 _] _].
  - intros s y. apply gone_handler.
  - split_and!; try done.
    + rewrite Hs. cbn. unfold jeqb. by rewrite bool_decide_true.
    + intros s. unfold loading. rewrite Hs. cbn. by rewrite andb_false_r.
    + rewrite Hi. constructor.
  - exact Hr.
  - eapply Forall_impl; [exact Hxs|]. intros [y|n o] Hx; [exact Hx|done].
  - destruct H1 as (_ & _ & _ & H4 & H5). split; [|done]. eapply Forall_impl; [exact H4|]. by intros i [? _].
Qed.

(** ** Examples *)

#[local] Abbreviation editor_handler := (editorHandler Some Some [] true false Some (λ _, true)).
Definition engine : jstr := js "/office-engine/".

(** A page whose service workers are unregistered. *)
Definition page : oracle := λ c,
  match c with
  | ServiceWorkers => inr [engine]
  | Unregister _ => inr ()
  | _ => inl (mkError (js "not answered"))
  end.

(** The script loads, the editor is made, its effect is replaced and another is made. *)
Definition reopening : list (input EditorInput) :=
  [Act (EffectStarted (js "s1") JNull engine); Act (ScriptLoadEvent (scriptSource engine)); Settled 0 page; Settled 0 page;
   Act EditorDocumentReady; Act EffectCleaned; Act (EffectStarted (js "s2") JNull engine); Settled 0 page; Settled 0 page].

Lemma at_most_one_editor_witness :
  ∃ w out, runs editor_handler initialEditor reopening w out ∧
           map (λ i, (in_built i, in_destroyed i)) (ed_instances (here w)) = [(1, 1); (1, 0)] ∧
           length (List.filter lives (ed_instances (here w))) ≤ 1.
Proof.
  assert (option_map (λ r, map (λ i, (in_built i, in_destroyed i)) (ed_instances (here r.1)))
            (play editor_handler reopening (at_start initialEditor) []) = Some [(1, 1); (1, 0)]) as Hl
    by (vm_compute; reflexivity).
  destruct (play editor_handler reopening (at_start initialEditor) []) as [[w out]|] eqn:Hp; [|discriminate Hl].
  apply (inj Some) in Hl. apply play_reaches in Hp. exists w, out. split; [exact Hp|]. split; [exact Hl|].
  apply (at_most_one_editor _ _ _ _ _ _ _ _ _ _ Hp).
Defined.

(** The operator tries again after a failure. *)
Definition retrying : list (input EditorInput) :=
  [Act (EffectStarted (js "s1") JNull engine); Act EffectCleaned; Act (EffectStarted (js "s2") JNull engine)].

Lemma failed_script_is_never_retried_witness :
  ∃ w out, runs editor_handler (setScripts [(scriptSource engine, ScriptFailed)] initialEditor) retrying w out ∧
           length (ed_instances (here w)) = 2 ∧ Forall (λ i, in_built i = 0) (ed_instances (here w)).
Proof.
  assert (option_map (λ r, length (ed_instances (here r.1)))
            (play editor_handler retrying (at_start (setScripts [(scriptSource engine, ScriptFailed)] initialEditor)) []) =
          Some 2) as Hl by (vm_compute; reflexivity).
  destruct (play editor_handler retrying _ []) as [[w out]|] eqn:Hp; [|discriminate Hl].
  apply (inj Some) in Hl. apply play_reaches in Hp. exists w, out. split; [exact Hp|]. split; [exact Hl|].
  apply (failed_script_is_never_retried Some Some [] true false Some (λ _, true) (scriptSource engine)
           (setScripts [(scriptSource engine, ScriptFailed)] initialEditor) retrying w out eq_refl eq_refl eq_refl Hp).
  unfold retrying. repeat (apply Forall_cons_2 || apply Forall_nil_2); done.
Defined.
