(* ===== verification/Studio.v ===== *)
(** * The software studio

    [ui/web/src/routes/StudioRoutes.tsx]: the projects page, the workspace with its tabs
    and context cards, and the plan, terminal and code panels.

    Answers are cast to their declared types; the [parse] parameters do so, and members
    that no code reads are left out.  Data of a polled query is an input that loads it
    under the key of the query; [isLetterOrNumber] is the Unicode class the project name
    uses, [relativeFormat] the relative time format. *)
From stdpp Require Import base list strings.
From Stdlib Require Import ZArith NArith.
From S2P Require Import Prelude JsString JsValue JsArray Regex Catalog Protocol Display Envelope.
From S2P Require Import Events LocalClient Client Operator TuiFormat TuiApp Chat ChatApp Async Computer Sessions Media.

(** ** Text *)

(** [/[._-]+/g]. *)
Definition isSeparator (c : N) : bool := ((c =? 46) || (c =? 95) || (c =? 45))%N.
Definition separators : re := rcats [RChr isSeparator; RStar (RChr isSeparator)].

Definition humanize `{CaseTable} (value : jstr) : jstr :=
  replace_all wordStart toUpperCase (replace_all separators (λ _, [32%N]) value).

Definition shortHash (value : option jstr) : jstr :=
  match value with None | Some [] => js "No commit" | Some v => take 8 v end.

Section Dates.
Context `{Platform}.
Variable relativeFormat : Z → string → jstr.

Definition studioRelativeTime (now : Z) (value : jstr) : jstr :=
  match Date_parse value with
  | None => js "Recently"
  | Some timestamp =>
      let seconds := mathRound (timestamp - now) 1000 in
      let minutes := mathRound seconds 60 in
      let hours := mathRound minutes 60 in
      if (Z.abs seconds <? 60)%Z then relativeFormat seconds "second"
      else if (Z.abs minutes <? 60)%Z then relativeFormat minutes "minute"
      else if (Z.abs hours <? 24)%Z then relativeFormat hours "hour"
      else relativeFormat (mathRound hours 24) "day"
  end.
End Dates.

(** ** Queries *)

(** What [query] makes of an answer: an error, a missing result and a result that says it
    is unavailable are exceptions. *)
Definition queryResult (operation : string) (r : ResponseEnvelope) : Error + json :=
  match resp_error r, resp_result r with
  | Some e, _ => inl (mkError (err_message e))
  | None, None => inl (mkError (js operation ++ js " returned no result"))
  | None, Some result =>
      if isRecord (Some result) && (isLit "unavailable" (get "status" result) || isLit "not_available" (get "status" result))
      then inl (mkError (default (js operation ++ js " is not available for this project") (asString (get "reason" result))))
      else inr result
  end.

(** [query(operator, operation, payload, scope)]. *)
Definition studioQuery {S} (operation : string) (payload : json) (session : option jstr) : proc S json :=
  response ← rpc query operation payload session;
  match queryResult operation response with inl e => throw e | inr result => mret result end.

(** ** The projects page *)

Inductive ProjectEntryMode : Type := FromTemplate | FromClone | FromAttach | FromImport.
#[export] Instance ProjectEntryMode_eq_dec : EqDecision ProjectEntryMode.
Proof. solve_decision. Defined.

Record Home : Type := {
  hm_session : option jstr;
  hm_goal : jstr;
  hm_mode : ProjectEntryMode;
  hm_name : jstr;
  hm_template : jstr;
  hm_repositoryURL : jstr;
  hm_credentialReference : jstr;
  hm_directory : jstr;
  hm_archivePath : jstr;
  hm_busy : bool;
  hm_notice : option jstr;
}.

Definition initialHome (session : option jstr) : Home := {|
  hm_session := session; hm_goal := []; hm_mode := FromTemplate; hm_name := []; hm_template := js "static-web";
  hm_repositoryURL := []; hm_credentialReference := []; hm_directory := []; hm_archivePath := []; hm_busy := false;
  hm_notice := None |}.

Definition setHomeSession v h : Home :=
  {| hm_session := v; hm_goal := hm_goal h; hm_mode := hm_mode h; hm_name := hm_name h;
     hm_template := hm_template h; hm_repositoryURL := hm_repositoryURL h;
     hm_credentialReference := hm_credentialReference h; hm_directory := hm_directory h;
     hm_archivePath := hm_archivePath h; hm_busy := hm_busy h; hm_notice := hm_notice h |}.
Definition setGoal v h : Home :=
  {| hm_session := hm_session h; hm_goal := v; hm_mode := hm_mode h; hm_name := hm_name h;
     hm_template := hm_template h; hm_repositoryURL := hm_repositoryURL h;
     hm_credentialReference := hm_credentialReference h; hm_directory := hm_directory h;
     hm_archivePath := hm_archivePath h; hm_busy := hm_busy h; hm_notice := hm_notice h |}.
Definition setEntryMode v h : Home :=
  {| hm_session := hm_session h; hm_goal := hm_goal h; hm_mode := v; hm_name := hm_name h;
     hm_template := hm_template h; hm_repositoryURL := hm_repositoryURL h;
     hm_credentialReference := hm_credentialReference h; hm_directory := hm_directory h;
     hm_archivePath := hm_archivePath h; hm_busy := hm_busy h; hm_notice := hm_notice h |}.
Definition setProjectName v h : Home :=
  {| hm_session := hm_session h; hm_goal := hm_goal h; hm_mode := hm_mode h; hm_name := v;
     hm_template := hm_template h; hm_repositoryURL := hm_repositoryURL h;
     hm_credentialReference := hm_credentialReference h; hm_directory := hm_directory h;
     hm_archivePath := hm_archivePath h; hm_busy := hm_busy h; hm_notice := hm_notice h |}.
Definition setTemplate v h : Home :=
  {| hm_session := hm_session h; hm_goal := hm_goal h; hm_mode := hm_mode h; hm_name := hm_name h;
     hm_template := v; hm_repositoryURL := hm_repositoryURL h;
     hm_credentialReference := hm_credentialReference h; hm_directory := hm_directory h;
     hm_archivePath := hm_archivePath h; hm_busy := hm_busy h; hm_notice := hm_notice h |}.
Definition setRepositoryURL v h : Home :=
  {| hm_session := hm_session h; hm_goal := hm_goal h; hm_mode := hm_mode h; hm_name := hm_name h;
     hm_template := hm_template h; hm_repositoryURL := v; hm_credentialReference := hm_credentialReference h;
     hm_directory := hm_directory h; hm_archivePath := hm_archivePath h; hm_busy := hm_busy h;
     hm_notice := hm_notice h |}.
Definition setCredentialReference v h : Home :=
  {| hm_session := hm_session h; hm_goal := hm_goal h; hm_mode := hm_mode h; hm_name := hm_name h;
     hm_template := hm_template h; hm_repositoryURL := hm_repositoryURL h; hm_credentialReference := v;
     hm_directory := hm_directory h; hm_archivePath := hm_archivePath h; hm_busy := hm_busy h;
     hm_notice := hm_notice h |}.
Definition setDirectory v h : Home :=
  {| hm_session := hm_session h; hm_goal := hm_goal h; hm_mode := hm_mode h; hm_name := hm_name h;
     hm_template := hm_template h; hm_repositoryURL := hm_repositoryURL h;
     hm_credentialReference := hm_credentialReference h; hm_directory := v; hm_archivePath := hm_archivePath h;
     hm_busy := hm_busy h; hm_notice := hm_notice h |}.
Definition setArchivePath v h : Home :=
  {| hm_session := hm_session h; hm_goal := hm_goal h; hm_mode := hm_mode h; hm_name := hm_name h;
     hm_template := hm_template h; hm_repositoryURL := hm_repositoryURL h;
     hm_credentialReference := hm_credentialReference h; hm_directory := hm_directory h; hm_archivePath := v;
     hm_busy := hm_busy h; hm_notice := hm_notice h |}.
Definition setHomeBusy v h : Home :=
  {| hm_session := hm_session h; hm_goal := hm_goal h; hm_mode := hm_mode h; hm_name := hm_name h;
     hm_template := hm_template h; hm_repositoryURL := hm_repositoryURL h;
     hm_credentialReference := hm_credentialReference h; hm_directory := hm_directory h;
     hm_archivePath := hm_archivePath h; hm_busy := v; hm_notice := hm_notice h |}.
Definition setHomeNotice v h : Home :=
  {| hm_session := hm_session h; hm_goal := hm_goal h; hm_mode := hm_mode h; hm_name := hm_name h;
     hm_template := hm_template h; hm_repositoryURL := hm_repositoryURL h;
     hm_credentialReference := hm_credentialReference h; hm_directory := hm_directory h;
     hm_archivePath := hm_archivePath h; hm_busy := hm_busy h; hm_notice := v |}.

Section HomePage.
Context `{Platform}.
Variable isLetterOrNumber : N → bool.
(** The identifier of a project record. *)
Variable projectID : json → jstr.

Definition chosenName (h : Home) : jstr :=
  match trim (hm_name h) with [] => conciseProjectName isLetterOrNumber (hm_goal h) | n => n end.

Definition entry (k : string) (v : jstr) : jstr * json := (js k, JStr v).

(** The operation of the mode and its payload. *)
Definition creation (name : jstr) (h : Home) : string * json :=
  match hm_mode h with
  | FromClone =>
      ("project.clone"%string,
       JObj [entry "name" name; entry "repository_url" (trim (hm_repositoryURL h));
             entry "credential_reference" (trim (hm_credentialReference h)); (js "authorized", JBool true);
             entry "host" (js "direct_local"); entry "trust" (js "untrusted")])
  | FromAttach =>
      ("project.attach"%string,
       JObj [entry "name" name; entry "directory" (trim (hm_directory h)); entry "trust" (js "untrusted")])
  | FromImport =>
      ("project.import"%string,
       JObj [entry "name" name; entry "archive_path" (trim (hm_archivePath h)); entry "host" (js "direct_local");
             entry "trust" (js "untrusted")])
  | FromTemplate =>
      ("project.create"%string,
       JObj [entry "name" name; entry "template" (hm_template h); entry "host" (js "direct_local");
             entry "trust" (js "reviewed")])
  end.

(** [operator.sessionID], or a new conversation. *)
Definition ensureSession (h : Home) : proc Home jstr :=
  match hm_session h with
  | Some session => mret session
  | None =>
      created ← rpc command "session.create" (JObj []) None;
      match resp_error created, resp_result created ≫= λ v, asString (get "id" v) with
      | None, Some id => setState (setHomeSession (Some id));; mret id
      | _, _ => throw (mkError (errorText "A project conversation could not be started." created))
      end
  end.

Definition continuePrompt (project : jstr) (prompt : jstr) (h : Home) : proc Home unit :=
  match trim prompt with
  | [] => skip
  | content =>
      session ← ensureSession h;
      submitted ← rpc command "turn.submit"
        (JObj [entry "content" content; entry "surface" (js "studio"); entry "project_id" project]) (Some session);
      match resp_error submitted with Some e => throw (mkError (err_message e)) | None => skip end
  end.

Definition createProject (h : Home) : proc Home unit :=
  match chosenName h with
  | [] => setState (setHomeNotice (Some (js "Name the project or describe what you want to build.")))
  | name =>
      setState (setHomeBusy true);;
      setState (setHomeNotice None);;
      try_finally
        (try_catch
           (response ← rpc command (creation name h).1 (creation name h).2 None;
            match resp_error response, resp_result response with
            | None, Some project =>
                refetch ["studio"; "projects"]%string;;
                continuePrompt (projectID project) (hm_goal h) h;;
                emit (Navigate (js "/studio/" ++ projectID project))
            | _, _ => throw (mkError (errorText "The project could not be created." response))
            end)
           (λ e, setState (setHomeNotice (Some (error_message e)))))
        (setHomeBusy false)
  end.

(** What the browser asks of the fields on screen. *)
Definition entryAccepted (h : Home) : bool :=
  match hm_mode h with
  | FromTemplate => true
  | FromClone => negb (jeqb (hm_repositoryURL h) []) && bool_decide (is_Some (URL_parse (hm_repositoryURL h)))
  | FromAttach => negb (jeqb (hm_directory h) [])
  | FromImport => negb (jeqb (hm_archivePath h) [])
  end.

Inductive HomeInput : Type :=
  | GoalTyped (v : jstr) | NameTyped (v : jstr) | ModeChosen (m : ProjectEntryMode) | TemplateChosen (v : jstr)
  | RepositoryTyped (v : jstr) | CredentialTyped (v : jstr) | DirectoryTyped (v : jstr) | ArchiveTyped (v : jstr)
  | ProjectPressed (id : jstr)
  | ProjectSubmitted.

Definition homeHandler (h : Home) (y : HomeInput) : proc Home unit :=
  match y with
  | GoalTyped v => setState (setGoal v)
  | NameTyped v => setState (setProjectName v)
  | ModeChosen m => setState (setEntryMode m)
  | TemplateChosen v => setState (setTemplate v)
  | RepositoryTyped v => setState (setRepositoryURL v)
  | CredentialTyped v => setState (setCredentialReference v)
  | DirectoryTyped v => setState (setDirectory v)
  | ArchiveTyped v => setState (setArchivePath v)
  | ProjectPressed id => emit (Navigate (js "/studio/" ++ id))
  | ProjectSubmitted => if hm_busy h || negb (entryAccepted h) then skip else createProject h
  end.
End HomePage.

(** ** The workspace *)

Inductive StudioPanel : Type :=
  | PlanTab | ChangesTab | CodeTab | TerminalTab | PreviewTab | ProblemsTab | TestsTab | SecurityTab | DataTab | DeployTab.
#[export] Instance StudioPanel_eq_dec : EqDecision StudioPanel.
Proof. solve_decision. Defined.

Definition panels : list (StudioPanel * string * string) :=
  [(PlanTab, "plan", "Plan"); (ChangesTab, "changes", "Changes"); (CodeTab, "code", "Code");
   (TerminalTab, "terminal", "Terminal"); (PreviewTab, "preview", "Preview"); (ProblemsTab, "problems", "Problems");
   (TestsTab, "tests", "Tests"); (SecurityTab, "security", "Security"); (DataTab, "data", "Data");
   (DeployTab, "deploy", "Deploy")]%string.

Definition panelName (p : StudioPanel) : string :=
  match find (λ r, bool_decide (r.1.1 = p)) panels with Some r => r.1.2 | None => EmptyString end.

(** The panel of the address; [plan] when it names none. *)
Definition panelOf (requested : option jstr) : StudioPanel :=
  match find (λ r, bool_decide (Some (js r.1.2) = requested)) panels with Some r => r.1.1 | None => PlanTab end.

(** [setPanel(next)]: the address after it. *)
Definition panelParameter (p : StudioPanel) : option jstr :=
  if decide (p = PlanTab) then None else Some (js (panelName p)).

Inductive TabKey : Type := KeyLeft | KeyRight | KeyHome | KeyEnd | KeyElse.

(** The tab that a key on the tab [index] moves to. *)
Definition tabTarget (k : TabKey) (index : nat) : option nat :=
  match k with
  | KeyHome => Some 0
  | KeyEnd => Some (length panels - 1)
  | KeyRight => Some ((index + 1 + length panels) mod length panels)
  | KeyLeft => Some ((index + length panels - 1) mod length panels)
  | KeyElse => None
  end.

Definition tabKeyDown (k : TabKey) (index : nat) (address : option jstr) : option jstr :=
  match tabTarget k index with
  | Some next => match panels !! next with Some r => panelParameter r.1.1 | None => address end
  | None => address
  end.

(** How often the project is fetched again, in milliseconds. *)
Definition projectInterval (s : OperatorState) (session : option jstr) : Z :=
  if existsb (λ kv, bool_decide (t_status kv.2 = Running) &&
                    match session with None => true | Some id => bool_decide (t_session_id kv.2 = Some id) end) (turns s)
  then 1000 else 5000.

Definition engineeringActivity (events : list EventEnvelope) : list EventEnvelope :=
  List.filter (λ e, prefixed ["workspace."; "task."; "agent."; "tool."; "deployment."; "verification."]%string e ||
                    jeqb (ev_type e) (js "turn.recovery") || jeqb (ev_type e) (js "turn.incomplete")) events.

Definition activityPayloadDetails (payload : json) : list (string * jstr) :=
  if isRecord (Some payload) then
    take 4 (omap (λ k, match asString (get k payload) with
                       | Some v => match trim v with [] => None | _ => Some (k, clip 240 240 v) end
                       | None => None
                       end) ["operation"; "name"; "phase"; "status"; "message"; "next_action"]%string)
  else [].

Definition activityTone (type : jstr) : string :=
  if includes (js "failed") type || includes (js "cancelled") type then "danger"
  else if includes (js "completed") type then "success" else "active".

Definition activityLabels : list (string * string) :=
  [("workspace.operation.queued", "Workspace action queued"); ("workspace.operation.started", "Workspace action started");
   ("workspace.operation.progress", "Workspace action progressing");
   ("workspace.operation.completed", "Workspace action completed");
   ("workspace.operation.failed", "Workspace action failed");
   ("workspace.operation.cancelled", "Workspace action cancelled");
   ("turn.recovery", "Work restored after reconnect"); ("turn.incomplete", "Work paused with progress saved")]%string.

Definition activityLabel `{CaseTable} (type : jstr) : jstr :=
  match find (λ r, jeqb type (js r.1)) activityLabels with Some r => js r.2 | None => humanize type end.

(** The rows of the activity card: label, tone, details, newest first. *)
Definition ActivityCard `{CaseTable} (events : list EventEnvelope) : list (jstr * string * list (string * jstr)) :=
  map (λ e, (activityLabel (ev_type e), activityTone (ev_type e), activityPayloadDetails (ev_payload e)))
    (reverse (slice_last 6 events)).

(** The width of the brief's progress bar. *)
Definition briefWidth (percent : option Z) : Z := Z.max 0 (Z.min 100 (default 0%Z percent)).

(** ** The project *)

Record Project : Type := { pj_id : jstr; pj_name : jstr; pj_revision : Z }.

Definition projectFields (p : Project) : list (jstr * json) :=
  [entry "project_id" (pj_id p); (js "workspace_revision", JNum (num_of_Z (pj_revision p)))].

(** Single fields of a payload. *)
Definition projectField (p : Project) : jstr * json := entry "project_id" (pj_id p).
Definition number (k : string) (z : Z) : jstr * json := (js k, JNum (num_of_Z z)).
Definition flagEntry (k : string) (b : bool) : jstr * json := (js k, JBool b).
Definition strings (k : string) (vs : list jstr) : jstr * json := (js k, JArr (map JStr vs)).

(** ** The plan *)

Inductive ProposalStatus : Type := Proposed | Accepted | OtherStatus (s : jstr).
#[export] Instance ProposalStatus_eq_dec : EqDecision ProposalStatus.
Proof. solve_decision. Defined.

Record Criterion : Type := { cr_id : option jstr; cr_description : option jstr }.
Record Proposal : Type := {
  pr_id : jstr;
  pr_status : ProposalStatus;
  pr_applied : bool;
  pr_criteria : list Criterion;
  pr_commands : list jstr;
}.
Record Assumption : Type := { as_id : jstr; as_material : bool; as_resolved : bool }.
Record Intent : Type := {
  it_id : jstr;
  it_project_id : jstr;
  it_assumptions : list Assumption;
  it_proposals : list Proposal;
  it_active : option jstr;
}.

Definition projectIntent (project : jstr) (intents : list Intent) : option Intent :=
  find (λ i, jeqb (it_project_id i) project) intents.

Definition activeProposal (i : Intent) : option Proposal :=
  orElse (find (λ p, bool_decide (Some (pr_id p) = it_active i)) (it_proposals i)) (last (it_proposals i)).

Record Plan : Type := { pl_notice : option jstr; pl_decisions : list (jstr * jstr); pl_comment : jstr }.

Definition initialPlan : Plan := {| pl_notice := None; pl_decisions := []; pl_comment := [] |}.

Definition setPlanNotice v p : Plan :=
  {| pl_notice := v; pl_decisions := pl_decisions p; pl_comment := pl_comment p |}.
Definition setDecisions v p : Plan :=
  {| pl_notice := pl_notice p; pl_decisions := v; pl_comment := pl_comment p |}.
Definition setPlanComment v p : Plan :=
  {| pl_notice := pl_notice p; pl_decisions := pl_decisions p; pl_comment := v |}.

(** The surroundings of a panel: the session, the project and its intent. *)
Record PanelEnv : Type := { pe_session : option jstr; pe_project : Project; pe_intent : option Intent }.

Definition decisionPayload (i : Intent) (a : Proposal) (accept : bool) (p : Plan) : json :=
  JObj [entry "intent_id" (it_id i); entry "proposal_id" (pr_id a); (js "accept", JBool accept);
        entry "reason" (match trim (pl_comment p) with
                       | [] => js (if accept then "Approved in the project workspace"
                                   else "Returned for revision in the project workspace")
                       | c => c
                       end);
        (js "assumption_decisions", JObj (map (λ kv, (kv.1, JStr kv.2)) (pl_decisions p)))].

Definition relistIntents : proc Plan unit := refetch ["studio"; "intents"]%string.

Definition decide_plan (x : PanelEnv) (accept : bool) (p : Plan) : proc Plan unit :=
  match pe_intent x with
  | None => skip
  | Some i =>
      match activeProposal i with
      | None => skip
      | Some a =>
          response ← rpc command "studio.proposal.decide" (decisionPayload i a accept p) (pe_session x);
          setState (setPlanNotice (Some (errorText
            (if accept then "Specification accepted." else "Specification returned for revision.") response)));;
          match resp_error response with
          | None => setState (setPlanComment []);; relistIntents
          | Some _ => skip
          end
      end
  end.

Definition applyPlan (x : PanelEnv) : proc Plan unit :=
  match pe_intent x with
  | None => skip
  | Some i =>
      match activeProposal i with
      | None => skip
      | Some a =>
          response ← rpc command "studio.proposal.apply"
            (JObj [entry "intent_id" (it_id i); entry "proposal_id" (pr_id a)]) (pe_session x);
          setState (setPlanNotice (Some (errorText "The accepted specification is now authoritative." response)));;
          match resp_error response with None => relistIntents | Some _ => skip end
      end
  end.

Inductive PlanInput : Type :=
  | DecisionTyped (id v : jstr)
  | CommentTyped (v : jstr)
  | AcceptPressed | RevisionPressed | ApplyPressed.

Definition planStatus (x : PanelEnv) : option Proposal := pe_intent x ≫= activeProposal.

(** The assumptions that have an input for their decision. *)
Definition asksDecision (x : PanelEnv) (id : jstr) : bool :=
  match pe_intent x with
  | Some i => existsb (λ a, jeqb (as_id a) id && as_material a && negb (as_resolved a)) (it_assumptions i)
  | None => false
  end.

Definition planHandler (p : Plan) (y : PanelEnv * PlanInput) : proc Plan unit :=
  let x := y.1 in
  let is_proposed := bool_decide (pr_status <$> planStatus x = Some Proposed) in
  match y.2 with
  | DecisionTyped id v => if asksDecision x id then setState (λ p, setDecisions (assoc_set id v (pl_decisions p)) p) else skip
  | CommentTyped v => if is_proposed then setState (setPlanComment v) else skip
  | AcceptPressed => if is_proposed then decide_plan x true p else skip
  | RevisionPressed => if is_proposed then decide_plan x false p else skip
  | ApplyPressed =>
      match planStatus x with
      | Some a => if bool_decide (pr_status a = Accepted) && negb (pr_applied a) then applyPlan x else skip
      | None => skip
      end
  end.

(** ** The terminal *)

Inductive TerminalMode : Type := OneShot | PTY.
#[export] Instance TerminalMode_eq_dec : EqDecision TerminalMode.
Proof. solve_decision. Defined.

Record TerminalState : Type := { ts_id : jstr; ts_mode : TerminalMode; ts_status : jstr; ts_argv : list jstr }.

(** [tp_replays] and [tp_controls] hold what the two queries loaded for each terminal. *)
Record TerminalPanel : Type := {
  tp_executable : jstr;
  tp_arguments : jstr;
  tp_workingDirectory : jstr;
  tp_mode : TerminalMode;
  tp_terminal : option TerminalState;
  tp_input : jstr;
  tp_busy : bool;
  tp_notice : option jstr;
  tp_replays : list (jstr * TerminalState);
  tp_controls : list (jstr * ControlLease);
}.

Definition initialTerminal : TerminalPanel := {|
  tp_executable := []; tp_arguments := []; tp_workingDirectory := []; tp_mode := OneShot; tp_terminal := None;
  tp_input := []; tp_busy := false; tp_notice := None; tp_replays := []; tp_controls := [] |}.

Definition setExecutable v t : TerminalPanel :=
  {| tp_executable := v; tp_arguments := tp_arguments t; tp_workingDirectory := tp_workingDirectory t;
     tp_mode := tp_mode t; tp_terminal := tp_terminal t; tp_input := tp_input t; tp_busy := tp_busy t;
     tp_notice := tp_notice t; tp_replays := tp_replays t; tp_controls := tp_controls t |}.
Definition setArgumentsText v t : TerminalPanel :=
  {| tp_executable := tp_executable t; tp_arguments := v; tp_workingDirectory := tp_workingDirectory t;
     tp_mode := tp_mode t; tp_terminal := tp_terminal t; tp_input := tp_input t; tp_busy := tp_busy t;
     tp_notice := tp_notice t; tp_replays := tp_replays t; tp_controls := tp_controls t |}.
Definition setWorkingDirectory v t : TerminalPanel :=
  {| tp_executable := tp_executable t; tp_arguments := tp_arguments t; tp_workingDirectory := v;
     tp_mode := tp_mode t; tp_terminal := tp_terminal t; tp_input := tp_input t; tp_busy := tp_busy t;
     tp_notice := tp_notice t; tp_replays := tp_replays t; tp_controls := tp_controls t |}.
Definition setTerminalMode v t : TerminalPanel :=
  {| tp_executable := tp_executable t; tp_arguments := tp_arguments t;
     tp_workingDirectory := tp_workingDirectory t; tp_mode := v; tp_terminal := tp_terminal t;
     tp_input := tp_input t; tp_busy := tp_busy t; tp_notice := tp_notice t; tp_replays := tp_replays t;
     tp_controls := tp_controls t |}.
Definition setTerminal v t : TerminalPanel :=
  {| tp_executable := tp_executable t; tp_arguments := tp_arguments t;
     tp_workingDirectory := tp_workingDirectory t; tp_mode := tp_mode t; tp_terminal := v;
     tp_input := tp_input t; tp_busy := tp_busy t; tp_notice := tp_notice t; tp_replays := tp_replays t;
     tp_controls := tp_controls t |}.
Definition setTerminalInput v t : TerminalPanel :=
  {| tp_executable := tp_executable t; tp_arguments := tp_arguments t;
     tp_workingDirectory := tp_workingDirectory t; tp_mode := tp_mode t; tp_terminal := tp_terminal t;
     tp_input := v; tp_busy := tp_busy t; tp_notice := tp_notice t; tp_replays := tp_replays t;
     tp_controls := tp_controls t |}.
Definition setTerminalBusy v t : TerminalPanel :=
  {| tp_executable := tp_executable t; tp_arguments := tp_arguments t;
     tp_workingDirectory := tp_workingDirectory t; tp_mode := tp_mode t; tp_terminal := tp_terminal t;
     tp_input := tp_input t; tp_busy := v; tp_notice := tp_notice t; tp_replays := tp_replays t;
     tp_controls := tp_controls t |}.
Definition setTerminalNotice v t : TerminalPanel :=
  {| tp_executable := tp_executable t; tp_arguments := tp_arguments t;
     tp_workingDirectory := tp_workingDirectory t; tp_mode := tp_mode t; tp_terminal := tp_terminal t;
     tp_input := tp_input t; tp_busy := tp_busy t; tp_notice := v; tp_replays := tp_replays t;
     tp_controls := tp_controls t |}.
Definition setReplays v t : TerminalPanel :=
  {| tp_executable := tp_executable t; tp_arguments := tp_arguments t;
     tp_workingDirectory := tp_workingDirectory t; tp_mode := tp_mode t; tp_terminal := tp_terminal t;
     tp_input := tp_input t; tp_busy := tp_busy t; tp_notice := tp_notice t; tp_replays := v;
     tp_controls := tp_controls t |}.
Definition setTerminalControls v t : TerminalPanel :=
  {| tp_executable := tp_executable t; tp_arguments := tp_arguments t;
     tp_workingDirectory := tp_workingDirectory t; tp_mode := tp_mode t; tp_terminal := tp_terminal t;
     tp_input := tp_input t; tp_busy := tp_busy t; tp_notice := tp_notice t; tp_replays := tp_replays t;
     tp_controls := v |}.

(** [[executable.trim(), ...argumentsText.split('\n').map(trim).filter(Boolean)]]. *)
Definition argv (t : TerminalPanel) : list jstr :=
  trim (tp_executable t) :: List.filter (λ a, negb (jeqb a [])) (map trim (splitOn 10 (tp_arguments t))).

Definition terminalLease (t : TerminalPanel) : option ControlLease :=
  s ← tp_terminal t; assoc_get (ts_id s) (tp_controls t).

(** [replay.data?.state ?? terminal]. *)
Definition currentTerminal (t : TerminalPanel) : option TerminalState :=
  s ← tp_terminal t; orElse (assoc_get (ts_id s) (tp_replays t)) (Some s).

Definition tellTerminal (n : jstr) : proc TerminalPanel unit := setState (setTerminalNotice (Some n)).

Section Terminal.
Variable parseTerminal : json → TerminalState.

Definition terminalModeName (m : TerminalMode) : string := match m with OneShot => "one_shot" | PTY => "pty" end.

Definition startPayload (x : PanelEnv) (t : TerminalPanel) : json :=
  JObj (projectFields (pe_project x) ++
    [entry "mode" (js (terminalModeName (tp_mode t))); (js "argv", JArr (map JStr (argv t)));
     entry "working_directory" (trim (tp_workingDirectory t)); (js "timeout_seconds", JNum (num_of_Z 900));
     (js "output_bytes", JNum (num_of_Z 1048576)); (js "columns", JNum (num_of_Z 120)); (js "rows", JNum (num_of_Z 34))]).

Definition startTerminal (x : PanelEnv) (t : TerminalPanel) : proc TerminalPanel unit :=
  setState (setTerminalBusy true);;
  response ← rpc command "project.process.start" (startPayload x t) (pe_session x);
  setState (setTerminalBusy false);;
  match resp_error response, resp_result response with
  | None, Some result =>
      setState (setTerminal (Some (parseTerminal result)));;
      tellTerminal (js "Process started in the confined project workspace.")
  | _, _ => tellTerminal (errorText "The supervised process could not start." response)
  end.

Inductive TerminalOp : Type := TerminalInput (text : jstr) | TerminalSignal | TerminalCancel.

Definition terminalOperation (o : TerminalOp) : string :=
  match o with
  | TerminalInput _ => "project.terminal.input"
  | TerminalSignal => "project.terminal.signal"
  | TerminalCancel => "project.terminal.cancel"
  end.

Definition terminalFields (o : TerminalOp) : list (jstr * json) :=
  match o with
  | TerminalInput v => [entry "input" (v ++ [10%N])]
  | TerminalSignal => [entry "signal" (js "INT")]
  | TerminalCancel => []
  end.

Definition terminalPayload (id lease : jstr) (revision : Z) (o : TerminalOp) : json :=
  JObj ([entry "terminal_id" id; entry "lease_id" lease; (js "lease_revision", JNum (num_of_Z revision))] ++ terminalFields o).

Definition terminalCommand (x : PanelEnv) (o : TerminalOp) (t : TerminalPanel) : proc TerminalPanel unit :=
  match tp_terminal t with
  | None => skip
  | Some s =>
      match terminalLease t with
      | Some l =>
          match cl_lease_id l with
          | Some id =>
              if bool_decide (cl_state l = LeaseActive) then
                response ← rpc command (terminalOperation o) (terminalPayload (ts_id s) id (cl_revision l) o) (pe_session x);
                tellTerminal (errorText "Terminal control accepted." response);;
                (match o, resp_error response with
                 | TerminalInput _, None => setState (setTerminalInput [])
                 | _, _ => skip
                 end);;
                refetch ["studio"; "terminal"]%string
              else tellTerminal (js "Take terminal control before sending input or signals.")
          | None => tellTerminal (js "Take terminal control before sending input or signals.")
          end
      | None => tellTerminal (js "Take terminal control before sending input or signals.")
      end
  end.

Definition terminalResource (id : jstr) : list (jstr * json) :=
  [entry "resource_kind" (js "terminal"); entry "resource_id" id].

Definition changePayload (op : ControlOp) (id : jstr) (l : ControlLease) : json :=
  JObj (terminalResource id ++
    match op with
    | Acquire => [(js "target_revision", JNum (num_of_Z (cl_owner_revision l))); (js "owner", cl_owner l);
                  (js "expected_lease_revision", JNum (num_of_Z (cl_revision l))); ttl]
    | Renew => leaseFields l ++ [ttl]
    | Release => leaseFields l
    end).

Definition changeDone (op : ControlOp) : string :=
  match op with
  | Acquire => "Terminal control acquired at the executor boundary."
  | Renew => "Terminal control renewed."
  | Release => "Terminal control returned to the executor."
  end.

Definition changeControl (x : PanelEnv) (op : ControlOp) (t : TerminalPanel) : proc TerminalPanel unit :=
  match tp_terminal t, terminalLease t with
  | Some s, Some l =>
      response ← rpc command (controlOperation op) (changePayload op (ts_id s) l) (pe_session x);
      tellTerminal (errorText (changeDone op) response);;
      refetch ["studio"; "terminal-control"]%string
  | _, _ => skip
  end.

Inductive TerminalInputs : Type :=
  | ExecutableTyped (v : jstr) | ArgumentsTyped (v : jstr) | WorkingDirectoryTyped (v : jstr)
  | TerminalModeChosen (m : TerminalMode)
  | StartSubmitted
  | TerminalTyped (v : jstr)
  | InputSubmitted
  | ControlPressed (op : ControlOp)
  | InterruptPressed | CancelPressed
  | ReplayLoaded (id : jstr) (s : TerminalState)
  | LeaseLoaded (id : jstr) (l : ControlLease).

Definition isRunning (t : TerminalPanel) : bool := bool_decide (ts_status <$> currentTerminal t = Some (js "running")).
Definition terminalLeaseActive (t : TerminalPanel) : bool := bool_decide (cl_state <$> terminalLease t = Some LeaseActive).
Definition inputShown (t : TerminalPanel) : bool :=
  isRunning t && bool_decide (ts_mode <$> currentTerminal t = Some PTY).

Definition terminalHandler (t : TerminalPanel) (y : PanelEnv * TerminalInputs) : proc TerminalPanel unit :=
  let x := y.1 in
  let gate (b : bool) (p : proc TerminalPanel unit) := if b then p else skip in
  match y.2 with
  | ExecutableTyped v => setState (setExecutable v)
  | ArgumentsTyped v => setState (setArgumentsText v)
  | WorkingDirectoryTyped v => setState (setWorkingDirectory v)
  | TerminalModeChosen m => setState (setTerminalMode m)
  | StartSubmitted => gate (negb (tp_busy t) && negb (jeqb (tp_executable t) [])) (startTerminal x t)
  | TerminalTyped v => gate (inputShown t && terminalLeaseActive t) (setState (setTerminalInput v))
  | InputSubmitted => gate (inputShown t && terminalLeaseActive t) (terminalCommand x (TerminalInput (tp_input t)) t)
  | ControlPressed Acquire =>
      gate (isRunning t && negb (terminalLeaseActive t) && bool_decide (is_Some (terminalLease t))) (changeControl x Acquire t)
  | ControlPressed op => gate (isRunning t && terminalLeaseActive t) (changeControl x op t)
  | InterruptPressed => gate (isRunning t && terminalLeaseActive t) (terminalCommand x TerminalSignal t)
  | CancelPressed => gate (isRunning t && terminalLeaseActive t) (terminalCommand x TerminalCancel t)
  | ReplayLoaded id s => setState (λ t, setReplays (assoc_set id s (tp_replays t)) t)
  | LeaseLoaded id l => setState (λ t, setTerminalControls (assoc_set id l (tp_controls t)) t)
  end.
End Terminal.

(** ** The code *)

(** [cp_index] is the revision of the index that was loaded. *)
Record CodePanel : Type := {
  cp_search : jstr;
  cp_kind : jstr;
  cp_matches : option json;
  cp_busy : bool;
  cp_notice : option jstr;
  cp_index : option Z;
}.

Definition initialCode : CodePanel := {|
  cp_search := []; cp_kind := js "lexical"; cp_matches := None; cp_busy := false; cp_notice := None; cp_index := None |}.

Definition setCodeSearch v c : CodePanel :=
  {| cp_search := v; cp_kind := cp_kind c; cp_matches := cp_matches c; cp_busy := cp_busy c;
     cp_notice := cp_notice c; cp_index := cp_index c |}.
Definition setSearchKind v c : CodePanel :=
  {| cp_search := cp_search c; cp_kind := v; cp_matches := cp_matches c; cp_busy := cp_busy c;
     cp_notice := cp_notice c; cp_index := cp_index c |}.
Definition setMatches v c : CodePanel :=
  {| cp_search := cp_search c; cp_kind := cp_kind c; cp_matches := v; cp_busy := cp_busy c;
     cp_notice := cp_notice c; cp_index := cp_index c |}.
Definition setCodeBusy v c : CodePanel :=
  {| cp_search := cp_search c; cp_kind := cp_kind c; cp_matches := cp_matches c; cp_busy := v;
     cp_notice := cp_notice c; cp_index := cp_index c |}.
Definition setCodeNotice v c : CodePanel :=
  {| cp_search := cp_search c; cp_kind := cp_kind c; cp_matches := cp_matches c; cp_busy := cp_busy c;
     cp_notice := v; cp_index := cp_index c |}.
Definition setCodeIndex v c : CodePanel :=
  {| cp_search := cp_search c; cp_kind := cp_kind c; cp_matches := cp_matches c; cp_busy := cp_busy c;
     cp_notice := cp_notice c; cp_index := v |}.

Definition refreshIndex (x : PanelEnv) : proc CodePanel unit :=
  setState (setCodeBusy true);;
  response ← rpc command "project.index.refresh" (JObj (projectFields (pe_project x))) None;
  setState (setCodeBusy false);;
  setState (setCodeNotice (Some (errorText "The project index is current." response)));;
  match resp_error response with None => refetch ["studio"; "index"]%string | Some _ => skip end.

Definition searchPayload (x : PanelEnv) (revision : Z) (c : CodePanel) : json :=
  JObj (projectFields (pe_project x) ++
    [(js "expected_index_revision", JNum (num_of_Z revision)); entry "kind" (cp_kind c); entry "query" (cp_search c);
     (js "limit", JNum (num_of_Z 30)); (js "max_result_bytes", JNum (num_of_Z 128000))]).

Definition runSearch (x : PanelEnv) (c : CodePanel) : proc CodePanel unit :=
  match cp_index c with
  | None => skip
  | Some revision =>
      setState (setCodeBusy true);;
      try_finally
        (try_catch
           (matches ← studioQuery "project.search" (searchPayload x revision c) None;
            setState (setMatches (Some matches));;
            setState (setCodeNotice None))
           (λ e, setState (setCodeNotice (Some (error_message e)))))
        (setCodeBusy false)
  end.

Inductive CodeInput : Type :=
  | CodeTyped (v : jstr) | KindChosen (v : jstr) | RefreshPressed | SearchSubmitted | IndexLoaded (revision : Z).

Definition codeHandler (c : CodePanel) (y : PanelEnv * CodeInput) : proc CodePanel unit :=
  match y.2 with
  | CodeTyped v => setState (setCodeSearch v)
  | KindChosen v => setState (setSearchKind v)
  | RefreshPressed => if cp_busy c then skip else refreshIndex y.1
  | SearchSubmitted =>
      if cp_busy c || jeqb (cp_search c) [] || bool_decide (cp_index c = None) then skip else runSearch y.1 c
  | IndexLoaded revision => setState (setCodeIndex (Some revision))
  end.
