(* ===== verification/StudioProps.v ===== *)
(** * What the software studio guarantees

    Claims about [Studio]: terminals are driven under a reported lease, projects from
    outside are untrusted and created one at a time, plans are decided as they stand, tabs
    and addresses agree; and a project that is created twice when its first prompt fails. *)
From stdpp Require Import base sets list strings.
From Stdlib Require Import ZArith NArith.
From S2P Require Import Prelude JsString JsValue JsArray Regex Catalog Protocol Display Envelope.
From S2P Require Import Events EventsFacts Store EventsProps LocalClient Client Operator TuiFormat TuiApp.
From S2P Require Import Chat ChatApp Async Computer Sessions Media Studio.

(** An operation that is not among the guarded ones, by computation. *)
Lemma not_among (o : jstr) (l : list jstr) (P : Prop) : bool_decide (o ∈ l) = false → o ∈ l → P.
Proof. intros Hb Hin. by rewrite bool_decide_true in Hb. Qed.
Ltac not_guarded := let Hin := fresh in intros Hin; eapply not_among, Hin; reflexivity.

(** The world after a step of a replay, with its pending calls listed. *)
Ltac played := unfold option_list; cbn [app option_rect at_start here waiting fmap option_fmap option_map].

(** The effects of a replay, and the run it stands for. *)
Definition effectsOf {S X} (handler : S → X → proc S unit) (s0 : S) (xs : list (input X)) : list Effect :=
  from_option snd [] (play handler xs (at_start s0) []).
Definition plays {S X} (handler : S → X → proc S unit) (s0 : S) (xs : list (input X)) : bool :=
  from_option (λ _, true) false (play handler xs (at_start s0) []).

Lemma effects_run {S X} (handler : S → X → proc S unit) (s0 : S) (xs : list (input X)) :
  plays handler s0 xs = true → ∃ w, runs handler s0 xs w (effectsOf handler s0 xs).
Proof.
  unfold plays, effectsOf. destruct (play handler xs (at_start s0) []) as [[w out]|] eqn:Hp; [|done].
  intros _. exists w. by apply play_reaches.
Qed.

(** Whether a request for the operation was issued. *)
Definition issuedFor (operation : string) (e : Effect) : bool :=
  match e with Issued (Rpc r) => jeqb (rq_operation r) (js operation) | _ => false end.

(** ** Terminals *)

Definition terminalOperations : list jstr :=
  [js "project.terminal.input"; js "project.terminal.signal"; js "project.terminal.cancel"].

Section Terminals.
Variable parseTerminal : json → TerminalState.
Variable reported : jstr → ControlLease → Prop.

Definition controlsReported (t : TerminalPanel) : Prop :=
  ∀ id l, assoc_get id (tp_controls t) = Some l → reported id l.

(** A request that drives a terminal names it and a lease of it that was reported active. *)
Definition leasedRequest (r : Request) : Prop :=
  ∃ id lease l o, rq_payload r = terminalPayload id lease (cl_revision l) o ∧ rq_operation r = js (terminalOperation o) ∧
                  cl_lease_id l = Some lease ∧ cl_state l = LeaseActive ∧ reported id l.

Definition leasedEffect (e : Effect) : Prop :=
  match e with Issued (Rpc r) => rq_operation r ∈ terminalOperations → leasedRequest r | _ => True end.
Local Abbreviation good := (safe controlsReported leasedEffect anyAnswer).

Lemma other_operation (o : string) k payload session :
  bool_decide (js o ∈ terminalOperations) = false →
  leasedEffect (Issued (Rpc {| rq_kind := k; rq_operation := js o; rq_payload := payload; rq_session := session |})).
Proof. intros Ho. unfold leasedEffect. cbn [rq_operation]. by apply not_among. Qed.

Lemma tell_good n : good (tellTerminal n).
Proof. by split. Qed.

Lemma start_good x t : good (startTerminal parseTerminal x t).
Proof.
  split; [done|]. split; [by apply (other_operation "project.process.start")|]. intros [e|r] _; [done|].
  split; [done|]. cbn [mbind proc_bind].
  destruct (resp_error r); [apply tell_good|]. by destruct (resp_result r); [split|apply tell_good].
Qed.

Lemma command_good x o t : controlsReported t → good (terminalCommand x o t).
Proof.
  intros Ht. unfold terminalCommand. destruct (tp_terminal t) as [s|] eqn:Hs; [|done].
  unfold terminalLease. rewrite Hs. cbn [mbind option_bind].
  destruct (assoc_get (ts_id s) (tp_controls t)) as [l|] eqn:Hl; [|apply tell_good].
  destruct (cl_lease_id l) as [id|] eqn:Hid; [|apply tell_good].
  case_bool_decide as Ha; [|apply tell_good].
  split; [|intros [e|r] _; [done|]; split; [done|]; by destruct o, (resp_error r)].
  intros _. exists (ts_id s), id, l, o. split_and!; auto.
Qed.

Lemma change_good x op t : good (changeControl x op t).
Proof.
  unfold changeControl. destruct (tp_terminal t), (terminalLease t); try done.
  split; [|by intros [e|r] _]. by destruct op; apply other_operation.
Qed.

Lemma terminal_good t y :
  (∀ x id l, y = (x, LeaseLoaded id l) → reported id l) → controlsReported t → good (terminalHandler parseTerminal t y).
Proof.
  destruct y as [x y]. intros Hy Ht. unfold terminalHandler. cbn [fst snd].
  destruct y as [v|v|v|m| |v| |[]| | |id s|id l]; try done;
    try (destruct (_ && _); [|done]);
    [apply start_good|done|by apply command_good|apply change_good|apply change_good|apply change_good
    |by apply command_good|by apply command_good|].
  split; [|done]. intros t' Ht' i l'. cbn [setTerminalControls tp_controls]. rewrite assoc_get_set.
  case_decide as Hi; [|apply Ht']. intros [= <-]. subst i. by apply (Hy x).
Qed.
End Terminals.

(** Terminal input, signals and cancellation are sent under a lease: over any run of the
    panel, every such request names a terminal and carries the identifier and revision of
    a control lease that was loaded for that same terminal and was active. *)
Theorem terminal_commands_are_leased parseTerminal (xs : list (input (PanelEnv * TerminalInputs))) w out :
  runs (terminalHandler parseTerminal) initialTerminal xs w out →
  Forall (leasedEffect (λ id l, ∃ x, Act (x, LeaseLoaded id l) ∈ xs)) out.
Proof.
  intros Hr. set (reported := λ id l, ∃ x, Act (x, LeaseLoaded id l) ∈ xs).
  apply (runs_safe (terminalHandler parseTerminal) (controlsReported reported) (leasedEffect reported)
           (λ y, ∀ x id l, y = (x, LeaseLoaded id l) → reported id l) anyAnswer initialTerminal xs w).
  - intros t y. apply terminal_good.
  - by intros id l.
  - done.
  - apply Forall_forall. intros [y|i o] Hin; cbn; [|done]. intros x id l ->. by exists x.
Qed.

(** ** Projects *)

Definition creationOperations : list jstr :=
  [js "project.create"; js "project.clone"; js "project.attach"; js "project.import"].

Definition isCreation (c : call) : bool :=
  match c with Rpc r => bool_decide (rq_operation r ∈ creationOperations) | _ => false end.

(** The trust a new project is asked to have: only a template of our own is reviewed. *)
Definition expectedTrust (operation : jstr) : string :=
  if jeqb operation (js "project.create") then "reviewed" else "untrusted".

Definition confined (e : Effect) : Prop :=
  match e with
  | Issued (Rpc r) =>
      rq_operation r ∈ creationOperations →
      rq_session r = None ∧ get "trust" (rq_payload r) = Some (JStr (js (expectedTrust (rq_operation r)))) ∧
      ∃ name, name ≠ [] ∧ get "name" (rq_payload r) = Some (JStr name)
  | _ => True
  end.

Section Projects.
Context `{Platform}.
Variable isLetterOrNumber : N → bool.
Variable projectID : json → jstr.
Local Abbreviation handler := (homeHandler isLetterOrNumber projectID).
Local Abbreviation good := (safe (λ _ : Home, True) confined anyAnswer).

Lemma creation_confined name h :
  name ≠ [] →
  confined (Issued (Rpc {| rq_kind := command; rq_operation := js (creation name h).1;
                           rq_payload := (creation name h).2; rq_session := None |})).
Proof. intros Hn _. split; [done|]. unfold creation. destruct (hm_mode h); (split; [reflexivity|by exists name]). Qed.

Lemma session_good h : good (ensureSession h).
Proof.
  unfold ensureSession. destruct (hm_session h); [done|]. split; [not_guarded|].
  intros [e|r] _; [done|]. cbn [mbind proc_bind].
  destruct (resp_error r); [done|]. by destruct (resp_result r ≫= _).
Qed.

Lemma prompt_good project prompt h : good (continuePrompt project prompt h).
Proof.
  unfold continuePrompt. destruct (trim prompt); [done|]. apply safe_bind; [apply session_good|].
  intros session. split; [not_guarded|]. intros [e|r] _; [done|]. cbn [mbind proc_bind]. by destruct (resp_error r).
Qed.

Lemma create_good h : good (createProject isLetterOrNumber projectID h).
Proof.
  unfold createProject. destruct (chosenName isLetterOrNumber h) as [|c n] eqn:Hn; [done|].
  split; [done|]. split; [done|]. apply safe_try_finally; [done|]. apply safe_try_catch; [|done].
  split; [by apply creation_confined|]. intros [e|r] _; [done|]. cbn [mbind proc_bind].
  destruct (resp_error r); [done|]. destruct (resp_result r); [|done]. split; [done|]. intros o _.
  apply safe_bind; [apply prompt_good|]. by intros [].
Qed.

Lemma home_good h y : good (handler h y).
Proof. destruct y; try done. unfold homeHandler. destruct (_ || _); [done|]. apply create_good. Qed.

Lemma prompt_steady project prompt h : neutral hm_busy (λ _, false) (continuePrompt project prompt h).
Proof.
  unfold continuePrompt. destruct (trim prompt); [done|]. apply neutral_bind.
  - unfold ensureSession. destruct (hm_session h); [done|]. split; [done|]. intros [e|r]; [done|]. cbn [mbind proc_bind].
    destruct (resp_error r); [done|]. by destruct (resp_result r ≫= _).
  - intros session. split; [done|]. intros [e|r]; [done|]. cbn [mbind proc_bind]. by destruct (resp_error r).
Qed.

(** Everything a creation does happens under the flag. *)
Lemma create_spans_busy h : hm_busy h = false → spans hm_busy (createProject isLetterOrNumber projectID h) h.
Proof.
  intros Hb. unfold createProject. destruct (chosenName isLetterOrNumber h); [done|].
  cbn [setState mbind proc_bind spans]. apply spans_try_finally; [|done]. apply neutral_try_catch; [|by split]. split; [done|].
  intros [e|r]; [done|]. cbn [mbind proc_bind]. destruct (resp_error r); [done|]. destruct (resp_result r); [|done].
  split; [done|]. intros o. apply neutral_bind; [apply prompt_steady|]. by intros [].
Qed.

Lemma home_spans h y :
  neutral hm_busy isCreation (handler h y) ∨ (hm_busy h = false ∧ spans hm_busy (handler h y) h).
Proof.
  destruct y; try (left; by split). unfold homeHandler. destruct (hm_busy h) eqn:Hb; [by left|].
  destruct (entryAccepted h); [right|by left]. split; [done|]. by apply create_spans_busy.
Qed.
End Projects.

(** A project comes from the page with a name and with the trust its origin deserves, and
    one at a time: in any run every request for a project has a name that is not empty,
    asks for [reviewed] only when it is made from a template and for [untrusted] when it
    is cloned, attached or imported, and at most one such request is awaited, with the
    button disabled. *)
Theorem projects_are_confined `{Platform} isLetterOrNumber projectID session
    (xs : list (input HomeInput)) w out :
  runs (homeHandler isLetterOrNumber projectID) (initialHome session) xs w out →
  Forall confined out ∧ guardedWaits isCreation (waiting w) ≤ (if hm_busy (here w) then 1 else 0).
Proof.
  intros Hr. split; [|by eapply (runs_spanning _ hm_busy), Hr; [apply home_spans|]].
  apply (runs_safe (homeHandler isLetterOrNumber projectID) (λ _, True) confined (λ _, True) anyAnswer
           (initialHome session) xs w); [|done|done|].
  - intros h y _ _. apply home_good.
  - apply Forall_forall. by intros [y|i o] _.
Qed.

Definition creationRequest (name : jstr) (h : Home) : call :=
  Rpc {| rq_kind := command; rq_operation := js (creation name h).1; rq_payload := (creation name h).2; rq_session := None |}.
Definition promptRequest (content session project : jstr) : call :=
  Rpc {| rq_kind := command; rq_operation := js "turn.submit";
         rq_payload := JObj [entry "content" content; entry "surface" (js "studio"); entry "project_id" project];
         rq_session := Some (JStr session) |}.
Definition projectsListed : Effect := Issued (Refetch ["studio"; "projects"]%string).

(** A project whose first prompt is refused is made again: the project exists, but the
    page stays with its form as it was, shows the error of the prompt as if the project
    had not been created, and submitting once more sends the same creation a second time. *)
Theorem refused_prompt_creates_the_project_again `{Platform} isLetterOrNumber projectID (h : Home) (o : oracle)
    created submitted project session error :
  hm_busy h = false → entryAccepted h = true → chosenName isLetterOrNumber h ≠ [] → trim (hm_goal h) ≠ [] →
  hm_session h = Some session →
  o (creationRequest (chosenName isLetterOrNumber h) h) = inr created →
  resp_error created = None → resp_result created = Some project →
  o (promptRequest (trim (hm_goal h)) session (projectID project)) = inr submitted →
  resp_error submitted = Some error →
  ∃ w, play (homeHandler isLetterOrNumber projectID)
         [Act ProjectSubmitted; Settled 0 o; Settled 0 o; Settled 0 o; Act ProjectSubmitted] (at_start h) [] =
       Some (w, [Issued (creationRequest (chosenName isLetterOrNumber h) h); projectsListed;
                 Issued (promptRequest (trim (hm_goal h)) session (projectID project));
                 Issued (creationRequest (chosenName isLetterOrNumber h) h)]).
Proof.
  intros Hb He Hn Hg Hs Hc Hce Hcr Hp Hpe.
  assert (∀ h', hm_busy h' = false → entryAccepted h' = true → chosenName isLetterOrNumber h' = chosenName isLetterOrNumber h →
    creation (chosenName isLetterOrNumber h) h' = creation (chosenName isLetterOrNumber h) h →
    ∃ k, run (homeHandler isLetterOrNumber projectID h' ProjectSubmitted) h' =
         (setHomeNotice None (setHomeBusy true h'), [Issued (creationRequest (chosenName isLetterOrNumber h) h)],
          Some (Waiter (creationRequest (chosenName isLetterOrNumber h) h) k))) as Hsubmit.
  { intros h' Hb' He' Hn' Hc'. cbn [homeHandler]. rewrite Hb', He'. cbn [negb orb]. unfold createProject.
    rewrite Hn'. destruct (chosenName isLetterOrNumber h); [done|]. rewrite Hc'. eexists. reflexivity. }
  destruct (chosenName isLetterOrNumber h) as [|c n] eqn:Hcn; [done|].
  erewrite play_act; [|cbn [homeHandler at_start here]; rewrite Hb, He; cbn [negb orb]; unfold createProject;
    rewrite Hcn; reflexivity].
  unfold creationRequest in Hc. played.
  erewrite play_settled; [|cbn [w_call w_cont fmap option_fmap option_map]; rewrite Hc;
    cbn [mbind proc_bind try_catch try_finally]; rewrite Hce, Hcr; reflexivity].
  destruct (trim (hm_goal h)) as [|t goal] eqn:Hgoal; [done|]. unfold promptRequest in Hp.
  played.
  erewrite play_settled; [|cbn [w_call w_cont mbind proc_bind]; unfold continuePrompt, ensureSession; rewrite Hgoal, Hs; reflexivity].
  played.
  erewrite play_settled; [|cbn [w_call w_cont fmap option_fmap option_map]; rewrite Hp; cbn [mbind proc_bind try_catch try_finally]; rewrite Hpe; reflexivity].
  played.
  edestruct Hsubmit as [k Hk]; [| | | |erewrite play_act by exact Hk; by eexists]; done.
Qed.

(** ** Tabs *)

Definition tabIndex (p : StudioPanel) : nat :=
  match list_find (λ r, r.1.1 = p) panels with Some (i, _) => i | None => 0 end.

(** The panel on screen after a key on the tab of the panel [p]. *)
Definition tabAfter (k : TabKey) (p : StudioPanel) : StudioPanel :=
  panelOf (tabKeyDown k (tabIndex p) (panelParameter p)).

(** The address is a faithful record of the tab: opening a panel and reading the address
    back gives that panel, whatever it is, and an address that names no panel gives the
    plan.  The arrow keys undo one another and walk through all ten tabs, wrapping at both
    ends: from any panel, at most nine presses reach any other. *)
Theorem tabs_follow_the_address (p q : StudioPanel) :
  panelOf (panelParameter p) = p ∧
  (∀ v, v ∉ ((λ r, js r.1.2) <$> panels) → panelOf (Some v) = PlanTab) ∧
  tabAfter KeyLeft (tabAfter KeyRight p) = p ∧ tabAfter KeyRight (tabAfter KeyLeft p) = p ∧
  tabAfter KeyHome p = PlanTab ∧ tabAfter KeyEnd p = DeployTab ∧ tabAfter KeyElse p = p ∧
  ∃ n, n < length panels ∧ Nat.iter n (tabAfter KeyRight) p = q.
Proof.
  split; [by destruct p; vm_compute|]. split.
  { intros v Hv. unfold panelOf. destruct (find _ panels) as [r|] eqn:Hf; [|done]. exfalso. apply Hv.
    apply find_some in Hf as [Hr He]. apply bool_decide_eq_true, (inj Some) in He. subst v.
    apply (list_elem_of_fmap_2 (λ r, js r.1.2)). by apply list_elem_of_In. }
  split_and!; [by destruct p; vm_compute..|].
  exists ((tabIndex q + length panels - tabIndex p) mod length panels).
  split; [by apply Nat.mod_upper_bound|]. by destruct p, q; vm_compute.
Qed.

(** ** Plans *)

(** A decision or an application of a proposal that the screen asked for. *)
Definition followsProposal (asked : PanelEnv → PlanInput → Prop) (e : Effect) : Prop :=
  match e with
  | Issued (Rpc r) =>
      (rq_operation r = js "studio.proposal.decide" →
       ∃ x i a (accept : bool) p, asked x (if accept then AcceptPressed else RevisionPressed) ∧ pe_intent x = Some i ∧
         activeProposal i = Some a ∧ pr_status a = Proposed ∧ rq_payload r = decisionPayload i a accept p) ∧
      (rq_operation r = js "studio.proposal.apply" →
       ∃ x i a, asked x ApplyPressed ∧ pe_intent x = Some i ∧ activeProposal i = Some a ∧ pr_status a = Accepted ∧
         pr_applied a = false ∧ rq_payload r = JObj [entry "intent_id" (it_id i); entry "proposal_id" (pr_id a)])
  | _ => True
  end.

Section Plans.
Variable asked : PanelEnv → PlanInput → Prop.
Local Abbreviation good := (safe (λ _ : Plan, True) (followsProposal asked) anyAnswer).

Lemma decide_good x (accept : bool) p :
  asked x (if accept then AcceptPressed else RevisionPressed) → pr_status <$> planStatus x = Some Proposed →
  good (decide_plan x accept p).
Proof.
  unfold planStatus, decide_plan. intros Ha Hs. destruct (pe_intent x) as [i|] eqn:Hi; [|done].
  cbn [mbind option_bind] in Hs. destruct (activeProposal i) as [a|] eqn:Hp; [|done]. injection Hs as Hs.
  split.
  - split; [|intros He; by vm_compute in He].
    intros _. exists x, i, a, accept, p. split_and!; done.
  - intros [e|r] _; [done|]. split; [done|]. cbn [mbind proc_bind]. by destruct (resp_error r).
Qed.

Lemma apply_good x a :
  asked x ApplyPressed → planStatus x = Some a → pr_status a = Accepted → pr_applied a = false → good (applyPlan x).
Proof.
  unfold planStatus, applyPlan. intros Ha Hp Hs Hf. destruct (pe_intent x) as [i|] eqn:Hi; [|done].
  cbn [mbind option_bind] in Hp. rewrite Hp. split.
  - split; [intros He; by vm_compute in He|]. intros _. exists x, i, a. split_and!; done.
  - intros [e|r] _; [done|]. split; [done|]. cbn [mbind proc_bind]. by destruct (resp_error r).
Qed.

Lemma plan_good p y : asked y.1 y.2 → good (planHandler p y).
Proof.
  destruct y as [x y]. cbn [fst snd]. intros Ha. unfold planHandler. cbn [fst snd].
  destruct y; try (destruct (bool_decide _) eqn:Hb; [apply bool_decide_eq_true in Hb|done]); try done.
  - by destruct (asksDecision x id).
  - by apply decide_good.
  - by apply decide_good.
  - destruct (planStatus x) as [a|] eqn:Hp; [|done].
    destruct (bool_decide (pr_status a = Accepted)) eqn:Hs; [apply bool_decide_eq_true in Hs|done].
    destruct (pr_applied a) eqn:Hf; [done|]. by apply (apply_good x a).
Qed.
End Plans.

(** Proposals are decided as they stand: over any run of the plan panel, a decision is
    sent only for the active proposal of the project's intent while it is proposed, an
    application only for an accepted one that was not applied, each at the press of its
    button, and names that intent and that proposal. *)
Theorem decisions_follow_the_proposal (xs : list (input (PanelEnv * PlanInput))) w out :
  runs planHandler initialPlan xs w out → Forall (followsProposal (λ x y, Act (x, y) ∈ xs)) out.
Proof.
  intros Hr. apply (runs_safe planHandler (λ _, True) _ (λ y, Act y ∈ xs) anyAnswer initialPlan xs w); try done.
  - intros p [x y] Hy _. by apply plan_good.
  - apply Forall_forall. by intros [y|i o] Hin.
Qed.

(** ** A start that never ends *)

Definition startsProcess (e : Effect) : Prop :=
  match e with Issued (Rpc r) => rq_operation r = js "project.process.start" | _ => False end.

Section Stuck.
Variable parseTerminal : json → TerminalState.
Local Abbreviation stuck := (safe (λ t, tp_busy t = true) (λ e, ~ startsProcess e) anyAnswer).

Lemma tell_stuck n : stuck (tellTerminal n).
Proof. by split. Qed.

Lemma command_stuck x o t : stuck (terminalCommand x o t).
Proof.
  unfold terminalCommand. destruct (tp_terminal t) as [s|]; [|done].
  destruct (terminalLease t) as [l|]; [|apply tell_stuck]. destruct (cl_lease_id l) as [id|]; [|apply tell_stuck].
  destruct (bool_decide _); [|apply tell_stuck]. split; [intros He; by destruct o; vm_compute in He|].
  intros [e|r] _; [by intros []|]. split; [done|].
  cbn [mbind proc_bind]. destruct o, (resp_error r); repeat split; by intros [].
Qed.

Lemma change_stuck x op t : stuck (changeControl x op t).
Proof.
  unfold changeControl. destruct (tp_terminal t), (terminalLease t); try done.
  split; [intros He; by destruct op; vm_compute in He|]. intros [e|r] _; [by intros []|]. repeat split; [done|by intros []].
Qed.

Lemma handler_stuck t y : tp_busy t = true → stuck (terminalHandler parseTerminal t y).
Proof.
  destruct y as [x y]. intros Hb. unfold terminalHandler. cbn [fst snd].
  destruct y as [v|v|v|m| |v| |op| | |id s|id l]; try (by split).
  - by rewrite Hb.
  - destruct (_ && _); [by split|done].
  - destruct (_ && _); [apply command_stuck|done].
  - destruct op; (destruct (_ && _); [apply change_stuck|done]).
  - destruct (_ && _); [apply command_stuck|done].
  - destruct (_ && _); [apply command_stuck|done].
Qed.
End Stuck.

(** A start that is rejected (the connection is lost, say) leaves the panel busy for good:
    the exception escapes before the flag is cleared, and from then on, as long as the
    panel is open, no input and no answer makes it start a process or clears the flag. *)
Theorem rejected_start_disables_the_panel parseTerminal x (t : TerminalPanel) (o : oracle) error :
  tp_busy t = false → tp_executable t ≠ [] →
  (∀ r, rq_operation r = js "project.process.start" → o (Rpc r) = inl error) →
  ∃ w started, play (terminalHandler parseTerminal) [Act (x, StartSubmitted); Settled 0 o] (at_start t) [] =
               Some (w, [started; Escaped error]) ∧ startsProcess started ∧ waiting w = [] ∧
  ∀ xs w' out, runs (terminalHandler parseTerminal) (here w) xs w' out →
               tp_busy (here w') = true ∧ Forall (λ e, ~ startsProcess e) out.
Proof.
  intros Hb He Ho.
  erewrite play_act; [|unfold terminalHandler; cbn [fst snd at_start here]; rewrite Hb;
    unfold jeqb; rewrite bool_decide_false by done; reflexivity].
  played. erewrite play_settled; [|cbn [w_call w_cont]; rewrite Ho by reflexivity; reflexivity].
  eexists _, _. split; [reflexivity|]. split; [reflexivity|]. split; [done|]. intros xs w' out Hr.
  assert (Forall (allowed (λ _, True) anyAnswer) xs) as Hx by (apply Forall_forall; by intros [y|i o'] _).
  destruct (runs_safe (terminalHandler parseTerminal) (λ t, tp_busy t = true) (λ e, ~ startsProcess e) (λ _, True)
              anyAnswer (setTerminalBusy true t) xs w' out (λ s y _, handler_stuck parseTerminal s y) eq_refl Hr Hx) as [[Hw _] Hq].
  by split.
Qed.

(** ** Examples *)

Definition project0 : Project := {| pj_id := js "p1"; pj_name := js "Site"; pj_revision := 7 |}.
Definition env0 : PanelEnv := {| pe_session := Some (js "s1"); pe_project := project0; pe_intent := None |}.
Definition replied (result : json) : ResponseEnvelope :=
  {| resp_request_id := []; resp_revision := 1; resp_result := Some result; resp_error := None |}.

(** A control plane that gives every request this result. *)
Definition answersWith (result : json) : oracle := λ c,
  match c with
  | Rpc _ => inr (replied result)
  | Both (Rpc _) (Rpc _) => inr (replied result, replied result)
  | Refetch _ => inr ()
  | _ => inl (mkError (js "not answered"))
  end.

Definition terminal0 : TerminalState := {| ts_id := js "t1"; ts_mode := PTY; ts_status := js "running"; ts_argv := [js "sh"] |}.
Definition lease0 : ControlLease := {|
  cl_lease_id := Some (js "l1"); cl_owner := JNull; cl_owner_revision := 1; cl_state := LeaseActive; cl_authority := ByOperator;
  cl_revision := 3; cl_expires_at := None; cl_reconciliation := [] |}.

(** A process is started, its lease is loaded as active, and a line is sent to it. *)
Definition terminalRun : list (input (PanelEnv * TerminalInputs)) :=
  [Act (env0, ExecutableTyped (js "sh")); Act (env0, StartSubmitted); Settled 0 (answersWith (JObj []));
   Act (env0, LeaseLoaded (js "t1") lease0); Act (env0, TerminalTyped (js "ls")); Act (env0, InputSubmitted)].

#[local] Abbreviation terminal_handler := (terminalHandler (λ _, terminal0)).

Lemma terminal_commands_are_leased_witness :
  existsb (issuedFor "project.terminal.input") (effectsOf terminal_handler initialTerminal terminalRun) = true ∧
  Forall (leasedEffect (λ id l, ∃ x, Act (x, LeaseLoaded id l) ∈ terminalRun))
    (effectsOf terminal_handler initialTerminal terminalRun).
Proof.
  split; [vm_compute; reflexivity|].
  destruct (effects_run terminal_handler initialTerminal terminalRun) as [w Hr]; [vm_compute; reflexivity|].
  exact (terminal_commands_are_leased _ _ w _ Hr).
Defined.

(** A site is described and created from a template. *)
Definition homeRun : list (input HomeInput) :=
  [Act (GoalTyped (js "Build a site")); Act ProjectSubmitted; Settled 0 (answersWith (JObj [entry "id" (js "p1")])); Settled 0 (answersWith JNull)].

#[local] Abbreviation home_handler := (homeHandler (H := test_platform) (λ _, true) (λ v, default [] (asString (get "id" v)))).

Lemma projects_are_confined_witness :
  existsb (issuedFor "project.create") (effectsOf home_handler (initialHome (Some (js "s1"))) homeRun) = true ∧
  Forall confined (effectsOf home_handler (initialHome (Some (js "s1"))) homeRun).
Proof.
  split; [vm_compute; reflexivity|].
  destruct (effects_run home_handler (initialHome (Some (js "s1"))) homeRun) as [w Hr]; [vm_compute; reflexivity|].
  exact (proj1 (projects_are_confined (H := test_platform) _ _ _ _ w _ Hr)).
Defined.

Definition proposal0 (s : ProposalStatus) : Proposal := {|
  pr_id := js "r1"; pr_status := s; pr_applied := false;
  pr_criteria := [{| cr_id := Some (js "c1"); cr_description := Some (js "Loads fast") |}]; pr_commands := [js "go test"] |}.
Definition intent0 (s : ProposalStatus) : Intent := {|
  it_id := js "i1"; it_project_id := js "p1"; it_assumptions := []; it_proposals := [proposal0 s]; it_active := Some (js "r1") |}.
Definition planEnv (s : ProposalStatus) : PanelEnv :=
  {| pe_session := Some (js "s1"); pe_project := project0; pe_intent := Some (intent0 s) |}.
Definition planRun : list (input (PanelEnv * PlanInput)) :=
  [Act (planEnv Proposed, AcceptPressed); Settled 0 (answersWith JNull); Act (planEnv Accepted, ApplyPressed)].

Lemma decisions_follow_the_proposal_witness :
  existsb (issuedFor "studio.proposal.apply") (effectsOf planHandler initialPlan planRun) = true ∧
  Forall (followsProposal (λ x y, Act (x, y) ∈ planRun)) (effectsOf planHandler initialPlan planRun).
Proof.
  split; [vm_compute; reflexivity|].
  destruct (effects_run planHandler initialPlan planRun) as [w Hr]; [vm_compute; reflexivity|].
  exact (decisions_follow_the_proposal _ w _ Hr).
Defined.

(** The project is made, but its first prompt is refused. *)
Definition refused : oracle := λ c,
  match c with
  | Rpc r => inr (if jeqb (rq_operation r) (js "turn.submit")
                  then {| resp_request_id := []; resp_revision := 1; resp_result := None;
                          resp_error := Some {| err_code := js "busy"; err_message := js "A turn is running."; err_retryable := true |} |}
                  else replied (JObj [entry "id" (js "p1")]))
  | _ => inl (mkError (js "not answered"))
  end.

Lemma refused_prompt_creates_the_project_again_witness :
  ∃ w out, play home_handler [Act ProjectSubmitted; Settled 0 refused; Settled 0 refused; Settled 0 refused; Act ProjectSubmitted]
             (at_start (setGoal (js "Build a site") (initialHome (Some (js "s1"))))) [] = Some (w, out) ∧
           length (List.filter (issuedFor "project.create") out) = 2.
Proof.
  destruct (refused_prompt_creates_the_project_again (H := test_platform) (λ _, true) (λ v, default [] (asString (get "id" v)))
              (setGoal (js "Build a site") (initialHome (Some (js "s1")))) refused (replied (JObj [entry "id" (js "p1")]))
              {| resp_request_id := []; resp_revision := 1; resp_result := None;
                 resp_error := Some {| err_code := js "busy"; err_message := js "A turn is running."; err_retryable := true |} |}
              (JObj [entry "id" (js "p1")]) (js "s1")
              {| err_code := js "busy"; err_message := js "A turn is running."; err_retryable := true |}) as [w Hw];
    try (vm_compute; reflexivity); try (intros He; vm_compute in He; discriminate He).
  eexists w, _. split; [exact Hw|]. vm_compute. reflexivity.
Defined.
