(* ===== verification/Changes.v ===== *)
(** * The changes of a project

    The changes panel of [ui/web/src/routes/StudioRoutes.tsx]: reviewing, staging and
    committing files, working with remotes under a grant, review comments and the history
    of patches.

    The text fields of the panel are one store, indexed by [ChangesField].  The data of
    the four queries are inputs; the unique keys the handlers draw are part of the input
    that draws them.  The two provider queries run together; [changesFirst] says which of
    two that fail is reported. *)
From stdpp Require Import base list strings.
From Stdlib Require Import ZArith NArith.
From S2P Require Import Prelude JsString JsValue JsArray Regex Catalog Protocol Display Envelope.
From S2P Require Import Events LocalClient Client Operator TuiFormat TuiApp Chat ChatApp Async Computer Sessions Media Studio.

(** ** Data *)

Record GitProjection : Type := { gp_head : option jstr; gp_branch : option jstr; gp_detached : bool; gp_changed : nat }.

Record ReviewFile : Type := {
  rf_path : jstr;
  rf_current_sha256 : jstr;
  rf_index_status : jstr;
  rf_work_status : jstr;
  rf_diff : option jstr;
  rf_diff_truncated : bool;
}.
#[export] Instance ReviewFile_eq_dec : EqDecision ReviewFile.
Proof. solve_decision. Defined.

Record ReviewGroup : Type := { rg_criterion : jstr; rg_files : list ReviewFile }.
Record GitReviewComment : Type := { gc_id : jstr; gc_path : jstr; gc_body : jstr; gc_resolved : bool }.
Record GitDiffSelection : Type := { gd_patch : jstr; gd_sha256 : jstr; gd_truncated : bool }.
Record PatchReceipt : Type := { pt_id : jstr; pt_files : nat; pt_rollback_available : bool }.
Record ProviderItem : Type := { pi_number : jstr; pi_title : jstr; pi_state : jstr; pi_draft : bool }.
Record ProviderProjection : Type := { pv_issues : list ProviderItem; pv_changes : list ProviderItem }.

Inductive ChangesField : Type :=
  | CommentPath | CommentBody | HunkPatch | BranchName | CommitMessage | TagName | RemoteName | RemoteBranch
  | ProviderName | RepositoryName | RemoteHead | MergeRevision | DraftTitle.
#[export] Instance ChangesField_eq_dec : EqDecision ChangesField.
Proof. solve_decision. Defined.

Record Changes : Type := {
  ch_text : ChangesField → jstr;
  ch_grant : jstr;
  ch_notice : option jstr;
  ch_selected : list jstr;
  ch_hunk : option GitDiffSelection;
  ch_provider : option ProviderProjection;
  ch_git : option GitProjection;
  ch_gitFailed : bool;
  ch_review : list ReviewGroup;
  ch_comments : list GitReviewComment;
  ch_history : list PatchReceipt;
}.

Definition initialChanges : Changes := {|
  ch_text := λ f, match f with
                  | RemoteName => js "origin" | RemoteBranch => js "main" | ProviderName => js "github" | _ => []
                  end;
  ch_grant := []; ch_notice := None; ch_selected := []; ch_hunk := None; ch_provider := None; ch_git := None;
  ch_gitFailed := false; ch_review := []; ch_comments := []; ch_history := [] |}.

Definition setTexts v c : Changes :=
  {| ch_text := v; ch_grant := ch_grant c; ch_notice := ch_notice c; ch_selected := ch_selected c;
     ch_hunk := ch_hunk c; ch_provider := ch_provider c; ch_git := ch_git c; ch_gitFailed := ch_gitFailed c;
     ch_review := ch_review c; ch_comments := ch_comments c; ch_history := ch_history c |}.
Definition setGrant v c : Changes :=
  {| ch_text := ch_text c; ch_grant := v; ch_notice := ch_notice c; ch_selected := ch_selected c;
     ch_hunk := ch_hunk c; ch_provider := ch_provider c; ch_git := ch_git c; ch_gitFailed := ch_gitFailed c;
     ch_review := ch_review c; ch_comments := ch_comments c; ch_history := ch_history c |}.
Definition setChangesNotice v c : Changes :=
  {| ch_text := ch_text c; ch_grant := ch_grant c; ch_notice := v; ch_selected := ch_selected c;
     ch_hunk := ch_hunk c; ch_provider := ch_provider c; ch_git := ch_git c; ch_gitFailed := ch_gitFailed c;
     ch_review := ch_review c; ch_comments := ch_comments c; ch_history := ch_history c |}.
Definition setSelectedPaths v c : Changes :=
  {| ch_text := ch_text c; ch_grant := ch_grant c; ch_notice := ch_notice c; ch_selected := v;
     ch_hunk := ch_hunk c; ch_provider := ch_provider c; ch_git := ch_git c; ch_gitFailed := ch_gitFailed c;
     ch_review := ch_review c; ch_comments := ch_comments c; ch_history := ch_history c |}.
Definition setHunkDiff v c : Changes :=
  {| ch_text := ch_text c; ch_grant := ch_grant c; ch_notice := ch_notice c; ch_selected := ch_selected c;
     ch_hunk := v; ch_provider := ch_provider c; ch_git := ch_git c; ch_gitFailed := ch_gitFailed c;
     ch_review := ch_review c; ch_comments := ch_comments c; ch_history := ch_history c |}.
Definition setProviderProjection v c : Changes :=
  {| ch_text := ch_text c; ch_grant := ch_grant c; ch_notice := ch_notice c; ch_selected := ch_selected c;
     ch_hunk := ch_hunk c; ch_provider := v; ch_git := ch_git c; ch_gitFailed := ch_gitFailed c;
     ch_review := ch_review c; ch_comments := ch_comments c; ch_history := ch_history c |}.
Definition setGit v c : Changes :=
  {| ch_text := ch_text c; ch_grant := ch_grant c; ch_notice := ch_notice c; ch_selected := ch_selected c;
     ch_hunk := ch_hunk c; ch_provider := ch_provider c; ch_git := v; ch_gitFailed := ch_gitFailed c;
     ch_review := ch_review c; ch_comments := ch_comments c; ch_history := ch_history c |}.
Definition setGitFailed v c : Changes :=
  {| ch_text := ch_text c; ch_grant := ch_grant c; ch_notice := ch_notice c; ch_selected := ch_selected c;
     ch_hunk := ch_hunk c; ch_provider := ch_provider c; ch_git := ch_git c; ch_gitFailed := v;
     ch_review := ch_review c; ch_comments := ch_comments c; ch_history := ch_history c |}.
Definition setReview v c : Changes :=
  {| ch_text := ch_text c; ch_grant := ch_grant c; ch_notice := ch_notice c; ch_selected := ch_selected c;
     ch_hunk := ch_hunk c; ch_provider := ch_provider c; ch_git := ch_git c; ch_gitFailed := ch_gitFailed c;
     ch_review := v; ch_comments := ch_comments c; ch_history := ch_history c |}.
Definition setComments v c : Changes :=
  {| ch_text := ch_text c; ch_grant := ch_grant c; ch_notice := ch_notice c; ch_selected := ch_selected c;
     ch_hunk := ch_hunk c; ch_provider := ch_provider c; ch_git := ch_git c; ch_gitFailed := ch_gitFailed c;
     ch_review := ch_review c; ch_comments := v; ch_history := ch_history c |}.
Definition setHistory v c : Changes :=
  {| ch_text := ch_text c; ch_grant := ch_grant c; ch_notice := ch_notice c; ch_selected := ch_selected c;
     ch_hunk := ch_hunk c; ch_provider := ch_provider c; ch_git := ch_git c; ch_gitFailed := ch_gitFailed c;
     ch_review := ch_review c; ch_comments := ch_comments c; ch_history := v |}.

Definition typeInto (f : ChangesField) (v : jstr) (c : Changes) : Changes :=
  setTexts (λ g, if decide (g = f) then v else ch_text c g) c.

(** [reviewGroups.flatMap((group) => group.files)]. *)
Definition files (c : Changes) : list ReviewFile := flat_map rg_files (ch_review c).

Definition head_of (c : Changes) : option jstr := ch_git c ≫= gp_head.

(** ** The effects *)

(** After every render: the comment gets a first path, and paths without a file are
    dropped from the selection. *)
Definition pathExists (fs : list ReviewFile) (p : jstr) : bool := existsb (λ f, jeqb (rf_path f) p) fs.
Definition prunePaths (fs : list ReviewFile) (paths : list jstr) : list jstr := List.filter (pathExists fs) paths.

Definition afterRender (c : Changes) : proc Changes unit :=
  (match ch_text c CommentPath, files c with
   | [], f :: _ => setState (typeInto CommentPath (rf_path f))
   | _, _ => skip
   end);;
  setState (λ s, setSelectedPaths (prunePaths (files c) (ch_selected s)) s).

(** Rendering with the identities of the arrays: [files] is a new array in every render,
    the effect runs when its dependency is another array than at the last run, and its
    update renders again unless it returns the array that is already the state. *)
Record Commit : Type := { cm_deps : option nat; cm_selected : nat * list jstr; cm_fresh : nat }.

Definition commitPanel (fs : list ReviewFile) (m : Commit) : Commit * bool :=
  let deps := cm_fresh m in
  if bool_decide (cm_deps m = Some deps) then
    ({| cm_deps := Some deps; cm_selected := cm_selected m; cm_fresh := S deps |}, false)
  else
    let next := (S deps, prunePaths fs (cm_selected m).2) in
    ({| cm_deps := Some deps; cm_selected := next; cm_fresh := S (S deps) |}, negb (bool_decide (next.1 = (cm_selected m).1))).

(** Rendering until no update is left, or until the fuel is used up. *)
Fixpoint renderLoop (fuel : nat) (fs : list ReviewFile) (m : Commit) : option Commit :=
  match fuel with
  | 0 => None
  | S fuel => let '(m', again) := commitPanel fs m in if again then renderLoop fuel fs m' else Some m'
  end.

(** ** Requests *)

Definition optionalText (k : string) (v : option jstr) : list (jstr * json) :=
  match v with Some s => [entry k s] | None => [] end.

(** [{ path: file.path, sha256: file.current_sha256 }]. *)
Definition expectation (f : ReviewFile) : json := JObj [entry "path" (rf_path f); entry "sha256" (rf_current_sha256 f)].
Definition expectations (fs : list ReviewFile) : jstr * json := (js "paths", JArr (map expectation fs)).

Definition selectedFiles (c : Changes) : list ReviewFile :=
  List.filter (λ f, existsb (jeqb (rf_path f)) (ch_selected c)) (files c).

Definition tellChanges (n : jstr) : proc Changes unit := setState (setChangesNotice (Some n)).
Definition refreshGit : proc Changes unit := refetch ["studio"; "git"; "review"; "project"]%string.
Definition refreshComments : proc Changes unit := refetch ["studio"; "comments"]%string.

(** Where a request succeeded, [k]. *)
Definition succeeded (r : ResponseEnvelope) (k : proc Changes unit) : proc Changes unit :=
  match resp_error r with None => k | Some _ => skip end.
Definition said (done : jstr) (r : ResponseEnvelope) : jstr :=
  match resp_error r with Some e => err_message e | None => done end.

Definition addComment (p : Project) (c : Changes) : proc Changes unit :=
  response ← rpc command "project.git.review.comment"
    (JObj [entry "project_id" (pj_id p); entry "path" (ch_text c CommentPath); entry "body" (ch_text c CommentBody)]) None;
  tellChanges (said (js "Review comment saved as a durable work item.") response);;
  succeeded response (setState (typeInto CommentBody []);; refreshComments).

Definition resolveComment (p : Project) (id : jstr) : proc Changes unit :=
  response ← rpc command "project.git.review.resolve" (JObj [entry "project_id" (pj_id p); entry "comment_id" id]) None;
  tellChanges (said (js "Review comment resolved.") response);;
  succeeded response refreshComments.

Definition rollbackPatch (p : Project) (patch : jstr) : proc Changes unit :=
  response ← rpc command "project.patch.rollback"
    (JObj [entry "project_id" (pj_id p); entry "patch_set_id" patch;
           (js "workspace_revision", JNum (num_of_Z (pj_revision p)))]) None;
  tellChanges (said (js "The selected project version was restored transactionally.") response);;
  succeeded response (refetch ["studio"; "git"; "review"; "project"; "patches"]%string).

Definition atHead (p : Project) (head : jstr) : list (jstr * json) := projectFields p ++ [entry "expected_head" head].

Definition stageFile (p : Project) (f : ReviewFile) (c : Changes) : proc Changes unit :=
  match head_of c with
  | None => skip
  | Some head =>
      response ← rpc command "project.git.stage" (JObj (atHead p head ++ [expectations [f]])) None;
      tellChanges (said (rf_path f ++ js " staged from the exact reviewed content.") response);;
      succeeded response refreshGit
  end.

Definition stageHunks (p : Project) (c : Changes) : proc Changes unit :=
  match head_of c, ch_hunk c with
  | Some head, Some diff =>
      response ← rpc command "project.git.stage.hunks"
        (JObj (atHead p head ++ [entry "diff_sha256" (gd_sha256 diff); entry "patch" (ch_text c HunkPatch);
                                 expectations (selectedFiles c)])) None;
      tellChanges (said (js "Only the reviewed hunks were staged against the exact current diff.") response);;
      succeeded response (setState (setHunkDiff None);; setState (typeInto HunkPatch []);; refreshGit)
  | _, _ => skip
  end.

Definition author : list (jstr * json) := [entry "author_name" (js "Ion Operator"); entry "author_email" (js "ion@localhost")].

Definition commit (p : Project) (checkpoint : bool) (c : Changes) : proc Changes unit :=
  match head_of c with
  | None => skip
  | Some head =>
      response ← rpc command (if checkpoint then "project.git.checkpoint" else "project.git.commit")
        (JObj (atHead p head ++ [entry "message" (ch_text c CommitMessage)] ++ author ++ [expectations (selectedFiles c)])) None;
      tellChanges (said (js (if checkpoint then "Checkpoint" else "Commit") ++ js " created from " ++
                         nat_str (length (selectedFiles c)) ++ js " exact reviewed paths.") response);;
      succeeded response
        (setState (typeInto CommitMessage []);; setState (setSelectedPaths []);; refreshGit)
  end.

(** [expected_head: git.data?.head], which is left out where there is none. *)
Definition atHeadIfAny (p : Project) (c : Changes) : list (jstr * json) :=
  projectFields p ++ optionalText "expected_head" (head_of c).

Definition createBranch (p : Project) (c : Changes) : proc Changes unit :=
  let name := ch_text c BranchName in
  response ← rpc command "project.git.branch.create" (JObj (atHeadIfAny p c ++ [entry "name" name])) None;
  tellChanges (said (js "Branch " ++ name ++ js " created without switching the active tree.") response);;
  succeeded response (setState (typeInto BranchName []);; refreshGit).

Definition createTag (p : Project) (c : Changes) : proc Changes unit :=
  let name := ch_text c TagName in
  response ← rpc command "project.git.tag.create"
    (JObj (atHeadIfAny p c ++ [entry "name" name; entry "message" (js "Release " ++ name)] ++ author)) None;
  tellChanges (said (js "Annotated tag " ++ name ++ js " created.") response);;
  succeeded response (setState (typeInto TagName []);; refreshGit).

Definition merge (p : Project) (c : Changes) : proc Changes unit :=
  let revision := ch_text c MergeRevision in
  response ← rpc command "project.git.merge" (JObj (atHeadIfAny p c ++ [entry "revision" revision])) None;
  tellChanges (said (js "Merged " ++ revision ++ js " after verifying a clean working tree.") response);;
  succeeded response (setState (typeInto MergeRevision []);; refreshGit).

(** ** Remotes *)

Inductive GrantAction : Type := GrantRead | GrantPush | GrantForce | GrantDraft.
Definition grantAction (a : GrantAction) : string :=
  match a with GrantRead => "read" | GrantPush => "push" | GrantForce => "force-push" | GrantDraft => "draft.create" end.

Definition repositoryFields (p : Project) (c : Changes) : list (jstr * json) :=
  [entry "project_id" (pj_id p); entry "provider" (ch_text c ProviderName); entry "repository" (ch_text c RepositoryName)].

Definition grantOf (r : ResponseEnvelope) : option jstr := resp_result r ≫= λ v, asString (get "permission_grant" v).

Definition issueGrant (p : Project) (a : GrantAction) (c : Changes) : proc Changes unit :=
  response ← rpc command "project.git.provider.grant"
    (JObj (repositoryFields p c ++ [(js "actions", JArr [JStr (js (grantAction a))]);
                                    (js "ttl_seconds", JNum (num_of_Z 600))])) None;
  tellChanges (said (js "A 10-minute " ++ js (grantAction a) ++ js " grant is ready for this exact repository.") response);;
  match grantOf response with Some g => setState (setGrant g) | None => skip end.

Inductive RemoteOp : Type := GitSync | GitPull | GitPush | ForceWithLease.
Definition remoteName (o : RemoteOp) : string :=
  match o with GitSync => "sync" | GitPull => "pull" | GitPush => "push" | ForceWithLease => "force-with-lease" end.
Definition remoteOperationName (o : RemoteOp) : jstr := js "project.git." ++ js (remoteName o).

Definition remoteFields (o : RemoteOp) (head key : jstr) (c : Changes) : list (jstr * json) :=
  match o with
  | GitSync => []
  | GitPull => [entry "branch" (ch_text c RemoteBranch)]
  | GitPush | ForceWithLease =>
      [entry "source_revision" head; entry "target_branch" (ch_text c RemoteBranch);
       entry "expected_remote_head" (ch_text c RemoteHead); entry "idempotency_key" key]
  end.

Section Remotes.
Context `{CaseTable}.

Definition remoteOperation (p : Project) (o : RemoteOp) (key : jstr) (c : Changes) : proc Changes unit :=
  match head_of c with
  | None => skip
  | Some head =>
      response ← await (Rpc {| rq_kind := command; rq_operation := remoteOperationName o;
        rq_payload := JObj (atHead p head ++
          [entry "provider" (ch_text c ProviderName); entry "remote" (ch_text c RemoteName);
           entry "permission_grant" (ch_grant c)] ++ remoteFields o head key c); rq_session := None |}) Ret;
      tellChanges (said (humanize (default (remoteOperationName o) (last (splitOn 46 (remoteOperationName o)))) ++
                         js " completed with a durable receipt.") response);;
      succeeded response refreshGit
  end.

Variable parseDiff : json → GitDiffSelection.
(** The issues and the change requests of a provider's answer; none where it has none. *)
Variable parseIssues parseChanges : json → list ProviderItem.

Definition providerRequest (operation : string) (p : Project) (c : Changes) : Request :=
  {| rq_kind := query; rq_operation := js operation;
     rq_payload := JObj (repositoryFields p c ++ [entry "permission_grant" (ch_grant c)]); rq_session := None |}.

Definition loadProvider (p : Project) (changesFirst : bool) (c : Changes) : proc Changes unit :=
  try_catch
    (both ← await (Both (Rpc (providerRequest "project.git.provider.issues" p c))
                        (Rpc (providerRequest "project.git.provider.changes" p c))) Ret;
     match queryResult "project.git.provider.issues" both.1, queryResult "project.git.provider.changes" both.2 with
     | inr issues, inr changes =>
         setState (setProviderProjection (Some {| pv_issues := parseIssues issues; pv_changes := parseChanges changes |}));;
         tellChanges (js "Provider issues and change requests are normalized into the Studio review model.")
     | inl e, inr _ | inr _, inl e => throw e
     | inl e, inl e' => throw (if changesFirst then e' else e)
     end)
    (λ e, tellChanges (error_message e)).

Definition createDraft (p : Project) (key : jstr) (c : Changes) : proc Changes unit :=
  match ch_git c, head_of c with
  | Some git, Some head =>
      response ← rpc command "project.git.provider.draft"
        (JObj (repositoryFields p c ++ optionalText "source_branch" (gp_branch git) ++
               [entry "target_branch" (ch_text c RemoteBranch); entry "title" (ch_text c DraftTitle);
                entry "body" (js "Created from reviewed Ion Software Studio changes."); entry "expected_head" head;
                entry "idempotency_key" key; entry "permission_grant" (ch_grant c)])) None;
      tellChanges (said (js "A draft change request was created exactly once and reconciled by marker.") response);;
      succeeded response (setState (typeInto DraftTitle []))
  | _, _ => skip
  end.

Definition prepareHunks (p : Project) (f : ReviewFile) : proc Changes unit :=
  try_catch
    (result ← studioQuery "project.git.diff" (JObj [entry "project_id" (pj_id p); (js "paths", JArr [JStr (rf_path f)])]) None;
     let diff := parseDiff result in
     setState (setHunkDiff (Some diff));;
     setState (typeInto HunkPatch (gd_patch diff));;
     setState (setSelectedPaths [rf_path f]);;
     tellChanges (js (if gd_truncated diff then "The diff is truncated and cannot be safely staged by hunk."
                      else "Edit the patch below to keep only reviewed hunks.")))
    (λ e, tellChanges (error_message e)).

(** ** The panel *)

Inductive ChangesInput : Type :=
  | FieldTyped (f : ChangesField) (v : jstr)
  | PathToggled (f : ReviewFile) (checked : bool)
  | StagePressed (f : ReviewFile)
  | HunksPressed (f : ReviewFile)
  | StageHunksPressed | HunksCancelled
  | BranchSubmitted | TagSubmitted | MergePressed
  | CommitPressed (checkpoint : bool)
  | GrantPressed (a : GrantAction)
  | RemotePressed (o : RemoteOp) (key : jstr)
  | ProviderPressed (changesFirst : bool)
  | DraftPressed (key : jstr)
  | CommentSubmitted | ResolvePressed (id : jstr) | RollbackPressed (patch : jstr)
  | PanelRendered
  | GitLoaded (g : GitProjection) | GitFailed
  | ReviewLoaded (gs : list ReviewGroup) | CommentsLoaded (cs : list GitReviewComment) | HistoryLoaded (rs : list PatchReceipt).

Definition blank (v : jstr) : bool := jeqb (trim v) [].
Definition hasGit (c : Changes) : bool := bool_decide (is_Some (ch_git c)).
Definition listShown (f : ReviewFile) (c : Changes) : bool :=
  hasGit c && negb (ch_gitFailed c) && bool_decide (f ∈ files c).

(** [[...new Set([...current, path])]]. *)
Definition addPath (p : jstr) (paths : list jstr) : list jstr := if existsb (jeqb p) paths then paths else paths ++ [p].

(** The fields on screen. *)
Definition fieldShown (f : ChangesField) (c : Changes) : bool :=
  match f with
  | CommentPath | CommentBody => negb (bool_decide (files c = []))
  | HunkPatch => bool_decide (is_Some (ch_hunk c))
  | _ => hasGit c
  end.

Definition hunksReady (c : Changes) : bool :=
  match ch_hunk c with Some d => negb (gd_truncated d) && negb (blank (ch_text c HunkPatch)) | None => false end.
Definition commitReady (c : Changes) : bool :=
  hasGit c && negb (blank (ch_text c CommitMessage)) && negb (bool_decide (ch_selected c = [])).
Definition granted (c : Changes) : bool := hasGit c && negb (jeqb (ch_grant c) []).

Definition changesHandler (c : Changes) (y : Project * ChangesInput) : proc Changes unit :=
  let p := y.1 in
  let gate (b : bool) (q : proc Changes unit) := if b then q else skip in
  match y.2 with
  | FieldTyped f v => gate (fieldShown f c) (setState (typeInto f v))
  | PathToggled f checked =>
      gate (listShown f c)
        (setState (λ s, setSelectedPaths
           (if checked then addPath (rf_path f) (ch_selected s)
            else List.filter (λ q, negb (jeqb q (rf_path f))) (ch_selected s)) s))
  | StagePressed f => gate (listShown f c && negb (jeqb (rf_current_sha256 f) [])) (stageFile p f c)
  | HunksPressed f => gate (listShown f c && bool_decide (is_Some (rf_diff f)) && negb (rf_diff_truncated f)) (prepareHunks p f)
  | StageHunksPressed => gate (hunksReady c) (stageHunks p c)
  | HunksCancelled => gate (bool_decide (is_Some (ch_hunk c))) (setState (setHunkDiff None))
  | BranchSubmitted => gate (hasGit c && negb (jeqb (ch_text c BranchName) [])) (createBranch p c)
  | TagSubmitted => gate (hasGit c && negb (jeqb (ch_text c TagName) [])) (createTag p c)
  | MergePressed => gate (hasGit c && negb (blank (ch_text c MergeRevision))) (merge p c)
  | CommitPressed checkpoint => gate (commitReady c) (commit p checkpoint c)
  | GrantPressed a => gate (hasGit c && negb (blank (ch_text c RepositoryName))) (issueGrant p a c)
  | RemotePressed ForceWithLease key =>
      gate (granted c && negb (blank (ch_text c RemoteHead))) (remoteOperation p ForceWithLease key c)
  | RemotePressed o key => gate (granted c) (remoteOperation p o key c)
  | ProviderPressed changesFirst =>
      gate (granted c && negb (blank (ch_text c RepositoryName))) (loadProvider p changesFirst c)
  | DraftPressed key =>
      gate (granted c && negb (blank (ch_text c DraftTitle)) && negb (from_option gp_detached true (ch_git c)))
        (createDraft p key c)
  | CommentSubmitted =>
      gate (negb (bool_decide (files c = [])) && negb (jeqb (ch_text c CommentBody) [])) (addComment p c)
  | ResolvePressed id =>
      gate (existsb (λ m, jeqb (gc_id m) id && negb (gc_resolved m)) (ch_comments c)) (resolveComment p id)
  | RollbackPressed patch =>
      gate (existsb (λ r, jeqb (pt_id r) patch && pt_rollback_available r) (ch_history c)) (rollbackPatch p patch)
  | PanelRendered => afterRender c
  | GitLoaded g => setState (λ s, setGitFailed false (setGit (Some g) s))
  | GitFailed => setState (setGitFailed true)
  | ReviewLoaded gs => setState (setReview gs)
  | CommentsLoaded cs => setState (setComments cs)
  | HistoryLoaded rs => setState (setHistory rs)
  end.

(** What the provider section lists. *)
Definition issueRow (i : ProviderItem) : jstr := js "#" ++ pi_number i ++ js " " ++ pi_title i ++ js " · " ++ pi_state i.
Definition changeRow (i : ProviderItem) : jstr :=
  js "#" ++ pi_number i ++ js " " ++ pi_title i ++ js " · " ++ (if pi_draft i then js "draft" else pi_state i).

(** The heading of a patch. *)
Definition patchTitle (r : PatchReceipt) : jstr := nat_str (pt_files r) ++ js (if pt_files r =? 1 then " file" else " files").

(** The status letter of a file. *)
Definition statusLetter (f : ReviewFile) : jstr :=
  if jeqb (rf_index_status f) (js " ") then rf_work_status f else rf_index_status f.
End Remotes.
