(* ===== verification/ChangesProps.v ===== *)
(** * What the changes panel guarantees

    Claims about [Changes]: content is staged and committed as it was reviewed, remotes are
    reached with a grant that was issued, and the panel that never stops rendering. *)
From stdpp Require Import base sets list strings.
From Stdlib Require Import ZArith NArith.
From S2P Require Import Prelude JsString JsValue JsArray Regex Catalog Protocol Display Envelope.
From S2P Require Import Events LocalClient Client Operator TuiFormat TuiApp Chat ChatApp Async Computer Sessions Media.
From S2P Require Import Studio StudioProps Changes.

Definition contentOperations : list jstr :=
  [js "project.git.stage"; js "project.git.stage.hunks"; js "project.git.commit"; js "project.git.checkpoint"].
Definition remoteOperations : list jstr :=
  [js "project.git.sync"; js "project.git.pull"; js "project.git.push"; js "project.git.force-with-lease";
   js "project.git.provider.issues"; js "project.git.provider.changes"; js "project.git.provider.draft"].

Fixpoint rpcsOf (c : call) : list Request :=
  match c with Rpc r => [r] | Both a b => rpcsOf a ++ rpcsOf b | _ => [] end.

(** What a request may be. *)
Definition requested (P : Request → Prop) (e : Effect) : Prop :=
  match e with Issued c => ∀ r, r ∈ rpcsOf c → P r | _ => True end.

Lemma requested_single (P : Request → Prop) r : P r → requested P (Issued (Rpc r)).
Proof. by intros Hr r' ->%list_elem_of_singleton. Qed.

(** ** Content *)

(** What was last loaded. *)
Definition latestHead (xs : list (input (Project * ChangesInput))) : option jstr :=
  foldl (λ h x, match x with Act (_, GitLoaded g) => gp_head g | _ => h end) None xs.
Definition latestReview (xs : list (input (Project * ChangesInput))) : list ReviewGroup :=
  foldl (λ gs x, match x with Act (_, ReviewLoaded gs') => gs' | _ => gs end) [] xs.

(** The reviewed files whose boxes are ticked, in the order of the review. *)
Definition ticked (gs : list ReviewGroup) (selected : list jstr) (fs : list ReviewFile) : Prop :=
  fs `sublist_of` flat_map rg_files gs ∧
  ∀ f, f ∈ fs ↔ f ∈ flat_map rg_files gs ∧ rf_path f ∈ selected.

(** The request of a button that changes content, pressed on the screen [c] of a project
    with that head and review. *)
Definition asPressed (head : option jstr) (gs : list ReviewGroup) (c : Changes) (p : Project) (y : ChangesInput)
    (r : Request) : Prop :=
  ∃ h fs, head = Some h ∧
    get "project_id" (rq_payload r) = Some (JStr (pj_id p)) ∧
    get "workspace_revision" (rq_payload r) = Some (JNum (num_of_Z (pj_revision p))) ∧
    get "expected_head" (rq_payload r) = Some (JStr h) ∧
    get "paths" (rq_payload r) =
      Some (JArr (map (λ f, JObj [(js "path", JStr (rf_path f)); (js "sha256", JStr (rf_current_sha256 f))]) fs)) ∧
    match y with
    | StagePressed f =>
        rq_operation r = js "project.git.stage" ∧ fs = [f] ∧ f ∈ flat_map rg_files gs ∧ rf_current_sha256 f ≠ []
    | StageHunksPressed =>
        rq_operation r = js "project.git.stage.hunks" ∧ ticked gs (ch_selected c) fs ∧
        ∃ d, ch_hunk c = Some d ∧ gd_truncated d = false ∧
             get "diff_sha256" (rq_payload r) = Some (JStr (gd_sha256 d)) ∧
             get "patch" (rq_payload r) = Some (JStr (ch_text c HunkPatch))
    | CommitPressed checkpoint =>
        rq_operation r = js (if checkpoint then "project.git.checkpoint" else "project.git.commit") ∧
        ticked gs (ch_selected c) fs ∧
        get "message" (rq_payload r) = Some (JStr (ch_text c CommitMessage)) ∧ trim (ch_text c CommitMessage) ≠ [] ∧
        ((∀ q, q ∈ ch_selected c → ∃ f, f ∈ flat_map rg_files gs ∧ rf_path f = q) → fs ≠ [])
    | _ => False
    end.

Lemma selectedFiles_ticked c : ticked (ch_review c) (ch_selected c) (selectedFiles c).
Proof.
  assert (Hin : ∀ q l, existsb (jeqb q) l = true ↔ q ∈ l).
  { intros q l. rewrite existsb_exists, list_elem_of_In. split.
    - intros (x & Hx & ->%jeqb_eq). done.
    - intros Hx. exists q. split; [done|by apply jeqb_eq]. }
  split.
  - change (selectedFiles c `sublist_of` files c). unfold selectedFiles. induction (files c) as [|f l IH]; [constructor|].
    cbn [List.filter]. destruct (existsb _ _); by constructor.
  - intros f. unfold selectedFiles. rewrite list_elem_of_In, filter_In, Hin, <- list_elem_of_In. reflexivity.
Qed.

Lemma ticked_nonempty gs selected fs :
  ticked gs selected fs → selected ≠ [] →
  (∀ q, q ∈ selected → ∃ f, f ∈ flat_map rg_files gs ∧ rf_path f = q) → fs ≠ [].
Proof.
  intros [_ Hfs] Hs Hq ->. destruct selected as [|q l]; [done|]. destruct (Hq q) as (f & Hf & <-); [by left|].
  apply (not_elem_of_nil f), Hfs. split; [done|by left].
Qed.

(** Handlers that change no content, and leave what was loaded alone. *)
Definition noContent : Effect → Prop := requested (λ r, rq_operation r ∉ contentOperations).

Fixpoint inert {A} (p : proc Changes A) : Prop :=
  match p with
  | Ret _ | Raise _ => True
  | Update f k => (∀ c, ch_git (f c) = ch_git c ∧ ch_review (f c) = ch_review c) ∧ inert k
  | Read k => ∀ c, inert (k c)
  | Do e k => noContent e ∧ inert k
  | Await c k => noContent (Issued c) ∧ ∀ o, inert (k o)
  end.

Lemma inert_bind {A B} (p : proc Changes A) (k : A → proc Changes B) : inert p → (∀ a, inert (k a)) → inert (p ≫= k).
Proof.
  intros Hp Hk. induction p as [a|e|f p IH|p IH|e p IH|c p IH]; cbn [mbind proc_bind inert] in *; try done.
  - destruct Hp. split; [done|by apply IH].
  - intros c. by apply IH.
  - destruct Hp. split; [done|by apply IH].
  - destruct Hp as [Hc Hp]. split; [done|]. intros o. by apply IH.
Qed.

Lemma inert_try {A} (p : proc Changes A) h : inert p → (∀ e, inert (h e)) → inert (try_catch p h).
Proof.
  intros Hp Hh. induction p as [a|e|f p IH|p IH|e p IH|c p IH]; cbn [try_catch inert] in *; try done.
  - destruct Hp. split; [done|by apply IH].
  - intros c. by apply IH.
  - destruct Hp. split; [done|by apply IH].
  - destruct Hp as [Hc Hp]. split; [done|]. intros o. by apply IH.
Qed.

Lemma not_content r : bool_decide (rq_operation r ∈ contentOperations) = false → rq_operation r ∉ contentOperations.
Proof. by intros Hr%bool_decide_eq_false. Qed.

Lemma no_content r : bool_decide (rq_operation r ∈ contentOperations) = false → noContent (Issued (Rpc r)).
Proof. intros Hr%not_content. by apply requested_single. Qed.

Lemma inert_after done r k :
  inert k → inert (tellChanges (said done r);; succeeded r k).
Proof. intros Hk. split; [done|]. unfold succeeded. cbn. by destruct (resp_error r). Qed.

(** The shape of the commands: a request, its notice, and what follows a success. *)
Lemma inert_told r done k :
  bool_decide (rq_operation r ∈ contentOperations) = false → inert k →
  inert (response ← await (Rpc r) Ret; tellChanges (said (done response) response);; succeeded response k).
Proof. intros Hr Hk. split; [by apply no_content|]. intros [e|resp]; [done|]. by apply inert_after. Qed.

Lemma inert_run p c c' es w :
  inert p → run p c = (c', es, w) →
  ch_git c' = ch_git c ∧ ch_review c' = ch_review c ∧ Forall noContent es ∧
  from_option (λ t, ∀ o, inert (w_cont t o)) True w.
Proof.
  revert c c' es w. induction p as [a|e|f p IH|p IH|e p IH|call p IH]; intros c c' es w Hp Hr; cbn [run inert] in *.
  - injection Hr as <- <- <-. by repeat constructor.
  - injection Hr as <- <- <-. by repeat constructor.
  - destruct Hp as [Hf Hp]. destruct (IH _ _ _ _ Hp Hr) as (-> & -> & He & Hw). destruct (Hf c) as [-> ->]. done.
  - by eapply IH.
  - destruct Hp as [He Hp]. destruct (run p c) as [[s1 es1] w1] eqn:Hr1. injection Hr as <- <- <-.
    destruct (IH _ _ _ _ Hp Hr1) as (? & ? & ? & ?). split_and!; try done. by constructor.
  - destruct Hp as [Hc Hp]. injection Hr as <- <- <-. split_and!; try done. by constructor.
Qed.

Section Panel.
Context `{CaseTable}.
Variable parseDiff : json → GitDiffSelection.
Variable parseIssues parseChanges : json → list ProviderItem.
Local Abbreviation handler := (changesHandler parseDiff parseIssues parseChanges).

(** A content request, with the fields that are its own between the head and the paths. *)
Lemma content_fields p head fs own :
  get "paths" (JObj (own ++ [expectations fs])) = Some (JArr (map expectation fs)) →
  let payload := JObj (atHead p head ++ own ++ [expectations fs]) in
  get "project_id" payload = Some (JStr (pj_id p)) ∧
  get "workspace_revision" payload = Some (JNum (num_of_Z (pj_revision p))) ∧
  get "expected_head" payload = Some (JStr head) ∧ get "paths" payload = Some (JArr (map expectation fs)).
Proof. intros Hown. split_and!; try reflexivity. exact Hown. Qed.
(** A press that changes content: one request, as it was pressed, and an inert rest. *)
Definition presses (c : Changes) (p : Project) (y : ChangesInput) : Prop :=
  ∃ r k, handler c (p, y) = Await (Rpc r) k ∧ asPressed (head_of c) (ch_review c) c p y r ∧ ∀ o, inert (k o).

Lemma inert_refetch keys : inert (refetch keys).
Proof. by split; [intros r ?%not_elem_of_nil|]. Qed.

Lemma stage_presses p f c :
  listShown f c && negb (jeqb (rf_current_sha256 f) []) = true → head_of c ≠ None → presses c p (StagePressed f).
Proof.
  intros Hg Hh. pose proof Hg as Hg'. unfold listShown in Hg'. rewrite !andb_true_iff in Hg'. destruct Hg' as ((_ & Hf) & Hs).
  apply bool_decide_eq_true in Hf. destruct (head_of c) as [head|] eqn:Hc; [|done].
  eexists _, _. split; [unfold changesHandler; cbn [fst snd]; rewrite Hg; unfold stageFile; rewrite Hc; reflexivity|]. split.
  - destruct (content_fields p head [f] [] eq_refl) as (H1 & H2 & H3 & H4). exists head, [f].
    split; [exact Hc|]. split; [exact H1|]. split; [exact H2|]. split; [exact H3|].
    split; [exact H4|]. split; [reflexivity|]. split; [reflexivity|]. split; [done|].
    intros He. by rewrite He in Hs.
  - intros [e|r]; [done|]. apply inert_after, inert_refetch.
Qed.

Lemma hunks_press p c d :
  hunksReady c = true → ch_hunk c = Some d → head_of c ≠ None → presses c p StageHunksPressed.
Proof.
  intros Hg Hd Hh. pose proof Hg as Hg'. unfold hunksReady in Hg'. rewrite Hd, andb_true_iff, negb_true_iff in Hg'.
  destruct Hg' as [Ht _]. destruct (head_of c) as [head|] eqn:Hc; [|done].
  eexists _, _. split; [unfold changesHandler; cbn [fst snd]; rewrite Hg; unfold stageHunks; rewrite Hc, Hd; reflexivity|]. split.
  - destruct (content_fields p head (selectedFiles c)
                [entry "diff_sha256" (gd_sha256 d); entry "patch" (ch_text c HunkPatch)] eq_refl) as (H1 & H2 & H3 & H4).
    exists head, (selectedFiles c). split; [exact Hc|]. split; [exact H1|]. split; [exact H2|]. split; [exact H3|].
    split; [exact H4|]. split; [reflexivity|].
    split; [apply selectedFiles_ticked|]. exists d. by split.
  - intros [e|r]; [done|]. apply inert_after. split; [done|]. split; [done|apply inert_refetch].
Qed.

Lemma commit_presses p (checkpoint : bool) c :
  commitReady c = true → head_of c ≠ None → presses c p (CommitPressed checkpoint).
Proof.
  intros Hg Hh. pose proof Hg as Hg'. unfold commitReady in Hg'. rewrite !andb_true_iff, !negb_true_iff in Hg'.
  destruct Hg' as ((_ & Hm) & Hs). apply bool_decide_eq_false in Hs. destruct (head_of c) as [head|] eqn:Hc; [|done].
  eexists _, _. split; [unfold changesHandler; cbn [fst snd]; rewrite Hg; unfold commit; rewrite Hc; reflexivity|]. split.
  - destruct (content_fields p head (selectedFiles c) (entry "message" (ch_text c CommitMessage) :: author) eq_refl)
      as (H1 & H2 & H3 & H4).
    exists head, (selectedFiles c). split; [exact Hc|]. split; [exact H1|]. split; [exact H2|]. split; [exact H3|].
    split; [exact H4|]. split; [reflexivity|].
    split; [apply selectedFiles_ticked|]. split; [reflexivity|]. split.
    + intros He. unfold blank in Hm. by rewrite He in Hm.
    + apply ticked_nonempty with (selected := ch_selected c); [apply selectedFiles_ticked|done].
  - intros [e|r]; [done|]. apply inert_after. split; [done|]. split; [done|apply inert_refetch].
Qed.

Lemma remote_inert p o key c : inert (remoteOperation p o key c).
Proof.
  unfold remoteOperation. destruct (head_of c); [|done]. apply (inert_told _ (λ _, _)); [by destruct o|apply inert_refetch].
Qed.

Lemma provider_inert p b c : inert (loadProvider parseIssues parseChanges p b c).
Proof.
  apply inert_try; [|by intros e; split]. split.
  - intros r. cbn [rpcsOf app]. rewrite elem_of_cons, list_elem_of_singleton.
    intros [-> | ->]; (apply not_content; reflexivity).
  - intros [e|[r1 r2]]; [done|]. cbn [mbind proc_bind fst snd]. by destruct (queryResult _ r1), (queryResult _ r2); try destruct b.
Qed.

Lemma inert_gate (b : bool) (q : proc Changes unit) : inert q → inert (if b then q else skip).
Proof. by destruct b. Qed.

(** The buttons that change content and the loaded data apart, the panel is inert. *)
Definition aside (y : ChangesInput) : Prop :=
  match y with StagePressed _ | StageHunksPressed | CommitPressed _ | GitLoaded _ | ReviewLoaded _ => False | _ => True end.

Lemma aside_inert c p y : aside y → inert (handler c (p, y)).
Proof.
  intros Hy. destruct y as [f v|f b|f|f| | | | | |b|a|o key|b|key| |id|id| |g| |gs|cs|rs]; try done;
    cbn [changesHandler fst snd]; try (apply inert_gate; by repeat split); try by repeat split.
  - apply inert_gate, inert_try; [|by intros e; split]. split; [by apply no_content|]. intros [e|r]; [done|].
    cbn [mbind proc_bind]. by destruct (queryResult _ r).
  - apply inert_gate, (inert_told _ (λ _, _)); [done|]. split; [done|apply inert_refetch].
  - apply inert_gate, (inert_told _ (λ _, _)); [done|]. split; [done|apply inert_refetch].
  - apply inert_gate, (inert_told _ (λ _, _)); [done|]. split; [done|apply inert_refetch].
  - apply inert_gate. split; [by apply no_content|]. intros [e|r]; [done|]. split; [done|]. by destruct (grantOf r).
  - destruct o; apply inert_gate, remote_inert.
  - apply inert_gate, provider_inert.
  - apply inert_gate. unfold createDraft. destruct (ch_git c); [|done]. destruct (head_of c); [|done].
    apply (inert_told _ (λ _, _)); [done|by split].
  - apply inert_gate, (inert_told _ (λ _, _)); [done|]. split; [done|apply inert_refetch].
  - apply inert_gate, (inert_told _ (λ _, _)); [done|apply inert_refetch].
  - apply inert_gate, (inert_told _ (λ _, _)); [done|apply inert_refetch].
  - unfold afterRender. apply inert_bind; [|by repeat split]. destruct (ch_text c CommentPath), (files c); by repeat split.
Qed.

(** Loading replaces what is on screen; every other input presses or is inert. *)
Definition loads (y : ChangesInput) : Prop :=
  match y with GitLoaded _ | ReviewLoaded _ => True | _ => False end.

Lemma changes_step c p y : loads y ∨ (¬ loads y ∧ (presses c p y ∨ inert (handler c (p, y)))).
Proof.
  assert (Hq : ∀ q (b : bool), (b = true → head_of c ≠ None → presses c p y) →
            (head_of c = None → q = skip) → handler c (p, y) = (if b then q else skip) →
            presses c p y ∨ inert (handler c (p, y))).
  { intros q b Hp Hn Hh. destruct b; [|by right; rewrite Hh]. destruct (head_of c) eqn:Hc; [by left; apply Hp|].
    right. by rewrite Hh, Hn. }
  destruct y as [| |f| | | | | | |b| | | | | | | | |g| |gs| |]; try (by left);
    (right; split; [by intros []|]); try (right; by apply aside_inert).
  - destruct (Hq (stageFile p f c) (listShown f c && negb (jeqb (rf_current_sha256 f) []))) as [|]; try tauto.
    + intros Hb. by apply stage_presses.
    + unfold stageFile. by intros ->.
  - destruct (Hq (stageHunks p c) (hunksReady c)) as [|]; try tauto.
    + intros Hb. destruct (ch_hunk c) as [d|] eqn:Hd; [by apply hunks_press with d|]. unfold hunksReady in Hb. by rewrite Hd in Hb.
    + unfold stageHunks. by intros ->.
  - destruct (Hq (commit p b c) (commitReady c)) as [|]; try tauto.
    + intros Hb. by apply commit_presses.
    + unfold commit. by intros ->.
Qed.

(** What is on screen is what was last loaded, and every open call is inert. *)
Definition current (xs : list (input (Project * ChangesInput))) (w : World Changes) : Prop :=
  head_of (here w) = latestHead xs ∧ ch_review (here w) = latestReview xs ∧
  Forall (λ t, ∀ o, inert (w_cont t o)) (waiting w).

Lemma inert_advance p c ws xs x w' out :
  inert p → head_of c = latestHead xs → ch_review c = latestReview xs → Forall (λ t, ∀ o, inert (w_cont t o)) ws →
  latestHead (xs ++ [x]) = latestHead xs → latestReview (xs ++ [x]) = latestReview xs →
  advance p ws c = (w', out) → current (xs ++ [x]) w' ∧ Forall noContent out.
Proof.
  intros Hp Hh Hr Hw H1 H2 Ha. unfold advance in Ha. destruct (run p c) as [[c' es] t] eqn:Hrun. injection Ha as <- <-.
  destruct (inert_run p c c' es t Hp Hrun) as (Hg & Hrev & He & Ht). split; [|done]. unfold current. cbn [here waiting].
  split_and!.
  - unfold head_of in *. rewrite Hg. congruence.
  - congruence.
  - apply Forall_app. split; [done|]. destruct t; [by apply Forall_singleton|constructor].
Qed.

Lemma latest_aside xs x :
  match x with Act (_, y) => ¬ loads y | _ => True end →
  latestHead (xs ++ [x]) = latestHead xs ∧ latestReview (xs ++ [x]) = latestReview xs.
Proof. unfold latestHead, latestReview. rewrite !foldl_app. intros Hx. destruct x as [[p y]|]; [|done]. by destruct y; try (by destruct Hx). Qed.

(** A step: what it loads is on screen, and what it sends was pressed. *)
Lemma perform_current xs w x w' out :
  current xs w → perform handler x w = Some (w', out) →
  current (xs ++ [x]) w' ∧
  Forall (requested (λ r, rq_operation r ∈ contentOperations →
            ∃ p y, x = Act (p, y) ∧ asPressed (latestHead xs) (latestReview xs) (here w) p y r)) out.
Proof.
  intros (Hh & Hr & Hw) Hp.
  assert (Hno : ∀ l, Forall noContent l → Forall (requested (λ r, rq_operation r ∈ contentOperations →
            ∃ p y, x = Act (p, y) ∧ asPressed (latestHead xs) (latestReview xs) (here w) p y r)) l).
  { intros l Hl. eapply Forall_impl; [exact Hl|]. intros [] He; try done. intros r Hin Hc. by destruct (He r Hin). }
  destruct x as [[p y]|i o]; cbn [perform] in Hp.
  - apply (inj Some) in Hp. destruct (changes_step (here w) p y) as [Hl|[Hl [(r & k & Hk & Hy & Hq)|Hq]]].
    + destruct y; try done; cbn in Hp; injection Hp as <- <-; (split; [|constructor]); unfold current, latestHead, latestReview;
        rewrite !foldl_app; cbn; rewrite app_nil_r; by split_and!.
    + destruct (latest_aside xs (Act (p, y)) Hl) as [H1 H2]. rewrite Hk in Hp. cbn in Hp. injection Hp as <- <-. split.
      * unfold current. cbn [here waiting]. rewrite H1, H2. split_and!; [done|done|].
        apply Forall_app. split; [done|]. by apply Forall_singleton.
      * apply Forall_singleton, requested_single. intros _. exists p, y. split; [done|]. by rewrite <- Hh, <- Hr.
    + destruct (latest_aside xs (Act (p, y)) Hl) as [H1 H2].
      destruct (inert_advance _ _ _ xs (Act (p, y)) _ _ Hq Hh Hr Hw H1 H2 Hp) as [Hcur Hout]. auto.
  - unfold settle in Hp. apply bind_Some in Hp as (t & Ht & Hp). apply (inj Some) in Hp.
    destruct (latest_aside xs (Settled i o)) as [H1 H2]; [done|].
    destruct (inert_advance (w_cont t (o (w_call t))) _ (delete i (waiting w)) xs (Settled i o) _ _
                (proj1 (Forall_lookup _ _) Hw i t Ht _) Hh Hr (Forall_delete _ _ _ Hw) H1 H2 Hp) as [Hcur Hout]. auto.
Qed.
End Panel.

(** [C27] Content is staged and committed as it was reviewed.  In every reachable panel, a
    request that stages a file, stages hunks, commits or makes a checkpoint is sent only by
    the press of its own button, and names the project and revision on screen at the press
    and the head of the Git projection that was last loaded.  Its paths and hashes are
    those of files of the review that was last loaded: the file of the button, which has a
    hash, or all the files whose boxes are ticked and no others.  A commit has a message
    that is not blank, and at least one path when every ticked path is in that review, as
    it is once the panel was rendered; hunks carry the patch on screen and the hash of the
    diff it was made from, which is not truncated. *)
Theorem content_is_changed_as_reviewed `{CaseTable} pd pi pc (xs : list (input (Project * ChangesInput))) w out x w' out' :
  runs (changesHandler pd pi pc) initialChanges xs w out → perform (changesHandler pd pi pc) x w = Some (w', out') →
  Forall (requested (λ r, rq_operation r ∈ contentOperations →
            ∃ p y, x = Act (p, y) ∧ asPressed (latestHead xs) (latestReview xs) (here w) p y r)) out'.
Proof.
  intros Hr Hp. apply (perform_current pd pi pc xs w x w' out'); [|done]. clear Hp.
  induction Hr as [|xs w out y w1 out1 _ IH Hp]; [by split_and!|]. by apply (perform_current pd pi pc xs w y w1 out1).
Qed.

(** ** Remotes *)

Section Remote.
Context `{CaseTable}.
Variable parseDiff : json → GitDiffSelection.
Variable parseIssues parseChanges : json → list ProviderItem.
(** The grants that were issued. *)
Variable issued : jstr → Prop.

Definition grantedRequest (r : Request) : Prop :=
  ∃ g, g ≠ [] ∧ issued g ∧ get "permission_grant" (rq_payload r) = Some (JStr g).

Definition acceptable (r : Request) : Prop := rq_operation r ∈ remoteOperations → grantedRequest r.
Definition acceptableEffect : Effect → Prop := requested acceptable.

Definition known (c : Changes) : Prop := issued (ch_grant c) ∨ ch_grant c = [].

(** The answers to grant requests carry the grants that were issued. *)
Definition issues (c : call) : Error + answer c → Prop :=
  match c with
  | Rpc r => λ o, rq_operation r = js "project.git.provider.grant" →
               match o with inr resp => ∀ g, grantOf resp = Some g → issued g | inl _ => True end
  | _ => λ _, True
  end.

Local Abbreviation good := (safe known acceptableEffect issues).

(** An update of a part the invariant does not read. *)
Lemma good_aside (f : Changes → Changes) (k : proc Changes unit) :
  (∀ c, ch_grant (f c) = ch_grant c) → good k → good (setState f;; k).
Proof. intros Hf Hk. split; [|done]. intros s. unfold known. by rewrite Hf. Qed.

(** A request for something else. *)
Lemma acceptable_aside r :
  bool_decide (rq_operation r ∈ remoteOperations) = false → acceptable r.
Proof. intros Hn Hin. by apply bool_decide_eq_false in Hn. Qed.

Lemma aside_effect r :
  bool_decide (rq_operation r ∈ remoteOperations) = false → acceptableEffect (Issued (Rpc r)).
Proof. intros Hr. by apply requested_single, acceptable_aside. Qed.

Lemma good_aside1 (f : Changes → Changes) :
  (∀ c, ch_grant (f c) = ch_grant c) → good (setState f).
Proof. intros Hf. split; [|done]. intros s. unfold known. by rewrite Hf. Qed.

Lemma good_tell n : good (tellChanges n).
Proof. by apply good_aside1. Qed.

(** The shape of the commands: a request, its notice, and what follows a success. *)
Lemma good_told r done k :
  acceptable r → good k → good (response ← await (Rpc r) Ret; tellChanges (said done response);; succeeded response k).
Proof.
  intros Hr Hk. split; [by apply requested_single|]. intros [e|resp] _; [done|]. cbn [mbind proc_bind].
  apply good_aside; [done|]. unfold succeeded. by destruct (resp_error resp).
Qed.

Lemma good_clear f (k : proc Changes unit) : good k → good (setState (typeInto f []);; k).
Proof. by apply good_aside. Qed.

Lemma good_refetch keys : good (refetch keys).
Proof. by split; [intros r ?%not_elem_of_nil|]. Qed.

Lemma stage_good p f c : good (stageFile p f c).
Proof.
  unfold stageFile. destruct (head_of c) as [head|]; [|done].
  apply good_told; [by apply acceptable_aside|apply good_refetch].
Qed.

Lemma hunks_good p c : good (stageHunks p c).
Proof.
  unfold stageHunks. destruct (head_of c) as [head|]; [|done]. destruct (ch_hunk c) as [d|]; [|done].
  apply good_told; [by apply acceptable_aside|]. apply good_aside; [done|]. apply good_clear, good_refetch.
Qed.

Lemma commit_good p (checkpoint : bool) c : good (commit p checkpoint c).
Proof.
  unfold commit. destruct (head_of c) as [head|]; [|done].
  apply good_told; [by destruct checkpoint; apply acceptable_aside|].
  apply good_clear. apply good_aside; [done|]. apply good_refetch.
Qed.

Lemma granted_known c : known c → granted c = true → ch_grant c ≠ [] ∧ issued (ch_grant c).
Proof.
  intros Hc Hg. unfold granted in Hg. apply andb_true_iff in Hg as [_ Hg]. unfold jeqb in Hg.
  destruct (decide (ch_grant c = [])) as [He|He]; [by rewrite He in Hg|]. split; [done|].
  by destruct Hc.
Qed.

Lemma acceptable_remote c r :
  known c → granted c = true →
  get "permission_grant" (rq_payload r) = Some (JStr (ch_grant c)) → acceptable r.
Proof.
  intros Hc Hg Hr _. destruct (granted_known c Hc Hg) as [Hn Hi]. by exists (ch_grant c).
Qed.

Lemma remote_good p o key c : known c → granted c = true → good (remoteOperation p o key c).
Proof.
  intros Hc Hg. unfold remoteOperation. destruct (head_of c) as [head|]; [|done].
  apply good_told; [|apply good_refetch]. apply (acceptable_remote c); [done|done|reflexivity].
Qed.

Lemma draft_good p key c : known c → granted c = true → good (createDraft p key c).
Proof.
  intros Hc Hg. unfold createDraft. destruct (ch_git c) as [g|]; [|done]. destruct (head_of c) as [head|]; [|done].
  apply good_told; [|by apply good_aside1]. apply (acceptable_remote c); [done|done|].
  by destruct (gp_branch g).
Qed.

Lemma provider_good p changesFirst c : known c → granted c = true → good (loadProvider parseIssues parseChanges p changesFirst c).
Proof.
  intros Hc Hg. apply safe_try_catch; [|intros e; apply good_tell]. split.
  - intros r. cbn [rpcsOf app]. rewrite elem_of_cons, list_elem_of_singleton.
    intros [-> | ->]; by apply (acceptable_remote c).
  - intros [e|[r1 r2]] _; [done|]. cbn [mbind proc_bind fst snd].
    by destruct (queryResult _ r1), (queryResult _ r2).
Qed.

Lemma grant_good p a c : good (issueGrant p a c).
Proof.
  split; [by apply aside_effect|]. intros [e|r] Hr; [done|]. cbn [issues rq_operation] in Hr. specialize (Hr eq_refl).
  cbn [mbind proc_bind]. apply good_aside; [done|]. destruct (grantOf r) as [g|]; [|done].
  split; [|done]. intros s _. left. by apply Hr.
Qed.

Lemma prepare_good p f : good (prepareHunks parseDiff p f).
Proof.
  apply safe_try_catch; [|intros e; apply good_tell]. split; [by apply aside_effect|].
  intros [e|r] _; [done|]. cbn [mbind proc_bind]. destruct (queryResult _ r) as [e|v]; [done|]. cbn [mbind proc_bind mret proc_ret].
  apply good_aside; [done|]. apply good_aside; [done|]. apply good_aside; [done|apply good_tell].
Qed.

Lemma rendered_good c : good (afterRender c).
Proof.
  unfold afterRender. apply safe_bind; [|intros _; by apply good_aside1].
  destruct (ch_text c CommentPath); [|done]. destruct (files c); [done|]. by apply good_aside1.
Qed.

Lemma changes_good c y : known c → good (changesHandler parseDiff parseIssues parseChanges c y).
Proof.
  destruct y as [p y]. intros Hc. unfold changesHandler. cbn [fst snd].
  destruct y as [f v|f b|f|f| | | | | |b|a|o key|b|key| |id|id| |g| |gs|cs|rs].
  all: try (destruct o; [..|destruct (granted c) eqn:Hg; [cbn [andb]|done]]).
  all: try lazymatch goal with |- safe _ _ _ (if ?b then _ else _) => destruct b eqn:Hb; [|done] end.
  all: try (by apply good_aside1).
  all: try rewrite !andb_true_iff in Hb.
  - apply stage_good.
  - apply prepare_good.
  - by apply hunks_good.
  - apply good_told; [by apply acceptable_aside|apply good_clear, good_refetch].
  - apply good_told; [by apply acceptable_aside|apply good_clear, good_refetch].
  - apply good_told; [by apply acceptable_aside|apply good_clear, good_refetch].
  - by apply commit_good.
  - apply grant_good.
  - by apply remote_good.
  - by apply remote_good.
  - by apply remote_good.
  - by apply remote_good.
  - apply provider_good; tauto.
  - apply draft_good; tauto.
  - apply good_told; [by apply acceptable_aside|apply good_clear, good_refetch].
  - apply good_told; [by apply acceptable_aside|apply good_refetch].
  - apply good_told; [by apply acceptable_aside|apply good_refetch].
  - apply rendered_good.
Qed.
End Remote.

(** A grant that an answer to a grant request carried. *)
Definition grantAnswered (xs : list (input (Project * ChangesInput))) (g : jstr) : Prop :=
  ∃ i (o : oracle) r resp, Settled i o ∈ xs ∧ rq_operation r = js "project.git.provider.grant" ∧
                           o (Rpc r) = inr resp ∧ grantOf resp = Some g.

(** Remotes are reached only with a grant: over any run, every request that synchronizes,
    pulls, pushes, forces, reads the provider or makes a draft carries a permission grant
    that is not empty and that an answer to a grant request of the run carried. *)
Theorem remotes_need_a_grant `{CaseTable} pd pi pc (xs : list (input (Project * ChangesInput))) w out :
  runs (changesHandler pd pi pc) initialChanges xs w out →
  Forall (requested (λ r, rq_operation r ∈ remoteOperations → grantedRequest (grantAnswered xs) r)) out.
Proof.
  intros Hr.
  apply (runs_safe (changesHandler pd pi pc) (known (grantAnswered xs)) _ (λ _, True) (issues (grantAnswered xs))
           initialChanges xs w).
  - intros c y _. apply changes_good.
  - by right.
  - done.
  - apply Forall_forall. intros [[p y]|i o] Hin; cbn [allowed]; [done|].
    intros c. destruct c as [r| | | | | | | |]; try done. cbn [issues]. intros Hop.
    destruct (o (Rpc r)) as [e|resp] eqn:Ho; [done|]. intros g Hg. by exists i, o, r, resp.
Qed.

(** ** Rendering *)

(** Identities are handed out once. *)
Definition numbered (m : Commit) : Prop :=
  (∀ d, cm_deps m = Some d → d < cm_fresh m) ∧ (cm_selected m).1 < cm_fresh m.

Lemma prune_idempotent fs l : prunePaths fs (prunePaths fs l) = prunePaths fs l.
Proof.
  unfold prunePaths. induction l as [|p l IH]; [done|]. cbn [List.filter].
  destruct (pathExists fs p) eqn:Hp; [|done]. cbn [List.filter]. rewrite Hp. by f_equal.
Qed.

Lemma commit_again fs m :
  numbered m → (commitPanel fs m).2 = true ∧ numbered (commitPanel fs m).1 ∧
               (cm_selected (commitPanel fs m).1).2 = prunePaths fs (cm_selected m).2.
Proof.
  intros [Hd Hs]. unfold commitPanel. rewrite bool_decide_false.
  - cbn [fst snd cm_deps cm_selected cm_fresh]. rewrite bool_decide_false by lia.
    split; [done|]. split; [|done]. split; [intros d [= <-]|]; cbn; lia.
  - intros He. apply Hd in He. lia.
Qed.

(** [C28] The changes panel never stops rendering.  Its effect depends on the array of files,
    which every render makes anew, and each run replaces the selection by a new array; so
    however many renders are made, another is pending, although the selection it holds no
    longer changes after the first. *)
Theorem changes_panel_never_settles (fuel : nat) (fs : list ReviewFile) (m : Commit) :
  numbered m →
  renderLoop fuel fs m = None ∧
  (cm_selected (commitPanel fs (commitPanel fs m).1).1).2 = (cm_selected (commitPanel fs m).1).2.
Proof.
  intros Hm. split.
  - revert m Hm. induction fuel as [|fuel IH]; intros m Hm; [done|]. cbn [renderLoop].
    destruct (commit_again fs m Hm) as (Ha & Hn & _). destruct (commitPanel fs m) as [m' again]. cbn [fst snd] in *.
    subst again. by apply IH.
  - destruct (commit_again fs m Hm) as (_ & Hn & Hs). destruct (commit_again fs _ Hn) as (_ & _ & ->).
    by rewrite Hs, prune_idempotent.
Qed.

(** ** Hunks *)

(** The files a patch of hunks is checked against are those of the checkboxes, not the
    file the patch is of: selecting the hunks of a file ticks it, but unticking it leaves
    the patch on screen, and staging then sends the patch with no path to check. *)
Theorem hunks_follow_the_checkboxes `{CaseTable} pd pi pc p (c : Changes) (f : ReviewFile) d head :
  listShown f c = true → head_of c = Some head → ch_hunk c = Some d → hunksReady c = true → ch_selected c = [rf_path f] →
  ∃ w r, play (changesHandler pd pi pc) [Act (p, PathToggled f false); Act (p, StageHunksPressed)] (at_start c) [] =
         Some (w, [Issued (Rpc r)]) ∧ rq_operation r = js "project.git.stage.hunks" ∧
         get "patch" (rq_payload r) = Some (JStr (ch_text c HunkPatch)) ∧ get "paths" (rq_payload r) = Some (JArr []).
Proof.
  intros Hl Hh Hd Hr Hs. unfold hunksReady in Hr. rewrite Hd in Hr.
  erewrite play_act; [|unfold changesHandler; cbn [fst snd at_start here]; rewrite Hl; reflexivity]. played.
  erewrite play_act; [|unfold changesHandler; cbn [fst snd here]; unfold hunksReady, setSelectedPaths;
    cbn [ch_hunk ch_text]; rewrite Hd, Hr; unfold stageHunks, head_of in *; cbn [ch_git ch_hunk]; rewrite Hh; reflexivity].
  eexists _, _. split; [reflexivity|]. split; [reflexivity|]. split; [reflexivity|].
  cbn [rq_payload]. unfold selectedFiles. cbn [ch_selected setSelectedPaths]. rewrite Hs.
  cbn [List.filter]. replace (jeqb (rf_path f) (rf_path f)) with true by (unfold jeqb; by rewrite bool_decide_true).
  cbn [negb List.filter existsb].
  assert (∀ l : list ReviewFile, List.filter (λ _, false) l = []) as Hf by (by induction l).
  rewrite Hf. reflexivity.
Qed.

(** ** Examples *)

Definition git0 : GitProjection := {| gp_head := Some (js "abc"); gp_branch := Some (js "main"); gp_detached := false; gp_changed := 1 |}.
Definition file0 : ReviewFile := {|
  rf_path := js "a.go"; rf_current_sha256 := js "h1"; rf_index_status := js " "; rf_work_status := js "M";
  rf_diff := Some (js "+x"); rf_diff_truncated := false |}.
Definition review0 : list ReviewGroup := [{| rg_criterion := js "c1"; rg_files := [file0] |}].
#[local] Abbreviation changes_handler :=
  (changesHandler (H := ascii_only) (λ _, {| gd_patch := js "+x"; gd_sha256 := js "d1"; gd_truncated := false |}) (λ _, []) (λ _, [])).

(** A file is reviewed and committed, then pushed with a grant. *)
Definition changesRun : list (input (Project * ChangesInput)) :=
  [Act (project0, GitLoaded git0); Act (project0, ReviewLoaded review0); Act (project0, PathToggled file0 true);
   Act (project0, FieldTyped CommitMessage (js "Fix")); Act (project0, CommitPressed false);
   Act (project0, FieldTyped RepositoryName (js "org/site")); Act (project0, GrantPressed GrantPush);
   Settled 1 (answersWith (JObj [entry "permission_grant" (js "g1")])); Act (project0, RemotePressed GitPush (js "k1"))].

Lemma content_is_changed_as_reviewed_witness :
  match play changes_handler (take 4 changesRun) (at_start initialChanges) [] with
  | Some (w, _) =>
      match perform changes_handler (Act (project0, CommitPressed false)) w with
      | Some (_, [Issued (Rpc r)]) =>
          ∃ p y, Act (project0, CommitPressed false) = Act (p, y) ∧
                 asPressed (Some (js "abc")) review0 (here w) p y r
      | _ => False
      end
  | None => False
  end.
Proof.
  destruct (play changes_handler (take 4 changesRun) (at_start initialChanges) []) as [[w out]|] eqn:Hw;
    [|vm_compute in Hw; discriminate Hw].
  destruct (perform changes_handler (Act (project0, CommitPressed false)) w) as [[w' out']|] eqn:Hp; [|discriminate Hp].
  pose proof (content_is_changed_as_reviewed (H := ascii_only) _ _ _ (take 4 changesRun) w out _ w' out'
                (play_reaches _ _ _ _ _ Hw) Hp) as Hall.
  assert (Hout : ∃ r, out' = [Issued (Rpc r)] ∧ bool_decide (rq_operation r ∈ contentOperations) = true).
  { vm_compute in Hw. injection Hw as <- <-. vm_compute in Hp. injection Hp as <- <-. eexists. split; [reflexivity|].
    vm_compute. reflexivity. }
  destruct Hout as (r & -> & Hop). apply bool_decide_eq_true in Hop.
  inversion Hall as [|e l Hone _]. subst e l. exact (Hone r (proj2 (list_elem_of_singleton r r) eq_refl) Hop).
Defined.

Lemma remotes_need_a_grant_witness :
  existsb (issuedFor "project.git.push") (effectsOf changes_handler initialChanges changesRun) = true ∧
  Forall (requested (λ r, rq_operation r ∈ remoteOperations → grantedRequest (grantAnswered changesRun) r))
    (effectsOf changes_handler initialChanges changesRun).
Proof.
  split; [vm_compute; reflexivity|].
  destruct (effects_run changes_handler initialChanges changesRun) as [w Hr]; [vm_compute; reflexivity|].
  exact (remotes_need_a_grant (H := ascii_only) _ _ _ _ w _ Hr).
Defined.

(** The panel as it is first rendered, before any array was made. *)
Definition firstCommit : Commit := {| cm_deps := None; cm_selected := (0, []); cm_fresh := 1 |}.

Lemma changes_panel_never_settles_witness : numbered firstCommit ∧ renderLoop 100 [file0] firstCommit = None.
Proof.
  assert (numbered firstCommit) as Hn by (split; [done|cbn; lia]). split; [exact Hn|].
  exact (proj1 (changes_panel_never_settles 100 [file0] firstCommit Hn)).
Defined.
