(* ===== verification/Busy.v ===== *)
(** * Panels with a busy flag

    The interface of the panels that disable their buttons while a command runs.
    [BusyPanel] is what such a panel promises: while the flag is set no input does
    anything but edit its fields, and a handler waits only with the flag set.
    [RejectingPanel] adds what the panels without a [finally] do when a request is
    rejected.  The theorems are proved once against the interfaces. *)
From stdpp Require Import base list strings.
From Stdlib Require Import ZArith NArith.
From S2P Require Import Prelude JsString JsValue Regex Catalog Protocol Display Envelope Events.
From S2P Require Import LocalClient Client TuiFormat TuiApp Async.

Section Steady.
Context {S : Type} (busy : S → bool).

(** The handler only edits the state, and leaves the flag as it is. *)
Fixpoint steady {A} (p : proc S A) : Prop :=
  match p with
  | Ret _ => True
  | Update f k => (∀ s, busy (f s) = busy s) ∧ steady k
  | Read k => ∀ s, steady (k s)
  | Raise _ | Do _ _ | Await _ _ => False
  end.

Lemma run_steady p s : steady p → (run p s).1.2 = [] ∧ (run p s).2 = None ∧ busy (run p s).1.1 = busy s.
Proof.
  revert s. induction p as [a|e|g k IH|k IH|e k IH|c k IH]; intros s Hp; cbn [steady run] in *; try done.
  - destruct Hp as [Hg Hk]. rewrite <- (Hg s). by apply IH.
  - by apply IH.
Qed.

Lemma steady_neutral {A} guarded (p : proc S A) : steady p → neutral busy guarded p.
Proof.
  induction p as [a|e|g k IH|k IH|e k IH|c k IH]; cbn [steady neutral]; try done.
  - intros [Hg Hk]. split; [done|by apply IH].
  - intros Hk s. by apply IH.
Qed.
End Steady.

Class BusyPanel {S X} (handler : S → X → proc S unit) (busy : S → bool) : Prop := {
  steady_when_busy : ∀ s y, busy s = true → steady busy (handler s y);
  spans_when_free : ∀ s y, busy s = false → spans busy (handler s y) s;
}.

(** A request of the panel that is rejected ends its handler, with the flag as it is. *)
Class RejectingPanel {S X} (handler : S → X → proc S unit) (busy : S → bool) : Prop := {
  rejecting_busy :: BusyPanel handler busy;
  rejection_escapes : ∀ s y s' es r k e s2,
    run (handler s y) s = (s', es, Some (Waiter (Rpc r) k)) → run (k (inl e)) s2 = (s2, [Escaped e], None);
}.

Section Busy.
Context {S X : Type} (handler : S → X → proc S unit) (busy : S → bool) `{!BusyPanel handler busy}.

(** At most one call is awaited, and only while the flag is set. *)
Lemma one_call_while_busy s0 xs w out :
  busy s0 = false → runs handler s0 xs w out → length (waiting w) ≤ (if busy (here w) then 1 else 0).
Proof.
  intros H0 Hr.
  assert (∀ ws : list (waiter S), guardedWaits (λ _, true) ws = length ws) as <-.
  { unfold guardedWaits. intros ws. induction ws as [|t ws IH]; [done|]. cbn. by f_equal. }
  eapply (runs_spanning handler busy (λ _, true)), Hr; [|done]. intros s y.
  destruct (busy s) eqn:Hs; [left|right; by split; [|apply spans_when_free]].
  by apply steady_neutral, steady_when_busy.
Qed.

(** With the flag set and no call awaited, the panel is silent for good. *)
Lemma silent_for_good s0 xs w out :
  busy s0 = true → runs handler s0 xs w out → out = [] ∧ waiting w = [] ∧ busy (here w) = true.
Proof.
  intros H0. induction 1 as [|xs w out x w' out' _ IH Hp]; [done|]. destruct IH as (-> & Hw & Hb).
  destruct x as [y|i o]; cbn [perform] in Hp.
  - apply (inj Some) in Hp. pose proof (run_steady busy (handler (here w) y) (here w) (steady_when_busy _ y Hb)) as Hs.
    unfold advance in Hp. destruct (run (handler (here w) y) (here w)) as [[s' es] t]. cbn [fst snd] in Hs.
    destruct Hs as (-> & -> & Hs). injection Hp as <- <-. cbn [here waiting]. by rewrite Hs, Hw.
  - unfold settle in Hp. by rewrite Hw in Hp.
Qed.
End Busy.

Section Rejecting.
Context {S X : Type} (handler : S → X → proc S unit) (busy : S → bool) `{!RejectingPanel handler busy}.

Lemma spans_waits p (s : S) s' es t :
  spans busy p s → run p s = (s', es, Some t) → busy s' = true.
Proof.
  revert s es. induction p as [a|e|g k IH|k IH|e k IH|c k IH]; intros s es Hp Hr; cbn [spans run] in *; try done.
  - by eapply IH.
  - by eapply IH.
  - destruct (run k s) as [[s1 es1] t1] eqn:Hk. injection Hr as <- <- ->. by eapply IH.
  - injection Hr as <- <- <-. by destruct Hp.
Qed.

(** A rejected request is the last thing the panel does: from any state that is free, a
    command whose request is rejected leaves the flag set with nothing awaited, and
    whatever follows has no effect. *)
Lemma rejection_is_final s y s' es r k (o : oracle) error :
  busy s = false → run (handler s y) s = (s', es, Some (Waiter (Rpc r) k)) → o (Rpc r) = inl error →
  ∀ xs w out, play handler (Act y :: Settled 0 o :: xs) (at_start s) [] = Some (w, out) →
              out = es ++ [Escaped error] ∧ waiting w = [] ∧ busy (here w) = true.
Proof.
  intros Hs Hr Ho xs w out. erewrite play_act by exact Hr. cbn [waiting at_start app option_list option_rect].
  erewrite play_settled; [|cbn [w_call w_cont]; rewrite Ho; by eapply rejection_escapes].
  intros Hp. assert (busy s' = true) as Hb by (eapply spans_waits, Hr; by apply spans_when_free).
  change (option_list None) with (@nil (waiter S)) in Hp. cbn [app] in Hp.
  assert (∀ l o1 w1 o2, play handler xs w1 (l ++ o1) = Some (w, o2) →
            ∃ o3, play handler xs w1 o1 = Some (w, o3) ∧ o2 = l ++ o3) as Hshift.
  { clear. intros l. induction xs as [|x xs IH]; intros o1 w1 o2; cbn [play].
    - intros [= -> <-]. by exists o1.
    - destruct (perform handler x w1) as [[w2 o4]|]; [|done]. cbn [mbind option_bind fst snd].
      rewrite <- app_assoc. apply IH. }
  rewrite <- (app_nil_r (es ++ [Escaped error])) in Hp. apply Hshift in Hp as (o3 & Hp & ->).
  apply (play_reaches handler s') in Hp. apply (silent_for_good handler busy) in Hp as (-> & Hw & Hb'); [|done].
  by rewrite app_nil_r.
Qed.
End Rejecting.

(** ** Commands under the flag *)

(** The shape of the commands: the flag is set before the request and cleared at the end,
    with nothing that clears it when the request is rejected. *)
Definition busyCommand {S} (setBusy : bool → S → S) (setNotice : option jstr → S → S) (operation : string)
    (payload : list (jstr * json)) (done : ResponseEnvelope → jstr) (after : ResponseEnvelope → proc S unit) : proc S unit :=
  setState (setBusy true);;
  response ← rpc command operation (JObj payload) None;
  setState (setNotice (Some (match resp_error response with Some e => err_message e | None => done response end)));;
  after response;;
  setState (setBusy false).

Section Shape.
Context {S : Type} (busy : S → bool) (setBusy : bool → S → S) (setNotice : option jstr → S → S).
Hypothesis busy_set : ∀ b s, busy (setBusy b s) = b.
Hypothesis busy_notice : ∀ n s, busy (setNotice n s) = busy s.

Lemma neutral_spans {A} (p : proc S A) s : neutral busy (λ _, false) p → busy s = true → spans busy p s.
Proof.
  revert s. induction p as [a|e|g k IH|k IH|e k IH|c k IH]; intros s Hp Hs; cbn [neutral spans] in *; try done.
  - destruct Hp as [Hg Hk]. apply IH; [done|]. by rewrite Hg.
  - by apply IH.
  - by apply IH.
  - destruct Hp as [_ Hk]. split; [done|]. intros o s' Hs'. by apply IH.
Qed.

Lemma spans_then {A B} (p : proc S A) (f : A → proc S B) s :
  neutral busy (λ _, false) p → busy s = true → (∀ a s', busy s' = true → spans busy (f a) s') → spans busy (p ≫= f) s.
Proof.
  intros Hp Hs Hf. revert s Hs. induction p as [a|e|g k IH|k IH|e k IH|c k IH]; intros s Hs;
    cbn [mbind proc_bind neutral spans] in *.
  - by apply Hf.
  - done.
  - destruct Hp as [Hg Hk]. apply IH; [done|]. by rewrite Hg.
  - by apply IH.
  - by apply IH.
  - destruct Hp as [_ Hk]. split; [done|]. intros o s' Hs'. by apply IH.
Qed.

Lemma busyCommand_spans operation payload done after s :
  (∀ r, neutral busy (λ _, false) (after r)) → spans busy (busyCommand setBusy setNotice operation payload done after) s.
Proof.
  intros Ha. unfold busyCommand. cbn [setState mbind proc_bind rpc await spans].
  split; [apply busy_set|]. intros [e|r] s' Hs'; [exact I|]. cbn [mbind proc_bind spans].
  apply spans_then; [apply Ha|by rewrite busy_notice|]. done.
Qed.

Lemma busyCommand_rejects operation payload done after s s' es r k e s2 :
  run (busyCommand setBusy setNotice operation payload done after) s = (s', es, Some (Waiter (Rpc r) k)) →
  run (k (inl e)) s2 = (s2, [Escaped e], None).
Proof. intros H. by apply (f_equal (λ x, match x.2 with Some t => run (w_cont t (inl e)) s2 | None => (s2, [], None) end)) in H. Qed.

End Shape.

(** A gated command, which may be missing. *)
Lemma spans_if {S} (busy : S → bool) (b : bool) (p : proc S unit) s : spans busy p s → spans busy (if b then p else skip) s.
Proof. destruct b; [trivial|exact (λ _, I)]. Qed.

Lemma rejects_if {S} (b : bool) (p : proc S unit) s s' es r k e s2 :
  (run p s = (s', es, Some (Waiter (Rpc r) k)) → run (k (inl e)) s2 = (s2, [Escaped e], None)) →
  run (if b then p else skip) s = (s', es, Some (Waiter (Rpc r) k)) → run (k (inl e)) s2 = (s2, [Escaped e], None).
Proof. destruct b; [trivial|]. intros _ Hr. discriminate Hr. Qed.

Lemma rejects_none {S} (f : S → S) s s' es r k (P : Prop) :
  run (setState f) s = (s', es, Some (Waiter (Rpc r) k)) → P.
Proof. intros Hr. discriminate Hr. Qed.
