(* ===== verification/Delivery.v ===== *)
(** * Data and deployment of a project

    The data and deploy panels of [ui/web/src/routes/StudioRoutes.tsx]: plans of resources,
    migrations and deployments that are prepared, shown and applied, environments,
    rollbacks and releases.

    Every command of the two panels is a [busyCommand].  Text fields are one store per panel; the delivery snapshot that
    a query polls is an input. *)
From stdpp Require Import base list strings.
From Stdlib Require Import ZArith NArith.
From S2P Require Import Prelude JsString JsValue JsArray Regex Catalog Protocol Display Envelope.
From S2P Require Import Events LocalClient Client Operator TuiFormat TuiApp Chat ChatApp Async Computer Sessions Media Studio Busy.

Definition refreshDelivery {S} : proc S unit := refetch ["studio"; "delivery"]%string.

(** ** Data and services *)

Record ResourcePlanView : Type := { rp_id : jstr; rp_classification : jstr; rp_cost : Z; rp_actions : list jstr }.
Record MigrationPlanView : Type := {
  mp_id : jstr; mp_classification : jstr; mp_dry_run_passed : bool; mp_destructive_findings : list jstr }.
Record MigrationReceipt : Type := { mg_id : jstr; mg_state : jstr; mg_rolled_back : bool }.
Record DeploymentReceipt : Type := {
  dy_id : jstr; dy_state : jstr; dy_health : jstr; dy_previous : bool; dy_rolled_back : bool }.
Record DeliverySnapshot : Type := { dl_migrations : list MigrationReceipt; dl_deployments : list DeploymentReceipt }.

Inductive DataField : Type :=
  | ResourceName | ResourceKind | ResourceEnvironment | EnvironmentName | VariableName | VariableReference
  | VariableKind | DatabasePath | MigrationEnvironment | MigrationSQL | MigrationRollback.
#[export] Instance DataField_eq_dec : EqDecision DataField.
Proof. solve_decision. Defined.

Record DataPanel : Type := {
  dt_text : DataField → jstr;
  dt_busy : bool;
  dt_notice : option jstr;
  dt_resourcePlan : option ResourcePlanView;
  dt_migrationPlan : option MigrationPlanView;
  dt_delivery : option DeliverySnapshot;
}.

Definition initialData : DataPanel := {|
  dt_text := λ f, match f with
                  | ResourceName => js "primary-db"
                  | ResourceKind => js "database"
                  | ResourceEnvironment | EnvironmentName | MigrationEnvironment => js "development"
                  | VariableKind => js "secret_reference"
                  | _ => []
                  end;
  dt_busy := false; dt_notice := None; dt_resourcePlan := None; dt_migrationPlan := None; dt_delivery := None |}.

Definition setDataTexts v d : DataPanel :=
  {| dt_text := v; dt_busy := dt_busy d; dt_notice := dt_notice d; dt_resourcePlan := dt_resourcePlan d;
     dt_migrationPlan := dt_migrationPlan d; dt_delivery := dt_delivery d |}.
Definition setDataBusy v d : DataPanel :=
  {| dt_text := dt_text d; dt_busy := v; dt_notice := dt_notice d; dt_resourcePlan := dt_resourcePlan d;
     dt_migrationPlan := dt_migrationPlan d; dt_delivery := dt_delivery d |}.
Definition setDataNotice v d : DataPanel :=
  {| dt_text := dt_text d; dt_busy := dt_busy d; dt_notice := v; dt_resourcePlan := dt_resourcePlan d;
     dt_migrationPlan := dt_migrationPlan d; dt_delivery := dt_delivery d |}.
Definition setResourcePlan v d : DataPanel :=
  {| dt_text := dt_text d; dt_busy := dt_busy d; dt_notice := dt_notice d; dt_resourcePlan := v;
     dt_migrationPlan := dt_migrationPlan d; dt_delivery := dt_delivery d |}.
Definition setMigrationPlan v d : DataPanel :=
  {| dt_text := dt_text d; dt_busy := dt_busy d; dt_notice := dt_notice d; dt_resourcePlan := dt_resourcePlan d;
     dt_migrationPlan := v; dt_delivery := dt_delivery d |}.
Definition setDataDelivery v d : DataPanel :=
  {| dt_text := dt_text d; dt_busy := dt_busy d; dt_notice := dt_notice d; dt_resourcePlan := dt_resourcePlan d;
     dt_migrationPlan := dt_migrationPlan d; dt_delivery := v |}.

Definition typeData (f : DataField) (v : jstr) (d : DataPanel) : DataPanel :=
  setDataTexts (λ g, if decide (g = f) then v else dt_text d g) d.

Definition dataCommand operation payload (done : string) after : proc DataPanel unit :=
  busyCommand setDataBusy setDataNotice operation payload (λ _, js done) after.

Section Data.
Context `{CaseTable}.
Variable parseResourcePlan : json → ResourcePlanView.
Variable parseMigrationPlan : json → MigrationPlanView.

Definition isDatabase (d : DataPanel) : bool := jeqb (dt_text d ResourceKind) (js "database").

Definition desiredResource (d : DataPanel) : jstr * json :=
  (js "desired", JObj
    [entry "name" (dt_text d ResourceName); entry "kind" (dt_text d ResourceKind); entry "provider" (js "local");
     entry "environment" (dt_text d ResourceEnvironment);
     strings "capabilities" (map js (if isDatabase d then ["schema"; "migration"; "backup"; "rollback"] else ["export"]))%string;
     entry "ownership" (js "ion_managed");
     entry "data_risk" (js (if isDatabase d then "customer_data" else "customer_files"));
     entry "engine" (if isDatabase d then js "sqlite" else []); number "monthly_cost_limit_cents" 0]).

(** [if (response.error === undefined) setPlan(response.result)]. *)
Definition planned {S} (set : option json → S → S) (r : ResponseEnvelope) : proc S unit :=
  match resp_error r with None => setState (set (resp_result r)) | Some _ => skip end.

(** [if (response.error === undefined) { setPlan(undefined); await refresh() }]. *)
Definition applied {S} (clear : S → S) (r : ResponseEnvelope) : proc S unit :=
  match resp_error r with None => setState clear;; refreshDelivery | Some _ => skip end.

Definition planResource (p : Project) (d : DataPanel) : proc DataPanel unit :=
  dataCommand "project.resource.plan" (projectFields p ++ [desiredResource d]) "Resource plan is ready for review."
    (planned (λ v, setResourcePlan (parseResourcePlan <$> v))).

Definition applyResource (p : Project) (d : DataPanel) : proc DataPanel unit :=
  match dt_resourcePlan d with
  | None => skip
  | Some plan =>
      dataCommand "project.resource.apply" [projectField p; entry "plan_id" (rp_id plan)]
        "Resource provisioned with current provider evidence." (applied (setResourcePlan None))
  end.

Definition environmentVariables (d : DataPanel) : list json :=
  match dt_text d VariableName with
  | [] => []
  | name => [JObj [entry "name" name; entry "kind" (dt_text d VariableKind); entry "reference" (dt_text d VariableReference);
                   flagEntry "required" true]]
  end.

Definition saveEnvironment (p : Project) (d : DataPanel) : proc DataPanel unit :=
  dataCommand "project.environment.put"
    [projectField p; entry "environment" (dt_text d EnvironmentName); (js "variables", JArr (environmentVariables d))]
    "Versioned environment schema saved without storing a value."
    (applied (λ s, typeData VariableReference [] (typeData VariableName [] s))).

Definition planMigration (p : Project) (d : DataPanel) : proc DataPanel unit :=
  dataCommand "project.migration.plan"
    (projectFields p ++
     [entry "environment" (dt_text d MigrationEnvironment); entry "database_path" (dt_text d DatabasePath);
      (js "steps", JArr [JObj [entry "id" (js "reviewed_change"); entry "sql" (dt_text d MigrationSQL);
                               entry "rollback" (dt_text d MigrationRollback)]])])
    "Migration dry-run completed against an isolated database copy."
    (planned (λ v, setMigrationPlan (parseMigrationPlan <$> v))).

Definition applyMigration (p : Project) (d : DataPanel) : proc DataPanel unit :=
  match dt_migrationPlan d with
  | None => skip
  | Some plan =>
      dataCommand "project.migration.apply" [projectField p; entry "plan_id" (mp_id plan)]
        "Migration applied with backup and rollback evidence." (applied (setMigrationPlan None))
  end.

Definition rollbackMigration (p : Project) (receipt : jstr) : proc DataPanel unit :=
  dataCommand "project.migration.rollback" [projectField p; entry "receipt_id" receipt]
    "Database restored from verified backup evidence." (λ _, refreshDelivery).

(** [pattern="[a-z][a-z0-9_-]{0,62}"], which the whole value has to match. *)
Definition isSmall (c : N) : bool := between 97 122 c.
Definition isNameTail (extra : list N) (c : N) : bool := isSmall c || between 48 57 c || one_of extra c.
Definition resourcePattern : re := rcats [RBos; RChr isSmall; rupto 62 (RChr (isNameTail [95; 45]%N)); REos].

Inductive DataInput : Type :=
  | DataTyped (f : DataField) (v : jstr)
  | ResourcePlanSubmitted | ResourceApplyPressed | EnvironmentSubmitted
  | MigrationPlanSubmitted | MigrationApplyPressed
  | MigrationRollbackPressed (id : jstr)
  | DataDeliveryLoaded (s : DeliverySnapshot).

(** The migrations with a rollback button. *)
Definition rollsBack (id : jstr) (d : DataPanel) : bool :=
  match dt_delivery d with
  | Some s => existsb (λ m, jeqb (mg_id m) id && negb (mg_rolled_back m)) (dl_migrations s)
  | None => false
  end.

Definition migrationFilled (d : DataPanel) : bool :=
  forallb (λ f, negb (jeqb (dt_text d f) [])) [DatabasePath; MigrationSQL; MigrationRollback].

Definition dataHandler (d : DataPanel) (y : Project * DataInput) : proc DataPanel unit :=
  let p := y.1 in
  let gate (b : bool) (q : proc DataPanel unit) := if negb (dt_busy d) && b then q else skip in
  match y.2 with
  | DataTyped f v => setState (typeData f (if decide (f = VariableName) then toUpperCase v else v))
  | ResourcePlanSubmitted => gate (test resourcePattern (dt_text d ResourceName)) (planResource p d)
  | ResourceApplyPressed => gate true (applyResource p d)
  | EnvironmentSubmitted => gate true (saveEnvironment p d)
  | MigrationPlanSubmitted => gate (migrationFilled d) (planMigration p d)
  | MigrationApplyPressed => gate true (applyMigration p d)
  | MigrationRollbackPressed id => gate (rollsBack id d) (rollbackMigration p id)
  | DataDeliveryLoaded s => setState (setDataDelivery (Some s))
  end.
End Data.

(** ** Deployments and releases *)

Record DeploymentPlanView : Type := {
  dv_id : jstr; dv_classification : jstr; dv_sha256 : jstr; dv_size : Z; dv_actions : list jstr; dv_version : jstr }.

Inductive DeployField : Type := DeployEnvironment | DeployVersion | HealthPath | ReleaseNotes | Changelog.
#[export] Instance DeployField_eq_dec : EqDecision DeployField.
Proof. solve_decision. Defined.

Record DeployPanel : Type := {
  dp_text : DeployField → jstr;
  dp_busy : bool;
  dp_notice : option jstr;
  dp_plan : option DeploymentPlanView;
  dp_delivery : option DeliverySnapshot;
}.

Definition initialDeploy : DeployPanel := {|
  dp_text := λ f, match f with
                  | DeployEnvironment => js "staging" | DeployVersion => js "0.1.0" | HealthPath => js "/" | _ => []
                  end;
  dp_busy := false; dp_notice := None; dp_plan := None; dp_delivery := None |}.

Definition setDeployTexts v d : DeployPanel :=
  {| dp_text := v; dp_busy := dp_busy d; dp_notice := dp_notice d; dp_plan := dp_plan d; dp_delivery := dp_delivery d |}.
Definition setDeployBusy v d : DeployPanel :=
  {| dp_text := dp_text d; dp_busy := v; dp_notice := dp_notice d; dp_plan := dp_plan d; dp_delivery := dp_delivery d |}.
Definition setDeployNotice v d : DeployPanel :=
  {| dp_text := dp_text d; dp_busy := dp_busy d; dp_notice := v; dp_plan := dp_plan d; dp_delivery := dp_delivery d |}.
Definition setDeployPlan v d : DeployPanel :=
  {| dp_text := dp_text d; dp_busy := dp_busy d; dp_notice := dp_notice d; dp_plan := v; dp_delivery := dp_delivery d |}.
Definition setDeployDelivery v d : DeployPanel :=
  {| dp_text := dp_text d; dp_busy := dp_busy d; dp_notice := dp_notice d; dp_plan := dp_plan d; dp_delivery := v |}.

Definition typeDeploy (f : DeployField) (v : jstr) (d : DeployPanel) : DeployPanel :=
  setDeployTexts (λ g, if decide (g = f) then v else dp_text d g) d.

Definition deployCommand operation payload (done : string) after : proc DeployPanel unit :=
  busyCommand setDeployBusy setDeployNotice operation payload (λ _, js done) after.

Section Deploy.
Variable parseDeploymentPlan : json → DeploymentPlanView.

Definition planDeployment (p : Project) (d : DeployPanel) : proc DeployPanel unit :=
  deployCommand "project.deployment.plan"
    (projectFields p ++
     [entry "environment" (dp_text d DeployEnvironment); entry "provider" (js "local_staging");
      entry "health_path" (dp_text d HealthPath); entry "version" (dp_text d DeployVersion); number "cost_limit_cents" 0])
    "Immutable deployment plan is ready for review." (planned (λ v, setDeployPlan (parseDeploymentPlan <$> v))).

Definition applyDeployment (p : Project) (d : DeployPanel) : proc DeployPanel unit :=
  match dp_plan d with
  | None => skip
  | Some plan =>
      deployCommand "project.deployment.apply" [projectField p; entry "plan_id" (dv_id plan)]
        "Deployment is healthy from a direct service check." (applied (setDeployPlan None))
  end.

Definition reconcile (p : Project) (receipt : jstr) : proc DeployPanel unit :=
  deployCommand "project.deployment.reconcile" [projectField p; entry "receipt_id" receipt]
    "Deployment reconciled from provider truth." (λ _, refreshDelivery).

Definition rollback (p : Project) (receipt : jstr) : proc DeployPanel unit :=
  deployCommand "project.deployment.rollback" [projectField p; entry "receipt_id" receipt]
    "Previous immutable release restored and health checked." (λ _, refreshDelivery).

Definition oneIfAny (v : jstr) : list jstr := match v with [] => [] | _ => [v] end.

Definition prepareRelease (p : Project) (d : DeployPanel) : proc DeployPanel unit :=
  deployCommand "project.release.prepare"
    [projectField p; entry "release_version" (dp_text d DeployVersion); strings "notes" (oneIfAny (dp_text d ReleaseNotes));
     strings "changelog" (oneIfAny (dp_text d Changelog))]
    "Release readiness refreshed from deployment, verification, and DNS evidence." (λ _, refreshDelivery).

Definition portableExport (p : Project) : proc DeployPanel unit :=
  deployCommand "project.portable.export" [projectField p]
    "Portable source, data, config schema, and artifact export created." (λ _, refreshDelivery).

Inductive DeployInput : Type :=
  | DeployTyped (f : DeployField) (v : jstr)
  | DeploymentPlanSubmitted | DeploymentApplyPressed
  | ReconcilePressed (id : jstr) | DeployRollbackPressed (id : jstr)
  | ReleaseSubmitted | ExportPressed
  | DeployDeliveryLoaded (s : DeliverySnapshot).

Definition deployments (d : DeployPanel) : list DeploymentReceipt := from_option dl_deployments [] (dp_delivery d).

Definition deployHandler (d : DeployPanel) (y : Project * DeployInput) : proc DeployPanel unit :=
  let p := y.1 in
  let filled (fs : list DeployField) := forallb (λ f, negb (jeqb (dp_text d f) [])) fs in
  let gate (b : bool) (q : proc DeployPanel unit) := if negb (dp_busy d) && b then q else skip in
  match y.2 with
  | DeployTyped f v => setState (typeDeploy f v)
  | DeploymentPlanSubmitted => gate (filled [DeployVersion; HealthPath]) (planDeployment p d)
  | DeploymentApplyPressed => gate true (applyDeployment p d)
  | ReconcilePressed id => gate (existsb (λ r, jeqb (dy_id r) id) (deployments d)) (reconcile p id)
  | DeployRollbackPressed id =>
      gate (existsb (λ r, jeqb (dy_id r) id && dy_previous r && negb (dy_rolled_back r)) (deployments d)) (rollback p id)
  | ReleaseSubmitted => gate (filled [ReleaseNotes; Changelog]) (prepareRelease p d)
  | ExportPressed => gate true (portableExport p)
  | DeployDeliveryLoaded s => setState (setDeployDelivery (Some s))
  end.

(** The tone of a deployment's state. *)
Definition deploymentTone (r : DeploymentReceipt) : string :=
  if jeqb (dy_health r) (js "passing") then "success"
  else if jeqb (dy_state r) (js "outcome_unknown") then "attention" else "danger".
End Deploy.
