(* ===== verification/DeliveryProps.v ===== *)
(** * What the data and deploy panels guarantee

    Claims about [Delivery]: only plans that were prepared are applied and one command
    runs at a time; a command that is rejected ends the panel, and a migration is applied
    whether or not its dry run passed. *)
From stdpp Require Import base sets list strings.
From Stdlib Require Import ZArith NArith.
From S2P Require Import Prelude JsString JsValue JsArray Regex Catalog Protocol Display Envelope.
From S2P Require Import Events LocalClient Client Operator TuiFormat TuiApp Chat ChatApp Async Computer Sessions Media.
From S2P Require Import Studio StudioProps Busy Delivery.

(** ** The panels *)

Section After.
Context {S : Type} (busy : S → bool).

Lemma neutral_applied (clear : S → S) r : (∀ s, busy (clear s) = busy s) → neutral busy (λ _, false) (applied clear r).
Proof. intros Hc. unfold applied. by destruct (resp_error r). Qed.

Lemma neutral_planned (set : option json → S → S) r :
  (∀ v s, busy (set v s) = busy s) → neutral busy (λ _, false) (planned set r).
Proof. intros Hc. unfold planned. by destruct (resp_error r). Qed.
End After.

Section DataFlag.
Context `{CaseTable} (parseResourcePlan : json → ResourcePlanView) (parseMigrationPlan : json → MigrationPlanView).
Local Abbreviation handler := (dataHandler parseResourcePlan parseMigrationPlan).

Lemma data_command_spans operation payload done after d :
  (∀ r, neutral dt_busy (λ _, false) (after r)) → spans dt_busy (dataCommand operation payload done after) d.
Proof. unfold dataCommand. by apply busyCommand_spans. Qed.

Lemma data_command_rejects operation payload done after d d' es r k e d2 :
  run (dataCommand operation payload done after) d = (d', es, Some (Waiter (Rpc r) k)) → run (k (inl e)) d2 = (d2, [Escaped e], None).
Proof. unfold dataCommand. apply busyCommand_rejects. Qed.

Lemma data_steady d y : dt_busy d = true → steady dt_busy (handler d y).
Proof. destruct y as [p y]. intros Hb. unfold dataHandler. cbn [fst snd]. rewrite Hb. cbn [negb andb]. by destruct y. Qed.

Lemma data_spans d y : dt_busy d = false → spans dt_busy (handler d y) d.
Proof.
  destruct y as [p y]. intros Hb. unfold dataHandler. cbn [fst snd].
  unfold planResource, applyResource, saveEnvironment, planMigration, applyMigration, rollbackMigration.
  destruct y as [f v| | | | | |id|s]; [exact I| | | | | | |exact I]; apply spans_if.
  - apply data_command_spans. intros resp. by apply neutral_planned.
  - destruct (dt_resourcePlan d); [|exact I]. apply data_command_spans. intros resp. by apply neutral_applied.
  - apply data_command_spans. intros resp. by apply neutral_applied.
  - apply data_command_spans. intros resp. by apply neutral_planned.
  - destruct (dt_migrationPlan d); [|exact I]. apply data_command_spans. intros resp. by apply neutral_applied.
  - apply data_command_spans. intros resp. by split.
Qed.

Lemma data_rejects d y d' es r k e d2 :
  run (handler d y) d = (d', es, Some (Waiter (Rpc r) k)) → run (k (inl e)) d2 = (d2, [Escaped e], None).
Proof.
  destruct y as [p y]. unfold dataHandler. cbn [fst snd].
  unfold planResource, applyResource, saveEnvironment, planMigration, applyMigration, rollbackMigration.
  destruct y as [f v| | | | | |id|s]; [apply rejects_none| | | | | | |apply rejects_none]; apply rejects_if.
  - apply data_command_rejects.
  - destruct (dt_resourcePlan d); [apply data_command_rejects|intros Hr; discriminate Hr].
  - apply data_command_rejects.
  - apply data_command_rejects.
  - destruct (dt_migrationPlan d); [apply data_command_rejects|intros Hr; discriminate Hr].
  - apply data_command_rejects.
Qed.

#[export] Instance data_busy : RejectingPanel handler dt_busy.
Proof. split; [split|]; [apply data_steady|apply data_spans|apply data_rejects]. Qed.
End DataFlag.

Section DeployFlag.
Context (parseDeploymentPlan : json → DeploymentPlanView).
Local Abbreviation handler := (deployHandler parseDeploymentPlan).

Lemma deploy_command_spans operation payload done after d :
  (∀ r, neutral dp_busy (λ _, false) (after r)) → spans dp_busy (deployCommand operation payload done after) d.
Proof. unfold deployCommand. by apply busyCommand_spans. Qed.

Lemma deploy_command_rejects operation payload done after d d' es r k e d2 :
  run (deployCommand operation payload done after) d = (d', es, Some (Waiter (Rpc r) k)) → run (k (inl e)) d2 = (d2, [Escaped e], None).
Proof. unfold deployCommand. apply busyCommand_rejects. Qed.

Lemma deploy_steady d y : dp_busy d = true → steady dp_busy (handler d y).
Proof. destruct y as [p y]. intros Hb. unfold deployHandler. cbn [fst snd]. rewrite Hb. cbn [negb andb]. by destruct y. Qed.

Lemma deploy_spans d y : dp_busy d = false → spans dp_busy (handler d y) d.
Proof.
  destruct y as [p y]. intros Hb. unfold deployHandler. cbn [fst snd].
  unfold planDeployment, applyDeployment, reconcile, rollback, prepareRelease, portableExport.
  destruct y as [f v| | |id|id| | |s]; [exact I| | | | | | |exact I]; apply spans_if.
  - apply deploy_command_spans. intros resp. by apply neutral_planned.
  - destruct (dp_plan d); [|exact I]. apply deploy_command_spans. intros resp. by apply neutral_applied.
  - apply deploy_command_spans. intros resp. by split.
  - apply deploy_command_spans. intros resp. by split.
  - apply deploy_command_spans. intros resp. by split.
  - apply deploy_command_spans. intros resp. by split.
Qed.

Lemma deploy_rejects d y d' es r k e d2 :
  run (handler d y) d = (d', es, Some (Waiter (Rpc r) k)) → run (k (inl e)) d2 = (d2, [Escaped e], None).
Proof.
  destruct y as [p y]. unfold deployHandler. cbn [fst snd].
  unfold planDeployment, applyDeployment, reconcile, rollback, prepareRelease, portableExport.
  destruct y as [f v| | |id|id| | |s]; [apply rejects_none| | | | | | |apply rejects_none]; apply rejects_if;
    try apply deploy_command_rejects.
  destruct (dp_plan d); [apply deploy_command_rejects|intros Hr; discriminate Hr].
Qed.

#[export] Instance deploy_busy : RejectingPanel handler dp_busy.
Proof. split; [split|]; [apply deploy_steady|apply deploy_spans|apply deploy_rejects]. Qed.
End DeployFlag.

(** At most one request of each panel is awaited at any time, and only while its buttons
    are disabled. *)
Theorem one_delivery_command_at_a_time `{CaseTable} pr pm pd :
  (∀ (xs : list (input (Project * DataInput))) w out, runs (dataHandler pr pm) initialData xs w out →
     length (waiting w) ≤ (if dt_busy (here w) then 1 else 0)) ∧
  (∀ (xs : list (input (Project * DeployInput))) w out, runs (deployHandler pd) initialDeploy xs w out →
     length (waiting w) ≤ (if dp_busy (here w) then 1 else 0)).
Proof. split; intros xs w out; by apply one_call_while_busy; [apply _|]. Qed.

(** A deployment command whose request is rejected is the last thing the deploy panel
    does: the exception escapes before the flag is cleared, so the buttons stay disabled,
    and whatever the operator does next, nothing is sent. *)
Theorem rejected_deployment_is_final pd (d : DeployPanel) y r k d' es (o : oracle) error
    (xs : list (input (Project * DeployInput))) w out :
  dp_busy d = false → run (deployHandler pd d y) d = (d', es, Some (Waiter (Rpc r) k)) → o (Rpc r) = inl error →
  play (deployHandler pd) (Act y :: Settled 0 o :: xs) (at_start d) [] = Some (w, out) →
  out = es ++ [Escaped error] ∧ waiting w = [] ∧ dp_busy (here w) = true.
Proof. intros Hb Hr Ho Hp. by eapply (rejection_is_final (deployHandler pd) dp_busy). Qed.

(** ** Plans *)

(** The value that an answer of the run to a request for [operation] carried. *)
Definition answered {X} (xs : list (input X)) (operation : jstr) (v : json) : Prop :=
  ∃ i (o : oracle) r resp, Settled i o ∈ xs ∧ rq_operation r = operation ∧ o (Rpc r) = inr resp ∧
                           resp_error resp = None ∧ resp_result resp = Some v.

(** A request that applies a plan names one that was prepared. *)
Definition appliesPlan (from : jstr → json → Prop) (apply plan : string) (id : json → jstr) (e : Effect) : Prop :=
  match e with
  | Issued (Rpc r) =>
      rq_operation r = js apply → ∃ v, from (js plan) v ∧ get "plan_id" (rq_payload r) = Some (JStr (id v))
  | _ => True
  end.

Section Plans.
Variable from : jstr → json → Prop.

Definition tells (c : call) : Error + answer c → Prop :=
  match c with
  | Rpc r => λ o, match o with
                  | inr resp => resp_error resp = None → ∀ v, resp_result resp = Some v → from (rq_operation r) v
                  | inl _ => True
                  end
  | _ => λ _, True
  end.

Definition prepared {P} (plan : string) (parse : json → P) (o : option P) : Prop :=
  ∀ p, o = Some p → ∃ v, from (js plan) v ∧ p = parse v.

Lemma tells_runs {X} (xs : list (input X)) :
  (∀ operation v, answered xs operation v → from operation v) → Forall (allowed (λ _, True) tells) xs.
Proof.
  intros Hf. apply Forall_forall. intros [y|i o] Hin; [done|]. intros [r| | | | | | | |]; try done. cbn [tells].
  destruct (o (Rpc r)) as [e|resp] eqn:Ho; [done|]. intros He v Hv. apply Hf. by exists i, o, r, resp.
Qed.

Section Command.
Context {S : Type} (setBusy : bool → S → S) (setNotice : option jstr → S → S) (I : S → Prop) (Q : Effect → Prop).
Hypothesis I_busy : ∀ b s, I s → I (setBusy b s).
Hypothesis I_notice : ∀ n s, I s → I (setNotice n s).
Hypothesis Q_escaped : ∀ e, Q (Escaped e).
Hypothesis Q_refetch : ∀ keys, Q (Issued (Refetch keys)).

Lemma busyCommand_safe operation payload done after :
  Q (Issued (Rpc {| rq_kind := command; rq_operation := js operation; rq_payload := JObj payload; rq_session := None |})) →
  (∀ r, (resp_error r = None → ∀ v, resp_result r = Some v → from (js operation) v) → safe I Q tells (after r)) →
  safe I Q tells (busyCommand setBusy setNotice operation payload done after).
Proof.
  intros HQ Ha. split; [apply I_busy|]. split; [exact HQ|]. intros [e|r] Hr; [apply Q_escaped|].
  cbn [mbind proc_bind]. split; [apply I_notice|]. apply safe_bind; [by apply Ha|]. intros _.
  split; [apply I_busy|exact Logic.I].
Qed.

Lemma applied_safe (clear : S → S) r : (∀ s, I s → I (clear s)) → safe I Q tells (applied clear r).
Proof. intros Hc. unfold applied. destruct (resp_error r); [exact Logic.I|]. split; [done|]. by split. Qed.

Lemma refresh_safe : safe I Q tells (@refreshDelivery S).
Proof. by split. Qed.
End Command.
End Plans.

Section DataPlans.
Context `{CaseTable} (parseResourcePlan : json → ResourcePlanView) (parseMigrationPlan : json → MigrationPlanView).
Variable from : jstr → json → Prop.

Record dataPrepared (d : DataPanel) : Prop := {
  prepared_resource : prepared from "project.resource.plan" parseResourcePlan (dt_resourcePlan d);
  prepared_migration : prepared from "project.migration.plan" parseMigrationPlan (dt_migrationPlan d);
}.

Definition dataApplies (e : Effect) : Prop :=
  appliesPlan from "project.resource.apply" "project.resource.plan" (λ v, rp_id (parseResourcePlan v)) e ∧
  appliesPlan from "project.migration.apply" "project.migration.plan" (λ v, mp_id (parseMigrationPlan v)) e.
Local Abbreviation good := (safe dataPrepared dataApplies (tells from)).

Lemma data_command_safe operation payload done after :
  dataApplies (Issued (Rpc {| rq_kind := command; rq_operation := js operation; rq_payload := JObj payload; rq_session := None |})) →
  (∀ r, (resp_error r = None → ∀ v, resp_result r = Some v → from (js operation) v) → good (after r)) →
  good (dataCommand operation payload done after).
Proof. unfold dataCommand. apply busyCommand_safe; [by intros b s []|by intros n s []|done]. Qed.

(** An operation that applies nothing. *)
Lemma data_other operation payload :
  bool_decide (js operation ∈ [js "project.resource.apply"; js "project.migration.apply"]) = false →
  dataApplies (Issued (Rpc {| rq_kind := command; rq_operation := js operation; rq_payload := payload; rq_session := None |})).
Proof.
  intros Hn. apply bool_decide_eq_false in Hn. rewrite !elem_of_cons in Hn.
  split; cbn [appliesPlan rq_operation]; intros He; exfalso; apply Hn; [left|right; left]; exact He.
Qed.

Lemma data_applied clear r : (∀ s, dataPrepared s → dataPrepared (clear s)) → good (applied clear r).
Proof. by apply applied_safe. Qed.

Lemma data_good d y : dataPrepared d → good (dataHandler parseResourcePlan parseMigrationPlan d y).
Proof.
  destruct y as [p y]. intros [Hr Hm]. unfold dataHandler. cbn [fst snd].
  destruct y as [f v| | | | | |id|s].
  1: split; [by intros s []|exact I].
  7: split; [by intros s' []|exact I].
  all: destruct (negb (dt_busy d) && _); [|exact I].
  - apply data_command_safe; [by apply data_other|]. intros r Hv. unfold planned. destruct (resp_error r); [exact I|].
    split; [|exact I]. intros s [H1 H2]. split; [|done]. intros pl Hpl.
    destruct (resp_result r) as [v|]; [|done]. injection Hpl as <-. exists v. split; [by apply Hv|done].
  - unfold applyResource. destruct (dt_resourcePlan d) as [pl|]; [|exact I].
    destruct (Hr pl eq_refl) as (v & Hv & ->).
    apply data_command_safe; [|intros r _; apply data_applied; by intros s []].
    split; [|intros He; by vm_compute in He]. intros _. exists v. by split.
  - apply data_command_safe; [by apply data_other|]. intros r _. apply data_applied. by intros s [].
  - apply data_command_safe; [by apply data_other|]. intros r Hv. unfold planned. destruct (resp_error r); [exact I|].
    split; [|exact I]. intros s [H1 H2]. split; [done|]. intros pl Hpl.
    destruct (resp_result r) as [v|]; [|done]. injection Hpl as <-. exists v. split; [by apply Hv|done].
  - unfold applyMigration. destruct (dt_migrationPlan d) as [pl|]; [|exact I].
    destruct (Hm pl eq_refl) as (v & Hv & ->).
    apply data_command_safe; [|intros r _; apply data_applied; by intros s []].
    split; [intros He; by vm_compute in He|]. intros _. exists v. by split.
  - apply data_command_safe; [by apply data_other|]. intros r _. by split.
Qed.
End DataPlans.

Section DeployPlans.
Variable parseDeploymentPlan : json → DeploymentPlanView.
Variable from : jstr → json → Prop.

Definition deployPrepared (d : DeployPanel) : Prop := prepared from "project.deployment.plan" parseDeploymentPlan (dp_plan d).
Definition deployApplies : Effect → Prop :=
  appliesPlan from "project.deployment.apply" "project.deployment.plan" (λ v, dv_id (parseDeploymentPlan v)).
Local Abbreviation good := (safe deployPrepared deployApplies (tells from)).

Lemma deploy_command_safe operation payload done after :
  deployApplies (Issued (Rpc {| rq_kind := command; rq_operation := js operation; rq_payload := JObj payload; rq_session := None |})) →
  (∀ r, (resp_error r = None → ∀ v, resp_result r = Some v → from (js operation) v) → good (after r)) →
  good (deployCommand operation payload done after).
Proof. unfold deployCommand. by apply busyCommand_safe. Qed.

Lemma deploy_refreshes operation payload done :
  js operation ≠ js "project.deployment.apply" → good (deployCommand operation payload done (λ _, refreshDelivery)).
Proof. intros Hn. apply deploy_command_safe; [by intros ?|]. intros r _. by split. Qed.

Lemma deploy_good d y : deployPrepared d → good (deployHandler parseDeploymentPlan d y).
Proof.
  destruct y as [p y]. intros Hd. unfold deployHandler. cbn [fst snd].
  destruct y as [f v| | |id|id| | |s].
  1: split; [by intros s Hs|exact I].
  7: split; [by intros s' Hs|exact I].
  all: destruct (negb (dp_busy d) && _); [|exact I].
  - apply deploy_command_safe; [intros He; by vm_compute in He|]. intros r Hv. unfold planned.
    destruct (resp_error r); [exact I|]. split; [|exact I]. intros s Hs pl Hpl.
    destruct (resp_result r) as [v|]; [|done]. injection Hpl as <-. exists v. split; [by apply Hv|done].
  - unfold applyDeployment. destruct (dp_plan d) as [pl|] eqn:Hpl; [|exact I].
    destruct (Hd pl Hpl) as (v & Hv & ->).
    apply deploy_command_safe; [|intros r _; by apply applied_safe]. intros _. exists v. by split.
  - apply deploy_refreshes. intros He. by vm_compute in He.
  - apply deploy_refreshes. intros He. by vm_compute in He.
  - apply deploy_refreshes. intros He. by vm_compute in He.
  - apply deploy_refreshes. intros He. by vm_compute in He.
Qed.
End DeployPlans.

(** [C29] Only plans that were prepared are applied: over any run of the two panels, a request
    that applies a resource, a migration or a deployment names the plan that an answer of
    the run to a request for such a plan returned without an error. *)
Theorem only_prepared_plans_are_applied `{CaseTable} pr pm pd :
  (∀ (xs : list (input (Project * DataInput))) w out, runs (dataHandler pr pm) initialData xs w out →
     Forall (dataApplies pr pm (answered xs)) out) ∧
  (∀ (xs : list (input (Project * DeployInput))) w out, runs (deployHandler pd) initialDeploy xs w out →
     Forall (deployApplies pd (answered xs)) out).
Proof.
  split; intros xs w out Hr.
  - apply (runs_safe (dataHandler pr pm) (dataPrepared pr pm (answered xs)) _ (λ _, True) (tells (answered xs))
             initialData xs w); [|by split|done|by apply tells_runs].
    intros d y _. apply data_good.
  - apply (runs_safe (deployHandler pd) (deployPrepared pd (answered xs)) _ (λ _, True) (tells (answered xs))
             initialDeploy xs w); [|done|done|by apply tells_runs].
    intros d y _. apply deploy_good.
Qed.

(** A migration can be applied whether or not its dry run passed: the button is there for
    every plan, and the request is the same. *)
Theorem failed_dry_run_is_applied `{CaseTable} pr pm p (d : DataPanel) plan :
  dt_busy d = false → dt_migrationPlan d = Some plan → mp_dry_run_passed plan = false →
  ∃ k, run (dataHandler pr pm d (p, MigrationApplyPressed)) d =
       (setDataBusy true d,
        [Issued (Rpc {| rq_kind := command; rq_operation := js "project.migration.apply";
                        rq_payload := JObj [projectField p; entry "plan_id" (mp_id plan)]; rq_session := None |})],
        Some (Waiter (Rpc {| rq_kind := command; rq_operation := js "project.migration.apply";
                        rq_payload := JObj [projectField p; entry "plan_id" (mp_id plan)]; rq_session := None |}) k)).
Proof.
  intros Hb Hp _. unfold dataHandler, applyMigration. cbn [fst snd]. rewrite Hb, Hp. cbn [negb andb].
  eexists. reflexivity.
Qed.

(** ** Examples *)

Definition deployment0 : DeploymentPlanView := {|
  dv_id := js "d1"; dv_classification := js "safe"; dv_sha256 := js "h"; dv_size := 12; dv_actions := []; dv_version := js "0.1.0" |}.
#[local] Abbreviation deploy_handler := (deployHandler (λ _, deployment0)).
Definition offline : oracle := λ _, inl (mkError (js "Failed to fetch")).

Lemma rejected_deployment_is_final_witness :
  ∃ w out, play deploy_handler [Act (project0, DeploymentPlanSubmitted); Settled 0 offline;
                                Act (project0, DeploymentPlanSubmitted); Act (project0, ExportPressed)]
             (at_start initialDeploy) [] = Some (w, out) ∧ length out = 2 ∧ dp_busy (here w) = true.
Proof.
  destruct (run (deploy_handler initialDeploy (project0, DeploymentPlanSubmitted)) initialDeploy)
    as [[d' es] [[c k]|]] eqn:Hr; [|by vm_compute in Hr].
  assert (length es = 1 ∧ ∃ r, c = Rpc r) as [Hes [r ->]].
  { apply (f_equal (λ x, (x.1.2, w_call <$> x.2))) in Hr. cbn [fst snd fmap option_fmap option_map w_call] in Hr.
    vm_compute in Hr. injection Hr as <- <-. split; [reflexivity|]. eexists. reflexivity. }
  destruct (play deploy_handler _ (at_start initialDeploy) []) as [[w out]|] eqn:Hp; [|by vm_compute in Hp].
  exists w, out. split; [reflexivity|].
  destruct (rejected_deployment_is_final _ initialDeploy _ r k d' es offline _ _ w out eq_refl Hr eq_refl Hp) as (-> & _ & Hb).
  split; [|exact Hb]. rewrite length_app, Hes. reflexivity.
Defined.
