(* ===== verification/Runtime.v ===== *)
(** * Running, checking and securing a project

    The preview, problems, tests and security panels of
    [ui/web/src/routes/StudioRoutes.tsx].

    Text fields are one store per panel; the data that queries load, and the time of a
    press that reads the clock, are inputs. *)
From stdpp Require Import base list strings.
From Stdlib Require Import ZArith NArith.
From S2P Require Import Prelude JsString JsValue JsArray Regex Catalog Protocol Display Envelope.
From S2P Require Import Events LocalClient Client Operator TuiFormat TuiApp Chat ChatApp Async Computer Sessions Media Studio Busy.

(** ** Dates *)

(** The date that is [doe] days into a period of 400 years that starts on the first of
    March of the year 0. *)
Definition eraDate (doe : Z) : Z * Z * Z :=
  let yoe := ((doe - doe / 1460 + doe / 36524 - doe / 146096) / 365)%Z in
  let doy := (doe - (365 * yoe + yoe / 4 - yoe / 100))%Z in
  let mp := ((5 * doy + 2) / 153)%Z in
  let day := (doy - (153 * mp + 2) / 5 + 1)%Z in
  let month := (if mp <? 10 then mp + 3 else mp - 9)%Z in
  ((yoe + (if month <=? 2 then 1 else 0))%Z, month, day).

(** Year, month and day of a number of days since 1970-01-01. *)
Definition civilDate (days : Z) : Z * Z * Z :=
  let z := (days + 719468)%Z in
  let '(y, m, d) := eraDate (z mod 146097) in
  ((y + 400 * (z / 146097))%Z, m, d).

Definition padded (width : nat) (z : Z) : jstr :=
  let s := string_of_Z z in repeat 48%N (width - length s) ++ s.

Definition yearText (y : Z) : jstr :=
  if ((0 <=? y) && (y <=? 9999))%Z then padded 4 y
  else js (if (y <? 0)%Z then "-" else "+") ++ padded 6 (Z.abs y).

(** [new Date(ms).toISOString()]. *)
Definition toISOString (ms : Z) : jstr :=
  let '(y, m, d) := civilDate (ms / 86400000) in
  let t := (ms mod 86400000)%Z in
  yearText y ++ js "-" ++ padded 2 m ++ js "-" ++ padded 2 d ++ js "T" ++ padded 2 (t / 3600000) ++ js ":" ++
  padded 2 (t / 60000 mod 60) ++ js ":" ++ padded 2 (t / 1000 mod 60) ++ js "." ++ padded 3 (t mod 1000) ++ js "Z".

(** ** Preview *)

Record RuntimeCommand : Type := { rc_kind : jstr; rc_description : jstr }.
Record RuntimePlan : Type := {
  ru_commands : list RuntimeCommand; ru_default_service : jstr; ru_readiness_path : jstr; ru_warnings : list jstr }.
Record RuntimeState : Type := { rs_id : jstr; rs_name : jstr; rs_status : jstr; rs_preview_url : jstr }.
Record RuntimeInspection : Type := { ri_elements : list jstr; ri_sha256 : jstr }.
Record HistoricalPreview : Type := { hp_id : jstr; hp_revision : jstr; hp_state : jstr }.
Record IndexedFile : Type := { if_path : jstr; if_sha256 : option jstr; if_findings : list (jstr * jstr * Z) }.

Inductive Viewport : Type := DesktopView | TabletView | MobileView.

Inductive PreviewField : Type :=
  | HistoricalRevision | ServiceName | SelectedElement | Annotation | StylePath | StyleProperty | StyleValue.
#[export] Instance PreviewField_eq_dec : EqDecision PreviewField.
Proof. solve_decision. Defined.

Record Preview : Type := {
  pw_text : PreviewField → jstr;
  pw_busy : bool;
  pw_notice : option jstr;
  pw_viewport : Viewport;
  pw_dark : bool;
  pw_frame : nat;
  pw_inspection : option RuntimeInspection;
  pw_historical : option HistoricalPreview;
  pw_plan : option RuntimePlan;
  pw_runtimes : list RuntimeState;
  pw_files : list IndexedFile;
}.

Definition initialPreview : Preview := {|
  pw_text := λ f, match f with HistoricalRevision => js "HEAD" | StyleProperty => js "color" | _ => [] end;
  pw_busy := false; pw_notice := None; pw_viewport := DesktopView; pw_dark := false; pw_frame := 0;
  pw_inspection := None; pw_historical := None; pw_plan := None; pw_runtimes := []; pw_files := [] |}.

Definition setPreviewTexts v w : Preview :=
  {| pw_text := v; pw_busy := pw_busy w; pw_notice := pw_notice w; pw_viewport := pw_viewport w;
     pw_dark := pw_dark w; pw_frame := pw_frame w; pw_inspection := pw_inspection w;
     pw_historical := pw_historical w; pw_plan := pw_plan w; pw_runtimes := pw_runtimes w;
     pw_files := pw_files w |}.
Definition setPreviewBusy v w : Preview :=
  {| pw_text := pw_text w; pw_busy := v; pw_notice := pw_notice w; pw_viewport := pw_viewport w;
     pw_dark := pw_dark w; pw_frame := pw_frame w; pw_inspection := pw_inspection w;
     pw_historical := pw_historical w; pw_plan := pw_plan w; pw_runtimes := pw_runtimes w;
     pw_files := pw_files w |}.
Definition setPreviewNotice v w : Preview :=
  {| pw_text := pw_text w; pw_busy := pw_busy w; pw_notice := v; pw_viewport := pw_viewport w;
     pw_dark := pw_dark w; pw_frame := pw_frame w; pw_inspection := pw_inspection w;
     pw_historical := pw_historical w; pw_plan := pw_plan w; pw_runtimes := pw_runtimes w;
     pw_files := pw_files w |}.
Definition setViewport v w : Preview :=
  {| pw_text := pw_text w; pw_busy := pw_busy w; pw_notice := pw_notice w; pw_viewport := v;
     pw_dark := pw_dark w; pw_frame := pw_frame w; pw_inspection := pw_inspection w;
     pw_historical := pw_historical w; pw_plan := pw_plan w; pw_runtimes := pw_runtimes w;
     pw_files := pw_files w |}.
Definition setDark v w : Preview :=
  {| pw_text := pw_text w; pw_busy := pw_busy w; pw_notice := pw_notice w; pw_viewport := pw_viewport w;
     pw_dark := v; pw_frame := pw_frame w; pw_inspection := pw_inspection w; pw_historical := pw_historical w;
     pw_plan := pw_plan w; pw_runtimes := pw_runtimes w; pw_files := pw_files w |}.
Definition setFrameRevision v w : Preview :=
  {| pw_text := pw_text w; pw_busy := pw_busy w; pw_notice := pw_notice w; pw_viewport := pw_viewport w;
     pw_dark := pw_dark w; pw_frame := v; pw_inspection := pw_inspection w; pw_historical := pw_historical w;
     pw_plan := pw_plan w; pw_runtimes := pw_runtimes w; pw_files := pw_files w |}.
Definition setInspection v w : Preview :=
  {| pw_text := pw_text w; pw_busy := pw_busy w; pw_notice := pw_notice w; pw_viewport := pw_viewport w;
     pw_dark := pw_dark w; pw_frame := pw_frame w; pw_inspection := v; pw_historical := pw_historical w;
     pw_plan := pw_plan w; pw_runtimes := pw_runtimes w; pw_files := pw_files w |}.
Definition setHistorical v w : Preview :=
  {| pw_text := pw_text w; pw_busy := pw_busy w; pw_notice := pw_notice w; pw_viewport := pw_viewport w;
     pw_dark := pw_dark w; pw_frame := pw_frame w; pw_inspection := pw_inspection w; pw_historical := v;
     pw_plan := pw_plan w; pw_runtimes := pw_runtimes w; pw_files := pw_files w |}.
Definition setRuntimePlan v w : Preview :=
  {| pw_text := pw_text w; pw_busy := pw_busy w; pw_notice := pw_notice w; pw_viewport := pw_viewport w;
     pw_dark := pw_dark w; pw_frame := pw_frame w; pw_inspection := pw_inspection w;
     pw_historical := pw_historical w; pw_plan := v; pw_runtimes := pw_runtimes w; pw_files := pw_files w |}.
Definition setRuntimes v w : Preview :=
  {| pw_text := pw_text w; pw_busy := pw_busy w; pw_notice := pw_notice w; pw_viewport := pw_viewport w;
     pw_dark := pw_dark w; pw_frame := pw_frame w; pw_inspection := pw_inspection w;
     pw_historical := pw_historical w; pw_plan := pw_plan w; pw_runtimes := v; pw_files := pw_files w |}.
Definition setFiles v w : Preview :=
  {| pw_text := pw_text w; pw_busy := pw_busy w; pw_notice := pw_notice w; pw_viewport := pw_viewport w;
     pw_dark := pw_dark w; pw_frame := pw_frame w; pw_inspection := pw_inspection w;
     pw_historical := pw_historical w; pw_plan := pw_plan w; pw_runtimes := pw_runtimes w; pw_files := v |}.

Definition typePreview (f : PreviewField) (v : jstr) (w : Preview) : Preview :=
  setPreviewTexts (λ g, if decide (g = f) then v else pw_text w g) w.

(** [a || b] on strings. *)
Definition orText (a b : jstr) : jstr := match a with [] => b | _ => a end.

Definition activeService (w : Preview) : jstr :=
  orText (trim (pw_text w ServiceName)) (orText (from_option ru_default_service [] (pw_plan w)) (js "web")).

(** [/^[a-z][a-z0-9-]{0,39}$/]. *)
Definition lowerLetter (c : N) : bool := between 97 122 c.
Definition servicePattern : re :=
  rcats [RBos; RChr lowerLetter; rupto 39 (RChr (λ c, lowerLetter c || between 48 57 c || (c =? 45)%N)); REos].

Definition runtime (w : Preview) : option RuntimeState := find (λ r, jeqb (rs_name r) (activeService w)) (pw_runtimes w).
Definition running (w : Preview) : bool := bool_decide (rs_status <$> runtime w = Some (js "running")).
Definition runtimeName (w : Preview) : jstr := from_option rs_name (js "web") (runtime w).

Definition ofKind (kind : string) (w : Preview) : option RuntimeCommand :=
  pw_plan w ≫= λ plan, find (λ c, jeqb (rc_kind c) (js kind)) (ru_commands plan).
Definition runnable (w : Preview) : option RuntimeCommand := orElse (ofKind "dev" w) (ofKind "start" w).

(** [/\.(css|scss|sass|less)$/i]. *)
Definition anyCase (s : string) : re := rlit_with (λ x c, (lower_ascii c =? x)%N) (js s).
Definition styleName : re :=
  rcats [RChr (N.eqb 46); ralts [anyCase "css"; anyCase "scss"; anyCase "sass"; anyCase "less"]; REos].
Definition styleFiles (w : Preview) : list IndexedFile :=
  List.filter (λ f, test styleName (if_path f) && bool_decide (is_Some (if_sha256 f))) (pw_files w).

Definition tellPreview (n : jstr) : proc Preview unit := setState (setPreviewNotice (Some n)).
Definition relistRuntimes : proc Preview unit := refetch ["studio"; "runtimes"]%string.

Section PreviewPanel.
Context `{CaseTable}.
Variable parseInspection : json → RuntimeInspection.
Variable parseHistorical : json → HistoricalPreview.

(** After every render: a first service name and a first style sheet. *)
Definition previewRendered (w : Preview) : proc Preview unit :=
  (match pw_text w ServiceName, pw_plan w with
   | [], Some plan => setState (typePreview ServiceName (ru_default_service plan))
   | _, _ => skip
   end);;
  match pw_text w StylePath, styleFiles w with
  | [], f :: _ => setState (typePreview StylePath (if_path f))
  | _, _ => skip
  end.

Inductive RuntimeOp : Type := RuntimeReload | RuntimeRestart | RuntimeStop.
Definition runtimeOperation (o : RuntimeOp) : string :=
  match o with
  | RuntimeReload => "project.runtime.reload" | RuntimeRestart => "project.runtime.restart"
  | RuntimeStop => "project.runtime.stop"
  end.
Definition runtimeWord (o : RuntimeOp) : jstr := default (js "runtime") (last (splitOn 46 (js (runtimeOperation o)))).

Definition runtimeCommand (p : Project) (o : RuntimeOp) (w : Preview) : proc Preview unit :=
  setState (setPreviewBusy true);;
  response ← rpc command (runtimeOperation o) (JObj [projectField p; entry "name" (runtimeName w)]) None;
  setState (setPreviewBusy false);;
  tellPreview (match resp_error response with Some e => err_message e | None => humanize (runtimeWord o) ++ js " completed." end);;
  match resp_error response with
  | Some _ => skip
  | None =>
      (match o with RuntimeReload => setState (λ s, setFrameRevision (S (pw_frame s)) s) | _ => skip end);;
      relistRuntimes
  end.

Definition startRuntime (p : Project) (w : Preview) : proc Preview unit :=
  match pw_plan w, runnable w with
  | Some plan, Some c =>
      setState (setPreviewBusy true);;
      response ← rpc command "project.runtime.start"
        (JObj (projectFields p ++ [entry "name" (activeService w); entry "command_kind" (rc_kind c);
                                   entry "readiness_path" (ru_readiness_path plan); number "readiness_seconds" 30])) None;
      setState (setPreviewBusy false);;
      tellPreview (errorText "The live preview passed readiness and is running." response);;
      relistRuntimes
  | _, _ => skip
  end.

Definition dimensions (v : Viewport) : Z * Z :=
  match v with MobileView => (390, 844)%Z | TabletView => (820, 1180)%Z | DesktopView => (1440, 900)%Z end.

Definition inspect (p : Project) (w : Preview) : proc Preview unit :=
  match runtime w with
  | None => skip
  | Some r =>
      setState (setPreviewBusy true);;
      try_finally
        (try_catch
           (result ← studioQuery "project.runtime.inspect"
              (JObj [projectField p; entry "name" (rs_name r); number "width" (dimensions (pw_viewport w)).1;
                     number "height" (dimensions (pw_viewport w)).2; flagEntry "dark_mode" (pw_dark w)]) None;
            let inspection := parseInspection result in
            setState (setInspection (Some inspection));;
            setState (typePreview SelectedElement (default [] (head (ri_elements inspection))));;
            tellPreview (js "Screenshot, DOM, accessibility, console, and network evidence were captured.");;
            relistRuntimes)
           (λ e, tellPreview (error_message e)))
        (setPreviewBusy false)
  end.

Definition saveAnnotation (p : Project) (w : Preview) : proc Preview unit :=
  response ← rpc command "project.runtime.annotate"
    (JObj [projectField p; entry "name" (runtimeName w); entry "element_ref" (pw_text w SelectedElement);
           entry "body" (pw_text w Annotation)]) None;
  tellPreview (errorText "Visual annotation saved against the selected element." response);;
  match resp_error response with
  | None => setState (typePreview Annotation []);; relistRuntimes
  | Some _ => skip
  end.

Definition proposeStyle (p : Project) (w : Preview) : proc Preview unit :=
  match find (λ f, jeqb (if_path f) (pw_text w StylePath)) (styleFiles w) with
  | Some f =>
      match if_sha256 f with
      | Some sha =>
          response ← rpc command "project.runtime.style.propose"
            (JObj [projectField p; entry "name" (runtimeName w); entry "element_ref" (pw_text w SelectedElement);
                   entry "path" (if_path f); entry "expected_sha256" sha;
                   (js "declarations", JObj [(pw_text w StyleProperty, JStr (pw_text w StyleValue))])]) None;
          tellPreview (errorText "A revision-bound style proposal is ready for source review; no file was changed." response);;
          match resp_error response with None => relistRuntimes | Some _ => skip end
      | None => skip
      end
  | None => skip
  end.

Definition startHistorical (p : Project) (w : Preview) : proc Preview unit :=
  response ← rpc command "project.git.preview.start"
    (JObj [projectField p; entry "revision" (pw_text w HistoricalRevision)]) None;
  match resp_error response, resp_result response with
  | None, Some result =>
      setState (setHistorical (Some (parseHistorical result)));;
      tellPreview (js "A read-only historical workspace is ready for inspection.")
  | _, _ => tellPreview (errorText "Historical preview could not start." response)
  end.

Definition closeHistorical (p : Project) (w : Preview) : proc Preview unit :=
  match pw_historical w with
  | None => skip
  | Some h =>
      response ← rpc command "project.git.preview.close" (JObj [projectField p; entry "preview_id" (hp_id h)]) None;
      tellPreview (errorText "Historical workspace closed without changing the active tree." response);;
      match resp_error response with None => setState (setHistorical None) | Some _ => skip end
  end.

Inductive PreviewInput : Type :=
  | PreviewTyped (f : PreviewField) (v : jstr)
  | ViewportChosen (v : Viewport) | DarkPressed
  | RuntimePressed (o : RuntimeOp) | InspectPressed | StartPressed
  | AnnotationSubmitted | StyleSubmitted | HistoricalSubmitted | HistoricalClosed
  | PreviewRendered
  | PlanLoaded (plan : RuntimePlan) | RuntimesLoaded (rs : list RuntimeState) | FilesLoaded (fs : list IndexedFile).

(** The fields on screen that can be edited. *)
Definition previewShown (f : PreviewField) (w : Preview) : bool :=
  match f with
  | ServiceName => negb (pw_busy w)
  | HistoricalRevision => bool_decide (pw_historical w = None)
  | _ => bool_decide (is_Some (pw_inspection w))
  end.

Definition filledPreview (fs : list PreviewField) (w : Preview) : bool := forallb (λ f, negb (jeqb (pw_text w f) [])) fs.

Definition previewHandler (w : Preview) (y : Project * PreviewInput) : proc Preview unit :=
  let p := y.1 in
  let gate (b : bool) (q : proc Preview unit) := if b then q else skip in
  let inspected := bool_decide (is_Some (pw_inspection w)) in
  match y.2 with
  | PreviewTyped f v => gate (previewShown f w) (setState (typePreview f v))
  | ViewportChosen v => setState (setViewport v)
  | DarkPressed => setState (λ s, setDark (negb (pw_dark s)) s)
  | RuntimePressed o => gate (running w && negb (pw_busy w)) (runtimeCommand p o w)
  | InspectPressed => gate (running w && negb (pw_busy w)) (inspect p w)
  | StartPressed =>
      gate (negb (running w) && negb (pw_busy w) && bool_decide (is_Some (runnable w)) && test servicePattern (activeService w))
        (startRuntime p w)
  | AnnotationSubmitted => gate (inspected && filledPreview [Annotation; SelectedElement] w) (saveAnnotation p w)
  | StyleSubmitted =>
      gate (inspected && filledPreview [StyleProperty; StyleValue; SelectedElement] w && negb (bool_decide (length (styleFiles w) = 0)))
        (proposeStyle p w)
  | HistoricalSubmitted =>
      gate (bool_decide (pw_historical w = None) && filledPreview [HistoricalRevision] w) (startHistorical p w)
  | HistoricalClosed => closeHistorical p w
  | PreviewRendered => previewRendered w
  | PlanLoaded plan => setState (setRuntimePlan (Some plan))
  | RuntimesLoaded rs => setState (setRuntimes rs)
  | FilesLoaded fs => setState (setFiles fs)
  end.

(** What the placeholder says while nothing runs. *)
Definition placeholder (w : Preview) : jstr * jstr :=
  (js (match runnable w with None => "No safe start command was inferred" | Some _ => "Preview is ready to start" end),
   default (js "Start the inferred service to open an origin-isolated live result.")
     (orElse (pw_plan w ≫= λ plan, head (ru_warnings plan)) (rc_description <$> runnable w))).
End PreviewPanel.

(** The icon of the status. *)
Definition runtimeTone (w : Preview) : string :=
  match rs_status <$> runtime w with
  | Some s => if jeqb s (js "running") then "success"
              else if jeqb s (js "crashed") || jeqb s (js "failed") then "danger" else "quiet"
  | None => "quiet"
  end.
