(* ===== verification/Checks.v ===== *)
(** * Problems, tests and security of a project

    The problems, tests and security panels of [ui/web/src/routes/StudioRoutes.tsx].
    The data that queries load, and the time of a press that reads the clock, are inputs. *)
From stdpp Require Import base list strings.
From Stdlib Require Import ZArith NArith.
From S2P Require Import Prelude JsString JsValue JsArray Regex Catalog Protocol Display Envelope.
From S2P Require Import Events LocalClient Client Operator TuiFormat TuiApp Chat ChatApp Async Computer Sessions Media Studio.
From S2P Require Import Busy Runtime.

(** ** Verification data *)

Record GateResult : Type := {
  gr_gate_id : jstr;
  gr_kind : jstr;
  gr_status : jstr;
  gr_logs : option jstr;
  gr_failure_signature : option jstr;
  gr_unavailable_reason : option jstr;
}.
Record VerificationRun : Type := {
  vr_id : jstr; vr_results : list GateResult; vr_covered : nat; vr_uncovered : nat; vr_repair_reason : jstr }.
Record Gate : Type := {
  gt_id : jstr; gt_kind : jstr; gt_argv : option (list jstr); gt_criteria : list jstr; gt_available : bool;
  gt_unavailable_reason : option jstr }.
Record Manifest : Type := { mf_id : jstr; mf_workspace_revision : Z; mf_gates : list Gate }.
Record GateWaiver : Type := { wv_gate_ids : list jstr; wv_reason : jstr; wv_expires_at : jstr; wv_revoked : bool }.

(** ** Problems *)

Record IndexDiagnostic : Type := {
  id_path : jstr; id_line : Z; id_column : option Z; id_severity : jstr; id_code : option jstr; id_message : jstr;
  id_source : jstr }.
Record RuntimeProblem : Type := {
  rb_id : jstr; rb_source : jstr; rb_severity : jstr; rb_code : option jstr; rb_message : jstr; rb_path : option jstr;
  rb_line : option Z; rb_column : option Z; rb_recurrence : Z }.
Record Problem : Type := {
  pm_id : jstr; pm_source : jstr; pm_severity : jstr; pm_code : option jstr; pm_message : jstr; pm_path : jstr;
  pm_line : Z; pm_column : option Z; pm_recurrence : Z }.

Record Problems : Type := {
  pb_session : option jstr;
  pb_notice : option jstr;
  pb_index : option (list IndexDiagnostic);
  pb_runtime : list RuntimeProblem;
  pb_runs : list VerificationRun;
}.

Definition initialProblems (session : option jstr) : Problems := {|
  pb_session := session; pb_notice := None; pb_index := None; pb_runtime := []; pb_runs := [] |}.

Definition setProblemsSession v b : Problems :=
  {| pb_session := v; pb_notice := pb_notice b; pb_index := pb_index b; pb_runtime := pb_runtime b; pb_runs := pb_runs b |}.
Definition setProblemsNotice v b : Problems :=
  {| pb_session := pb_session b; pb_notice := v; pb_index := pb_index b; pb_runtime := pb_runtime b; pb_runs := pb_runs b |}.
Definition setProblemsIndex v b : Problems :=
  {| pb_session := pb_session b; pb_notice := pb_notice b; pb_index := v; pb_runtime := pb_runtime b; pb_runs := pb_runs b |}.
Definition setProblemsRuntime v b : Problems :=
  {| pb_session := pb_session b; pb_notice := pb_notice b; pb_index := pb_index b; pb_runtime := v; pb_runs := pb_runs b |}.
Definition setProblemsRuns v b : Problems :=
  {| pb_session := pb_session b; pb_notice := pb_notice b; pb_index := pb_index b; pb_runtime := pb_runtime b; pb_runs := v |}.

Section Problems.
Context `{CaseTable}.

Definition isFailure (r : GateResult) : bool :=
  negb (jeqb (gr_status r) (js "passed")) && negb (jeqb (gr_status r) (js "waived")).

(** [logs?.trim().split('\n').at(-1)]. *)
Definition lastLine (logs : option jstr) : option jstr := logs ≫= λ v, last (splitOn 10 (trim v)).

Definition failureProblem (run : jstr) (r : GateResult) : Problem := {|
  pm_id := default (run ++ js "-" ++ gr_gate_id r) (gr_failure_signature r);
  pm_source := js "verification"; pm_severity := js "error"; pm_code := Some (gr_gate_id r);
  pm_message := default (humanize (gr_kind r) ++ js " verification " ++ humanize (gr_status r))
                  (orElse (gr_unavailable_reason r) (lastLine (gr_logs r)));
  pm_path := []; pm_line := 0; pm_column := None; pm_recurrence := 1 |}.

Definition indexedProblem (i : nat) (d : IndexDiagnostic) : Problem := {|
  pm_id := id_source d ++ js "-" ++ id_path d ++ js "-" ++ string_of_Z (id_line d) ++ js "-" ++ nat_str i;
  pm_source := id_source d; pm_severity := id_severity d; pm_code := id_code d; pm_message := id_message d;
  pm_path := id_path d; pm_line := id_line d; pm_column := id_column d; pm_recurrence := 1 |}.

Definition runtimeProblem (r : RuntimeProblem) : Problem := {|
  pm_id := rb_id r; pm_source := rb_source r; pm_severity := rb_severity r; pm_code := rb_code r;
  pm_message := rb_message r; pm_path := default [] (rb_path r); pm_line := default 0%Z (rb_line r);
  pm_column := rb_column r; pm_recurrence := rb_recurrence r |}.

Definition verificationDiagnostics (runs : list VerificationRun) : list Problem :=
  match last runs with
  | Some run => map (failureProblem (vr_id run)) (List.filter isFailure (vr_results run))
  | None => []
  end.

Definition diagnostics (b : Problems) : list Problem :=
  imap indexedProblem (default [] (pb_index b)) ++ map runtimeProblem (pb_runtime b) ++ verificationDiagnostics (pb_runs b).

Definition severityTone (value : jstr) : string :=
  if jeqb (toLowerCase value) (js "error") then "danger"
  else if jeqb (toLowerCase value) (js "warning") then "attention" else "quiet".

(** The tone of the count of problems. *)
Definition problemsTone (b : Problems) : string :=
  if existsb (λ m, jeqb (toLowerCase (pm_severity m)) (js "error")) (diagnostics b) then "danger" else "success".

(** The line under a problem's message. *)
Definition problemPlace (m : Problem) : jstr :=
  (match pm_path m with
   | [] => pm_source m
   | path => path ++ js ":" ++ string_of_Z (pm_line m) ++
             from_option (λ c, js ":" ++ string_of_Z c) [] (pm_column m) ++ js " · " ++ pm_source m
   end) ++ from_option (λ c, js " · " ++ c) [] (pm_code m) ++
  (if (1 <? pm_recurrence m)%Z then js " · repeated " ++ string_of_Z (pm_recurrence m) ++ js " times" else []).

Definition repairCriterion (x : PanelEnv) : jstr :=
  default (js "active project acceptance criterion") ((pe_intent x ≫= activeProposal) ≫= λ a, head (pr_criteria a) ≫= cr_id).

Definition repairRequest (x : PanelEnv) (m : Problem) : jstr :=
  js "Diagnose and propose a bounded fix for project " ++ pj_id (pe_project x) ++ js ", linked to " ++ repairCriterion x ++
  js ". Problem signature: " ++ pm_id m ++ js ". Evidence: [" ++ pm_severity m ++ js "] " ++ pm_source m ++
  from_option (λ c, js " " ++ c) [] (pm_code m) ++ js ": " ++ pm_message m ++
  (match pm_path m with [] => [] | path => js " at " ++ path ++ js ":" ++ string_of_Z (pm_line m) end) ++
  js ". Inspect current source and rerun the narrowest relevant verification; do not claim success without fresh evidence.".

Definition tellProblems (n : jstr) : proc Problems unit := setState (setProblemsNotice (Some n)).

Definition submitRepair (x : PanelEnv) (session : jstr) (m : Problem) : proc Problems unit :=
  response ← rpc command "turn.submit"
    (JObj [entry "content" (repairRequest x m); entry "surface" (js "studio"); projectField (pe_project x)]) (Some session);
  tellProblems (errorText "The bounded repair request is now in the project conversation." response).

Definition askToFix (x : PanelEnv) (m : Problem) (b : Problems) : proc Problems unit :=
  match pb_session b with
  | Some session => submitRepair x session m
  | None =>
      created ← rpc command "session.create" (JObj []) None;
      match resp_error created, resp_result created ≫= λ v, asString (get "id" v) with
      | None, Some id => setState (setProblemsSession (Some id));; submitRepair x id m
      | _, _ => tellProblems (errorText "A repair conversation could not be started." created)
      end
  end.

Inductive ProblemsInput : Type :=
  | FixPressed (index : nat)
  | ProblemsIndexLoaded (ds : list IndexDiagnostic) | ProblemsRuntimeLoaded (rs : list RuntimeProblem)
  | ProblemsRunsLoaded (rs : list VerificationRun).

Definition problemsHandler (b : Problems) (y : PanelEnv * ProblemsInput) : proc Problems unit :=
  match y.2 with
  | FixPressed i => match diagnostics b !! i with Some m => askToFix y.1 m b | None => skip end
  | ProblemsIndexLoaded ds => setState (setProblemsIndex (Some ds))
  | ProblemsRuntimeLoaded rs => setState (setProblemsRuntime rs)
  | ProblemsRunsLoaded rs => setState (setProblemsRuns rs)
  end.
End Problems.

(** ** Tests *)

(** The brief of the work, where one is loaded. *)
Record Brief : Type := {
  bf_done : option (list Criterion);
  bf_required : option (list jstr);
  bf_verified : option nat;
  bf_unverified : option nat;
}.

Record TestsEnv : Type := { te_project : Project; te_intent : option Intent; te_brief : option Brief }.

Inductive WaiverField : Type := WaiverGate | WaiverReason | WaiverRisk.
#[export] Instance WaiverField_eq_dec : EqDecision WaiverField.
Proof. solve_decision. Defined.

Record Tests : Type := {
  tt_text : WaiverField → jstr;
  tt_busy : bool;
  tt_notice : option jstr;
  tt_manifest : option Manifest;
  tt_runs : list VerificationRun;
  tt_waivers : list GateWaiver;
}.

Definition initialTests : Tests := {|
  tt_text := λ _, []; tt_busy := false; tt_notice := None; tt_manifest := None; tt_runs := []; tt_waivers := [] |}.

Definition setTestsTexts v t : Tests :=
  {| tt_text := v; tt_busy := tt_busy t; tt_notice := tt_notice t; tt_manifest := tt_manifest t; tt_runs := tt_runs t;
     tt_waivers := tt_waivers t |}.
Definition setTestsBusy v t : Tests :=
  {| tt_text := tt_text t; tt_busy := v; tt_notice := tt_notice t; tt_manifest := tt_manifest t; tt_runs := tt_runs t;
     tt_waivers := tt_waivers t |}.
Definition setTestsNotice v t : Tests :=
  {| tt_text := tt_text t; tt_busy := tt_busy t; tt_notice := v; tt_manifest := tt_manifest t; tt_runs := tt_runs t;
     tt_waivers := tt_waivers t |}.
Definition setManifest v t : Tests :=
  {| tt_text := tt_text t; tt_busy := tt_busy t; tt_notice := tt_notice t; tt_manifest := v; tt_runs := tt_runs t;
     tt_waivers := tt_waivers t |}.
Definition setTestRuns v t : Tests :=
  {| tt_text := tt_text t; tt_busy := tt_busy t; tt_notice := tt_notice t; tt_manifest := tt_manifest t; tt_runs := v;
     tt_waivers := tt_waivers t |}.
Definition setWaivers v t : Tests :=
  {| tt_text := tt_text t; tt_busy := tt_busy t; tt_notice := tt_notice t; tt_manifest := tt_manifest t; tt_runs := tt_runs t;
     tt_waivers := v |}.
Definition typeTests (f : WaiverField) (v : jstr) (t : Tests) : Tests :=
  setTestsTexts (λ g, if decide (g = f) then v else tt_text t g) t.

Definition testsActive (x : TestsEnv) : option Proposal := te_intent x ≫= activeProposal.

(** The criteria that have an identifier and a description. *)
Definition criteria (x : TestsEnv) : list (jstr * jstr) :=
  omap (λ c, match cr_id c, cr_description c with Some i, Some d => Some (i, d) | _, _ => None end)
    (default [] (orElse (pr_criteria <$> testsActive x) (te_brief x ≫= bf_done))).

Definition commands (x : TestsEnv) : list jstr :=
  default [] (orElse (pr_commands <$> testsActive x) (te_brief x ≫= bf_required)).

(** How many criteria are verified and how many are open. *)
Definition verifiedCount (x : TestsEnv) : nat := default 0 (te_brief x ≫= bf_verified).
Definition unverifiedCount (x : TestsEnv) : nat :=
  default 0 (orElse (te_brief x ≫= bf_unverified) ((λ a, length (pr_criteria a)) <$> testsActive x)).
Definition testsTone (x : TestsEnv) : string :=
  if (unverifiedCount x =? 0) && (0 <? verifiedCount x) then "success" else "attention".

Definition manifestStale (x : TestsEnv) (t : Tests) : bool :=
  match tt_manifest t with
  | Some m => negb (mf_workspace_revision m =? pj_revision (te_project x))%Z
  | None => false
  end.

Definition testsCommand := busyCommand setTestsBusy setTestsNotice.
Definition refreshVerification : proc Tests unit := refetch ["studio"; "verification"]%string.

Section TestsPanel.
Context `{Platform}.

Definition criterionJSON (c : jstr * jstr) : json := JObj [entry "id" c.1; entry "description" c.2; (js "kinds", JArr [])].

Definition deriveManifest (x : TestsEnv) : proc Tests unit :=
  testsCommand "project.verification.manifest.derive"
    (projectFields (te_project x) ++ [(js "criteria", JArr (map criterionJSON (criteria x)))])
    (λ _, js "Verification manifest derived from the accepted criteria and inspected repository.")
    (λ _, refreshVerification).

Definition runFull (x : TestsEnv) (t : Tests) : proc Tests unit :=
  match tt_manifest t with
  | None => skip
  | Some m =>
      testsCommand "project.verification.run"
        [projectField (te_project x); entry "manifest_id" (mf_id m); flagEntry "full" true; number "max_attempts" 3]
        (λ r, js "Verification finished: " ++
              humanize (default (js "unknown") (resp_result r ≫= λ v, asString (get "status" v))) ++ js ".")
        (λ _, refreshVerification)
  end.

(** Twenty-four hours, in milliseconds. *)
Definition waiverLife : Z := 86400000.

Definition waiverPayload (p : Project) (m : Manifest) (g : Gate) (reason risk : jstr) (now : Z) : list (jstr * json) :=
  [projectField p; entry "manifest_id" (mf_id m); strings "gate_ids" [gt_id g]; strings "criteria" (gt_criteria g);
   entry "reason" reason; entry "risk" risk; entry "expires_at" (toISOString (now + waiverLife))].

Definition createWaiver (x : TestsEnv) (now : Z) (t : Tests) : proc Tests unit :=
  match tt_manifest t with
  | None => skip
  | Some m =>
      match find (λ g, jeqb (gt_id g) (tt_text t WaiverGate)) (mf_gates m) with
      | None => skip
      | Some g =>
          testsCommand "project.verification.waiver.create"
            (waiverPayload (te_project x) m g (tt_text t WaiverReason) (tt_text t WaiverRisk) now)
            (λ _, js "The 24-hour waiver is visible and its criteria remain uncovered.")
            (λ r, (match resp_error r with
                   | None => setState (λ s, typeTests WaiverRisk [] (typeTests WaiverReason [] s))
                   | Some _ => skip
                   end);; refreshVerification)
      end
  end.

Definition activeWaivers (now : Z) (t : Tests) : list GateWaiver :=
  List.filter (λ v, negb (wv_revoked v) && match Date_parse (wv_expires_at v) with Some e => (now <? e)%Z | None => false end)
    (tt_waivers t).

(** The status of a gate in the latest run. *)
Definition gateStatus (t : Tests) (g : Gate) : jstr :=
  default (js (if gt_available g then "not run" else "unavailable"))
    (last (tt_runs t) ≫= λ r, gr_status <$> find (λ c, jeqb (gr_gate_id c) (gt_id g)) (vr_results r)).

Definition gateTone (status : jstr) : string :=
  if jeqb status (js "passed") then "success" else if jeqb status (js "not run") then "quiet"
  else if jeqb status (js "waived") then "attention" else "danger".

(** What follows a gate's kind. *)
Definition gateLine (g : Gate) : jstr :=
  default (js "No executable command") (orElse (join [32%N] <$> gt_argv g) (gt_unavailable_reason g)) ++ js " · " ++
  nat_str (length (gt_criteria g)) ++ js " criteria".

Inductive TestsInput : Type :=
  | WaiverTyped (f : WaiverField) (v : jstr)
  | DerivePressed | RunPressed | WaiverSubmitted (now : Z)
  | ManifestLoaded (m : Manifest) | TestRunsLoaded (rs : list VerificationRun) | WaiversLoaded (vs : list GateWaiver).

Definition testsHandler (t : Tests) (y : TestsEnv * TestsInput) : proc Tests unit :=
  let x := y.1 in
  let gate (b : bool) (q : proc Tests unit) := if negb (tt_busy t) && b then q else skip in
  let loaded := bool_decide (is_Some (tt_manifest t)) in
  match y.2 with
  | WaiverTyped f v => if loaded then setState (typeTests f v) else skip
  | DerivePressed => gate ((negb loaded || manifestStale x t) && negb (bool_decide (length (criteria x) = 0))) (deriveManifest x)
  | RunPressed => gate (loaded && negb (manifestStale x t)) (runFull x t)
  | WaiverSubmitted now =>
      gate (loaded && forallb (λ f, negb (jeqb (tt_text t f) [])) [WaiverGate; WaiverReason; WaiverRisk]) (createWaiver x now t)
  | ManifestLoaded m => setState (setManifest (Some m))
  | TestRunsLoaded rs => setState (setTestRuns rs)
  | WaiversLoaded vs => setState (setWaivers vs)
  end.
End TestsPanel.

(** ** Security *)

Record HostCapability : Type := {
  hc_kind : jstr; hc_non_root : bool; hc_root_confined : bool; hc_network : jstr; hc_disclosure : option jstr }.

Section Security.
Context `{CaseTable}.

Definition projectHost (host : jstr) (hosts : list HostCapability) : option HostCapability :=
  find (λ h, jeqb (hc_kind h) host) hosts.

(** Label, value, and whether the fact is good. *)
Definition securityFacts (trust : jstr) (host : option HostCapability) : list (string * jstr * bool) :=
  let confirmed (f : HostCapability → bool) := from_option f false host in
  [("Repository trust"%string, humanize trust, jeqb trust (js "trusted") || jeqb trust (js "reviewed"));
   ("Root confined"%string, js (if confirmed hc_root_confined then "Enforced" else "Unconfirmed"), confirmed hc_root_confined);
   ("Process user"%string, js (if confirmed hc_non_root then "Non-root" else "Unconfirmed"), confirmed hc_non_root);
   ("Default network"%string, from_option hc_network (js "Unknown") host, confirmed (λ h, jeqb (hc_network h) (js "deny")))].

Definition secretFindings (files : list IndexedFile) : list (jstr * jstr * Z) := flat_map if_findings files.

(** The rows of the secret scan; [None] while nothing is indexed. *)
Definition secretRows (files : option (list IndexedFile)) : option (list (jstr * jstr)) :=
  map (λ f, (humanize f.1.1, f.1.2 ++ js ":" ++ string_of_Z f.2)) ∘ secretFindings <$> files.

Definition secretTone (files : option (list IndexedFile)) : string :=
  if length (secretFindings (default [] files)) =? 0 then "success" else "danger".

Definition disclosure (host : option HostCapability) : jstr :=
  default (js "The selected host has not returned an authority disclosure.") (host ≫= hc_disclosure).
End Security.
