(* ===== verification/RuntimeProps.v ===== *)
(** * What the preview and verification panels guarantee

    Claims about [Runtime] and [Checks]: waivers and verification runs are bound to the
    manifest on screen, style proposals to an indexed file; and an annotation that
    goes to another service than the one that was inspected. *)
From stdpp Require Import base sets list strings.
From Stdlib Require Import ZArith NArith.
From S2P Require Import Prelude JsString JsValue JsArray Regex Catalog Protocol Display Envelope.
From S2P Require Import Events LocalClient Client Operator TuiFormat TuiApp Chat ChatApp Async Computer Sessions Media.
From S2P Require Import EventsFacts Store EventsProps Studio StudioProps Busy Runtime Checks.

(** ** Verification *)

(** Dates around a leap day, a century and the epoch. *)
Example leap_day : toISOString 951782400000 = js "2000-02-29T00:00:00.000Z".
Proof. vm_compute. reflexivity. Qed.
Example no_leap_day : toISOString 4107542399999 = js "2100-02-28T23:59:59.999Z".
Proof. vm_compute. reflexivity. Qed.
Example before_epoch : toISOString (-1) = js "1969-12-31T23:59:59.999Z".
Proof. vm_compute. reflexivity. Qed.

Section Tests.
Context `{Platform}.

Lemma tests_command_spans operation payload done after t :
  (∀ r, neutral tt_busy (λ _, false) (after r)) → spans tt_busy (testsCommand operation payload done after) t.
Proof. unfold testsCommand. by apply busyCommand_spans. Qed.

Lemma tests_command_rejects operation payload done after t t' es r k e t2 :
  run (testsCommand operation payload done after) t = (t', es, Some (Waiter (Rpc r) k)) → run (k (inl e)) t2 = (t2, [Escaped e], None).
Proof. unfold testsCommand. apply busyCommand_rejects. Qed.

Lemma tests_steady t y : tt_busy t = true → steady tt_busy (testsHandler t y).
Proof.
  destruct y as [x y]. intros Hb. unfold testsHandler. cbn [fst snd]. rewrite Hb. cbn [negb andb].
  destruct y; try done. by destruct (bool_decide _).
Qed.

Lemma tests_spans t y : tt_busy t = false → spans tt_busy (testsHandler t y) t.
Proof.
  destruct y as [x y]. intros Hb. unfold testsHandler. cbn [fst snd]. unfold deriveManifest, runFull, createWaiver.
  destruct y as [f v| | |now|m|rs|vs]; try exact I; apply spans_if; [exact I|..].
  - apply tests_command_spans. intros r. by split.
  - destruct (tt_manifest t); [|exact I]. apply tests_command_spans. intros r. by split.
  - destruct (tt_manifest t); [|exact I]. destruct (find _ _); [|exact I]. apply tests_command_spans. intros r.
    apply neutral_bind; [|by split]. by destruct (resp_error r).
Qed.

Lemma tests_rejects t y t' es r k e t2 :
  run (testsHandler t y) t = (t', es, Some (Waiter (Rpc r) k)) → run (k (inl e)) t2 = (t2, [Escaped e], None).
Proof.
  destruct y as [x y]. unfold testsHandler. cbn [fst snd]. unfold deriveManifest, runFull, createWaiver.
  destruct y as [f v| | |now|m|rs|vs]; try apply rejects_none; apply rejects_if; [apply rejects_none|..].
  - apply tests_command_rejects.
  - destruct (tt_manifest t); [apply tests_command_rejects|intros Hr; discriminate Hr].
  - destruct (tt_manifest t); [|intros Hr; discriminate Hr]. destruct (find _ _); [|intros Hr; discriminate Hr].
    apply tests_command_rejects.
Qed.

#[export] Instance tests_busy : RejectingPanel testsHandler tt_busy.
Proof. split; [split|]; [apply tests_steady|apply tests_spans|apply tests_rejects]. Qed.
End Tests.

(** What a request of the tests panel is bound to: the press that made it and, but for the
    derivation of a manifest, the manifest that was loaded. *)
Definition boundRequest (loaded : Manifest → Prop) (asked : TestsEnv → TestsInput → Prop) (r : Request) : Prop :=
  (rq_operation r = js "project.verification.waiver.create" →
   ∃ x now m g reason risk,
     asked x (WaiverSubmitted now) ∧ loaded m ∧ g ∈ mf_gates m ∧ reason ≠ [] ∧ risk ≠ [] ∧
     rq_payload r = JObj (waiverPayload (te_project x) m g reason risk now)) ∧
  (rq_operation r = js "project.verification.run" →
   ∃ x m, asked x RunPressed ∧ loaded m ∧ mf_workspace_revision m = pj_revision (te_project x) ∧
     get "manifest_id" (rq_payload r) = Some (JStr (mf_id m)) ∧
     get "project_id" (rq_payload r) = Some (JStr (pj_id (te_project x)))) ∧
  (rq_operation r = js "project.verification.manifest.derive" →
   ∃ x, asked x DerivePressed ∧ criteria x ≠ [] ∧
     get "criteria" (rq_payload r) = Some (JArr (map criterionJSON (criteria x)))).

Definition boundEffect loaded asked (e : Effect) : Prop :=
  match e with Issued (Rpc r) => boundRequest loaded asked r | _ => True end.

Section Bound.
Context `{Platform}.
Variable loaded : Manifest → Prop.
Variable asked : TestsEnv → TestsInput → Prop.

Definition manifestLoaded (t : Tests) : Prop := ∀ m, tt_manifest t = Some m → loaded m.
Local Abbreviation good := (safe manifestLoaded (boundEffect loaded asked) anyAnswer).

Lemma tests_command_good operation payload done after :
  boundRequest loaded asked {| rq_kind := command; rq_operation := js operation; rq_payload := JObj payload; rq_session := None |} →
  (∀ r, good (after r)) → good (testsCommand operation payload done after).
Proof.
  intros Hr Ha. split; [done|]. split; [exact Hr|]. intros [e|r] _; [done|]. cbn [mbind proc_bind]. split; [done|].
  apply safe_bind; [apply Ha|]. intros _. by split.
Qed.

Lemma refresh_good : good refreshVerification.
Proof. by split. Qed.

Lemma waiver_good x now t :
  manifestLoaded t → asked x (WaiverSubmitted now) → tt_text t WaiverReason ≠ [] → tt_text t WaiverRisk ≠ [] →
  good (createWaiver x now t).
Proof.
  intros Ht Ha Hr Hk. unfold createWaiver. destruct (tt_manifest t) as [m|] eqn:Hm; [|exact I].
  destruct (find _ (mf_gates m)) as [g|] eqn:Hg; [|exact I]. apply find_some in Hg as [Hg _].
  apply tests_command_good.
  - split; [|split; intros He; by vm_compute in He]. intros _.
    exists x, now, m, g, (tt_text t WaiverReason), (tt_text t WaiverRisk). split; [exact Ha|].
    split; [by apply Ht|]. split; [by apply list_elem_of_In|]. by split_and!.
  - intros r. apply safe_bind; [|intros _; apply refresh_good]. by destruct (resp_error r).
Qed.

Lemma run_good x t : manifestLoaded t → asked x RunPressed → manifestStale x t = false → good (runFull x t).
Proof.
  intros Ht Ha Hs. unfold runFull, manifestStale in *. destruct (tt_manifest t) as [m|] eqn:Hm; [|exact I].
  apply negb_false_iff, Z.eqb_eq in Hs. apply tests_command_good; [|intros r; apply refresh_good].
  split; [intros He; by vm_compute in He|]. split; [|intros He; by vm_compute in He]. intros _.
  exists x, m. split; [exact Ha|]. split; [by apply Ht|]. split; [exact Hs|]. by split.
Qed.

Lemma derive_good x : asked x DerivePressed → criteria x ≠ [] → good (deriveManifest x).
Proof.
  intros Ha Hc. apply tests_command_good; [|intros r; apply refresh_good].
  split; [intros He; by vm_compute in He|]. split; [intros He; by vm_compute in He|]. intros _. by exists x.
Qed.

Lemma tests_good t y :
  asked y.1 y.2 → (∀ m, y.2 = ManifestLoaded m → loaded m) → manifestLoaded t → good (testsHandler t y).
Proof.
  destruct y as [x y]. cbn [fst snd]. intros Ha Hl Ht. unfold testsHandler. cbn [fst snd].
  destruct y as [f v| | |now|m|rs|vs]; [..|by split|by split].
  - by destruct (bool_decide _).
  - destruct (_ && _) eqn:Hb; [|exact I]. rewrite !andb_true_iff in Hb. destruct Hb as (_ & _ & Hb).
    apply derive_good; [done|]. intros Hc. by rewrite Hc in Hb.
  - destruct (_ && _) eqn:Hb; [|exact I]. rewrite !andb_true_iff in Hb. destruct Hb as (_ & _ & Hb).
    apply run_good; [done|done|]. by apply negb_true_iff.
  - destruct (_ && _) eqn:Hb; [|exact I]. rewrite !andb_true_iff in Hb. destruct Hb as (_ & _ & Hb).
    rewrite forallb_forall in Hb.
    apply waiver_good; [done|done|..]; intros He.
    + specialize (Hb WaiverReason ltac:(by right; left)). by rewrite He in Hb.
    + specialize (Hb WaiverRisk ltac:(by right; right; left)). by rewrite He in Hb.
  - split; [|done]. intros s _ m'. cbn. intros [= <-]. by apply Hl.
Qed.
End Bound.

(** Verification is bound to what is on screen: over any run of the tests panel, a waiver
    names one gate of a manifest that was loaded, with that gate's criteria, a reason and a
    risk, and expires 24 hours after it was submitted; gates are run only on a manifest of
    the very revision of the project; and a manifest is derived only from criteria that
    exist. *)
Theorem verification_is_bound `{Platform} (xs : list (input (TestsEnv * TestsInput))) w out :
  runs testsHandler initialTests xs w out →
  Forall (boundEffect (λ m, ∃ x, Act (x, ManifestLoaded m) ∈ xs) (λ x y, Act (x, y) ∈ xs)) out.
Proof.
  intros Hr. apply (runs_safe testsHandler (manifestLoaded (λ m, ∃ x, Act (x, ManifestLoaded m) ∈ xs)) _
                      (λ y, Act y ∈ xs) anyAnswer initialTests xs w); try done.
  - intros t [x y] Hy Ht. apply tests_good; [done| |done]. intros m Hm. cbn in Hm. subst y. by exists x.
  - apply Forall_forall. by intros [y|i o] Hin.
Qed.

(** At most one command of the tests panel is awaited, and only while its buttons are
    disabled. *)
Theorem verification_commands_exclude `{Platform} (xs : list (input (TestsEnv * TestsInput))) w out :
  runs testsHandler initialTests xs w out → length (waiting w) ≤ (if tt_busy (here w) then 1 else 0).
Proof. by apply one_call_while_busy; [apply _|]. Qed.

(** ** Preview *)

Definition previewRequest (files : list IndexedFile → Prop) (plans : RuntimePlan → Prop) (r : Request) : Prop :=
  (rq_operation r = js "project.runtime.style.propose" →
   ∃ fs f sha, files fs ∧ f ∈ fs ∧ test styleName (if_path f) = true ∧ if_sha256 f = Some sha ∧
     get "path" (rq_payload r) = Some (JStr (if_path f)) ∧ get "expected_sha256" (rq_payload r) = Some (JStr sha)) ∧
  (rq_operation r = js "project.runtime.start" →
   ∃ plan c name, plans plan ∧ c ∈ ru_commands plan ∧ rc_kind c ∈ [js "dev"; js "start"] ∧
     test servicePattern name = true ∧ get "name" (rq_payload r) = Some (JStr name) ∧
     get "command_kind" (rq_payload r) = Some (JStr (rc_kind c))).

Definition previewEffect files plans (e : Effect) : Prop :=
  match e with Issued (Rpc r) => previewRequest files plans r | _ => True end.

Section Previews.
Context `{CaseTable}.
Variable parseInspection : json → RuntimeInspection.
Variable parseHistorical : json → HistoricalPreview.
Variable files : list IndexedFile → Prop.
Variable plans : RuntimePlan → Prop.

Record previewLoaded (w : Preview) : Prop := {
  loaded_files : files (pw_files w) ∨ pw_files w = [];
  loaded_plan : ∀ plan, pw_plan w = Some plan → plans plan;
}.
Local Abbreviation good := (safe previewLoaded (previewEffect files plans) anyAnswer).

Lemma good_edit (f : Preview → Preview) (k : proc Preview unit) :
  (∀ w, pw_files (f w) = pw_files w ∧ pw_plan (f w) = pw_plan w) → good k → good (setState f;; k).
Proof. intros Hf Hk. split; [|done]. intros w [H1 H2]. destruct (Hf w) as [E1 E2]. by split; rewrite ?E1, ?E2. Qed.

Lemma good_edit1 (f : Preview → Preview) :
  (∀ w, pw_files (f w) = pw_files w ∧ pw_plan (f w) = pw_plan w) → good (setState f).
Proof. intros Hf. split; [|done]. intros w [H1 H2]. destruct (Hf w) as [E1 E2]. by split; rewrite ?E1, ?E2. Qed.

Lemma good_tells n : good (tellPreview n).
Proof. by apply good_edit1. Qed.

Lemma good_relist : good relistRuntimes.
Proof. by split. Qed.

(** A request for something else. *)
Lemma preview_other k operation payload session :
  bool_decide (js operation ∈ [js "project.runtime.style.propose"; js "project.runtime.start"]) = false →
  previewEffect files plans (Issued (Rpc {| rq_kind := k; rq_operation := js operation; rq_payload := payload; rq_session := session |})).
Proof.
  intros Hn. apply bool_decide_eq_false in Hn. rewrite !elem_of_cons in Hn.
  split; cbn [rq_operation]; intros He; exfalso; apply Hn; [left|right; left]; exact He.
Qed.

Lemma propose_good p w : previewLoaded w → good (proposeStyle p w).
Proof.
  intros [Hf _]. unfold proposeStyle. destruct (find _ (styleFiles w)) as [f|] eqn:Hfind; [|exact I].
  apply find_some in Hfind as [Hin _]. unfold styleFiles in Hin. apply filter_In in Hin as [Hin Hs].
  apply andb_true_iff in Hs as [Hs _]. destruct (if_sha256 f) as [sha|] eqn:Hsha; [|exact I].
  split.
  - split; [|intros He; by vm_compute in He]. intros _. exists (pw_files w), f, sha.
    destruct Hf as [Hf|Hf]; [|by rewrite Hf in Hin]. split; [done|]. split; [by apply list_elem_of_In|]. by split_and!.
  - intros [e|r] _; [done|]. apply good_edit; [done|]. destruct (resp_error r); [exact I|apply good_relist].
Qed.

Lemma runnable_spec w plan c :
  pw_plan w = Some plan → runnable w = Some c → c ∈ ru_commands plan ∧ rc_kind c ∈ [js "dev"; js "start"].
Proof.
  intros Hp Hc. unfold runnable, ofKind in Hc. rewrite Hp in Hc. cbn [mbind option_bind] in Hc.
  destruct (find _ (ru_commands plan)) as [d|] eqn:Hd.
  - injection Hc as <-. apply find_some in Hd as [Hin Hk]. split; [by apply list_elem_of_In|].
    apply bool_decide_eq_true in Hk. rewrite Hk. left.
  - apply find_some in Hc as [Hin Hk]. split; [by apply list_elem_of_In|].
    apply bool_decide_eq_true in Hk. rewrite Hk. right. left.
Qed.

Lemma start_runtime_good p w : previewLoaded w → test servicePattern (activeService w) = true → good (startRuntime p w).
Proof.
  intros [_ Hl] Hn. unfold startRuntime. destruct (pw_plan w) as [plan|] eqn:Hp; [|exact I].
  destruct (runnable w) as [c|] eqn:Hc; [|exact I]. destruct (runnable_spec w plan c Hp Hc) as [Hin Hk].
  apply good_edit; [done|]. split.
  - split; [intros He; by vm_compute in He|]. intros _. exists plan, c, (activeService w).
    split; [by apply Hl|]. by split_and!.
  - intros [e|r] _; [done|]. apply good_edit; [done|]. apply good_edit; [done|]. apply good_relist.
Qed.

Lemma runtime_good p o w : good (runtimeCommand p o w).
Proof.
  apply good_edit; [done|]. split; [by destruct o; apply preview_other|]. intros [e|r] _; [done|].
  apply good_edit; [done|]. apply good_edit; [done|]. destruct (resp_error r); [exact I|].
  apply safe_bind; [|intros _; apply good_relist]. destruct o; [by apply good_edit1|exact I|exact I].
Qed.

Lemma inspect_good p w : good (inspect parseInspection p w).
Proof.
  unfold inspect. destruct (runtime w); [|exact I]. apply good_edit; [done|].
  apply safe_try_finally; [by intros s []|]. apply safe_try_catch; [|intros e; apply good_tells].
  split; [by apply preview_other|]. intros [e|r'] _; [done|]. cbn [mbind proc_bind].
  destruct (queryResult _ r') as [e|v]; [done|]. cbn [mbind proc_bind mret proc_ret].
  apply good_edit; [done|]. apply good_edit; [done|]. apply good_edit; [done|]. apply good_relist.
Qed.

Lemma annotate_good p w : good (saveAnnotation p w).
Proof.
  split; [by apply preview_other|]. intros [e|r] _; [done|]. apply good_edit; [done|].
  destruct (resp_error r); [exact I|]. apply good_edit; [done|]. apply good_relist.
Qed.

Lemma historical_good p w : good (startHistorical parseHistorical p w) ∧ good (closeHistorical p w).
Proof.
  split.
  - split; [by apply preview_other|]. intros [e|r] _; [done|]. cbn [mbind proc_bind].
    destruct (resp_error r); [apply good_tells|]. destruct (resp_result r); [|apply good_tells].
    apply good_edit; [done|]. apply good_tells.
  - unfold closeHistorical. destruct (pw_historical w); [|exact I]. split; [by apply preview_other|].
    intros [e|r] _; [done|]. apply good_edit; [done|]. destruct (resp_error r); [exact I|]. by apply good_edit1.
Qed.

Lemma preview_rendered_good w : good (previewRendered w).
Proof.
  apply safe_bind.
  - destruct (pw_text w ServiceName); [|exact I]. destruct (pw_plan w); [by apply good_edit1|exact I].
  - intros _. destruct (pw_text w StylePath); [|exact I]. destruct (styleFiles w); [exact I|by apply good_edit1].
Qed.

Lemma preview_good w y :
  (∀ fs, y.2 = FilesLoaded fs → files fs) → (∀ plan, y.2 = PlanLoaded plan → plans plan) → previewLoaded w →
  good (previewHandler parseInspection parseHistorical w y).
Proof.
  destruct y as [p y]. cbn [snd]. intros Hf Hp Hw. unfold previewHandler. cbn [fst snd].
  destruct y as [f v|v| |o| | | | | | | |plan|rs|fs].
  all: try lazymatch goal with |- safe _ _ _ (if ?b then _ else _) => destruct b eqn:Hb; [|exact I] end.
  - by apply good_edit1.
  - by apply good_edit1.
  - by apply good_edit1.
  - apply runtime_good.
  - apply inspect_good.
  - apply start_runtime_good; [done|]. by apply andb_true_iff in Hb as [_ Hb].
  - apply annotate_good.
  - by apply propose_good.
  - apply historical_good.
  - apply historical_good.
  - apply preview_rendered_good.
  - split; [|done]. intros s [H1 H2]. split; [done|]. cbn. intros plan' [= <-]. by apply Hp.
  - by apply good_edit1.
  - split; [|done]. intros s [H1 H2]. split; [|done]. left. by apply Hf.
Qed.
End Previews.

(** Previews change nothing that was not seen: over any run of the preview panel, a style
    proposal names a style sheet of an index that was loaded together with the hash the
    index has for it, and a service is started only under a name of lower-case letters,
    digits and hyphens with a [dev] or [start] command of a plan that was loaded. *)
Theorem previews_are_bound `{CaseTable} pi ph (xs : list (input (Project * PreviewInput))) w out :
  runs (previewHandler pi ph) initialPreview xs w out →
  Forall (previewEffect (λ fs, ∃ p, Act (p, FilesLoaded fs) ∈ xs) (λ plan, ∃ p, Act (p, PlanLoaded plan) ∈ xs)) out.
Proof.
  intros Hr. apply (runs_safe (previewHandler pi ph)
    (previewLoaded (λ fs, ∃ p, Act (p, FilesLoaded fs) ∈ xs) (λ plan, ∃ p, Act (p, PlanLoaded plan) ∈ xs)) _
    (λ y, Act y ∈ xs) anyAnswer initialPreview xs w); [| |done|].
  - intros s [p y] Hy Hs. apply preview_good; [| |done]; cbn [snd]; intros v ->; by exists p.
  - by split; [right|].
  - apply Forall_forall. by intros [y|i o] Hin.
Qed.

(** An annotation follows the name in the service field, not the inspection it is about:
    after one service was inspected, typing the name of another leaves the capture and its
    selected element on screen, and the annotation is saved for the other service under
    the first one's element. *)
Theorem annotation_reaches_another_service `{CaseTable} pi ph p (w : Preview) (inspected other : RuntimeState) (v : jstr) :
  pw_busy w = false → is_Some (pw_inspection w) → pw_text w SelectedElement ≠ [] → pw_text w Annotation ≠ [] →
  runtime w = Some inspected → trim v ≠ [] → find (λ r, jeqb (rs_name r) (trim v)) (pw_runtimes w) = Some other →
  rs_name other ≠ rs_name inspected →
  ∃ w' r, play (previewHandler pi ph) [Act (p, PreviewTyped ServiceName v); Act (p, AnnotationSubmitted)] (at_start w) [] =
          Some (w', [Issued (Rpc r)]) ∧ rq_operation r = js "project.runtime.annotate" ∧
          get "name" (rq_payload r) = Some (JStr (rs_name other)) ∧
          get "element_ref" (rq_payload r) = Some (JStr (pw_text w SelectedElement)).
Proof.
  intros Hb Hi Hs Ha _ Hv Ho _.
  assert (runtimeName (typePreview ServiceName v w) = rs_name other) as Hn.
  { unfold runtimeName, runtime, activeService. cbn [typePreview setPreviewTexts pw_text pw_runtimes pw_plan].
    rewrite decide_True by done. by destruct (trim v); [|cbn [orText]; rewrite Ho]. }
  erewrite play_act; [|unfold previewHandler; cbn [fst snd at_start here previewShown]; rewrite Hb; reflexivity]. played.
  erewrite play_act; [|unfold previewHandler; cbn [fst snd here]; rewrite bool_decide_true by exact Hi;
    unfold filledPreview; cbn [forallb typePreview setPreviewTexts pw_text]; rewrite !decide_False by done;
    unfold jeqb; rewrite !bool_decide_false by done; reflexivity].
  eexists _, _. split; [reflexivity|]. split; [reflexivity|]. split; [|reflexivity].
  rewrite <- Hn. reflexivity.
Qed.

(** ** Examples *)

Definition gate0 : Gate := {|
  gt_id := js "unit"; gt_kind := js "unit_tests"; gt_argv := None; gt_criteria := [js "c1"]; gt_available := true;
  gt_unavailable_reason := None |}.
Definition manifest0 : Manifest := {| mf_id := js "m1"; mf_workspace_revision := 7; mf_gates := [gate0] |}.
Definition testsEnv : TestsEnv := {| te_project := project0; te_intent := None; te_brief := None |}.
Definition testsRun : list (input (TestsEnv * TestsInput)) :=
  [Act (testsEnv, ManifestLoaded manifest0); Act (testsEnv, WaiverTyped WaiverGate (js "unit"));
   Act (testsEnv, WaiverTyped WaiverReason (js "Flaky")); Act (testsEnv, WaiverTyped WaiverRisk (js "Low"));
   Act (testsEnv, WaiverSubmitted 951782400000)].

#[local] Abbreviation tests_handler := (testsHandler (H := test_platform)).

Lemma verification_is_bound_witness :
  existsb (issuedFor "project.verification.waiver.create") (effectsOf tests_handler initialTests testsRun) = true ∧
  Forall (boundEffect (λ m, ∃ x, Act (x, ManifestLoaded m) ∈ testsRun) (λ x y, Act (x, y) ∈ testsRun))
    (effectsOf tests_handler initialTests testsRun).
Proof.
  split; [vm_compute; reflexivity|].
  destruct (effects_run tests_handler initialTests testsRun) as [w Hr]; [vm_compute; reflexivity|].
  exact (verification_is_bound (H := test_platform) _ w _ Hr).
Defined.

Definition sheet0 : IndexedFile := {| if_path := js "site.CSS"; if_sha256 := Some (js "h1"); if_findings := [] |}.
Definition runtimePlan0 : RuntimePlan := {|
  ru_commands := [{| rc_kind := js "start"; rc_description := [] |}]; ru_default_service := js "web";
  ru_readiness_path := js "/"; ru_warnings := [] |}.
Definition web0 : RuntimeState := {| rs_id := js "r1"; rs_name := js "web"; rs_status := js "running"; rs_preview_url := [] |}.
Definition previewRun : list (input (Project * PreviewInput)) :=
  [Act (project0, PlanLoaded runtimePlan0); Act (project0, FilesLoaded [sheet0]); Act (project0, StartPressed);
   Settled 0 (answersWith JNull); Settled 0 (answersWith JNull); Act (project0, RuntimesLoaded [web0]);
   Act (project0, PreviewRendered); Act (project0, InspectPressed); Settled 0 (answersWith (JObj []));
   Act (project0, PreviewTyped StyleValue (js "red")); Act (project0, StyleSubmitted)].

#[local] Abbreviation preview_handler :=
  (previewHandler (H := ascii_only) (λ _, {| ri_elements := [js "e1"]; ri_sha256 := js "h" |})
     (λ _, {| hp_id := []; hp_revision := []; hp_state := [] |})).

Lemma previews_are_bound_witness :
  existsb (issuedFor "project.runtime.style.propose") (effectsOf preview_handler initialPreview previewRun) = true ∧
  Forall (previewEffect (λ fs, ∃ p, Act (p, FilesLoaded fs) ∈ previewRun) (λ plan, ∃ p, Act (p, PlanLoaded plan) ∈ previewRun))
    (effectsOf preview_handler initialPreview previewRun).
Proof.
  split; [vm_compute; reflexivity|].
  destruct (effects_run preview_handler initialPreview previewRun) as [w Hr]; [vm_compute; reflexivity|].
  exact (previews_are_bound (H := ascii_only) _ _ _ w _ Hr).
Defined.

(** While no index is loaded, the secret scan shows no finding and a green count, although
    it says that nothing is indexed. *)
Theorem unscanned_project_looks_clean `{CaseTable} : secretRows None = None ∧ secretTone None = "success"%string.
Proof. by split. Qed.
