(* ===== verification/Surface.v ===== *)
(** * The subsystem pages: values as text

    [ui/web/src/routes/SubsystemRoutes.tsx], first half: the surfaces and their operations,
    the state of a section, and how an answer of unknown shape becomes labels and text.

    A text that cannot be produced because the code throws is [None].  Tables of the code
    are object literals, so looking up a name that every object inherits
    ([Object.prototype]) finds that member; [member] says which of the three happens.
    Number and date formats of the locale, [JSON.parse] and the conversion of strings to
    numbers are the parameters of [Environment]; [String] of an object is its tag, except
    in [printed], where an own member named toString makes it throw. *)
From stdpp Require Import base list strings.
From Stdlib Require Import ZArith NArith.
From S2P Require Import Prelude JsString JsValue JsArray Regex Catalog Protocol Display Envelope.
From S2P Require Import Events LocalClient Client Operator TuiFormat TuiApp Chat Async Computer Sessions Media.

Class Environment := {
  env_platform :: Platform;
  (** [new Intl.NumberFormat().format(n)]; [n.toLocaleString()], also of NaN. *)
  formatNumber : num → jstr;
  localeNumber : option num → jstr;
  (** The medium date with a short time, and [toLocaleString()], of a valid date. *)
  formatInstant : jstr → jstr;
  localInstant : jstr → jstr;
  JSON_parse : jstr → option json;
  ToNumber : jstr → option num;
}.

(** ** Surfaces *)

Record SurfaceDefinition : Type := {
  sf_path : string; sf_eyebrow : string; sf_title : string; sf_description : string;
  sf_operations : list string; sf_accent : string }.

Definition subsystemSurfaces : list SurfaceDefinition := [
  {| sf_path := "/since-away"; sf_eyebrow := "CONTINUITY"; sf_title := "Since you were away";
     sf_description := "Review completed work, failures, decisions, changed files, pending questions, and deadlines from durable evidence.";
     sf_operations := ["continuity.brief"];
     sf_accent := "sage" |};
  {| sf_path := "/knowledge"; sf_eyebrow := "KNOWLEDGE"; sf_title := "What Ion knows";
     sf_description := "Review saved knowledge, its sources and confidence, and what Ion expects to happen next.";
     sf_operations := ["memory.search"; "memory.graph"; "memory.activation"; "premise.list"; "prediction.list";
                         "curiosity.targets"; "dreamweaver.beliefs"];
     sf_accent := "violet" |};
  {| sf_path := "/work"; sf_eyebrow := "WORK"; sf_title := "Goals and active work";
     sf_description := "See what is planned, what is running, who is helping, and what needs your decision.";
     sf_operations := ["work.brief"; "artifact.list"; "autonomy.get"; "project.list"; "workflow.list";
                         "supervisor.list"; "workspace.capabilities"; "studio.intent.list"; "taskgraph.get";
                         "taskgraph.todo"; "swarm.list"; "automatrix.list"];
     sf_accent := "sage" |};
  {| sf_path := "/execution"; sf_eyebrow := "ACTIONS"; sf_title := "Actions and decisions";
     sf_description := "Check which actions are available, why a decision was made, and what actually happened.";
     sf_operations := ["tool.surface"; "tool.readiness"; "policy.events"; "receipt.list";
                         "receipt.verify"];
     sf_accent := "amber" |};
  {| sf_path := "/extensions"; sf_eyebrow := "CONNECTIONS"; sf_title := "Models and connections";
     sf_description := "Manage the models, connected services, add-ons, and abilities Ion can use.";
     sf_operations := ["provider.list"; "provider.usage"; "mcp.servers"; "mcp.tools"; "plugin.list";
                         "skill.list"; "skill.lifecycle"; "tool.readiness"];
     sf_accent := "cyan" |};
  {| sf_path := "/presence"; sf_eyebrow := "AVAILABILITY"; sf_title := "Where and when Ion works";
     sf_description := "Review connected channels, scheduled work, delivery health, and current availability.";
     sf_operations := ["channel.list"; "channel.health"; "schedule.list"; "liveness.get"; "system.health";
                         "system.metrics"];
     sf_accent := "sage" |};
  {| sf_path := "/identity"; sf_eyebrow := "IDENTITY"; sf_title := "Preferences and identity";
     sf_description := "Review how Ion is configured and the values that keep its behavior consistent.";
     sf_operations := ["config.get"; "soul.get"; "liveness.get"; "commands.catalog"];
     sf_accent := "violet" |};
  {| sf_path := "/diagnostics"; sf_eyebrow := "SYSTEM HEALTH"; sf_title := "System health and activity";
     sf_description := "Find recent activity, service health, performance, and safety-check results.";
     sf_operations := ["logs.query"; "system.health"; "system.metrics"; "integrity.latest";
                         "commands.catalog"];
     sf_accent := "amber" |}]%string.

Definition wideSurfaceOperations : list string :=
  ["automatrix.list"; "commands.catalog"; "integrity.latest"; "liveness.get"; "continuity.brief"; "logs.query";
   "policy.events"; "studio.intent.list"; "supervisor.list"; "taskgraph.get"; "tool.readiness"; "tool.surface";
   "workflow.list"; "workspace.capabilities"]%string.

Definition lookupText {A} (table : list (string * A)) (k : string) : option A :=
  snd <$> find (λ r, String.eqb r.1 k) table.

Record SurfaceMutation : Type := { mu_operation : string; mu_label : string; mu_consequence : string }.

Definition mutationForSurface (path : string) : option SurfaceMutation :=
  lookupText [("/diagnostics"%string,
    {| mu_operation := "integrity.run"; mu_label := "Run a safety check";
       mu_consequence := "Ion will check recent records for missing or unexpected changes." |})] path.

(** ** The state of a section *)

Inductive SurfaceState : Type := SPending | SError | SEmpty | SReady.
#[export] Instance SurfaceState_eq_dec : EqDecision SurfaceState.
Proof. solve_decision. Defined.

(** The kind of the problem ([true] for an error) and its reason. *)
Definition projectionProblem (value : option json) : option (bool * option jstr) :=
  if isRecord value && isString (getO "status" value) then
    let reason := asString (getO "reason" value) in
    if isLit "unavailable" (getO "status" value) then Some (true, reason)
    else if isLit "not_available" (getO "status" value) then Some (false, reason)
    else None
  else None.

Definition isEmptyValue (value : option json) : bool :=
  match value with
  | None | Some JNull => true
  | Some (JArr l) => bool_decide (l = [])
  | Some (JObj []) => true
  | Some (JObj o) => match get "memories" (JObj o) with Some (JArr []) => true | _ => false end
  | Some (JStr s) => jeqb s []
  | Some _ => false
  end.

Definition surfaceState (isPending isError : bool) (value : option json) : SurfaceState :=
  if isPending then SPending
  else if isError || bool_decide (fst <$> projectionProblem value = Some true) then SError
  else if bool_decide (fst <$> projectionProblem value = Some false) || isEmptyValue value then SEmpty
  else SReady.

Definition statusLabel (s : SurfaceState) : string :=
  match s with SPending => "Checking" | SError => "Unavailable" | SEmpty => "No data yet" | SReady => "Available" end.

Definition pluralize (word : string) (count : nat) : jstr := js word ++ if (count =? 1)%nat then [] else js "s".

(** [`${count} ${pluralize(word, count)}`]. *)
Definition counted (word : string) (count : nat) : jstr := digits (N.of_nat count) ++ js " " ++ pluralize word count.

Definition problemMessages : list (string * string) :=
  [("memory.search", "Ion could not read saved knowledge right now. Your encrypted records were not changed.");
   ("provider.list", "Model connection information could not be checked. Existing conversations are unaffected.");
   ("channel.health", "Delivery connections could not be checked. Try again before relying on an external channel.");
   ("system.health", "The service did not answer its health check. Try again shortly.")]%string.

Definition friendlyProblem (operation : string) (reason : option jstr) : jstr :=
  if from_option (includes (js "no cognition checkpoint")) false reason
  then js "Start a conversation first. Ion will show this after it has something to work with."
  else js (default "Ion could not check this section right now. Try again shortly." (lookupText problemMessages operation))%string.

Definition emptyMessages : list (string * (string * string)) :=
  [
   ("automatrix.list", ("No background tasks are waiting", "Ion has not proposed any unattended work for your review."));
   ("artifact.list", ("No deliverables recorded", "Ion will record and independently verify files that support completion criteria."));
   ("curiosity.targets", ("No open questions right now", "Ion has not found a recurring knowledge gap worth exploring."));
   ("dreamweaver.beliefs", ("No derived ideas yet", "New ideas appear here only after enough independent knowledge supports them."));
   ("logs.query", ("No recent activity to show", "New system activity will appear here as it happens."));
   ("memory.search", ("No saved knowledge yet", "Conversation history is still kept privately. Explicitly saved facts and preferences will appear here."));
   ("plugin.list", ("No add-ons installed", "Installed extensions will appear here with their permissions and status."));
   ("provider.list", ("No model connected", "Connect a model before asking Ion to do agent work."));
   ("provider.usage", ("Usage accounting is unavailable", "Ion will show real request and token totals when the live model reports them."));
   ("premise.list", ("No working assumptions", "Assumptions appear when Ion needs to reason beyond confirmed facts."));
   ("schedule.list", ("No scheduled work", "Recurring and future work will appear here."));
   ("skill.list", ("No saved abilities", "Reusable procedures will appear here after they are installed or learned."));
   ("skill.lifecycle", ("No ability history", "Imported, proposed, adopted, rejected, and retired ability versions will appear here."));
   ("swarm.list", ("No helpers are active", "Additional agents will appear here while they are helping with a task."));
   ("supervisor.list", ("No supervised work is active", "Accepted outcomes will appear here when Ion divides them into specialist workstreams."));
   ("taskgraph.todo", ("No next steps are waiting", "This conversation has no unfinished plan steps."))]%string.

Definition emptyState (operation : string) : string * string :=
  default ("Nothing to show yet", "Information will appear here when it becomes available.")%string
    (lookupText emptyMessages operation).

(** ** Names *)

Section Names.
Context `{CaseTable}.

Definition humanize (value : jstr) : jstr := let s := spaced value in toUpperCase (take 1 s) ++ drop 1 s.

Definition operationCategories : list (string * string) :=
  [("automatrix", "BACKGROUND WORK"); ("artifact", "DELIVERABLES"); ("autonomy", "AUTONOMY");
   ("channel", "CHANNELS"); ("continuity", "CONTINUITY"); ("commands", "AVAILABLE ACTIONS");
   ("config", "PREFERENCES"); ("curiosity", "OPEN QUESTIONS"); ("dreamweaver", "DERIVED IDEAS");
   ("integrity", "SAFETY CHECKS"); ("logs", "ACTIVITY"); ("mcp", "CONNECTED SERVICES");
   ("memory", "SAVED KNOWLEDGE"); ("plugin", "ADD-ONS"); ("policy", "DECISIONS"); ("prediction", "FORECASTS");
   ("premise", "ASSUMPTIONS"); ("provider", "MODELS"); ("receipt", "OUTCOMES"); ("schedule", "SCHEDULES");
   ("skill", "ABILITIES"); ("soul", "IDENTITY"); ("swarm", "HELPERS"); ("supervisor", "WIDE WORK");
   ("system", "SYSTEM"); ("taskgraph", "GOALS"); ("tool", "ACTIONS"); ("work", "CURRENT OUTCOME");
   ("workflow", "WORKFLOWS"); ("studio", "SOFTWARE STUDIO")]%string.

(** [operation.split('.')[0]]. *)
Definition operationCategory (operation : string) : string :=
  default "DETAILS"%string
    (snd <$> find (λ r, bool_decide (head (splitOn 46 (js operation)) = Some (js r.1))) operationCategories).

Definition operationTitles : list (string * string) :=
  [("automatrix.list", "Background tasks"); ("artifact.list", "Deliverables and evidence");
   ("autonomy.get", "Autonomy and limits"); ("channel.health", "Delivery health");
   ("channel.list", "Connected channels"); ("commands.catalog", "What Ion can do");
   ("config.get", "Current preferences"); ("continuity.brief", "Verified changes while you were away");
   ("curiosity.targets", "Questions worth exploring");
   ("dreamweaver.beliefs", "Ideas derived from existing knowledge");
   ("integrity.latest", "Latest safety check"); ("logs.query", "Recent activity");
   ("liveness.get", "Living context"); ("mcp.servers", "Connected services");
   ("mcp.tools", "Tools from connected services"); ("memory.activation", "Knowledge currently in use");
   ("memory.graph", "Related knowledge"); ("memory.search", "Saved knowledge");
   ("plugin.list", "Installed add-ons"); ("project.list", "Software projects");
   ("studio.intent.list", "Specifications to review"); ("policy.events", "Recent safety decisions");
   ("prediction.list", "Forecasts"); ("premise.list", "Assumptions"); ("provider.list", "Connected model");
   ("provider.usage", "Model usage"); ("receipt.list", "Recent outcomes");
   ("receipt.verify", "Outcome verification"); ("schedule.list", "Scheduled work");
   ("skill.list", "Available abilities"); ("skill.lifecycle", "Ability history");
   ("soul.get", "Identity and guiding values"); ("swarm.list", "Active helpers");
   ("supervisor.list", "Agent supervisor"); ("supervisor.get", "Supervised outcome");
   ("system.health", "Service health"); ("system.metrics", "Performance"); ("taskgraph.get", "Goal map");
   ("taskgraph.todo", "Next steps"); ("tool.readiness", "Actions ready to use");
   ("tool.surface", "Available actions"); ("work.brief", "Current outcome and next action");
   ("workflow.list", "Reusable workflows"); ("workspace.capabilities", "Workspace hosts")]%string.

Definition operationTitle (operation : string) : jstr :=
  match lookupText operationTitles operation with
  | Some title => js title
  | None => join (js " · ") (map humanize (splitOn 46 (js operation)))
  end.

Definition operationDescriptions : list (string * string) :=
  [("automatrix.list", "Work Ion has proposed doing in the background.");
   ("artifact.list", "Deliverables recorded against completion criteria and their verification state.");
   ("autonomy.get", "Whether background initiative is off, suggest-only, paused, or limited to approved plans.");
   ("channel.health", "Whether messages can be delivered through each connection.");
   ("channel.list", "Places where you can talk with Ion.");
   ("commands.catalog", "Actions supported by this version of Ion.");
   ("config.get", "Non-secret settings that shape how Ion runs.");
   ("continuity.brief", "Completed work, failures, decisions, changed files, pending questions, discoveries, repairs, proposals, incomplete work, and deadlines from allowlisted durable evidence.");
   ("curiosity.targets", "Knowledge gaps Ion has noticed more than once.");
   ("dreamweaver.beliefs", "Carefully derived ideas supported by several saved sources.");
   ("integrity.latest", "The result of the most recent record-integrity check.");
   ("logs.query", "Recent operational activity, with private values removed.");
   ("liveness.get", "Current workload, timing, relationship, and communication signals.");
   ("mcp.servers", "External tool services available to Ion.");
   ("mcp.tools", "Actions supplied by connected tool services.");
   ("memory.activation", "Knowledge selected to help with the current conversation.");
   ("memory.graph", "How saved knowledge is connected and protected.");
   ("memory.search", "Facts, preferences, and other items explicitly saved for later.");
   ("plugin.list", "Optional add-ons installed for this Ion instance.");
   ("project.list", "Engineering projects attached to this account and their real workspace state.");
   ("studio.intent.list", "What Ion understood, visible assumptions, proposed behavior, risks, criteria, and approval state.");
   ("policy.events", "Recent allow, deny, and approval decisions.");
   ("prediction.list", "Expected results Ion will compare with what actually happens.");
   ("premise.list", "Unconfirmed ideas Ion is currently using while reasoning.");
   ("provider.list", "The AI model used for conversations, planning, and agent work.");
   ("provider.usage", "Recent model requests and failures.");
   ("receipt.list", "Recorded evidence for completed actions.");
   ("receipt.verify", "Whether recorded action evidence still matches.");
   ("schedule.list", "Recurring work and future checks.");
   ("skill.list", "Reusable procedures Ion can follow.");
   ("skill.lifecycle", "Active abilities, validation decisions, and retained versions available for rollback.");
   ("soul.get", "The stable values and behavior rules Ion follows.");
   ("swarm.list", "Additional agents currently helping with work.");
   ("supervisor.list", "Durable outcome plans, live per-specialist progress, budgets, retries, conflicts, and restart reconciliation.");
   ("supervisor.get", "One authoritative supervisor run with every specialist packet, attempt, lease, budget, and finding.");
   ("system.health", "Whether the main service is ready to accept work.");
   ("system.metrics", "Bounded service and event-stream performance information.");
   ("taskgraph.get", "The current plan and recent recovery state.");
   ("taskgraph.todo", "Plan steps that still need work.");
   ("tool.readiness", "Which actions can run now and which need setup.");
   ("tool.surface", "Actions currently available to the model.");
   ("work.brief", "The durable definition of success, next action, blockers, and verified completion coverage.");
   ("workflow.list", "Curated staged procedures with entry conditions, evidence, and human gates.");
   ("workspace.capabilities", "Local, container, and remote workspace capabilities negotiated with this runtime.")]%string.

Definition operationDescription (operation : string) : string :=
  default "Current information from the running Ion service."%string (lookupText operationDescriptions operation).

(** The names every object inherits. *)
Definition objectMembers : list string :=
  ["constructor"; "__defineGetter__"; "__defineSetter__"; "hasOwnProperty"; "__lookupGetter__"; "__lookupSetter__";
   "isPrototypeOf"; "propertyIsEnumerable"; "toString"; "valueOf"; "__proto__"; "toLocaleString"]%string.
Definition inherited (k : jstr) : bool := in_names k objectMembers.

(** [table[k] ?? fallback], [None] when it is an inherited member, which is not a text. *)
Definition member (table : list (string * string)) (k fallback : jstr) : option jstr :=
  match find (λ r, jeqb k (js r.1)) table with
  | Some r => Some (js r.2)
  | None => if inherited k then None else Some fallback
  end.

Definition fieldLabels : list (string * string) :=
  [("active", "Helpers working now"); ("affected_subgoals", "Plan areas affected");
   ("cache", "Readiness checks"); ("ciphertext_visible", "Encrypted content exposed");
   ("configured", "Connections set up"); ("counts", "Results by action"); ("created_at", "Created");
   ("credentials", "Connection secret"); ("edges", "Connections"); ("episodic", "Recent experiences");
   ("failures", "Failed requests"); ("global_limit", "Total helper limit"); ("healthy", "Connections working");
   ("load", "Confidence"); ("nodes", "Saved items"); ("parent_limit", "Helpers per task");
   ("primary_external_channel", "Main external channel"); ("recursive_spawning", "Helpers can create helpers");
   ("requests", "Requests made"); ("safety_boundary", "Safety rules"); ("semantic", "Facts and meaning");
   ("session_limit", "Helpers per conversation"); ("source", "Basis"); ("statement", "Assumption");
   ("threshold", "Review after"); ("tools", "Action readiness"); ("unavailable", "Actions unavailable");
   ("verification", "Integrity protection"); ("verified", "Check passed");
   ("working", "In this conversation")]%string.

Definition fieldLabel (key : jstr) : option jstr := member fieldLabels key (humanize key).
End Names.

(** Fields that are left out of what is shown. *)
Definition isTechnicalField (key : jstr) : bool :=
  jeqb key (js "id") || jeqb key (js "hash") || endsWith (js "_id") key || endsWith (js "_ids") key ||
  endsWith (js "_hash") key || jeqb key (js "soul_hash") || jeqb key (js "checkpoint") || jeqb key (js "revision") ||
  jeqb key (js "sequence").

(** [typeof item === 'string' && item.trim() !== '']. *)
Definition visibleText (v : option json) : option jstr :=
  match asString v with Some s => if bool_decide (trim s = []) then None else Some s | None => None end.

(** The first of the members that is a visible text. *)
Fixpoint firstText (keys : list string) (v : json) : option (string * jstr) :=
  match keys with
  | [] => None
  | k :: keys => match visibleText (get k v) with Some s => Some (k, s) | None => firstText keys v end
  end.

Definition primaryRecordField (v : json) : option (string * jstr) :=
  match firstText ["statement"; "content"; "title"; "name"; "label"; "description"; "operation"]%string v with
  | Some r => Some r
  | None => pair "status"%string <$> asString (get "status" v)
  end.

(** ** Percentages

    [Math.round(value * 100)] of a double between 0 and 1: the decimal is rounded to the
    nearest double, the product as well, and the result to the nearest integer, halves up. *)

(** [n / d / 2 ^ e]. *)
Definition scaled (n d e : Z) : Z * Z := (n * 2 ^ Z.max 0 (- e), d * 2 ^ Z.max 0 e)%Z.

Definition roundEven (n d : Z) : Z :=
  let q := (n / d)%Z in
  let r := (n mod d)%Z in
  (if 2 * r <? d then q else if d <? 2 * r then q + 1 else if Z.even q then q else q + 1)%Z.

(** The largest [k] with [2 ^ k <= n / d]. *)
Definition binade (n d : Z) : Z :=
  let k := (Z.log2 n - Z.log2 d)%Z in
  let '(a, b) := scaled n d k in (if a <? b then k - 1 else k)%Z.

(** The double nearest to a rational: a 53-bit integer and its exponent. *)
Definition toDouble (n d : Z) : Z * Z :=
  if (n =? 0)%Z then (0, 0)%Z else
  let e := Z.max (-1074) (binade n d - 52) in
  let '(a, b) := scaled n d e in (roundEven a b, e).

(** [m * 2 ^ e] as a fraction. *)
Definition fraction (base m e : Z) : Z * Z := (m * base ^ Z.max 0 e, base ^ Z.max 0 (- e))%Z.

Definition percentOf (v : num) : Z :=
  match v with
  | NFin m e =>
      let '(n, d) := fraction 10 m e in
      let '(a, x) := toDouble n d in
      let '(p, q) := fraction 2 a x in
      let '(b, y) := toDouble (100 * p) q in
      let '(r, s) := fraction 2 b y in mathRound r s
  | NInf _ => 0%Z
  end.

(** ** Values *)

Section Values.
Context `{Environment}.

(** [/^[{[]/.test(text.trimStart())]. *)
Definition looksStructured (text : jstr) : bool :=
  match trimStart text with c :: _ => ((c =? 123) || (c =? 91))%N | [] => false end.

(** [/"name"\s*:\s*"([a-zA-Z0-9_.-]+)"/], its first group. *)
Definition isActionUnit (c : N) : bool :=
  between 97 122 c || between 65 90 c || between 48 57 c || one_of [95; 46; 45]%N c.
Definition actionName (value : jstr) : option jstr :=
  let blanks := RStar (RChr is_space) in
  let quotes := RChr (N.eqb 34) in
  search (rcats [rlit_with N.eqb (34%N :: js "name" ++ [34%N]); blanks; RChr (N.eqb 58); blanks; quotes]) None value
    (λ c1, Regex.run (rplus (RChr isActionUnit)) c1
             (λ c2, Regex.run quotes c2 (λ _, Some (take (length c1.2 - length c2.2) c1.2)))).

Definition summarizeStructuredContent (value : jstr) : option jstr :=
  if negb (startsWith (js "{") (trimStart value)) then None else
  match JSON_parse value with
  | Some decoded =>
      if negb (isRecord (Some decoded)) then Some (js "Structured saved record") else
      match visibleText (get "name" decoded) with
      | Some name =>
          let failed := bool_decide (is_Some (visibleText (get "failure_class" decoded))) ||
                        bool_decide (is_Some (get "error" decoded)) in
          Some (humanize name ++ js " " ++ js (if failed then "failed" else "completed"))
      | None =>
          match firstText ["statement"; "title"; "label"]%string decoded with
          | Some r => Some r.2
          | None => Some (js "Structured saved record")
          end
      end
  | None =>
      match actionName value with
      | None => Some (js "Saved technical record")
      | Some action => Some (humanize action ++ js " activity")
      end
  end.

Definition compactDisplayText (value : jstr) : jstr :=
  clip 280 277 (trim (replace_all (rplus (RChr is_space)) (λ _, [32%N]) value)).

(** The values whose [String] throws: objects with an own toString, also inside arrays. *)
Fixpoint unprintable (v : json) : bool :=
  match v with
  | JArr l => existsb unprintable l
  | JObj o => bool_decide (js "toString" ∈ o.*1)
  | _ => false
  end.
Definition printed (v : json) : option jstr := if unprintable v then None else Some (toStr v).

Definition shareKeys : list string :=
  ["confidence"; "curiosity"; "fatigue"; "frustration"; "load"; "satisfaction"; "trust"; "urgency"]%string.

Definition memoryTypes : list (string * string) :=
  [("0x01", "Identity"); ("0x02", "Fact"); ("0x03", "Preference"); ("0x04", "Belief"); ("0x05", "Event");
   ("0x06", "Goal"); ("0x07", "Constraint"); ("0x08", "Capability"); ("0x09", "Pattern")]%string.

Definition formatFlag (b : bool) (key : jstr) : jstr :=
  js (if jeqb key (js "ciphertext_visible")
      then if b then "Yes — needs attention" else "No — content stays private"
      else if b then "Yes" else "No").

Definition formatNum (n : num) (key : jstr) : jstr :=
  if numLeb (num_of_Z 0) n && numLeb n (num_of_Z 1) && in_names key shareKeys
  then string_of_Z (percentOf n) ++ js "%"
  else if jeqb key (js "threshold") then num_toString n ++ js " repeated results"
  else formatNumber n.

(** What is left of [formatScalar] for a text. *)
Definition formatText (text key : jstr) : option jstr :=
  if endsWith (js "_at") key && date_ok text then Some (formatInstant text)
  else if jeqb key (js "source") && jeqb text (js "assumption") then Some (js "Ion inferred this; it is not confirmed yet")
  else if jeqb key (js "credentials") && jeqb text (js "write-only") then Some (js "Stored privately")
  else if jeqb key (js "status") then Some (humanize text)
  else compactDisplayText <$> member memoryTypes text text.

Definition formatScalar (value : option json) (key : jstr) : option jstr :=
  match value with
  | None | Some JNull | Some (JStr []) => Some (js "Not set")
  | Some (JBool b) => Some (formatFlag b key)
  | Some (JNum n) => Some (formatNum n key)
  | Some (JStr text) =>
      match (if looksStructured text then summarizeStructuredContent text else None) with
      | Some summary => Some summary
      | None => formatText text key
      end
  | Some v => text ← printed v; formatText text key
  end.

Definition formatTimestampValue (value : option json) : jstr :=
  match asString value with
  | Some s => if date_ok s then localInstant s else js "Time unavailable"
  | None => js "Time unavailable"
  end.

Definition renderValue (value : option json) : option jstr :=
  match value with
  | Some (JArr l) => Some (counted "item" (length l))
  | Some (JObj o) => Some (counted "detail" (length o))
  | _ => formatScalar value []
  end.

Definition compact (value : json) : jstr := clip 260 257 (stringify value).

Definition stableKey (value : json) (index : nat) : jstr :=
  match asString (get "id" value) with
  | Some id => id
  | None => digits (N.of_nat index) ++ js ":" ++ compact value
  end.

Definition prettyOf (value : option json) : jstr :=
  match value with None => js "No response payload." | Some v => pretty v end.

(** ** Records and lists *)

#[local] Unset Elimination Schemes.
Inductive Node : Type :=
  | Text (t : jstr)
  (** An ordered list: the title of each item and its facts, and the note below it. *)
  | Listing (items : list (jstr * list (jstr * option jstr * Node))) (note : option jstr)
  (** Labelled values, with the key of each. *)
  | Rows (nested : bool) (rows : list (jstr * option jstr * Node))
  | Group (heading : jstr) (body : list Node)
  | Nothing (title description : jstr).
#[local] Set Elimination Schemes.

Definition texts (l : list jstr) : list Node := map Text l.

(** [friendlyValue] at depth 2 and more, where it opens nothing. *)
Definition closedValue (value : json) (key : jstr) : option Node :=
  match value with
  | JArr l =>
      Some (Text (if bool_decide (l = []) then js "None"
                  else if jeqb key (js "affected_subgoals") then counted "plan area" (length l)
                  else counted "item" (length l)))
  | JObj o => Some (Text (counted "detail" (length o)))
  | v => Text <$> formatScalar (Some v) key
  end.

Definition factsOf (o : list (jstr * json)) : list (jstr * json) :=
  let primary := primaryRecordField (JObj o) in
  take 4 (List.filter (λ kv, bool_decide (Some kv.1 ≠ js <$> (fst <$> primary)) && negb (isTechnicalField kv.1)) o).

Definition readableItem (operation : option string) (item : json)
    : option (jstr * list (jstr * option jstr * Node)) :=
  match item with
  | JObj o =>
      title ← match primaryRecordField item with
              | None => Some (operationTitle (default "details"%string operation) ++ js " item")
              | Some (key, value) => formatScalar (Some (JStr value)) (js key)
              end;
      facts ← mapM (λ kv, node ← closedValue kv.2 kv.1; Some (kv.1, fieldLabel kv.1, node)) (factsOf o);
      Some (title, facts)
  | _ => title ← formatScalar (Some item) []; Some (title, [])
  end.

Definition ReadableList (operation : option string) (value : list json) : option Node :=
  let visible := take 6 value in
  items ← mapM (readableItem operation) visible;
  Some (Listing items
          (if (length visible <? length value)%nat
           then Some (js "Showing " ++ digits (N.of_nat (length visible)) ++ js " of " ++
                      digits (N.of_nat (length value)) ++ js " items. Open Technical details for the complete response.")
           else None)).

Definition shownFields (o : list (jstr * json)) : list (jstr * json) :=
  take 14 (List.filter (λ kv, negb (isTechnicalField kv.1)) o).

(** [levels] is how much deeper a value may be opened: 2 less its depth. *)
Fixpoint friendlyAt (levels : nat) (value : json) (key : jstr) (operation : option string) : option Node :=
  match levels with
  | O => closedValue value key
  | S levels' =>
      match value with
      | JArr l =>
          if bool_decide (l = []) then Some (Text (js "None"))
          else if jeqb key (js "affected_subgoals") then Some (Text (counted "plan area" (length l)))
          else if forallb (λ item, negb (isRecord (Some item))) l then
            visible ← mapM (λ item, formatScalar (Some item) key) (take 4 l);
            Some (Text (join (js ", ") visible ++
                        if (length visible <? length l)%nat
                        then js " · " ++ digits (N.of_nat (length l - length visible)) ++ js " more" else []))
          else ReadableList operation l
      | JObj o =>
          rows ← mapM (λ kv, node ← friendlyAt levels' kv.2 kv.1 operation; Some (kv.1, fieldLabel kv.1, node)) (shownFields o);
          Some (Rows (bool_decide (levels < 2)) rows)
      | v => Text <$> formatScalar (Some v) key
      end
  end.

Definition friendlyValue (value : json) (key : jstr) (depth : nat) (operation : option string) : option Node :=
  friendlyAt (2 - depth) value key operation.

Definition ReadableRecord (operation : option string) (o : list (jstr * json)) (depth : nat) : option Node :=
  rows ← mapM (λ kv, node ← friendlyValue kv.2 kv.1 (depth + 1) operation; Some (kv.1, fieldLabel kv.1, node)) (shownFields o);
  Some (Rows (0 <? depth)%nat rows).
End Values.
