(* ===== verification/Subsystem.v ===== *)
(** * The subsystem pages: sections, views and actions

    [ui/web/src/routes/SubsystemRoutes.tsx], second half: the page of a surface with its
    queries and counts, the views of the answers it knows, and the commands they send.

    A query of the page is pending, failed (perhaps with earlier data) or loaded.  A view
    with state is a handler as in [Async]; its inputs carry what the view was rendered
    with, and name a control by its position on screen.  The page's notice, which the
    commands of a supervised run set, is part of the state of the run's view. *)
From stdpp Require Import base list strings.
From Stdlib Require Import ZArith NArith.
From S2P Require Import Prelude JsString JsValue JsArray Regex Catalog Protocol Display Envelope.
From S2P Require Import Events LocalClient Client Operator TuiFormat TuiApp Chat ChatApp Async Computer Sessions Media.
From S2P Require Import Studio Surface.

(** [Array.isArray(v) ? v : []], and its records. *)
Definition arrayOf (v : option json) : list json := default [] (isArray v).
Definition recordsOf (v : option json) : list json := List.filter (λ x, isRecord (Some x)) (arrayOf v).

(** [isRecord(v) ? v : {}]. *)
Definition recordOr (v : option json) : json := default (JObj []) (record v).

(** [String(v)]. *)
Definition stringOf (v : option json) : jstr := match v with Some v => toStr v | None => js "undefined" end.

Definition nat_text (n : nat) : jstr := digits (N.of_nat n).

(** ** Queries of a page *)

Record Answer : Type := { an_revision : Z; an_value : json }.

Inductive PageQuery : Type :=
  | QueryPending
  | QueryFailed (e : Error) (last : option Answer)
  | QueryLoaded (a : Answer).

Definition isPending (q : PageQuery) : bool := match q with QueryPending => true | _ => false end.
Definition queryError (q : PageQuery) : option Error := match q with QueryFailed e _ => Some e | _ => None end.
Definition queryData (q : PageQuery) : option Answer :=
  match q with QueryPending => None | QueryFailed _ last => last | QueryLoaded a => Some a end.
Definition queryValue (q : PageQuery) : option json := an_value <$> queryData q.

Inductive ContinuityPeriod : Type := PastDay | PastWeek | PastMonth.
Definition periodName (p : ContinuityPeriod) : string :=
  match p with PastDay => "24h" | PastWeek => "7d" | PastMonth => "30d" end.

Definition defaultPayload (operation : string) (period : ContinuityPeriod) : json :=
  JObj (if String.eqb operation "memory.search" then [number "limit" 24]
        else if String.eqb operation "logs.query" then [number "limit" 80]
        else if String.eqb operation "events.replay" then [number "after_sequence" 0; number "limit" 80]
        else if String.eqb operation "continuity.brief" then [entry "period" (js (periodName period))]
        else []).

(** The function of a query; [response.result ?? {}]. *)
Definition surfaceQuery {S} (operation : string) (period : ContinuityPeriod) (session : option jstr) : proc S Answer :=
  response ← rpc query operation (defaultPayload operation period) session;
  match resp_error response with
  | Some e => throw (mkError (err_message e))
  | None => mret {| an_revision := resp_revision response; an_value := default (JObj []) (present (resp_result response)) |}
  end.

(** Milliseconds between two fetches, when there are any. *)
Definition refetchInterval (operation : string) : option Z :=
  if String.eqb operation "supervisor.list" then Some 1000%Z
  else if existsb (String.eqb operation) ["work.brief"; "artifact.list"; "autonomy.get"]%string then Some 5000%Z
  else None.

Definition stateOf (q : PageQuery) : SurfaceState :=
  surfaceState (isPending q) (bool_decide (is_Some (queryError q))) (queryValue q).

(** ** The page of a surface *)

Definition countStates (f : SurfaceState → bool) (qs : list PageQuery) : nat := length (List.filter (λ q, f (stateOf q)) qs).
Definition pendingCount : list PageQuery → nat := countStates (λ s, bool_decide (s = SPending)).
Definition attentionCount : list PageQuery → nat := countStates (λ s, bool_decide (s = SError)).
Definition checkedCount : list PageQuery → nat := countStates (λ s, bool_decide (s = SReady) || bool_decide (s = SEmpty)).

Definition isExtensions (sf : SurfaceDefinition) : bool := String.eqb (sf_path sf) "/extensions".
Definition allIndexes (sf : SurfaceDefinition) : list nat := seq 0 (length (sf_operations sf)).
Definition primaryIndexes (sf : SurfaceDefinition) : list nat := if isExtensions sf then take 2 (allIndexes sf) else allIndexes sf.
Definition advancedIndexes (sf : SurfaceDefinition) : list nat := if isExtensions sf then drop 2 (allIndexes sf) else [].

(** The query of an operation of the page. *)
Definition operationQuery (sf : SurfaceDefinition) (qs : list PageQuery) (operation : string) : option PageQuery :=
  r ← list_find (λ o, o = operation) (sf_operations sf); qs !! r.1.

Definition providerSetupNeeded (sf : SurfaceDefinition) (qs : list PageQuery) : bool :=
  isExtensions sf && bool_decide (stateOf <$> operationQuery sf qs "provider.list" = Some SEmpty).

Definition summaryText (sf : SurfaceDefinition) (qs : list PageQuery) : jstr :=
  let pending := pendingCount qs in
  let attention := attentionCount qs in
  if (0 <? pending)%nat then js "Checking " ++ counted "section" pending
  else if (0 <? attention)%nat
  then counted "section" attention ++ js (if (attention =? 1)%nat then " needs" else " need") ++ js " attention"
  else if providerSetupNeeded sf qs then js "Setup needed" else js "Up to date".

Definition summaryReady (sf : SurfaceDefinition) (qs : list PageQuery) : bool :=
  (pendingCount qs =? 0)%nat && (attentionCount qs =? 0)%nat && negb (providerSetupNeeded sf qs).

Definition summaryCounts (qs : list PageQuery) : jstr :=
  nat_text (checkedCount qs) ++ js " checked, " ++ nat_text (attentionCount qs) ++ js " unavailable, " ++
  nat_text (pendingCount qs) ++ js " loading".

(** ** Guides *)

Record Guide : Type := { gd_ready : bool; gd_title : jstr; gd_text : jstr; gd_settings : option string }.

Definition toolReady (value : option json) (name : string) : bool :=
  match find (λ t, isRecord (Some t) && isLit name (get "name" t)) (arrayOf (getO "tools" (record value))) with
  | Some t => match get "ready" t with Some (JBool true) => true | _ => false end
  | None => false
  end.

Definition BrowserMailboxGuide (pending : bool) (value : option json) : Guide :=
  let browserReady := toolReady value "browser_navigate" in
  let ready := browserReady && toolReady value "agent_mailbox_status" in
  {| gd_ready := ready;
     gd_title := js (if pending then "Checking browser and agent email"
                     else if ready then "Browser workflows and private verification are ready"
                     else if browserReady then "Browser control is ready; agent email needs setup"
                     else "Browser workflow setup is incomplete");
     gd_text := js (if ready
       then "Ion can use ordinary websites and privately move confirmation codes into an approved browser field."
       else "Install Chromium and connect machine-mail. Passwords and verification codes stay on the server and never appear on this page.");
     gd_settings := if ready then None else Some "ION_BROWSER_EXECUTABLE · MACHINE_MAIL_ADDRESS · MACHINE_MAIL_API_KEY"%string |}.

Definition ProviderConnectionGuide (error : option Error) (pending : bool) (value : option json) : Guide :=
  let provider := record (head (arrayOf value)) in
  {| gd_ready := bool_decide (is_Some provider);
     gd_title := if pending then js "Checking the model connection"
                 else match error, provider with
                      | Some _, _ => js "The model connection could not be checked"
                      | None, Some p => textOr "Your model" (get "name" p) ++ js " is configured"
                      | None, None => js "Connect a model before starting agent work"
                      end;
     gd_text := match provider with
       | Some p => textOr "Selected model" (get "model" p) ++ js " is used for conversations. Its private key never reaches this page."
       | None => js "Add the provider name, server address, private key, and model name to the protected dashboard settings, then restart Ion."
       end;
     gd_settings := match provider with
                    | Some _ => None
                    | None => Some "PROVIDER_NAME · PROVIDER_BASE_URL · PROVIDER_API_KEY · LLM_MODEL"%string
                    end |}.

(** The guides of the extensions page, and whether it shows the add-on preview. *)
Definition guidesOf (sf : SurfaceDefinition) (qs : list PageQuery) : list Guide :=
  if isExtensions sf then
    let provider := operationQuery sf qs "provider.list" in
    let readiness := operationQuery sf qs "tool.readiness" in
    [ProviderConnectionGuide (provider ≫= queryError) (from_option isPending true provider) (provider ≫= queryValue);
     BrowserMailboxGuide (match list_find (λ o, o = "tool.readiness"%string) (sf_operations sf) with
                          | None => true
                          | Some _ => from_option isPending false readiness
                          end) (readiness ≫= queryValue)]
  else [].

Definition sandboxShown (sf : SurfaceDefinition) (qs : list PageQuery) : bool :=
  isExtensions sf && bool_decide (arrayOf (operationQuery sf qs "plugin.list" ≫= queryValue) ≠ []).

(** ** Views *)

Section Views.
Context `{Environment}.

Definition numberText (v : option json) : jstr := numText (numberOf ToNumber v).
Local Abbreviation shown v := (formatScalar v []).

(** *** Supervised work *)

Definition taskStatus (names : list string) (task : json) : bool := existsb (λ n, isLit n (get "status" task)) names.
Definition countTasks (names : list string) (tasks : list json) : nat := length (List.filter (taskStatus names) tasks).

Definition runTasks (run : json) : list json := recordsOf (get "tasks" run).
Definition runID (run : json) : jstr := default [] (asString (get "id" run)).
Definition runStatus (run : json) : jstr := textOr "waiting" (get "status" run).
Definition runActive (run : json) : bool := negb (in_names (runStatus run) ["cancelled"; "completed"]%string).
Definition needsAttention : list json → nat := countTasks ["blocked"; "outcome_unknown"; "waiting_evidence"]%string.

(** [Math.max(0, Math.min(100, n))]. *)
Definition taskProgress (task : json) : option num :=
  n ← numberOf ToNumber (get "progress" task);
  Some (if numLeb n (num_of_Z 0) then num_of_Z 0 else if numLeb (num_of_Z 100) n then num_of_Z 100 else n).

(** A text member that is shown unless it is missing or empty. *)
Definition noted (v : option json) (prefix : string) : list Node :=
  match asString v with Some (c :: s) => [Text (js prefix ++ c :: s)] | _ => [] end.

Definition taskView (task : json) : option Node :=
  let packet := recordOr (get "packet" task) in
  title ← shown (get "title" packet);
  let attempts := length (arrayOf (get "attempts" task)) in
  Some (Group title
    (texts [humanize (textOr "specialist" (get "specialist" packet)) ++ js " · " ++ humanize (textOr "pending" (get "status" task));
            numText (taskProgress task) ++ js "% · " ++ counted "attempt" attempts] ++
     noted (get "blocking_reason" task) EmptyString)).

Definition SupervisorRunView (run : json) : option Node :=
  let tasks := runTasks run in
  let usage := recordOr (get "usage" run) in
  let attention := needsAttention tasks in
  rows ← mapM taskView tasks;
  Some (Group (humanize (runStatus run))
    (texts [nat_text (countTasks ["running"]%string tasks) ++ js " active / " ++
              numberText (get "max_parallel" (recordOr (get "budget" run))) ++ js " lanes";
            nat_text (length tasks) ++ js " workstreams · " ++ nat_text (countTasks ["completed"]%string tasks) ++
              js " completed · " ++ nat_text attention ++ js " need attention"] ++
     (if (0 <? attention)%nat then [Text (counted "workstream" attention ++ js " need a decision or verified evidence.")] else []) ++
     texts [localeNumber (numberOf ToNumber (get "tokens" usage)) ++ js " tokens";
            numberText (get "tool_calls" usage) ++ js " actions"; numberText (get "cost_cents" usage) ++ js "¢ model cost";
            numberText (get "provider_cents" usage) ++ js "¢ provider spend"] ++ rows ++
     [Text (js "Results merge in dependency and task order. Safety, approvals, and evidence gates remain active for every specialist.")])).

Definition supervisorRuns (value : list json) : list json := take 4 (List.filter (λ x, isRecord (Some x)) value).

Definition SupervisorListView (value : list json) : option (list Node) :=
  match supervisorRuns value with
  | [] => Some [Nothing (js "No supervised work is active")
                 (js "When Ion splits an accepted outcome into specialist workstreams, live progress will appear here.")]
  | runs => mapM SupervisorRunView runs
  end.

(** *** The current outcome *)

Definition WorkBriefView (value : json) : option (list Node) :=
  let unverified := arrayOf (get "unverified_criteria" value) in
  match record (get "contract" value) with
  | None => Some [Nothing (js "No outcome has been set for this work")
      (js "Ask Ion to define the deliverable, done criteria, verification, and next action before substantial work begins.")]
  | Some contract =>
      goal ← shown (get "goal" contract);
      deliverable ← shown (get "deliverable" contract);
      next ← shown (get "next_action" value);
      missing ← mapM (λ item, shown (Some item)) unverified;
      deliverables ← match recordsOf (get "deliverables" value) with
                     | [] => Some (Text (js "No deliverables have been recorded yet."))
                     | l => ReadableList (Some "artifact.list"%string) l
                     end;
      Some [Group (js "Outcome") (texts [goal; deliverable]);
            Group (js "What happens next") (Text next :: noted (get "blocking_reason" value) "Waiting: ");
            Group (js "Proof of completion")
              (Text (numberText (get "completion_percentage" value) ++ js "% verified · " ++
                     nat_text (length (arrayOf (get "verified_criteria" value))) ++ js " passed · " ++
                     nat_text (length unverified) ++ js " still need evidence") ::
               match missing with [] => [] | _ => [Text (js "Still unverified: " ++ join (js ", ") missing)] end);
            Group (js "Deliverables") [deliverables]]
  end.

(** *** Identity *)

Definition SoulView (value : json) : option (list Node) :=
  match record (get "current" value) with
  | None => Some [Nothing (js "No approved identity record") (js "Ion has not loaded a signed set of guiding values yet.")]
  | Some soul =>
      content ← shown (get "content" soul);
      approved ← formatScalar (get "approved_at" soul) (js "approved_at");
      number ← shown (get "number" soul);
      provenance ← shown (get "provenance" soul);
      let history := length (arrayOf (get "history" value)) in
      let proposals := length (arrayOf (get "proposals" value)) in
      Some [Group (js "Current guiding values")
              (texts [content; js "Approved: " ++ approved; js "Revision: " ++ number; js "Provenance: " ++ provenance]);
            Group (js "Review state")
              (texts [nat_text history ++ js " approved " ++ pluralize "version" history ++ js " · " ++
                        nat_text (length (arrayOf (get "pending_proposals" value))) ++ js " pending · " ++
                        nat_text proposals ++ js " total " ++ pluralize "proposal" proposals;
                      js "The signed content and hashes remain available in Technical details."])]
  end.

(** *** What happened while away *)

Definition ReturnBriefView (value : json) : option (list Node) :=
  let sections := recordsOf (get "sections" value) in
  if isLit "no_activity" (get "status" value) || bool_decide (sections = []) then
    Some (texts [js "No verified work, failure, decision, file change, pending question, discovery, repair, proposal, incomplete work, or deadline was recorded in this period."])
  else
    groups ← mapM (λ section,
      label ← shown (get "label" section);
      items ← mapM (λ item, summary ← shown (get "summary" item);
                            Some (Group summary (texts [formatTimestampValue (get "occurred_at" item)])))
                (recordsOf (get "items" section));
      Some (Group label items)) sections;
    Some ((if isLit "partial" (get "status" value)
           then texts [js "This summary is partial because earlier retained events are no longer available."] else []) ++ groups).

(** *** Channels *)

Definition channelNode (item : json) : option Node :=
  if negb (isRecord (Some item)) then Some (Text (compact item)) else
  name ← renderValue (get "name" item);
  session ← renderValue (get "session" item);
  Some (Group name
    (texts ([if isLit "ready" (get "status" item) then js "Ready" else humanize (textOr "not configured" (get "status" item));
             js (if isLit "Telegram" (get "name" item)
                 then "Telegram is a first-class Ion chat: it uses the same agent, memory, tools, approvals, safety rules, and durable conversation path as this dashboard."
                 else "The primary Ion conversation with encrypted history, live tools, approvals, and durable recovery.")] ++
            omap (λ step, asString (Some step)) (arrayOf (get "setup" item)) ++ [session]))).

Definition ChannelList (value : list json) : option (list Node) := mapM channelNode value.

(** *** Background initiative *)

Definition autonomyMode (value : json) : string :=
  if isLit "off" (get "mode" value) then "off" else if isLit "approved" (get "mode" value) then "approved" else "suggest".
Definition autonomyPaused (value : json) : bool := match get "paused" value with Some (JBool true) => true | _ => false end.

Definition AutonomyView (value : json) : list Node :=
  [Group (js "Background initiative")
     (texts [js (if autonomyPaused value then "Paused"
                 else if String.eqb (autonomyMode value) "approved" then "May run only explicitly approved plans"
                 else if String.eqb (autonomyMode value) "off" then "Off" else "Suggestions only")]);
   Group (js "Hard limits")
     (texts [numberText (get "max_tool_calls" value) ++ js " actions · " ++ numberText (get "max_tokens" value) ++
               js " tokens · " ++ numberText (get "max_elapsed_seconds" value) ++ js " seconds · " ++
               numberText (get "max_errors" value) ++ js " errors";
             js "Safety policy, approvals, and required verification always remain in force."])].

(** *** Specifications to review *)

Definition intentsOf (value : json) : list json := recordsOf (get "intents" value).
Definition proposalsOf (intent : json) : list json := recordsOf (get "proposals" intent).
Definition assumptionsOf (intent : json) : list json := recordsOf (get "assumptions" intent).
Definition isMaterial (assumption : json) : bool := match get "material" assumption with Some (JBool true) => true | _ => false end.

(** Whether the assumption has a field to decide it in. *)
Definition undecided (assumption : json) : bool := isMaterial assumption && negb (hasOwn "resolution" assumption).
Definition proposalStatus (proposal : json) : jstr := textOr "proposed" (get "status" proposal).
Definition awaitsDecision (proposal : json) : bool := jeqb (proposalStatus proposal) (js "proposed").
Definition awaitsApplication (proposal : json) : bool :=
  jeqb (proposalStatus proposal) (js "accepted") && negb (hasOwn "applied_at" proposal).

Definition assumptionView (assumption : json) : option (list Node) :=
  statement ← shown (get "statement" assumption);
  question ← if undecided assumption then Text <$> shown (get "decision_needed" assumption) else Some (Text []);
  Some (Text (js (if isMaterial assumption then "Decision needed" else "Reversible assumption") ++ js ": " ++ statement) ::
        if undecided assumption then [question] else []).

Definition proposalView (proposal : json) : option Node :=
  let delta := recordOr (get "delta" proposal) in
  version ← shown (get "version" proposal);
  rationale ← shown (get "rationale" proposal);
  behavior ← mapM (λ item, shown (Some item)) (arrayOf (get "user_visible_behavior" delta));
  criteria ← mapM (λ c, shown (get "description" c)) (recordsOf (get "acceptance_criteria" delta));
  risks ← mapM (λ risk, shown (Some risk)) (arrayOf (get "risks" delta));
  Some (Group (js "Specification v" ++ version ++ js " · " ++ humanize (proposalStatus proposal))
    ([Text rationale; Group (js "What will change") (texts behavior); Group (js "How success is checked") (texts criteria)] ++
     match risks with [] => [] | _ => [Text (js "Risks: " ++ join (js ", ") risks)] end ++
     (if hasOwn "applied_at" proposal then [Text (js "Applied to spec")] else []))).

Definition intentView (intent : json) : option Node :=
  let assumptions := assumptionsOf intent in
  goal ← shown (get "goal" intent);
  revision ← shown (get "baseline_workspace_revision" intent);
  notes ← mapM assumptionView assumptions;
  proposals ← mapM proposalView (proposalsOf intent);
  Some (Group goal
    (Text (nat_text (length assumptions) ++ js " visible " ++ pluralize "assumption" (length assumptions) ++
           js " · project revision " ++ revision) :: concat notes ++ proposals)).

Definition StudioIntentView (value : json) : option (list Node) :=
  match intentsOf value with
  | [] => Some [Nothing (js "No software specification is waiting")
      (js "Tell Ion what you want to build or change. He will show what he understood before implementation begins.")]
  | intents => mapM intentView intents
  end.

(** *** Background proposals *)

Definition automatrixItems (value : list json) : list json := take 8 (List.filter (λ x, isRecord (Some x)) value).
Definition canApprove (item : json) : bool := bool_decide (arrayOf (get "actions" item) ≠ []).

Definition AutomatrixList (value : list json) : option (list Node) :=
  mapM (λ item, description ← shown (get "description" item);
                Some (Group description
                  (texts [js (if canApprove item
                     then "Proposed as a bounded private investigation. Nothing runs until you approve it."
                     else "This opportunity needs a safe action plan before it can run.")]))) (automatrixItems value).

(** *** How to work together *)

(** [v === text]. *)
Definition isText (text : jstr) (v : option json) : bool := from_option (jeqb text) false (asString v).

(** The profile of the domain that is chosen. *)
Definition currentRelationship (relationships : list json) (domain : jstr) : option json :=
  find (λ item, isText domain (get "domain" item)) relationships.

(** [a ?? b ?? 'Not set'] of members, shown. *)
Definition shownOr (a b : option json) : option jstr :=
  shown (Some (default (JStr (js "Not set")) (orElse (present a) (present b)))).

Definition RelationshipProfile (relationships : list json) (domain : jstr) : option (list Node) :=
  let chosen := currentRelationship relationships domain in
  let profile := recordOr (getO "profile" chosen) in
  let pinned := map toStr (arrayOf (get "pinned_fields" profile)) in
  facts ← mapM (λ r : string * (option json * option json), text ← shownOr r.2.1 r.2.2; Some (js r.1 ++ js ": " ++ text))
    [("Response length", (get "response_length" profile, getO "communication_preference" chosen));
     ("Directness", (get "directness" profile, None)); ("Conclusion first", (get "conclusion_first" profile, None));
     ("Expertise", (getO "expertise" chosen, None)); ("Preferred tools", (get "preferred_tools" profile, None));
     ("Risk tolerance", (get "risk_tolerance" profile, None));
     ("Proactive suggestions", (get "proactive_suggestions" profile, None));
     ("Notification cadence", (get "notification_cadence" profile, None)); ("Dislikes", (get "dislikes" profile, None));
     ("Constraints", (get "constraints" profile, None)); ("Project principles", (get "project_principles" profile, None))]%string;
  Some (texts (facts ++ [js "Pinned: " ++ match pinned with [] => js "None" | _ => join (js ", ") (map humanize pinned) end])).

Definition initialDomain (relationships : list json) : jstr :=
  default (js "general") (head relationships ≫= λ r, asString (get "domain" r)).

(** *** Living context, as it first appears *)

Definition LivenessView (value : json) : option (list Node) :=
  let presence := record (get "presence" value) in
  let away := recordsOf (getO "since_you_were_away" presence) in
  let relationships := recordsOf (get "relationships" value) in
  awayItems ← mapM (λ item, kind ← shown (get "kind" item); summary ← shown (get "summary" item);
                            Some (Group kind (texts [summary]))) (take 6 away);
  brief ← match record (getO "morning_brief" presence) with
          | None => Some []
          | Some b => l ← ReadableList (Some "liveness.get"%string) (recordsOf (get "items" b));
                      Some [Group (js "Latest morning brief") [l]]
          end;
  causes ← mapM (λ cause, shown (get "explanation" cause)) (recordsOf (getO "causes" (record (get "decision" value))));
  taste ← match record (get "aesthetic" value) with
          | None => Some []
          | Some a => label ← shown (get "label" a); Some [Group (js "Confirmed working taste") (texts [label])]
          end;
  repair ← match record (get "repair" value) with
           | None => Some []
           | Some r => lesson ← shown (get "lesson" r); Some [Group (js "Repair carried forward") (texts [lesson])]
           end;
  together ← match relationships with
             | [] => Some []
             | _ => profile ← RelationshipProfile relationships (initialDomain relationships);
                    Some [Group (js "How you prefer to work together") profile]
             end;
  Some ([Group (js "Since you were away")
           match awayItems with [] => texts [js "No verified background activity has been recorded for you."] | _ => awayItems end] ++
        brief ++
        [Group (js "What changed in this decision")
           (texts match causes with [] => [js "No state-driven change is active for this session yet."] | _ => causes end)] ++
        taste ++ repair ++ together).

(** *** Any answer *)

(** The views of records that have one of their own. *)
Definition recordView (operation : string) (value : json) : option (option (list Node)) :=
  if String.eqb operation "liveness.get" then Some (LivenessView value)
  else if String.eqb operation "continuity.brief" then Some (ReturnBriefView value)
  else if String.eqb operation "work.brief" then Some (WorkBriefView value)
  else if String.eqb operation "autonomy.get" then Some (Some (AutonomyView value))
  else if String.eqb operation "studio.intent.list" then Some (StudioIntentView value)
  else if String.eqb operation "supervisor.get" then Some (node ← SupervisorRunView value; Some [node])
  else if String.eqb operation "soul.get" then Some (SoulView value)
  else match String.eqb operation "memory.search", get "memories" value with
       | true, Some (JArr memories) =>
           Some (l ← ReadableList (Some operation) memories;
                 Some (l :: match get "truncated" value with
                            | Some (JBool true) => texts [js "Showing the first matching saved items."]
                            | _ => []
                            end))
       | _, _ => None
       end.

Definition StructuredValue (operation : string) (value : option json) : option (list Node) :=
  match value with
  | Some (JObj o) =>
      match recordView operation (JObj o) with
      | Some view => view
      | None => node ← ReadableRecord (Some operation) o 0; Some [node]
      end
  | Some (JArr l) =>
      if String.eqb operation "channel.list" then ChannelList l
      else if String.eqb operation "automatrix.list" then AutomatrixList l
      else if String.eqb operation "supervisor.list" then SupervisorListView l
      else node ← ReadableList (Some operation) l; Some [node]
  | _ => text ← shown value; Some [Text text]
  end.

(** ** Cards *)

Inductive CardBody : Type :=
  | ProblemBody (friendly technical : jstr)
  | SkeletonBody
  | EmptyBody (title description : string) (revision : jstr) (raw : jstr)
  | ContentBody (content : option (list Node)) (revision : jstr) (raw : jstr).

Record SurfaceCard : Type := {
  sc_state : SurfaceState; sc_wide : bool; sc_category : string; sc_title : jstr; sc_description : string;
  sc_label : string; sc_body : CardBody }.

Definition technicalError (q : PageQuery) : option jstr :=
  match queryError q with
  | Some e => Some (error_message e)
  | None => projectionProblem (queryValue q) ≫= snd
  end.

Definition renderCard (sf : SurfaceDefinition) (qs : list PageQuery) (index : nat) : option SurfaceCard :=
  q ← qs !! index;
  operation ← sf_operations sf !! index;
  let revision := match queryData q with Some a => string_of_Z (an_revision a) | None => js "—" end in
  let raw := prettyOf (queryValue q) in
  Some {| sc_state := stateOf q; sc_wide := existsb (String.eqb operation) wideSurfaceOperations;
          sc_category := operationCategory operation; sc_title := operationTitle operation;
          sc_description := operationDescription operation; sc_label := statusLabel (stateOf q);
          sc_body := match stateOf q with
                     | SError => ProblemBody (friendlyProblem operation (technicalError q))
                                   (default (js "No additional error information was provided.") (technicalError q))
                     | SPending => SkeletonBody
                     | SEmpty => EmptyBody (emptyState operation).1 (emptyState operation).2 revision raw
                     | SReady => ContentBody (StructuredValue operation (queryValue q)) revision raw
                     end |}.

(** The cards of the page, then those of its folded part. *)
Definition pageCards (sf : SurfaceDefinition) (qs : list PageQuery) : list SurfaceCard * list SurfaceCard :=
  (omap (renderCard sf qs) (primaryIndexes sf), omap (renderCard sf qs) (advancedIndexes sf)).
End Views.

(** ** Commands *)

(** What the views share: the answer is reported, and when it is good the queries are
    fetched again.  Nothing catches a rejected request. *)
Definition viewCommand {S} (setNotice : option jstr → S → S) (operation : string) (payload : json)
    (session : option jstr) (done : jstr) (after : proc S unit) : proc S unit :=
  response ← rpc command operation payload session;
  match resp_error response with
  | Some e => setState (setNotice (Some (err_message e)))
  | None => setState (setNotice (Some done));; after
  end.

(** What a view is rendered with. *)
Record ViewEnv : Type := { ve_session : option jstr; ve_value : json }.

(** ** The page's own action *)

Record Page : Type := { pg_notice : option jstr; pg_period : ContinuityPeriod }.
Definition setPageNotice v p : Page := {| pg_notice := v; pg_period := pg_period p |}.
Definition setPeriod v p : Page := {| pg_notice := pg_notice p; pg_period := v |}.
Definition initialPage : Page := {| pg_notice := None; pg_period := PastDay |}.

Definition runMutation (session : option jstr) (sf : SurfaceDefinition) : proc Page unit :=
  match mutationForSurface (sf_path sf) with
  | None => skip
  | Some m => viewCommand setPageNotice (mu_operation m) (JObj []) session (js (mu_label m) ++ js " completed.")
                (refetch ["surface"]%string)
  end.

Inductive PageInput : Type := PeriodChosen (p : ContinuityPeriod) | MutationPressed.

Definition pageHandler (p : Page) (y : option jstr * SurfaceDefinition * PageInput) : proc Page unit :=
  match y.2 with
  | PeriodChosen v => if String.eqb (sf_path y.1.2) "/since-away" then setState (setPeriod v) else skip
  | MutationPressed => runMutation y.1.1 y.1.2
  end.

(** ** Supervised runs *)

Record Supervised : Type := { rn_instruction : jstr; rn_error : option jstr; rn_pending : bool; rn_notice : option jstr }.
Definition setInstruction v r : Supervised :=
  {| rn_instruction := v; rn_error := rn_error r; rn_pending := rn_pending r; rn_notice := rn_notice r |}.
Definition setCommandError v r : Supervised :=
  {| rn_instruction := rn_instruction r; rn_error := v; rn_pending := rn_pending r; rn_notice := rn_notice r |}.
Definition setCommandPending v r : Supervised :=
  {| rn_instruction := rn_instruction r; rn_error := rn_error r; rn_pending := v; rn_notice := rn_notice r |}.
Definition setRunNotice v r : Supervised :=
  {| rn_instruction := rn_instruction r; rn_error := rn_error r; rn_pending := rn_pending r; rn_notice := v |}.
Definition initialRun : Supervised := {| rn_instruction := []; rn_error := None; rn_pending := false; rn_notice := None |}.

Inductive SupervisorOperation : Type := Steer | Cancel.
Definition supervisorOperation (o : SupervisorOperation) : string :=
  match o with Steer => "supervisor.steer" | Cancel => "supervisor.cancel" end.

(** The page's callback. *)
Definition runSupervisorCommand (session : option jstr) (o : SupervisorOperation) (payload : json) : proc Supervised unit :=
  response ← rpc command (supervisorOperation o) payload session;
  match resp_error response with
  | Some e => throw (mkError (err_message e))
  | None =>
      setState (setRunNotice (Some (js match o with
                                       | Steer => "Guidance added to the active supervised outcome."
                                       | Cancel => "Supervised work cancelled."
                                       end)));;
      refetch ["surface"; "supervisor.list"]%string
  end.

Definition supervisorPayload (run : json) (o : SupervisorOperation) (r : Supervised) : json :=
  JObj (entry "run_id" (runID run) :: match o with Steer => [entry "instruction" (trim (rn_instruction r))] | Cancel => [] end).

(** [command]; [commands] is whether the view was given the callback. *)
Definition supervisorCommand (x : ViewEnv) (commands : bool) (o : SupervisorOperation) (r : Supervised) : proc Supervised unit :=
  if negb commands || jeqb (runID (ve_value x)) [] then skip else
  setState (setCommandPending true);;
  setState (setCommandError None);;
  try_finally
    (try_catch
       (runSupervisorCommand (ve_session x) o (supervisorPayload (ve_value x) o r);;
        match o with Steer => setState (setInstruction []) | Cancel => skip end)
       (λ e, setState (setCommandError (Some (error_message e)))))
    (setCommandPending false).

(** Whether the form is on screen; its field takes 4096 units, and its buttons are
    disabled while a command runs. *)
Definition controlsShown (x : ViewEnv) (commands : bool) : bool :=
  commands && runActive (ve_value x) && negb (jeqb (runID (ve_value x)) []).

Inductive RunInput : Type := InstructionTyped (v : jstr) | GuidanceSubmitted | CancelPressed.

Definition runHandler (r : Supervised) (y : ViewEnv * bool * RunInput) : proc Supervised unit :=
  let '(x, commands, y) := y in
  if negb (controlsShown x commands) then skip else
  match y with
  | InstructionTyped v => if (length v <=? 4096)%nat then setState (setInstruction v) else skip
  | GuidanceSubmitted =>
      if rn_pending r || jeqb (trim (rn_instruction r)) [] then skip else supervisorCommand x commands Steer r
  | CancelPressed => if rn_pending r then skip else supervisorCommand x commands Cancel r
  end.

(** ** Background initiative *)

Section Autonomy.
Variable ToNumber : jstr → option num.

(** [Number(v ?? fallback)]; NaN is sent as null. *)
Definition limitEntry (value : json) (k : string) (fallback : Z) : jstr * json :=
  (js k, match present (get k value) with
         | None => JNum (num_of_Z fallback)
         | Some v => match numberOf ToNumber (Some v) with Some n => JNum n | None => JNull end
         end).

Definition autonomyPayload (value : json) (mode : string) (paused : bool) : json :=
  JObj [entry "mode" (js mode); flagEntry "paused" paused; limitEntry value "max_tool_calls" 20;
        limitEntry value "max_tokens" 64000; limitEntry value "max_elapsed_seconds" 1800;
        limitEntry value "max_errors" 3; limitEntry value "cooldown_seconds" 300].

Definition updateAutonomy (x : ViewEnv) (mode : string) (paused : bool) : proc (option jstr) unit :=
  viewCommand (λ v _, v) "autonomy.update" (autonomyPayload (ve_value x) mode paused) (ve_session x)
    (if paused then js "Background work paused." else js "Autonomy set to " ++ js mode ++ js ".")
    (refetch ["surface"; "autonomy.get"]%string;; refetch ["surface"; "work.brief"]%string).

Inductive AutonomyInput : Type := SuggestPressed | ApprovedPressed | PausePressed | OffPressed.

Definition autonomyHandler (n : option jstr) (y : ViewEnv * AutonomyInput) : proc (option jstr) unit :=
  let value := ve_value y.1 in
  match y.2 with
  | SuggestPressed => updateAutonomy y.1 "suggest" false
  | ApprovedPressed => updateAutonomy y.1 "approved" false
  | PausePressed => updateAutonomy y.1 (autonomyMode value) (negb (autonomyPaused value))
  | OffPressed => updateAutonomy y.1 "off" false
  end.
End Autonomy.

(** ** Specifications *)

(** One store of decisions for all intents on screen, by the name of the assumption. *)
Record Intents : Type := { iv_decisions : list (jstr * jstr); iv_notice : option jstr }.
Definition setDecisions v i : Intents := {| iv_decisions := v; iv_notice := iv_notice i |}.
Definition setIntentNotice v i : Intents := {| iv_decisions := iv_decisions i; iv_notice := v |}.
Definition initialIntents : Intents := {| iv_decisions := []; iv_notice := None |}.

Definition relist : proc Intents unit := refetch ["surface"; "studio.intent.list"]%string.

Definition decideProposal (session : option jstr) (intentID proposalID : jstr) (accept : bool) (i : Intents) : proc Intents unit :=
  viewCommand setIntentNotice "studio.proposal.decide"
    (JObj [entry "intent_id" intentID; entry "proposal_id" proposalID; flagEntry "accept" accept;
           entry "reason" (js (if accept then "Approved in Software Studio" else "Rejected in Software Studio"));
           (js "assumption_decisions", JObj (map (λ kv, (kv.1, JStr kv.2)) (iv_decisions i)))])
    session
    (js (if accept then "Specification accepted. Review application before implementation."
         else "Specification rejected. No project files were changed.")) relist.

Definition applyProposal (session : option jstr) (intentID proposalID : jstr) : proc Intents unit :=
  viewCommand setIntentNotice "studio.proposal.apply"
    (JObj [entry "intent_id" intentID; entry "proposal_id" proposalID]) session
    (js "The accepted change was written to the authoritative specification and generated views were refreshed.") relist.

(** A control of the intent at one position, for its assumption or proposal at another. *)
Inductive IntentInput : Type :=
  | DecisionTyped (i a : nat) (v : jstr) | ProposalDecided (i p : nat) (accept : bool) | ProposalApplied (i p : nat).

Definition proposalAt (value : json) (i p : nat) : option (json * json) :=
  intent ← intentsOf value !! i; proposal ← proposalsOf intent !! p; Some (intent, proposal).

Definition intentHandler (s : Intents) (y : ViewEnv * IntentInput) : proc Intents unit :=
  let idOf v := stringOf (get "id" v) in
  match y.2 with
  | DecisionTyped i a v =>
      match intentsOf (ve_value y.1) !! i ≫= λ intent, assumptionsOf intent !! a with
      | Some assumption =>
          if undecided assumption
          then setState (λ s, setDecisions (assoc_set (idOf assumption) v (iv_decisions s)) s) else skip
      | None => skip
      end
  | ProposalDecided i p accept =>
      match proposalAt (ve_value y.1) i p with
      | Some (intent, proposal) =>
          if awaitsDecision proposal then decideProposal (ve_session y.1) (idOf intent) (idOf proposal) accept s else skip
      | None => skip
      end
  | ProposalApplied i p =>
      match proposalAt (ve_value y.1) i p with
      | Some (intent, proposal) =>
          if awaitsApplication proposal then applyProposal (ve_session y.1) (idOf intent) (idOf proposal) else skip
      | None => skip
      end
  end.

(** ** Background proposals *)

Definition decideItem (session : option jstr) (item : json) (approve : bool) : proc (option jstr) unit :=
  match asString (get "id" item) with
  | None => skip
  | Some id =>
      viewCommand (λ v _, v) (if approve then "automatrix.approve" else "automatrix.reject")
        (JObj (entry "item_id" id :: if approve then [(js "actions", JArr (arrayOf (get "actions" item)))] else []))
        session (js (if approve then "Background investigation approved." else "Background proposal dismissed."))
        (refetch ["surface"; "automatrix.list"]%string)
  end.

Inductive AutomatrixInput : Type := ApprovePressed (n : nat) | DismissPressed (n : nat).

Definition automatrixHandler (notice : option jstr) (y : ViewEnv * AutomatrixInput) : proc (option jstr) unit :=
  let items := automatrixItems (arrayOf (Some (ve_value y.1))) in
  match y.2 with
  | ApprovePressed n =>
      match items !! n with
      | Some item => if canApprove item then decideItem (ve_session y.1) item true else skip
      | None => skip
      end
  | DismissPressed n => match items !! n with Some item => decideItem (ve_session y.1) item false | None => skip end
  end.

(** ** Preferences *)

Record Relationship : Type := { rl_domain : jstr; rl_notice : option jstr }.
Definition setDomain v r : Relationship := {| rl_domain := v; rl_notice := rl_notice r |}.
Definition setRelationshipNotice v r : Relationship := {| rl_domain := rl_domain r; rl_notice := v |}.

(** [send(payload, success)]: the domain comes first. *)
Definition sendRelationship (session : option jstr) (payload : list (jstr * json)) (success : string) (r : Relationship)
    : proc Relationship unit :=
  viewCommand setRelationshipNotice "relationship.update" (JObj (entry "domain" (rl_domain r) :: payload)) session
    (js success) (refetch ["surface"; "liveness.get"]%string).

(** The values of the form's controls, and what its selects offer. *)
Definition FormValues : Type := list (string * jstr).
Definition valueOf (f : FormValues) (name : string) : jstr := default [] (lookupText f name).

Definition selectOptions : list (string * list string) :=
  [("response_length", ["brief"; "balanced"; "detailed"]); ("directness", ["gentle"; "balanced"; "direct"]);
   ("conclusion_first", ["true"; "false"]); ("domain_expertise", ["beginner"; "intermediate"; "expert"]);
   ("risk_tolerance", ["low"; "moderate"; "high"]); ("proactive_suggestions", ["true"; "false"]);
   ("notification_cadence", ["quiet"; "milestones"; "regular"])]%string.

Definition formAccepted (f : FormValues) : bool :=
  forallb (λ r, jeqb (valueOf f r.1) [] || in_names (valueOf f r.1) r.2) selectOptions.

Definition textPatch (f : FormValues) (name : string) : list (jstr * json) :=
  match trim (valueOf f name) with [] => [] | v => [(js name, JStr v)] end.

Definition flagPatch (f : FormValues) (name : string) : list (jstr * json) :=
  let v := valueOf f name in
  if jeqb v (js "true") || jeqb v (js "false") then [flagEntry name (jeqb v (js "true"))] else [].

(** [s.split(/[\n,]/)], trimmed, without the blank ones. *)
Definition valueList (s : jstr) : list jstr :=
  List.filter (λ v, negb (jeqb v [])) (map trim (splitOn 10 (map (λ c, if (c =? 44)%N then 10%N else c) s))).

Definition listPatch (f : FormValues) (name : string) : list (jstr * json) :=
  match valueList (valueOf f name) with [] => [] | vs => [strings name vs] end.

Definition textFields : list string := ["response_length"; "directness"; "domain_expertise"; "risk_tolerance"; "notification_cadence"]%string.
Definition flagFields : list string := ["conclusion_first"; "proactive_suggestions"]%string.
Definition listFields : list string := ["preferred_tools"; "dislikes"; "constraints"; "project_principles"]%string.

Definition preferencePatch (f : FormValues) : list (jstr * json) :=
  flat_map (textPatch f) textFields ++ flat_map (flagPatch f) flagFields ++ flat_map (listPatch f) listFields.

Definition removableFields : list string :=
  ["response_length"; "directness"; "conclusion_first"; "domain_expertise"; "preferred_tools"; "risk_tolerance";
   "proactive_suggestions"; "notification_cadence"; "dislikes"; "constraints"; "project_principles"]%string.

Inductive RelationshipInput : Type :=
  | DomainChosen (n : nat) | PreferencesSaved (f : FormValues) | PreferenceRemoved (field : string) | PinPressed | ProposePressed.

(** The work areas that are offered. *)
Definition domainOption (item : json) : jstr := textOr "general" (get "domain" item).

Definition relationshipHandler (r : Relationship) (y : ViewEnv * RelationshipInput) : proc Relationship unit :=
  let session := ve_session y.1 in
  match y.2 with
  | DomainChosen n =>
      match recordsOf (Some (ve_value y.1)) !! n with Some item => setState (setDomain (domainOption item)) | None => skip end
  | PreferencesSaved f =>
      if formAccepted f
      then sendRelationship session [entry "action" (js "correct"); (js "patch", JObj (preferencePatch f))]
             "Relationship preferences saved." r
      else skip
  | PreferenceRemoved field =>
      if existsb (String.eqb field) removableFields
      then sendRelationship session [entry "action" (js "remove"); strings "fields" [js field]] "Preference removed." r
      else skip
  | PinPressed =>
      sendRelationship session [entry "action" (js "pin"); strings "fields" [js "response_length"; js "project_principles"]]
        "Important preferences pinned." r
  | ProposePressed =>
      sendRelationship session [entry "action" (js "propose_soul_v2")]
        "SOUL v2 proposal created for review. Nothing was applied." r
  end.
