(* ===== verification/SubsystemProps.v ===== *)
(** * What the subsystem pages guarantee

    Claims about [Surface] and [Subsystem]: the summary of a page is exact, technical
    fields do not show, what a section shows is bounded, commands are the ones on screen
    and the controls of a supervised run come back; and the texts that break a page, the
    guidance that is lost and the decisions that reach another specification. *)
From stdpp Require Import base sets list strings.
From Stdlib Require Import ZArith NArith.
From S2P Require Import Prelude JsString JsValue JsArray Regex Catalog Protocol Display Envelope.
From S2P Require Import Events EventsFacts Store EventsProps LocalClient Client Operator TuiFormat TuiApp.
From S2P Require Import Chat ChatApp Async Computer Sessions Media Studio StudioProps Busy Surface Subsystem.

(** ** Pages *)

Lemma mapM_None {A B} (f : A → option B) l x : x ∈ l → f x = None → mapM f l = None.
Proof.
  intros Hx Hf. destruct (mapM f l) as [k|] eqn:Hm; [|done]. apply mapM_Some in Hm.
  apply list_elem_of_lookup in Hx as [i Hi]. destruct (Forall2_lookup_l _ _ _ _ _ Hm Hi) as (y & _ & Hy). congruence.
Qed.

Lemma states_partition qs : pendingCount qs + attentionCount qs + checkedCount qs = length qs.
Proof.
  unfold pendingCount, attentionCount, checkedCount, countStates. induction qs as [|q qs IH]; [done|].
  cbn [List.filter length]. destruct (stateOf q); cbn [bool_decide decide orb]; repeat (case_bool_decide; try done); cbn [orb length]; lia.
Qed.

Lemma countStates_zero f qs : countStates f qs = 0 ↔ Forall (λ q, f (stateOf q) = false) qs.
Proof.
  unfold countStates. induction qs as [|q qs IH]; cbn; [by split|]. rewrite Forall_cons, <- IH.
  destruct (f (stateOf q)); cbn; split; [done|by intros []|by split|by intros [_ ?]].
Qed.

(** A section has an answer that is not a problem. *)
Definition settledQuery (q : PageQuery) : Prop :=
  ∃ a, q = QueryLoaded a ∧ fst <$> projectionProblem (Some (an_value a)) ≠ Some true.

Lemma settled_state q :
  settledQuery q ↔ bool_decide (stateOf q = SPending) = false ∧ bool_decide (stateOf q = SError) = false.
Proof.
  rewrite !bool_decide_eq_false. unfold stateOf, surfaceState, settledQuery. split.
  - intros (a & -> & Ha). cbn [isPending queryError queryValue queryData fmap option_fmap option_map].
    rewrite (bool_decide_false (is_Some None)) by apply is_Some_None. cbn [orb].
    change (option_map an_value (Some a)) with (Some (an_value a)). rewrite (bool_decide_false _ Ha). by case_match.
  - intros [H1 H2]. destruct q as [|e last|a]; [done|done|]. exists a. split; [done|].
    intros Ha. cbn in Ha, H2. rewrite bool_decide_true in H2 by exact Ha. done.
Qed.

Lemma summary_ready sf qs :
  summaryReady sf qs = true ↔ Forall settledQuery qs ∧ providerSetupNeeded sf qs = false.
Proof.
  unfold summaryReady. rewrite !andb_true_iff, !Nat.eqb_eq, negb_true_iff.
  unfold pendingCount, attentionCount. rewrite !countStates_zero.
  assert (Forall settledQuery qs ↔ Forall (λ q, bool_decide (stateOf q = SPending) = false) qs ∧
                                   Forall (λ q, bool_decide (stateOf q = SError) = false) qs) as ->; [|tauto].
  rewrite <- Forall_and. apply Forall_proper; [|done]. intros q. apply settled_state.
Qed.

Lemma last_app_js (s : jstr) t x : last t = Some x → last (s ++ t) = Some x.
Proof. intros Ht. by rewrite last_app, Ht. Qed.

Lemma summary_text_ready sf qs : summaryText sf qs = js "Up to date" ↔ summaryReady sf qs = true.
Proof.
  unfold summaryText, summaryReady.
  destruct (pendingCount qs) as [|n]; cbn [Nat.ltb Nat.leb Nat.eqb andb].
  2: { split; [|done]. intros Hs. apply (f_equal head) in Hs. rewrite head_app in Hs. vm_compute in Hs. discriminate. }
  destruct (attentionCount qs) as [|n]; cbn [Nat.ltb Nat.leb Nat.eqb andb].
  2: { split; [|done]. intros Hs. apply (f_equal last) in Hs. rewrite !app_assoc in Hs.
       rewrite (last_app_js _ (js " attention") 110%N) in Hs by reflexivity. vm_compute in Hs. discriminate. }
  destruct (providerSetupNeeded sf qs); cbn [negb]; [|by split]. split; [|done]. vm_compute. discriminate.
Qed.

(** The summary of a page is exact: it reads up to date, and is marked ready, exactly when
    every section has an answer that is not a problem and no model has to be connected; the
    three counts add up to the sections, and every section has one card. *)
Theorem page_summary_is_exact `{Environment} sf qs :
  length qs = length (sf_operations sf) →
  (summaryText sf qs = js "Up to date" ↔ Forall settledQuery qs ∧ providerSetupNeeded sf qs = false) ∧
  (summaryReady sf qs = true ↔ summaryText sf qs = js "Up to date") ∧
  pendingCount qs + attentionCount qs + checkedCount qs = length (sf_operations sf) ∧
  (∀ i, i < length qs → ∃ card, renderCard sf qs i = Some card ∧
        ((i ∈ primaryIndexes sf ∧ i ∉ advancedIndexes sf) ∨ (i ∉ primaryIndexes sf ∧ i ∈ advancedIndexes sf))).
Proof.
  intros Hl. split_and!.
  - by rewrite summary_text_ready, summary_ready.
  - by rewrite summary_text_ready.
  - by rewrite states_partition.
  - intros i Hi. destruct (lookup_lt_is_Some_2 qs i Hi) as [q Hq].
    rewrite Hl in Hi. destruct (lookup_lt_is_Some_2 (sf_operations sf) i Hi) as [o Ho].
    eexists. split; [unfold renderCard; rewrite Hq, Ho; cbn [mbind option_bind]; reflexivity|].
    assert (i ∈ allIndexes sf) as Hin by (apply elem_of_seq; lia).
    unfold primaryIndexes, advancedIndexes. destruct (isExtensions sf); [|left; split; [done|apply not_elem_of_nil]].
    pose proof (NoDup_seq 0 (length (sf_operations sf))) as Hn. fold (allIndexes sf) in Hn.
    rewrite <- (take_drop 2 (allIndexes sf)) in Hin, Hn. apply NoDup_app in Hn as (_ & Hn & _).
    apply elem_of_app in Hin as [Hi'|Hi']; [left|right]; split; [done|by apply Hn| |done].
    intros Hi2. by apply (Hn i).
Qed.

(** ** Percentages *)

Lemma roundEven_le n d k : (0 < d → n <= k * d → roundEven n d <= k)%Z.
Proof.
  intros Hd Hn. unfold roundEven. pose proof (Z.div_mod n d ltac:(lia)) as Hq. pose proof (Z.mod_pos_bound n d Hd) as Hr.
  assert (n / d <= k)%Z by (apply Z.div_le_upper_bound; lia).
  destruct (Z.eq_dec (n / d) k) as [He|]; [|repeat case_match; lia].
  assert (n mod d = 0)%Z as -> by nia. destruct (2 * 0 <? d)%Z eqn:Hz; lia.
Qed.

Lemma roundEven_nonneg n d : (0 < d → 0 <= n → 0 <= roundEven n d)%Z.
Proof. intros Hd Hn. unfold roundEven. pose proof (Z.div_pos n d Hn Hd). repeat case_match; lia. Qed.

(** Rounding stays below a whole bound, while the unit of the result is at most one. *)
Lemma toDouble_le n d k a e :
  (0 <= n → 0 < d → n <= k * d → 0 < k < 2 ^ 52 → toDouble n d = (a, e) → 0 <= a /\ a * 2 ^ Z.max 0 e <= k * 2 ^ Z.max 0 (- e))%Z.
Proof.
  intros Hn Hd Hle Hk. unfold toDouble. destruct (n =? 0)%Z eqn:H0.
  { intros Hp. injection Hp as <- <-. change (Z.max 0 0) with 0%Z. change (Z.max 0 (- 0)) with 0%Z. lia. }
  apply Z.eqb_neq in H0. cbv zeta. set (e' := Z.max (-1074) (binade n d - 52)). unfold scaled.
  intros Hp. injection Hp as <- <-.
  assert (e' <= 0)%Z as He.
  { unfold e', binade, scaled. set (x := (Z.log2 n - Z.log2 d)%Z).
    assert (Z.log2 n <= Z.log2 (k * d))%Z by (by apply Z.log2_le_mono).
    assert (Z.log2 (k * d) <= Z.log2 k + Z.log2 d + 1)%Z by (apply Z.log2_mul_above; lia).
    assert (Z.log2 k < 52)%Z by (apply Z.log2_lt_pow2; lia). case_match; lia. }
  rewrite (Z.max_l 0 e') by done. rewrite (Z.max_r 0 (- e')) by lia. change (2 ^ 0)%Z with 1%Z. rewrite !Z.mul_1_r.
  pose proof (Z.pow_pos_nonneg 2 (- e') ltac:(lia) ltac:(lia)). split.
  - apply roundEven_nonneg; nia.
  - apply roundEven_le; nia.
Qed.

Lemma fraction_pos b m e : (0 < b → 0 < (fraction b m e).2)%Z.
Proof. intros Hb. unfold fraction. cbn [snd]. apply Z.pow_pos_nonneg; lia. Qed.

(** A share between 0 and 1 is shown as a whole percentage between 0 and 100. *)
Theorem percentage_in_range n :
  numLeb (num_of_Z 0) n = true → numLeb n (num_of_Z 1) = true → (0 <= percentOf n <= 100)%Z.
Proof.
  destruct n as [m e|[]]; [|done|done]. unfold num_of_Z, numLeb, scaleTo. rewrite !Z.leb_le. intros H1 H2.
  unfold percentOf. destruct (fraction 10 m e) as [n d] eqn:Hf.
  pose proof (fraction_pos 10 m e ltac:(lia)) as Hd. rewrite Hf in Hd. cbn [snd] in Hd.
  assert (0 <= n /\ n <= 1 * d)%Z as [Hn Hle].
  { unfold fraction in Hf. injection Hf as <- <-. destruct (Z.le_gt_cases 0 e).
    - rewrite (Z.max_r 0 e), (Z.max_l 0 (- e)) by lia. rewrite (Z.min_l 0 e), (Z.min_r e 0) in * by lia.
      rewrite !Z.sub_0_r in *. change (10 ^ 0)%Z with 1%Z in *. lia.
    - rewrite (Z.max_l 0 e), (Z.max_r 0 (- e)) by lia. rewrite (Z.min_r 0 e), (Z.min_l e 0) in * by lia.
      rewrite Z.sub_diag, Z.sub_0_l in *. change (10 ^ 0)%Z with 1%Z in *. lia. }
  destruct (toDouble n d) as [a x] eqn:Ha. destruct (toDouble_le n d 1 a x) as [Ha0 Ha1]; [done..|lia|done|].
  destruct (fraction 2 a x) as [p q] eqn:Hp. pose proof (fraction_pos 2 a x ltac:(lia)) as Hq. rewrite Hp in Hq. cbn [snd] in Hq.
  assert (0 <= p /\ p <= q)%Z as [Hp0 Hp1].
  { unfold fraction in Hp. injection Hp as <- <-. pose proof (Z.pow_pos_nonneg 2 (Z.max 0 x) ltac:(lia) ltac:(lia)). nia. }
  destruct (toDouble (100 * p) q) as [b y] eqn:Hb.
  destruct (toDouble_le (100 * p) q 100 b y) as [Hb0 Hb1]; [lia|done|lia|lia|done|].
  unfold fraction, mathRound. pose proof (Z.pow_pos_nonneg 2 (Z.max 0 y) ltac:(lia) ltac:(lia)).
  pose proof (Z.pow_pos_nonneg 2 (Z.max 0 (- y)) ltac:(lia) ltac:(lia)). split.
  - apply Z.div_pos; nia.
  - apply Z.lt_succ_r, Z.div_lt_upper_bound; nia.
Qed.

(** ** Texts that break a page *)

Lemma inherited_cases (P : jstr → Prop) s :
  Forall (λ n, P (js n)) objectMembers → inherited s = true → P s.
Proof.
  intros HP Hs. apply in_names_spec in Hs as (n & Hn & ->). by apply (proj1 (Forall_forall _ _) HP).
Qed.

Definition plainName (s : jstr) : bool :=
  negb (bool_decide (s = []) || looksStructured s || jeqb s (js "assumption") || jeqb s (js "write-only") ||
        existsb (λ r : string * string, jeqb s (js r.1)) memoryTypes).

Lemma inherited_plain s : inherited s = true → plainName s = true.
Proof. apply (inherited_cases (λ s, plainName s = true)). repeat constructor. Qed.

Lemma member_None table k fallback :
  member table k fallback = None ↔ inherited k = true ∧ existsb (λ r, jeqb k (js r.1)) table = false.
Proof.
  unfold member. pose proof (find_Some_existsb (λ r : string * string, jeqb k (js r.1)) table) as Hf.
  destruct (find _ table) as [r|].
  - rewrite (proj1 Hf) by done. split; [done|by intros []].
  - destruct (existsb _ table); [by destruct (proj2 Hf eq_refl)|]. destruct (inherited k); split; try done. by intros [].
Qed.

Section Broken.
Context `{Environment}.

Lemma formatText_None s key :
  formatText s key = None →
  inherited s = true ∧ endsWith (js "_at") key && date_ok s = false ∧ jeqb key (js "status") = false.
Proof.
  unfold formatText. destruct (_ && date_ok s); [done|]. destruct (_ && _); [done|]. destruct (_ && _); [done|].
  destruct (jeqb key (js "status")); [done|]. rewrite fmap_None, member_None. by intros [].
Qed.

Lemma formatScalar_structured s key :
  formatScalar (Some (JStr s)) key = None → formatText s key = None.
Proof. destruct s as [|c s]; [done|]. cbn [formatScalar]. by destruct (if looksStructured _ then _ else _). Qed.

Lemma formatScalar_plain s key : plainName s = true → formatScalar (Some (JStr s)) key = formatText s key.
Proof.
  unfold plainName. rewrite negb_true_iff, !orb_false_iff, bool_decide_eq_false. intros ((((H1 & H2) & _) & _) & _).
  destruct s as [|c s]; [done|]. cbn [formatScalar]. by rewrite H2.
Qed.

Lemma formatScalar_None s key :
  formatScalar (Some (JStr s)) key = None ↔
  inherited s = true ∧ endsWith (js "_at") key && date_ok s = false ∧ jeqb key (js "status") = false.
Proof.
  split; [intros Hf; by apply formatText_None, formatScalar_structured|]. intros (Hi & Hd & Hk).
  pose proof (inherited_plain s Hi) as Hp. rewrite formatScalar_plain by done.
  unfold plainName in Hp. rewrite negb_true_iff, !orb_false_iff in Hp. destruct Hp as ((((_ & _) & H1) & H2) & H3).
  unfold formatText. rewrite Hd, H1, H2, !andb_false_r, Hk, fmap_None, member_None. by split.
Qed.

Lemma list_None operation value i key s :
  i < 6 → value !! i = Some (JObj [(js key, JStr s)]) → key ∈ ["statement"; "content"; "title"; "name"]%string →
  inherited s = true → ReadableList operation value = None.
Proof.
  intros Hi Hv Hk Hs. unfold ReadableList. rewrite (mapM_None _ _ (JObj [(js key, JStr s)])); [done| |].
  { apply list_elem_of_lookup. exists i. by rewrite lookup_take_lt. }
  assert (trim s ≠ []) as Ht by (revert Hs; apply (inherited_cases (λ s, trim s ≠ [])); repeat constructor; done).
  assert (primaryRecordField (JObj [(js key, JStr s)]) = Some (key, s)) as Hp.
  { unfold primaryRecordField. rewrite !elem_of_cons, elem_of_nil in Hk.
    destruct Hk as [->|[->|[->|[->|[]]]]]; unfold firstText, visibleText;
      repeat match goal with |- context [get ?a (JObj [(js ?b, ?v)])] =>
               let r := constr:(if String.eqb a b then Some v else None) in
               let r := eval cbn in r in change (get a (JObj [(js b, v)])) with r end; cbn [asString];
      by rewrite bool_decide_false. }
  unfold readableItem. rewrite Hp.
  rewrite (proj2 (formatScalar_None s (js key))); [done|]. split_and!; [done| |].
  - rewrite !elem_of_cons, elem_of_nil in Hk. by destruct Hk as [->|[->|[->|[->|[]]]]].
  - rewrite !elem_of_cons, elem_of_nil in Hk. by destruct Hk as [->|[->|[->|[->|[]]]]].
Qed.

(** [C40] Exactly the names that every object inherits (constructor, toString, ...) cannot be
    shown: unless it is a date or a status, formatting such a text throws, because the
    table of memory types yields the inherited member, and every other text is shown.  One
    such title among the first six items of a list takes the whole list down. *)
Theorem inherited_names_break_the_page :
  (∀ s key, formatScalar (Some (JStr s)) key = None ↔
            inherited s = true ∧ endsWith (js "_at") key && date_ok s = false ∧ jeqb key (js "status") = false) ∧
  (∀ operation value i key s,
     i < 6 → value !! i = Some (JObj [(js key, JStr s)]) → key ∈ ["statement"; "content"; "title"; "name"]%string →
     inherited s = true → ReadableList operation value = None).
Proof. split; [exact formatScalar_None|exact list_None]. Qed.
End Broken.

(** ** Technical fields *)

(** Identifiers, hashes, checkpoints, revisions and sequence numbers, by their names. *)
Definition technicalNames : list string := ["id"; "hash"; "checkpoint"; "revision"; "sequence"]%string.
Definition technicalEndings : list string := ["_id"; "_ids"; "_hash"]%string.
Definition technical (key : jstr) : Prop :=
  Exists (λ n, key = js n) technicalNames ∨ Exists (λ e, js e `suffix_of` key) technicalEndings.
#[local] Instance technical_decision key : Decision (technical key) := _.

(** A record without its technical fields. *)
Definition hideFields (o : list (jstr * json)) : list (jstr * json) := filter (λ kv, ¬ technical kv.1) o.
Definition hideItem (v : json) : json := match v with JObj o => JObj (hideFields o) | _ => v end.

(** An answer without them: in it, in the records of a list, and in the values of a record. *)
Definition hideValue (v : json) : json := match v with JArr l => JArr (map hideItem l) | _ => hideItem v end.
Definition hideAnswer (v : json) : json :=
  match v with JObj o => JObj (map (prod_map id hideValue) (hideFields o)) | _ => hideValue v end.

Lemma endsWith_suffix e key : endsWith e key = true ↔ e `suffix_of` key.
Proof.
  unfold endsWith. rewrite startsWith_spec. split.
  - intros [r Hr]. exists (reverse r). rewrite <- (reverse_involutive key), Hr, reverse_app. by rewrite reverse_involutive.
  - intros [r ->]. exists (reverse r). by rewrite reverse_app.
Qed.

Lemma technical_iff key : isTechnicalField key = true ↔ technical key.
Proof.
  unfold isTechnicalField, technical, technicalNames, technicalEndings.
  rewrite !orb_true_iff, !jeqb_eq, !endsWith_suffix, !Exists_cons, !Exists_nil. split; [|tauto].
  intros [[[[[[[[?|?]|?]|?]|?]| ->]|?]|?]|?]; try tauto. right; right; right; left. by exists (js "soul").
Qed.

Lemma hideFields_filter o : hideFields o = List.filter (λ kv, negb (isTechnicalField kv.1)) o.
Proof.
  unfold hideFields. induction o as [|kv o IH]; [done|]. rewrite filter_cons. cbn [List.filter]. rewrite IH.
  pose proof (technical_iff kv.1). destruct (isTechnicalField kv.1); cbn [negb].
  - rewrite decide_False; [done|]. tauto.
  - rewrite decide_True; [done|]. naive_solver.
Qed.

Lemma assoc_get_hide k o : isTechnicalField k = false → assoc_get k (hideFields o) = assoc_get k o.
Proof.
  intros Hk. rewrite hideFields_filter. induction o as [|[k' v] o IH]; [done|]. cbn [List.filter fst assoc_get].
  destruct (isTechnicalField k') eqn:Hk'; cbn [negb].
  - rewrite decide_False by congruence. apply IH.
  - cbn [assoc_get]. by case_decide.
Qed.

Lemma get_hide k o : isTechnicalField (js k) = false → get k (JObj (hideFields o)) = get k (JObj o).
Proof. apply assoc_get_hide. Qed.

Lemma firstText_hide keys o :
  Forall (λ k, isTechnicalField (js k) = false) keys → firstText keys (JObj (hideFields o)) = firstText keys (JObj o).
Proof. induction 1 as [|k keys Hk _ IH]; [done|]. cbn [firstText]. by rewrite get_hide, IH. Qed.

Lemma primary_hide o : primaryRecordField (JObj (hideFields o)) = primaryRecordField (JObj o).
Proof.
  unfold primaryRecordField. rewrite firstText_hide by (repeat constructor). by rewrite (get_hide "status").
Qed.

Lemma filter_filter {A} (f g : A → bool) l : (∀ x, f x = true → g x = true) → List.filter f (List.filter g l) = List.filter f l.
Proof.
  intros Hfg. induction l as [|x l IH]; [done|]. cbn. destruct (g x) eqn:Hg; cbn; [by rewrite IH|].
  destruct (f x) eqn:Hf; [|done]. by rewrite (Hfg x Hf) in Hg.
Qed.

Lemma facts_hide o : factsOf (hideFields o) = factsOf o.
Proof.
  unfold factsOf. rewrite primary_hide, hideFields_filter, filter_filter; [done|].
  intros kv. by intros [_ ?]%andb_true_iff.
Qed.

Lemma shown_hide o : shownFields (hideFields o) = shownFields o.
Proof. unfold shownFields. by rewrite hideFields_filter, filter_filter. Qed.

Section Hidden.
Context `{Environment}.

Lemma item_hide operation v : readableItem operation (hideItem v) = readableItem operation v.
Proof. destruct v as [| | | | |o]; try done. cbn [hideItem readableItem]. by rewrite primary_hide, facts_hide. Qed.

Lemma list_hide operation l : ReadableList operation (map hideItem l) = ReadableList operation l.
Proof.
  unfold ReadableList. rewrite length_map, firstn_map, length_map.
  assert (∀ k, mapM (readableItem operation) (map hideItem k) = mapM (readableItem operation) k) as ->; [|done].
  intros k. induction k as [|v k IH]; [done|]. cbn [map mapM]. by rewrite item_hide, IH.
Qed.

Lemma hide_plain l : forallb (λ v, negb (isRecord (Some v))) l = true → map hideItem l = l.
Proof.
  induction l as [|v l IH]; [done|]. cbn [forallb map]. intros [Hv Hl]%andb_true_iff. rewrite IH by done. by destruct v.
Qed.

Lemma records_hide l :
  forallb (λ v, negb (isRecord (Some v))) (map hideItem l) = forallb (λ v, negb (isRecord (Some v))) l.
Proof. induction l as [|v l IH]; [done|]. cbn [forallb map]. rewrite IH. by destruct v. Qed.

(** At depth 1 a value looks the same without the technical fields of its records. *)
Lemma value_hide v key operation : friendlyValue (hideValue v) key 1 operation = friendlyValue v key 1 operation.
Proof.
  destruct v as [| | | |l|o]; try done; unfold friendlyValue; change (2 - 1) with 1; cbn [hideValue hideItem friendlyAt].
  - destruct l as [|v l]; [done|]. rewrite !(bool_decide_false (_ = [])) by done. rewrite records_hide.
    destruct (forallb _ _) eqn:Hl; [by rewrite hide_plain|]. by rewrite list_hide, length_map.
  - by rewrite shown_hide.
Qed.

Lemma shown_values (f : json → json) o : shownFields (map (prod_map id f) o) = map (prod_map id f) (shownFields o).
Proof.
  unfold shownFields. rewrite <- firstn_map. f_equal. induction o as [|[k v] o IH]; [done|].
  cbn [map List.filter prod_map fst id]. destruct (negb (isTechnicalField k)); cbn [map]; by rewrite IH.
Qed.

Lemma record_hide operation o :
  ReadableRecord operation (map (prod_map id hideValue) (hideFields o)) 0 = ReadableRecord operation o 0.
Proof.
  unfold ReadableRecord. rewrite shown_values, shown_hide. set (F := λ kv : jstr * json, _ ≫= _).
  assert (∀ l, mapM F (map (prod_map id hideValue) l) = mapM F l) as ->; [|done].
  intros l. induction l as [|[k v] l IH]; [done|]. cbn [map mapM]. rewrite IH.
  assert (F (prod_map id hideValue (k, v)) = F (k, v)) as ->; [|done].
  unfold F. cbn [prod_map fst snd id]. change (0 + 1) with 1. by rewrite value_hide.
Qed.
End Hidden.

(** The operations whose answers have a view of their own. *)
Definition ownViews : list string :=
  ["liveness.get"; "continuity.brief"; "work.brief"; "autonomy.get"; "studio.intent.list"; "supervisor.get"; "soul.get";
   "memory.search"; "channel.list"; "automatrix.list"; "supervisor.list"]%string.

Lemma own_views operation P : operation ∉ ownViews → String.eqb operation P = true → P ∉ ownViews.
Proof. by intros Ho ->%String.eqb_eq. Qed.

(** A test for one of the operations fails on every other one. *)
Ltac no_own_view Ho :=
  repeat match goal with
    |- context [String.eqb ?a ?b] =>
      let E := fresh in destruct (String.eqb a b) eqn:E;
        [exfalso; apply (own_views _ _ Ho) in E; apply E; set_solver|clear E]
  end.

Lemma generic_record `{Environment} operation o :
  operation ∉ ownViews →
  StructuredValue operation (Some (JObj o)) = (node ← ReadableRecord (Some operation) o 0; Some [node]).
Proof. intros Ho. cbn [StructuredValue]. unfold recordView. by no_own_view Ho. Qed.

Lemma generic_list `{Environment} operation l :
  operation ∉ ownViews →
  StructuredValue operation (Some (JArr l)) = (node ← ReadableList (Some operation) l; Some [node]).
Proof. intros Ho. cbn [StructuredValue]. by no_own_view Ho. Qed.

(** [C31] Identifiers, hashes, checkpoints, revisions and sequence numbers are not among what
    a section shows of an answer: for every operation without a view of its own, what it
    shows is the same when the fields with these names and endings are removed from the
    answer, from the records it lists and from the records it holds.  Deeper records are
    not opened; of their fields, technical or not, the number is shown.  The block of
    technical details below a section, which prints the answer as it is, is not part of
    this. *)
Theorem technical_fields_never_show `{Environment} operation value :
  operation ∉ ownViews →
  StructuredValue operation (Some (hideAnswer value)) = StructuredValue operation (Some value).
Proof.
  intros Ho. destruct value as [| | | |l|o]; try done; cbn [hideAnswer hideValue hideItem].
  - by rewrite !generic_list, list_hide.
  - by rewrite !generic_record, record_hide.
Qed.

(** An environment for examples. *)
Definition test_env : Environment :=
  {| env_platform := test_platform; formatNumber := num_toString; localeNumber := numText; formatInstant s := s;
     localInstant s := s; JSON_parse _ := None; ToNumber _ := None |}.

Lemma technical_fields_never_show_witness :
  let H := test_env in
  StructuredValue "tool.surface" (Some (hideAnswer (JObj [entry "id" (js "a1"); entry "title" (js "Search")]))) =
  StructuredValue "tool.surface" (Some (JObj [entry "id" (js "a1"); entry "title" (js "Search")])).
Proof.
  intros H. apply technical_fields_never_show. apply (bool_decide_eq_false_1 (_ ∈ ownViews)). reflexivity.
Defined.

(** ** What a section shows is bounded *)

(** The cells of a view and how deep they are nested. *)
Fixpoint cells (n : Node) : nat :=
  match n with
  | Text _ | Nothing _ _ => 1
  | Listing items _ => sum_list (map (λ it, 1 + sum_list (map (λ f, cells f.2) it.2)) items)
  | Rows _ rows => sum_list (map (λ r, cells r.2) rows)
  | Group _ body => 1 + sum_list (map cells body)
  end.

Fixpoint height (n : Node) : nat :=
  match n with
  | Text _ | Nothing _ _ => 1
  | Listing items _ => 1 + max_list (map (λ it, max_list (map (λ f, height f.2) it.2)) items)
  | Rows _ rows => 1 + max_list (map (λ r, height r.2) rows)
  | Group _ body => 1 + max_list (map height body)
  end.

(** A view within [c] cells and [h] levels. *)
Definition within (c h : nat) (n : Node) : Prop := cells n ≤ c ∧ height n ≤ h.

Lemma sum_bound {A} (f : A → nat) c n l : length l ≤ n → Forall (λ x, f x ≤ c) l → sum_list (map f l) ≤ n * c.
Proof.
  intros Hn Hl. transitivity (length l * c); [|nia]. clear Hn.
  induction Hl as [|x l Hx _ IH]; [done|]. change (f x + sum_list (map f l) ≤ c + length l * c). lia.
Qed.

Lemma max_bound {A} (f : A → nat) h l : Forall (λ x, f x ≤ h) l → max_list (map f l) ≤ h.
Proof.
  induction 1 as [|x l Hx _ IH]; [cbn; lia|]. change (f x `max` max_list (map f l) ≤ h). lia.
Qed.

Lemma mapM_Forall {A B} (f : A → option B) (P : B → Prop) l k :
  (∀ x y, f x = Some y → P y) → mapM f l = Some k → Forall P k ∧ length k = length l.
Proof.
  intros HP Hm. apply mapM_Some in Hm. split; [|symmetry; by eapply Forall2_length].
  induction Hm as [|x y l k Hxy _ IH]; [constructor|]. constructor; [by eapply HP|done].
Qed.

Section Bounded.
Context `{Environment}.

Lemma closed_within v key node : closedValue v key = Some node → within 1 1 node.
Proof.
  destruct v; cbn [closedValue]; intros Hn; try (apply fmap_Some in Hn as (t & _ & ->); by split);
    apply (inj Some) in Hn; subst; by split.
Qed.

Definition itemWithin (it : jstr * list (jstr * option jstr * Node)) : Prop :=
  length it.2 ≤ 4 ∧ Forall (λ f, within 1 1 f.2) it.2.

Lemma item_within operation v it : readableItem operation v = Some it → itemWithin it.
Proof.
  destruct v as [| | | | |o]; cbn [readableItem];
    try (intros (t & _ & Hn)%bind_Some; apply (inj Some) in Hn; subst; by split; [cbn; lia|constructor]).
  intros (t & _ & Hn)%bind_Some. apply bind_Some in Hn as (fs & Hf & Hn). apply (inj Some) in Hn. subst it. cbn [snd].
  apply (mapM_Forall _ (λ f, within 1 1 f.2)) in Hf as [Hf Hl].
  - split; [|done]. cbn [snd]. rewrite Hl. unfold factsOf. rewrite length_take. lia.
  - intros kv y (node & Hc & Hy)%bind_Some. apply (inj Some) in Hy. subst y. by eapply closed_within.
Qed.

Lemma list_within operation l node : ReadableList operation l = Some node → within 30 2 node.
Proof.
  unfold ReadableList. intros (items & Hm & Hn)%bind_Some. apply (inj Some) in Hn. subst node.
  apply (mapM_Forall _ itemWithin) in Hm as [Hf Hl]; [|apply item_within].
  rewrite length_take in Hl. split; cbn [cells height].
  - change 30 with (6 * 5). apply sum_bound; [lia|]. eapply Forall_impl; [exact Hf|]. intros [t fs] [H4 Hfs].
    enough (sum_list (map (λ f : jstr * option jstr * Node, cells f.2) fs) ≤ 4 * 1) by (cbn [snd]; lia).
    apply sum_bound; [done|]. eapply Forall_impl; [exact Hfs|]. by intros f [].
  - apply le_n_S, max_bound. eapply Forall_impl; [exact Hf|]. intros [t fs] [_ Hfs].
    apply max_bound. eapply Forall_impl; [exact Hfs|]. by intros f [].
Qed.

(** Rows of fields whose values are within bounds. *)
Lemma rows_within (f : jstr * json → option Node) o b rows c h :
  (∀ kv node, f kv = Some node → within c h node) →
  mapM (λ kv, node ← f kv; Some (kv.1, fieldLabel kv.1, node)) (shownFields o) = Some rows →
  within (14 * c) (S h) (Rows b rows).
Proof.
  intros Hf Hm. apply (mapM_Forall _ (λ r : jstr * option jstr * Node, within c h r.2)) in Hm as [Hr Hl].
  - unfold shownFields in Hl. rewrite length_take in Hl. split; cbn [cells height].
    + apply sum_bound; [lia|]. eapply Forall_impl; [exact Hr|]. by intros r [].
    + apply le_n_S, max_bound. eapply Forall_impl; [exact Hr|]. by intros r [].
  - intros kv y (node & Hn & Hy)%bind_Some. apply (inj Some) in Hy. subst y. by eapply Hf.
Qed.

Lemma within_mono c h c' h' node : within c h node → c ≤ c' → h ≤ h' → within c' h' node.
Proof. intros []. split; lia. Qed.

Lemma value_within v key operation node : friendlyValue v key 1 operation = Some node → within 30 2 node.
Proof.
  unfold friendlyValue. change (2 - 1) with 1. destruct v as [| | | |l|o]; cbn [friendlyAt]; intros Hn;
    try (apply fmap_Some in Hn as (t & _ & ->); split; cbn; lia).
  - destruct (bool_decide _); [apply (inj Some) in Hn; subst; split; cbn; lia|].
    destruct (jeqb _ _); [apply (inj Some) in Hn; subst; split; cbn; lia|].
    destruct (forallb _ _); [|by eapply list_within].
    apply bind_Some in Hn as (ts & _ & Hn). apply (inj Some) in Hn. subst. split; cbn; lia.
  - apply bind_Some in Hn as (rows & Hm & Hn). apply (inj Some) in Hn. subst node.
    apply (within_mono (14 * 1) 2); [|lia..]. eapply rows_within, Hm. intros kv node. apply closed_within.
Qed.

Lemma record_within operation o node : ReadableRecord operation o 0 = Some node → within 420 3 node.
Proof.
  unfold ReadableRecord. intros (rows & Hm & Hn)%bind_Some. apply (inj Some) in Hn. subst node.
  change 420 with (14 * 30). eapply rows_within, Hm. intros kv node. apply value_within.
Qed.

(** [friendlyValue] is the recursion of the code: it opens a value of depth below 2 and
    only counts what is deeper. *)
Lemma friendlyValue_equation value key depth operation :
  friendlyValue value key depth operation =
  match value with
  | JArr l =>
      if bool_decide (l = []) then Some (Text (js "None"))
      else if jeqb key (js "affected_subgoals") then Some (Text (counted "plan area" (length l)))
      else if (2 <=? depth)%nat then Some (Text (counted "item" (length l)))
      else if forallb (λ item, negb (isRecord (Some item))) l then
        visible ← mapM (λ item, formatScalar (Some item) key) (take 4 l);
        Some (Text (if (length visible <? length l)%nat
                    then join (js ", ") visible ++ js " · " ++ digits (N.of_nat (length l - length visible)) ++ js " more"
                    else join (js ", ") visible))
      else ReadableList operation l
  | JObj o => if (2 <=? depth)%nat then Some (Text (counted "detail" (length o))) else ReadableRecord operation o depth
  | v => Text <$> formatScalar (Some v) key
  end.
Proof.
  unfold friendlyValue. destruct depth as [|[|d]].
  - change (2 - 0) with 2. destruct value as [| | | |l|o]; try done. cbn [friendlyAt Nat.leb].
    do 3 (case_match; try done). destruct (mapM _ _) as [k|]; [|done].
    cbn [mbind option_bind]. destruct (_ <? _)%nat; [done|]. by rewrite app_nil_r.
  - change (2 - 1) with 1. destruct value as [| | | |l|o]; try done. cbn [friendlyAt Nat.leb].
    do 3 (case_match; try done). destruct (mapM _ _) as [k|]; [|done].
    cbn [mbind option_bind]. destruct (_ <? _)%nat; [done|]. by rewrite app_nil_r.
  - change (2 - S (S d)) with 0. destruct value as [| | | |l|o]; try done. cbn [friendlyAt closedValue Nat.leb]. by repeat case_match.
Qed.
End Bounded.

(** [C39] However large and deep an answer is, a section without a view of its own shows at most
    420 cells of it (30 for a list), nested at most three deep. *)
Theorem section_is_bounded `{Environment} operation value nodes :
  operation ∉ ownViews → StructuredValue operation value = Some nodes →
  sum_list (map cells nodes) ≤ 420 ∧ Forall (λ n, height n ≤ 3) nodes ∧
  (isArray value ≠ None → sum_list (map cells nodes) ≤ 30).
Proof.
  intros Ho Hs.
  assert (∀ c h node, within c h node → c ≤ 420 → h ≤ 3 → nodes = [node] →
            sum_list (map cells nodes) ≤ c ∧ Forall (λ n, height n ≤ 3) nodes) as Hone.
  { intros c h node [Hc Hh] H420 H3 ->. split; [cbn; lia|]. apply Forall_singleton. lia. }
  destruct value as [[| | | |l|o]|]; cbn [StructuredValue isArray] in *;
    try (apply bind_Some in Hs as (t & _ & Hn); apply (inj Some) in Hn; symmetry in Hn;
         destruct (Hone 1 1 (Text t) (conj (le_n 1) (le_n 1)) ltac:(lia) ltac:(lia) Hn); split_and!; [lia|done|by intros []]).
  - fold (StructuredValue operation (Some (JArr l))) in Hs. rewrite generic_list in Hs by done.
    apply bind_Some in Hs as (node & Hl & Hn). apply (inj Some) in Hn. symmetry in Hn.
    apply list_within in Hl. destruct (Hone 30 2 _ Hl ltac:(lia) ltac:(lia) Hn). split_and!; [lia|done|done].
  - fold (StructuredValue operation (Some (JObj o))) in Hs. rewrite generic_record in Hs by done.
    apply bind_Some in Hs as (node & Hr & Hn). apply (inj Some) in Hn. symmetry in Hn.
    apply record_within in Hr. destruct (Hone 420 3 _ Hr ltac:(lia) ltac:(lia) Hn). split_and!; [done|done|by intros []].
Qed.

Lemma section_is_bounded_witness :
  let H := test_env in
  ∃ nodes, StructuredValue "tool.surface" (Some (JArr [JStr (js "Search")])) = Some nodes ∧
           sum_list (map cells nodes) ≤ 30.
Proof.
  intros H. eexists. split; [reflexivity|].
  eapply (section_is_bounded "tool.surface" (Some (JArr [JStr (js "Search")]))).
  - apply (bool_decide_eq_false_1 (_ ∈ ownViews)). reflexivity.
  - reflexivity.
  - discriminate.
Defined.

(** ** Supervised runs *)

Lemma trimStart_length s : length (trimStart s) ≤ length s.
Proof. destruct (trimStart_suffix s) as (p & Hs & _). rewrite Hs at 2. rewrite length_app. lia. Qed.

Lemma trim_length s : length (trim s) ≤ length s.
Proof.
  unfold trim. rewrite length_reverse. etransitivity; [apply trimStart_length|]. rewrite length_reverse. apply trimStart_length.
Qed.

(** A command for a run that was on screen, active, with an identifier. *)
Definition runCommand (x : ViewEnv) (r : Request) : Prop :=
  rq_kind r = command ∧ rq_session r = JStr <$> ve_session x ∧ runActive (ve_value x) = true ∧ runID (ve_value x) ≠ [] ∧
  ((rq_operation r = js "supervisor.cancel" ∧ rq_payload r = JObj [entry "run_id" (runID (ve_value x))]) ∨
   (rq_operation r = js "supervisor.steer" ∧
    ∃ text, text ≠ [] ∧ trim text = text ∧ length text ≤ 4096 ∧
            rq_payload r = JObj [entry "run_id" (runID (ve_value x)); entry "instruction" text])).

Section Supervised.
Variable given : ViewEnv → Prop.

(** Nothing but such commands and fetching the list again; no exception escapes. *)
Definition runEffect (e : Effect) : Prop :=
  match e with
  | Issued (Rpc r) => ∃ x, given x ∧ runCommand x r
  | Issued (Refetch keys) => keys = ["surface"; "supervisor.list"]%string
  | _ => False
  end.

Definition shortGuidance (r : Supervised) : Prop := length (rn_instruction r) ≤ 4096.
Local Abbreviation good := (safe shortGuidance runEffect anyAnswer).

Lemma supervisorCommand_good x commands o r :
  runEffect (Issued (Rpc {| rq_kind := command; rq_operation := js (supervisorOperation o);
                            rq_payload := supervisorPayload (ve_value x) o r; rq_session := JStr <$> ve_session x |})) →
  good (supervisorCommand x commands o r).
Proof.
  intros Hr. unfold supervisorCommand. destruct (_ || _); [exact I|].
  assert (∀ v : option jstr, ∀ s, shortGuidance s → shortGuidance (setCommandError v s)) as He by done.
  assert (∀ b s, shortGuidance s → shortGuidance (setCommandPending b s)) as Hp by done.
  assert (∀ v s, shortGuidance s → shortGuidance (setRunNotice v s)) as Hn by done.
  assert (∀ s, shortGuidance s → shortGuidance (setInstruction [] s)) as Hi by (intros s _; unfold shortGuidance; cbn; lia).
  split; [apply Hp|]. split; [apply He|]. split; [exact Hr|].
  intros [e|a] _; cbn [mbind proc_bind try_catch try_finally]; [by split_and!|].
  destruct (resp_error a); cbn [mbind proc_bind try_catch try_finally safe throw setState refetch]; [by split_and!|].
  split; [apply Hn|]. split; [reflexivity|]. intros o' _. destruct o; by split_and!.
Qed.

Lemma supervised_good r x commands y : given x → shortGuidance r → good (runHandler r (x, commands, y)).
Proof.
  intros Hx Hs. unfold runHandler. destruct (negb _) eqn:Hc; [exact I|].
  apply negb_false_iff in Hc. unfold controlsShown in Hc. rewrite !andb_true_iff, negb_true_iff in Hc.
  destruct Hc as [[-> Ha] Hi]. apply jeqb_neq in Hi.
  destruct y as [v| |].
  - destruct (length v <=? 4096)%nat eqn:Hv; [|exact I]. apply Nat.leb_le in Hv. split; [|exact I]. by intros s _.
  - destruct (_ || _) eqn:Hb; [exact I|]. apply orb_false_iff in Hb as [_ Ht]. apply jeqb_neq in Ht.
    apply supervisorCommand_good. exists x. split; [done|]. split_and!; try done. right. split; [done|].
    exists (trim (rn_instruction r)). split_and!; [done|apply trim_trim| |done].
    etransitivity; [apply trim_length|exact Hs].
  - destruct (rn_pending r); [exact I|]. apply supervisorCommand_good. exists x. split; [done|]. split_and!; try done. by left.
Qed.
End Supervised.

(** Supervised work is steered and cancelled as it is shown: over any run of the view every
    request is such a command for a run that an input saw active under its identifier, in
    the operator's session, with guidance that is trimmed, not empty and at most 4096 units
    long; besides it only fetches the list again, and no failure escapes it. *)
Theorem supervisor_commands_are_bound (xs : list (input (ViewEnv * bool * RunInput))) w out :
  runs runHandler initialRun xs w out →
  Forall (runEffect (λ x, ∃ commands y, Act (x, commands, y) ∈ xs)) out.
Proof.
  intros Hr. set (given := λ x, ∃ commands y, Act (x, commands, y) ∈ xs).
  apply (runs_safe runHandler shortGuidance (runEffect given) (λ y, given y.1.1) anyAnswer initialRun xs w).
  - intros r [[x commands] y]. apply supervised_good.
  - unfold shortGuidance. cbn. lia.
  - done.
  - apply Forall_forall. intros [[[x commands] y]|i o] Hin; cbn; [|done]. by exists commands, y.
Qed.

(** A run on screen, steered. *)
Definition sampleRun : ViewEnv :=
  {| ve_session := Some (js "s"); ve_value := JObj [entry "id" (js "run-1"); entry "status" (js "running")] |}.
Definition steering : list (input (ViewEnv * bool * RunInput)) :=
  [Act (sampleRun, true, InstructionTyped (js " focus on tests ")); Act (sampleRun, true, GuidanceSubmitted)].

Lemma supervisor_commands_are_bound_witness :
  plays runHandler initialRun steering = true ∧ existsb (issuedFor "supervisor.steer") (effectsOf runHandler initialRun steering) = true ∧
  Forall (runEffect (λ x, ∃ commands y, Act (x, commands, y) ∈ steering)) (effectsOf runHandler initialRun steering).
Proof.
  split; [reflexivity|]. split; [reflexivity|].
  destruct (effects_run runHandler initialRun steering) as [w Hr]; [reflexivity|].
  exact (supervisor_commands_are_bound steering w _ Hr).
Defined.

Lemma run_disciplined r y : disciplined rn_pending (λ _, true) (runHandler r y) r.
Proof.
  destruct y as [[x commands] y]. unfold disciplined, runHandler. destruct (negb (controlsShown x commands)); [by left|].
  assert (∀ o, rn_pending r = false → disciplined rn_pending (λ _, true) (supervisorCommand x commands o r) r) as Hc.
  { intros o Hr. unfold disciplined, supervisorCommand. destruct (_ || _); [by left|]. right. split; [done|].
    cbn [setState mbind proc_bind runSupervisorCommand rpc await try_catch try_finally holds]. split_and!; [done|done|].
    intros [e|a] s Hs; cbn [mbind proc_bind try_catch try_finally holds setState]; [done|].
    destruct (resp_error a); cbn [mbind proc_bind try_catch try_finally holds setState throw refetch]; [done|].
    split_and!; [done|done|]. intros o' s' _. by destruct o. }
  destruct y as [v| |].
  - left. by destruct (length v <=? 4096)%nat.
  - destruct (rn_pending r) eqn:Hr; [by left|]. cbn [orb]. destruct (jeqb _ _); [by left|].
    destruct (Hc Steer eq_refl) as [|[_ ?]]; [by left|by right].
  - destruct (rn_pending r) eqn:Hr; [by left|]. destruct (Hc Cancel eq_refl) as [|[_ ?]]; [by left|by right].
Qed.

Lemma guardedWaits_all {S} (ws : list (waiter S)) : guardedWaits (λ _, true) ws = length ws.
Proof. unfold guardedWaits. induction ws as [|t ws IH]; [done|]. cbn. by f_equal. Qed.

(** [C30] The controls of a supervised run come back: over any run they are disabled exactly while
    its one call is awaited, and a command that is refused or rejected enables them again
    with its message on screen and the guidance as it was typed. *)
Theorem supervisor_controls_recover :
  (∀ xs w out, runs runHandler initialRun xs w out → length (waiting w) = if rn_pending (here w) then 1 else 0) ∧
  (∀ x o r, runID (ve_value x) ≠ [] →
     ∃ r' q k, run (supervisorCommand x true o r) r = (r', [Issued (Rpc q)], Some (Waiter (Rpc q) k)) ∧ rn_pending r' = true ∧
       (∀ e s, run (k (inl e)) s = (setCommandPending false (setCommandError (Some (error_message e)) s), [], None)) ∧
       (∀ a err s, resp_error a = Some err →
          run (k (inr a)) s = (setCommandPending false (setCommandError (Some (err_message err)) s), [], None))).
Proof.
  split.
  - intros xs w out Hr. rewrite <- guardedWaits_all.
    by destruct (runs_exclusive runHandler rn_pending (λ _, true) initialRun xs w out run_disciplined eq_refl Hr).
  - intros x o r Hi. unfold supervisorCommand. apply jeqb_neq in Hi. rewrite Hi. cbn [negb orb].
    eexists _, _, _. split; [reflexivity|]. split_and!; [done|done|].
    intros a err s He. cbn [mbind proc_bind try_catch try_finally]. rewrite He. reflexivity.
Qed.

(** What is typed while guidance is on its way is lost: its answer empties the field. *)
Theorem guidance_typed_meanwhile_is_lost x r (a : ResponseEnvelope) typed :
  controlsShown x true = true → rn_pending r = false → trim (rn_instruction r) ≠ [] → length typed ≤ 4096 →
  resp_error a = None →
  ∀ (o : oracle), (∀ q, o (Rpc q) = inr a) →
  ∃ w out, play runHandler [Act (x, true, GuidanceSubmitted); Act (x, true, InstructionTyped typed); Settled 0 o; Settled 0 o]
             (at_start r) [] = Some (w, out) ∧ rn_instruction (here w) = [] ∧ waiting w = [].
Proof.
  intros Hx Hr Ht Hl Ha o Ho. pose proof Hx as Hc. unfold controlsShown in Hc. rewrite !andb_true_iff, negb_true_iff in Hc.
  destruct Hc as [_ Hi]. apply jeqb_neq in Ht. apply Nat.leb_le in Hl.
  erewrite play_act; [|cbn [at_start here]; unfold runHandler, supervisorCommand; rewrite Hx, Hr, Ht, Hi; reflexivity]. played.
  erewrite play_act; [|cbn [here]; unfold runHandler; rewrite Hx; cbn [negb]; rewrite Hl; reflexivity]. played.
  erewrite play_settled; [|cbn [w_call w_cont]; rewrite Ho; cbn [mbind proc_bind try_catch try_finally]; rewrite Ha; reflexivity]. played.
  erewrite play_settled by reflexivity. played. by eexists _, _.
Qed.

(** ** Specifications and background proposals *)

(** A decision or an application of a proposal that is on screen and waits for it. *)
Definition proposalRequest (x : ViewEnv) (r : Request) : Prop :=
  ∃ i p intent proposal,
    proposalAt (ve_value x) i p = Some (intent, proposal) ∧ rq_kind r = command ∧ rq_session r = JStr <$> ve_session x ∧
    get "intent_id" (rq_payload r) = Some (JStr (stringOf (get "id" intent))) ∧
    get "proposal_id" (rq_payload r) = Some (JStr (stringOf (get "id" proposal))) ∧
    ((rq_operation r = js "studio.proposal.decide" ∧ proposalStatus proposal = js "proposed") ∨
     (rq_operation r = js "studio.proposal.apply" ∧ proposalStatus proposal = js "accepted" ∧ get "applied_at" proposal = None)).

(** The answer to a background proposal that is on screen; an approval carries its actions. *)
Definition itemRequest (x : ViewEnv) (r : Request) : Prop :=
  ∃ n item id,
    automatrixItems (arrayOf (Some (ve_value x))) !! n = Some item ∧ asString (get "id" item) = Some id ∧
    rq_kind r = command ∧ rq_session r = JStr <$> ve_session x ∧
    ((rq_operation r = js "automatrix.reject" ∧ rq_payload r = JObj [entry "item_id" id]) ∨
     (rq_operation r = js "automatrix.approve" ∧
      ∃ actions, actions ≠ [] ∧ get "actions" item = Some (JArr actions) ∧
                 rq_payload r = JObj [entry "item_id" id; (js "actions", JArr actions)])).

(** The requests of a view are as given; failures of requests may escape. *)
Definition requestsAre (P : Request → Prop) (e : Effect) : Prop :=
  match e with Issued (Rpc r) => P r | _ => True end.

Lemma viewCommand_safe {S} (setNotice : option jstr → S → S) P operation payload session done keys :
  P {| rq_kind := command; rq_operation := js operation; rq_payload := payload; rq_session := JStr <$> session |} →
  safe (λ _, True) (requestsAre P) anyAnswer (viewCommand setNotice operation payload session done (refetch keys)).
Proof.
  intros HP. split; [exact HP|]. intros [e|a] _; [exact I|]. cbn [mbind proc_bind].
  destruct (resp_error a); [done|]. split; [done|]. by split.
Qed.

Lemma intent_safe s y : safe (λ _, True) (requestsAre (proposalRequest y.1)) anyAnswer (intentHandler s y).
Proof.
  destruct y as [x [i a v|i p accept|i p]]; unfold intentHandler; cbn [fst snd].
  - destruct (_ ≫= _) as [assumption|]; [|exact I]. by destruct (undecided assumption).
  - destruct (proposalAt _ i p) as [[intent proposal]|] eqn:Hp; [|exact I].
    destruct (awaitsDecision proposal) eqn:Hd; [|exact I]. apply viewCommand_safe.
    exists i, p, intent, proposal. split_and!; try done. left. split; [done|]. by apply jeqb_eq.
  - destruct (proposalAt _ i p) as [[intent proposal]|] eqn:Hp; [|exact I].
    destruct (awaitsApplication proposal) eqn:Hd; [|exact I]. apply viewCommand_safe.
    apply andb_true_iff in Hd as [H1 H2]. apply jeqb_eq in H1. unfold hasOwn in H2. rewrite negb_true_iff, bool_decide_eq_false in H2.
    exists i, p, intent, proposal. split_and!; try done. right. split_and!; [done|done|]. by apply eq_None_not_Some.
Qed.

Lemma item_safe x item approve n :
  automatrixItems (arrayOf (Some (ve_value x))) !! n = Some item → (approve = true → canApprove item = true) →
  safe (λ _, True) (requestsAre (itemRequest x)) anyAnswer (decideItem (ve_session x) item approve).
Proof.
  intros Hn Ha. unfold decideItem. destruct (asString (get "id" item)) as [id|] eqn:Hid; [|exact I].
  apply viewCommand_safe.
  exists n, item, id. split_and!; try done. destruct approve; [right|by left]. split; [done|].
  specialize (Ha eq_refl). unfold canApprove, arrayOf in *. rewrite bool_decide_eq_true in Ha.
  destruct (get "actions" item) as [[]|] eqn:Hg; cbn [isArray default] in *; try done. by eexists.
Qed.

Lemma automatrix_safe n y : safe (λ _, True) (requestsAre (itemRequest y.1)) anyAnswer (automatrixHandler n y).
Proof.
  destruct y as [x [i|i]]; unfold automatrixHandler; cbn [fst snd]; destruct (_ !! i) as [item|] eqn:Hi; try exact I.
  - destruct (canApprove item) eqn:Hc; [|exact I]. by eapply item_safe.
  - by eapply item_safe.
Qed.

(** Over the runs of a view, every request is one that an input of the run allows. *)
Lemma runs_requests {S X E} (handler : S → E * X → proc S unit) (P : E → Request → Prop) s0 xs w out :
  (∀ s y, safe (λ _, True) (requestsAre (P y.1)) anyAnswer (handler s y)) → runs handler s0 xs w out →
  Forall (requestsAre (λ r, ∃ x y, Act (x, y) ∈ xs ∧ P x r)) out.
Proof.
  intros Hh Hr.
  apply (runs_safe handler (λ _, True) (requestsAre (λ r, ∃ x y, Act (x, y) ∈ xs ∧ P x r)) (λ y, Act y ∈ xs) anyAnswer s0 xs w);
    [|done|done|].
  - intros s [x y] Hy _. specialize (Hh s (x, y)). revert Hh. generalize (handler s (x, y)). cbn [fst]. intros p.
    induction p as [a|e|g k IH|k IH|e k IH|c k IH]; cbn [safe].
    + done.
    + done.
    + intros [_ Hk]. split; [done|by apply IH].
    + intros Hk s' _. by apply IH, Hk.
    + intros [He Hk]. split; [|by apply IH]. destruct e as [[]| | | |]; try done. by exists x, y.
    + intros [Hc Hk]. split; [|intros o Ho; by apply IH, Hk]. destruct c; try done. by exists x, y.
  - apply Forall_forall. by intros [y|i o] Hin.
Qed.

(** Decisions are about what is on screen: over any run of the two views, a specification is
    decided only while it is proposed and applied only once it is accepted and not yet
    applied, under the identifiers of its intent and its own; a background proposal is
    answered under its identifier, and approved only with its own, non-empty actions. *)
Theorem decisions_are_about_the_screen :
  (∀ s0 xs w out, runs intentHandler s0 xs w out →
     Forall (requestsAre (λ r, ∃ x y, Act (x, y) ∈ xs ∧ proposalRequest x r)) out) ∧
  (∀ s0 xs w out, runs automatrixHandler s0 xs w out →
     Forall (requestsAre (λ r, ∃ x y, Act (x, y) ∈ xs ∧ itemRequest x r)) out).
Proof.
  split; intros s0 xs w out; apply runs_requests.
  - intros s y. apply intent_safe.
  - intros s y. apply automatrix_safe.
Qed.

(** Two specifications with an open assumption of the same name. *)
Definition openAssumption (question : string) : json :=
  JObj [entry "id" (js "billing"); flagEntry "material" true; entry "decision_needed" (js question)].
Definition twoIntents : json :=
  JObj [(js "intents", JArr
    [JObj [entry "id" (js "first"); (js "assumptions", JArr [openAssumption "Charge per seat?"]); (js "proposals", JArr [])];
     JObj [entry "id" (js "second"); (js "assumptions", JArr [openAssumption "Store cards?"]);
           (js "proposals", JArr [JObj [entry "id" (js "p"); entry "status" (js "proposed")]])]])].

(** A decision typed for one specification is sent with another one: the view keeps them
    under the names of the assumptions alone, which specifications may share. *)
Theorem decision_reaches_another_specification :
  let x := {| ve_session := None; ve_value := twoIntents |} in
  ∃ w r, runs intentHandler initialIntents
           [Act (x, DecisionTyped 0 0 (js "Yes")); Act (x, ProposalDecided 1 0 true)] w [Issued (Rpc r)] ∧
         get "intent_id" (rq_payload r) = Some (JStr (js "second")) ∧
         get "assumption_decisions" (rq_payload r) = Some (JObj [entry "billing" (js "Yes")]).
Proof.
  intros x. eexists _, _. split; [apply play_reaches; reflexivity|]. by split.
Qed.

(** ** Background initiative *)

Definition limitKeys : list string :=
  ["max_tool_calls"; "max_tokens"; "max_elapsed_seconds"; "max_errors"; "cooldown_seconds"]%string.

(** The hard limits survive every press: each request sets one of the three modes and
    carries every limit that was loaded as a number as it was; only pausing keeps the mode,
    and every other button clears the pause. *)
Theorem limits_survive_the_buttons ToNumber n x y r :
  Issued (Rpc r) ∈ (run (autonomyHandler ToNumber n (x, y)) n).1.2 →
  rq_operation r = js "autonomy.update" ∧ rq_session r = JStr <$> ve_session x ∧
  (∀ k m, k ∈ limitKeys → get k (ve_value x) = Some (JNum m) → get k (rq_payload r) = Some (JNum m)) ∧
  (∃ mode, mode ∈ ["off"; "suggest"; "approved"]%string ∧ get "mode" (rq_payload r) = Some (JStr (js mode))) ∧
  (y ≠ PausePressed → get "paused" (rq_payload r) = Some (JBool false)).
Proof.
  assert (∀ mode paused k m, k ∈ limitKeys → get k (ve_value x) = Some (JNum m) →
            get k (autonomyPayload ToNumber (ve_value x) mode paused) = Some (JNum m)) as Hl.
  { intros mode paused k m Hk Hg. unfold limitKeys in Hk. rewrite !elem_of_cons, elem_of_nil in Hk.
    destruct Hk as [->|[->|[->|[->|[->|[]]]]]]; unfold autonomyPayload, limitEntry; rewrite Hg; reflexivity. }
  assert (autonomyMode (ve_value x) ∈ ["off"; "suggest"; "approved"]%string) as Hm.
  { unfold autonomyMode. repeat case_match; set_solver. }
  destruct y; intros Hin; apply list_elem_of_singleton in Hin; injection Hin as ->;
    (split; [done|split; [done|split; [apply Hl|split; [|done]]]]); eexists; (split; [|reflexivity]); set_solver.
Qed.

Lemma limits_survive_the_buttons_witness :
  let x := {| ve_session := None; ve_value := JObj [number "max_tokens" 1000] |} in
  ∃ r, (run (autonomyHandler (λ _, None) None (x, OffPressed)) None).1.2 = [Issued (Rpc r)] ∧
       get "max_tokens" (rq_payload r) = Some (JNum (num_of_Z 1000)).
Proof.
  intros x. eexists. split; [reflexivity|].
  eapply (limits_survive_the_buttons (λ _, None) None x OffPressed); [by apply list_elem_of_singleton| |reflexivity].
  apply (bool_decide_eq_true_1 (_ ∈ limitKeys)). reflexivity.
Defined.

(** ** Preferences *)

(** What the form says about a field; [None] leaves it as it is. *)
Definition preferenceOf (f : FormValues) (name : string) : option json :=
  if existsb (String.eqb name) textFields then
    match trim (valueOf f name) with [] => None | v => Some (JStr v) end
  else if existsb (String.eqb name) flagFields then
    if jeqb (valueOf f name) (js "true") then Some (JBool true)
    else if jeqb (valueOf f name) (js "false") then Some (JBool false) else None
  else match valueList (valueOf f name) with [] => None | vs => Some (JArr (map JStr vs)) end.

Definition preferenceFields : list string := textFields ++ flagFields ++ listFields.

Lemma flat_map_omap {A} (g : string → list A) (h : string → option A) names :
  Forall (λ n, g n = option_list (h n)) names → flat_map g names = omap h names.
Proof. induction 1 as [|n names Hn _ IH]; [done|]. cbn [flat_map omap list_omap]. rewrite Hn, IH. by destruct (h n). Qed.

Lemma patch_as_fields f :
  preferencePatch f = omap (λ name, pair (js name) <$> preferenceOf f name) preferenceFields.
Proof.
  unfold preferencePatch, preferenceFields. rewrite !omap_app. f_equal; [|f_equal]; apply flat_map_omap;
    repeat first [apply Forall_nil_2|apply Forall_cons_2].
  1-5: unfold textPatch; change (preferenceOf f ?n) with (match trim (valueOf f n) with [] => None | v => Some (JStr v) end);
    by destruct (trim _).
  1-2: unfold flagPatch; change (preferenceOf f ?n) with
         (if jeqb (valueOf f n) (js "true") then Some (JBool true)
          else if jeqb (valueOf f n) (js "false") then Some (JBool false) else None);
    destruct (jeqb _ (js "true")), (jeqb _ (js "false")); reflexivity.
  1-4: unfold listPatch; change (preferenceOf f ?n) with
         (match valueList (valueOf f n) with [] => None | vs => Some (JArr (map JStr vs)) end);
    by destruct (valueList _).
Qed.

Lemma omap_get (F : string → option json) names n :
  NoDup (map js names) → n ∈ names → assoc_get (js n) (omap (λ m, pair (js m) <$> F m) names) = F n.
Proof.
  induction names as [|m names IH]; cbn [map omap list_omap]; [by intros _ ?%not_elem_of_nil|].
  intros [Hm Hn]%NoDup_cons. rewrite elem_of_cons. destruct (decide (n = m)) as [->|Hne].
  - intros _. destruct (F m) as [v|]; cbn [fmap option_fmap option_map assoc_get]; [by rewrite decide_True|].
    apply assoc_get_None. intros ([k v] & Hk & Hin)%list_elem_of_fmap. cbn in Hk. subst k.
    apply list_elem_of_omap in Hin as (m' & Hin & Hv). apply fmap_Some in Hv as (v' & _ & Hv). injection Hv as Hv _.
    apply Hm. rewrite Hv. by apply list_elem_of_fmap_2.
  - intros [?|Hin]; [done|]. assert (js n ≠ js m) as Hj.
    { intros Hj. apply Hm. rewrite <- Hj. by apply list_elem_of_fmap_2. }
    destruct (F m); cbn [fmap option_fmap option_map assoc_get]; [rewrite decide_False by done|]; by apply IH.
Qed.

(** Preferences are corrected as entered: a saved form is one request for the work area that
    is chosen, whose patch says of every field exactly what the form says, leaves out the
    fields without a value and names no other field. *)
Theorem preferences_are_sent_as_entered r x f q :
  Issued (Rpc q) ∈ (run (relationshipHandler r (x, PreferencesSaved f)) r).1.2 →
  formAccepted f = true ∧ rq_operation q = js "relationship.update" ∧
  ∃ p, rq_payload q = JObj [entry "domain" (rl_domain r); entry "action" (js "correct"); (js "patch", JObj p)] ∧
       (∀ name, name ∈ preferenceFields → get name (JObj p) = preferenceOf f name) ∧
       (∀ k v, (k, v) ∈ p → ∃ name, name ∈ preferenceFields ∧ k = js name ∧ preferenceOf f name = Some v).
Proof.
  unfold relationshipHandler. cbn [fst snd]. destruct (formAccepted f); [|by intros ?%not_elem_of_nil].
  intros Hin. apply list_elem_of_singleton in Hin. injection Hin as ->. split; [done|]. split; [done|].
  exists (preferencePatch f). split; [done|]. rewrite patch_as_fields. split.
  - intros name. unfold get. apply omap_get. apply (bool_decide_eq_true_1 (NoDup _)). reflexivity.
  - intros k v (name & Hn & Hv)%list_elem_of_omap. apply fmap_Some in Hv as (v' & Hv & Hk). injection Hk as -> ->. by exists name.
Qed.

Lemma preferences_are_sent_as_entered_witness :
  let x := {| ve_session := None; ve_value := JArr [] |} in
  let r := {| rl_domain := js "general"; rl_notice := None |} in
  let f := [("directness", js "direct"); ("dislikes", js "noise, haste")]%string in
  ∃ q, (run (relationshipHandler r (x, PreferencesSaved f)) r).1.2 = [Issued (Rpc q)] ∧ formAccepted f = true ∧
       ∃ p, rq_payload q = JObj [entry "domain" (js "general"); entry "action" (js "correct"); (js "patch", JObj p)] ∧
            get "dislikes" (JObj p) = Some (JArr [JStr (js "noise"); JStr (js "haste")]).
Proof.
  intros x r f. eexists. split; [reflexivity|].
  edestruct (preferences_are_sent_as_entered r x f) as (Hf & _ & p & Hp & Hg & _); [by apply list_elem_of_singleton|].
  split; [exact Hf|]. exists p. split; [exact Hp|]. rewrite Hg; [reflexivity|].
  apply (bool_decide_eq_true_1 (_ ∈ preferenceFields)). reflexivity.
Defined.

(** A command of these views that is rejected shows nothing: the exception escapes and the
    notice stays as it was. *)
Theorem rejected_view_command_is_silent {S} (setNotice : option jstr → S → S) operation payload session done after s :
  ∃ q k, run (viewCommand setNotice operation payload session done after) s = (s, [Issued (Rpc q)], Some (Waiter (Rpc q) k)) ∧
         ∀ e s', run (k (inl e)) s' = (s', [Escaped e], None).
Proof. by eexists _, _. Qed.

(** ** Surfaces *)

Definition isQueryRow (operation : string) : bool :=
  existsb (λ row, String.eqb row.1 operation && bool_decide (row.2 = query)) OPERATION_KINDS_table.

Lemma query_row operation : isQueryRow operation = true → OPERATION_KINDS (js operation) = Some query.
Proof.
  intros Hr. apply existsb_exists in Hr as ([o k] & Hin & Hr). apply andb_true_iff in Hr as [Ho Hk].
  cbn [fst snd] in *. apply String.eqb_eq in Ho. apply bool_decide_eq_true in Hk. subst o k.
  unfold OPERATION_KINDS. apply list_elem_of_In in Hin. pose proof operation_names_nodup as Hn. rewrite <- operation_rows in Hn.
  revert Hin Hn. generalize OPERATION_KINDS_table. intros t. induction t as [|[o k] t IH]; [by intros ?%not_elem_of_nil|].
  cbn [map fst fmap list_fmap find]. intros Hin [Hno Hn]%NoDup_cons. destruct (jeqb (js operation) (js o)) eqn:He.
  - apply jeqb_eq in He. apply elem_of_cons in Hin as [[= <- <-]|Hin]; [done|]. exfalso. apply Hno. rewrite <- He.
    apply list_elem_of_fmap_2, (list_elem_of_fmap_2 fst _ _ Hin).
  - apply elem_of_cons in Hin as [[= <- <-]|Hin]; [by rewrite jeqb_refl in He|]. by apply IH.
Qed.

(** Opening a page changes nothing: every operation of every surface is a query of the
    catalog, no surface asks for one twice, and the paths are distinct. *)
Theorem surfaces_only_query :
  Forall (λ sf, NoDup (sf_operations sf) ∧ Forall (λ o, OPERATION_KINDS (js o) = Some query) (sf_operations sf))
    subsystemSurfaces ∧ NoDup (map sf_path subsystemSurfaces).
Proof.
  split; [|apply (bool_decide_eq_true_1 (NoDup _)); reflexivity].
  assert (forallb (λ sf, bool_decide (NoDup (sf_operations sf)) && forallb isQueryRow (sf_operations sf)) subsystemSurfaces = true)
    as Hf by reflexivity.
  rewrite forallb_forall in Hf. apply Forall_forall. intros sf Hin. apply list_elem_of_In, Hf, andb_true_iff in Hin as [H1 H2].
  split; [by apply bool_decide_eq_true in H1|]. rewrite forallb_forall in H2. apply Forall_forall.
  intros o Ho. by apply query_row, H2, list_elem_of_In.
Qed.
