(* ===== verification/Workspace.v ===== *)
(** * The studio workspace and its queries

    [StudioWorkspace] of [ui/web/src/routes/StudioRoutes.tsx]: its queries and the effect
    that fetches the queries of the panels again when the workspace changes, what the
    page, the plan and the code panel show, and the prompts that a panel puts into the
    composer of the chat.

    The cache of queries is react-query: [invalidates] is which queries an invalidation
    fetches again, and its documented law, that they are those whose key begins with the
    given one, is a hypothesis of the theorem that uses it. *)
From stdpp Require Import base list strings.
From Stdlib Require Import ZArith NArith.
From S2P Require Import Prelude JsString JsValue JsArray Regex Catalog Protocol Display Envelope.
From S2P Require Import Events LocalClient LocalClientFacts Client Operator TuiFormat TuiApp Chat ChatApp Async Computer Sessions Media Studio.

(** ** Queries *)

(** A key of the cache; a member may be undefined. *)
Definition QueryKey : Type := list (option jstr).

Definition studioKey (parts : list (option jstr)) : QueryKey := Some (js "studio") :: parts.
Definition named (s : string) : option jstr := Some (js s).

Definition projectsKey : QueryKey := studioKey [named "projects"].
Definition projectKey (projectID : jstr) : QueryKey := studioKey [named "project"; Some projectID].
Definition intentsKey : QueryKey := studioKey [named "intents"].
Definition briefKey (session : option jstr) : QueryKey := studioKey [named "brief"; session].
Definition capabilitiesKey : QueryKey := studioKey [named "workspace-capabilities"].

Definition projectQuery {S} (projectID : jstr) : proc S json :=
  studioQuery "project.get" (JObj [entry "project_id" projectID]) None.
Definition projectEnabled (projectID : jstr) : bool := negb (jeqb projectID []).
Definition intentsQuery {S} : proc S json := studioQuery "studio.intent.list" (JObj []) None.
Definition briefQuery {S} (session : option jstr) : proc S json := studioQuery "work.brief" (JObj []) session.

(** The queries of each panel of a project, with the terminal and the intent they use. *)
Definition panelKeys (projectID : jstr) (terminal intent : option jstr) (panel : StudioPanel) : list QueryKey :=
  let own s := studioKey [Some projectID; named s] in
  match panel with
  | PlanTab => []
  | ChangesTab => map own ["git"; "review"; "comments"; "patches"]%string
  | CodeTab => [own "index"%string]
  | TerminalTab => [studioKey [Some projectID; named "terminal"; terminal]; studioKey [Some projectID; named "terminal-control"; terminal]]
  | PreviewTab => map own ["runtime-plan"; "runtimes"; "index"]%string
  | ProblemsTab => map own ["index"; "runtime-problems"; "verification-runs"]%string
  | TestsTab => own "toolchain"%string :: studioKey [Some projectID; named "completion"; intent] ::
                map own ["verification-manifest"; "verification-runs"; "verification-waivers"]%string
  | SecurityTab => [own "index"%string; capabilitiesKey]
  | DataTab => [own "delivery"%string]
  | DeployTab => map own ["delivery"; "ci-patch"]%string
  end.

(** The effect on the revision: [before] are the dependencies of its last run, and the
    result the key it invalidates. *)
Definition revisionEffect (before : option (option Z * jstr)) (projectID : jstr) (data : option Project) : option QueryKey :=
  let now := (pj_revision <$> data, projectID) in
  if bool_decide (before = Some now) then None
  else match data with None => None | Some _ => Some (studioKey [Some projectID]) end.

(** ** What the page shows *)

Record ProjectRecord : Type := {
  pd_project : Project; pd_stack : list jstr; pd_lifecycle : jstr; pd_host : jstr; pd_trust : jstr; pd_source : jstr;
  pd_managed : bool }.

Inductive WorkspacePage : Type :=
  | WorkspaceLoading
  | WorkspaceUnavailable (reason : jstr)
  | WorkspaceOpen (name stack lifecycle : jstr) (revision : Z) (details : list (string * jstr)).

(** The detail of a failed query. *)
Definition errorMessage (e : option Error) : jstr :=
  match e with Some e => error_message e | None => js "Try again shortly." end.

Section View.
Context `{CaseTable}.

Definition workspacePage (pending : bool) (error : option Error) (data : option ProjectRecord) : WorkspacePage :=
  if pending then WorkspaceLoading
  else match error, data with
       | None, Some p =>
           WorkspaceOpen (pj_name (pd_project p))
             (match pd_stack p with [] => js "Stack discovery pending" | s => join (js " · ") s end)
             (humanize (pd_lifecycle p)) (pj_revision (pd_project p))
             [("Workspace", if jeqb (pd_host p) (js "direct_local") then js "Local" else humanize (pd_host p));
              ("Trust", humanize (pd_trust p)); ("Source", humanize (pd_source p));
              ("Managed", js (if pd_managed p then "Yes" else "No"))]%string
       | _, _ => WorkspaceUnavailable (errorMessage error)
       end.

(** *** The plan *)

(** What the plan shows of a proposal. *)
Record PlanText : Type := {
  pt_status : jstr; pt_rationale : option jstr; pt_tasks : list (jstr * nat); pt_criteria : list jstr;
  pt_risks : list jstr; pt_rollback : list jstr }.

Record PlanShown : Type := {
  ps_title : jstr; ps_tone : string; ps_pill : jstr; ps_copy : jstr; ps_tasks : list (nat * jstr * jstr);
  ps_checks : option (list jstr); ps_boundaries : option (list jstr) }.

Definition criteriaCount (n : nat) : jstr :=
  digits (N.of_nat n) ++ js " success " ++ js (if (n =? 1)%nat then "criterion" else "criteria").

(** [PlainList]: the text for no values, or the values. *)
Definition plainList (empty : string) (values : list jstr) : list jstr := match values with [] => [js empty] | vs => vs end.

Definition planShown (goal : jstr) (deliverable : option jstr) (active : option PlanText) : PlanShown := {|
  ps_title := goal;
  ps_tone := if bool_decide (pt_status <$> active = Some (js "accepted")) then "success" else "attention";
  ps_pill := humanize (default (js "draft") (pt_status <$> active));
  ps_copy := match deliverable with
             | Some d => d
             | None => default (js "The requested result is being clarified.") (active ≫= pt_rationale)
             end;
  ps_tasks := imap (λ i task, (S i, task.1, criteriaCount task.2)) (default [] (pt_tasks <$> active));
  ps_checks := plainList "No acceptance criteria yet." ∘ pt_criteria <$> active;
  ps_boundaries := (λ a, plainList "No special risks are recorded." (pt_risks a ++ pt_rollback a)) <$> active |}.

(** *** The code *)

Record CodeMatch : Type := { cm_path : jstr; cm_line : option Z; cm_kind : jstr; cm_snippet : jstr }.
Record IndexData : Type := {
  ix_files : list (jstr * option jstr * jstr); ix_languages : list jstr; ix_frameworks : list jstr; ix_entries : nat; ix_revision : Z }.

(** The files: path, and language or class. *)
Definition fileRows (d : IndexData) : list (jstr * jstr) :=
  map (λ f, (f.1.1, default (humanize f.2) f.1.2)) (take 250 (ix_files d)).

Definition detected (values : list jstr) : jstr := match join (js ", ") values with [] => js "Not detected" | s => s end.

(** The heading of the results and the count next to it. *)
Definition resultsHeading (matches : option (list CodeMatch)) (d : IndexData) : string * nat :=
  match matches with
  | None => ("Project map"%string, length (ix_languages d))
  | Some ms => ("Search results"%string, length ms)
  end.

Definition projectMap (d : IndexData) : list (string * jstr) :=
  [("Languages", detected (ix_languages d)); ("Frameworks", detected (ix_frameworks d));
   ("Entry points", digits (N.of_nat (ix_entries d))); ("Index revision", string_of_Z (ix_revision d))]%string.

Definition matchRow (m : CodeMatch) : jstr * jstr * jstr :=
  (cm_path m, match cm_line m with None => humanize (cm_kind m) | Some l => js "line " ++ string_of_Z l end, cm_snippet m).

(** The toolchain: name, whether it is there, and its version. *)
Definition runtimeRow (r : jstr * option jstr * bool) : jstr * bool * jstr :=
  (r.1.1, r.2, if r.2 then default (js "Available") r.1.2 else js "Not found").
End View.

(** ** The composer *)

(** The detail of the event of the two buttons of the plan. *)
Definition revisePrompt (p : Project) : jstr := js "Revise the accepted plan for " ++ pj_name p ++ js ". I want to change: ".
Definition describePrompt (p : Project) : jstr :=
  js "Create a reviewable specification for " ++ pj_name p ++ js ". The outcome is: ".

(** ** What they guarantee *)

Section Cache.
Variable invalidates : QueryKey → QueryKey → bool.
Hypothesis invalidates_prefix : ∀ p k, invalidates p k = true ↔ p `prefix_of` k.

(** The names that the studio's own keys use in the place of a project. *)
Definition reservedNames : list string := ["project"; "projects"; "intents"; "brief"; "workspace-capabilities"]%string.

Lemma own_refreshed projectID rest : invalidates (studioKey [Some projectID]) (studioKey (Some projectID :: rest)) = true.
Proof. apply invalidates_prefix. by exists rest. Qed.

Lemma shared_kept projectID s rest :
  Some projectID ≠ s → invalidates (studioKey [Some projectID]) (studioKey (s :: rest)) = false.
Proof.
  intros Hn. apply not_true_iff_false. rewrite invalidates_prefix. intros [r Hr]. injection Hr as Hr _. by destruct Hn.
Qed.

(** [C36] A new revision of the workspace fetches every query of the project's panels again, and
    only those: the query of the project, whose answer the revision comes from, and the
    shared ones are left alone, so the effect does not cause itself, and it does nothing
    while the revision stays. *)
Theorem revision_refreshes_the_panels before projectID (data : Project) terminal intent session :
  projectID ∉ map js reservedNames →
  before ≠ Some (Some (pj_revision data), projectID) →
  ∃ key, revisionEffect before projectID (Some data) = Some key ∧
    (∀ panel k, k ∈ panelKeys projectID terminal intent panel → k ≠ capabilitiesKey → invalidates key k = true) ∧
    (∀ k, k ∈ [projectKey projectID; projectsKey; intentsKey; briefKey session; capabilitiesKey] → invalidates key k = false) ∧
    revisionEffect (Some (Some (pj_revision data), projectID)) projectID (Some data) = None.
Proof.
  intros Hr Hb. exists (studioKey [Some projectID]). unfold revisionEffect. cbn [fmap option_fmap option_map].
  rewrite bool_decide_false by exact Hb. rewrite bool_decide_true by reflexivity. split_and!; [reflexivity| | |reflexivity].
  - intros panel k Hk Hc. assert (∃ rest, k = studioKey (Some projectID :: rest)) as [rest ->]; [|apply own_refreshed].
    destruct panel; cbn [panelKeys map] in Hk;
      repeat (apply elem_of_cons in Hk as [->|Hk]; [first [eexists; reflexivity|destruct Hc; reflexivity]|]); by apply not_elem_of_nil in Hk.
  - intros k Hk. assert (∀ s, s ∈ reservedNames → Some projectID ≠ named s) as Hn.
    { intros s Hs [= ->]. by apply Hr, (list_elem_of_fmap_2 js). }
    repeat (apply elem_of_cons in Hk as [->|Hk]; [apply shared_kept, Hn; apply list_elem_of_In; cbn; tauto|]).
    by apply not_elem_of_nil in Hk.
Qed.
End Cache.

Lemma prompts_solid : solid (js "Revise the accepted plan for ") ∧ solid (js "Create a reviewable specification for ").
Proof. split; vm_compute; eexists _, _; split; reflexivity. Qed.

(** The two buttons of the plan reach the composer of the chat: its draft is their prompt,
    whatever it held before, and nothing else of the chat changes. *)
Theorem plan_prompts_reach_the_composer (p : Project) (c : Chat) prompt :
  prompt ∈ [revisePrompt p; describePrompt p] →
  c_draft (prefill (JStr prompt) c) = prompt ∧ prefill (JStr prompt) c = setCDraft prompt c.
Proof.
  intros Hin. unfold prefill. cbn [asString]. assert (trim prompt ≠ []) as Ht.
  { apply trim_solid. apply elem_of_cons in Hin as [->|Hin%list_elem_of_singleton]; [|subst prompt].
    - exact (solid_app _ _ (proj1 prompts_solid)).
    - exact (solid_app _ _ (proj2 prompts_solid)). }
  apply jeqb_neq in Ht as ->. done.
Qed.

(** ** Witnesses *)

Lemma revision_refreshes_the_panels_witness :
  let invalidates := λ p k : QueryKey, bool_decide (p `prefix_of` k) in
  invalidates (studioKey [Some (js "p1")]) (studioKey [Some (js "p1"); named "index"]) = true ∧
  ∃ key, revisionEffect (Some (Some 4%Z, js "p1")) (js "p1") (Some {| pj_id := js "p1"; pj_name := []; pj_revision := 5 |}) = Some key ∧
    invalidates key (projectKey (js "p1")) = false.
Proof.
  intros inv. split; [reflexivity|].
  destruct (revision_refreshes_the_panels inv (λ p k, bool_decide_eq_true (p `prefix_of` k)) (Some (Some 4%Z, js "p1")) (js "p1")
              {| pj_id := js "p1"; pj_name := []; pj_revision := 5 |} None None None) as (key & Hk & _ & Hn & _).
  - apply (bool_decide_eq_true_1 (_ ∉ _)). reflexivity.
  - discriminate.
  - exists key. split; [exact Hk|]. apply Hn. by left.
Defined.
