(* ===== verification/ChatPage.v ===== *)
(** * The page around the conversation

    The rest of [ui/web/src/features/chat/ChatHost.tsx]: the toolbar with the button of the
    computer stage, the suggestions of an empty conversation, and the links of an answer. *)
From stdpp Require Import base list strings.
From Stdlib Require Import ZArith NArith.
From S2P Require Import Prelude JsString JsValue JsArray Regex Catalog Protocol Display Envelope.
From S2P Require Import Events EventsFacts Store EventsProps LocalClient LocalClientFacts TuiFormat TuiApp Visibility Shell Chat ChatApp ChatView.

(** ** The toolbar *)

(** The button of the computer stage, when it is there: whether it is expanded, its label. *)
Definition computerButton (m : Mode) (available open : bool) : option (bool * string) :=
  if decide (m = full) then
    if available then Some (open, if open then "Hide Computer"%string else "Review Computer"%string) else None
  else None.

(** The button of the work details, with its count. *)
Definition activityButton (detailsOpen : bool) (count : nat) : bool * option nat :=
  (detailsOpen, if (0 <? count)%nat then Some count else None).

(** What [OperatorExperience] gives the chat of it. *)
Definition computerButtonAt `{Platform} (x : Surroundings) (s : Stage) : option (bool * string) :=
  computerButton (if studioActive x then studio else full) (computerHistoryAvailable x)
    (computerVisible x s && negb (computerRoute x)).

(** ** Suggestions *)

Definition starters : list (string * string) :=
  [("Research something",
    "Research this topic thoroughly, compare reliable sources, and give me a clear recommendation: ");
   ("Plan a project", "Help me turn this goal into a practical plan, then work through it with me: ");
   ("Create something", "Help me create a polished first version of: ");
   ("Make sense of information",
    "Analyze this information, explain what matters, and tell me what I should do next: ")]%string.

(** [s.replace(p, '')]: the first occurrence. *)
Fixpoint removeFirst (p s : jstr) : jstr :=
  if startsWith p s then drop (length p) s else match s with c :: s' => c :: removeFirst p s' | [] => [] end.

(** The line under a suggestion. *)
Definition starterHint (prompt : jstr) : jstr := default [] (head (splitOn 44 (removeFirst (js ": ") prompt))).

(** [chooseStarter(prompt)]: the draft; the composer gets the focus. *)
Definition chooseStarter (prompt : jstr) (c : Chat) : Chat := setCDraft prompt c.

(** ** Links of an answer *)

(** The relation and the target that a link gets; [None] keeps it in the page. *)
Definition linkAttributes (href : option jstr) : option (string * string) :=
  match href with
  | Some h => if startsWith (js "https://") h || startsWith (js "http://") h
              then Some ("noopener noreferrer", "_blank")%string else None
  | None => None
  end.

(** ** What they guarantee *)

Section Toggle.
Context `{Platform}.

Lemma chat_is_not_computer x : chatActive x = true → computerRoute x = false ∧ studioActive x = false.
Proof.
  unfold chatActive, computerRoute, studioActive. intros [->%jeqb_eq| ->%jeqb_eq]%orb_true_iff; split; reflexivity.
Qed.

(** The button of the computer stage does what it says: it is there only on the chat, and
    pressing it hides a stage that is shown and shows one that is not. *)
Theorem computer_button_does_what_it_says (x : Surroundings) (s : Stage) open label :
  computerButtonAt x s = Some (open, label) →
  chatActive x = true ∧ computerVisible x (toggleComputer x s) = negb open ∧
  label = (if computerVisible x s then "Hide Computer" else "Review Computer")%string.
Proof.
  unfold computerButtonAt, computerButton. destruct (decide _); [|discriminate].
  destruct (computerHistoryAvailable x) eqn:Ha; [|discriminate]. intros [= <- <-].
  unfold computerHistoryAvailable in Ha. apply andb_true_iff in Ha as [Hc _].
  destruct (chat_is_not_computer x Hc) as [Hr _]. split; [exact Hc|].
  unfold toggleComputer. rewrite Hr. cbn [negb]. rewrite andb_true_r. split; [|reflexivity].
  destruct (computerVisible x s) eqn:Hv; cbn [negb].
  - unfold computerVisible, autoOpen, reviewOpen, closeComputer. cbn [autoTurn reviewSession].
    rewrite Hr, Hc, bool_decide_false by discriminate. reflexivity.
  - unfold computerVisible, reviewOpen. cbn [reviewSession]. rewrite Hc, bool_decide_true by reflexivity.
    by rewrite Hr, andb_true_l, orb_true_r.
Qed.
End Toggle.

(** A suggestion fills the composer with a prompt to complete, which sending would not
    refuse: none of them is blank. *)
Theorem suggestions_are_prompts st (c : Chat) title prompt :
  (title, prompt) ∈ starters →
  c_draft (chooseStarter (js prompt) c) = js prompt ∧ trim (js prompt) ≠ [] ∧ starterHint (js prompt) ≠ [] ∧
  tr_messages (c_transcript (chooseStarter (js prompt) c)) = tr_messages (c_transcript c) ∧
  isEmptyChat st (chooseStarter (js prompt) c) = isEmptyChat st c.
Proof.
  intros Hin. assert (forallb (λ r : string * string, negb (jeqb (trim (js r.2)) []) && negb (jeqb (starterHint (js r.2)) [])) starters = true)
    as Hall by (vm_compute; reflexivity).
  rewrite forallb_forall in Hall. apply list_elem_of_In, Hall, andb_true_iff in Hin as [H1 H2]. cbn [snd] in *.
  split_and!; [reflexivity| | |reflexivity|reflexivity]; by apply jeqb_neq, negb_true_iff.
Qed.

(** A link to another site without a scheme, or with the scheme in capitals, replaces the
    page instead of opening beside it. *)
Example scheme_relative_link_leaves_the_page :
  linkAttributes (Some (js "//example.org/page")) = None ∧ linkAttributes (Some (js "HTTPS://example.org/page")) = None ∧
  linkAttributes (Some (js "https://example.org/page")) = Some ("noopener noreferrer", "_blank")%string.
Proof. vm_compute. done. Qed.

(** ** Witnesses *)

#[local] Existing Instance test_platform.

Lemma computer_button_does_what_it_says_witness :
  computerButtonAt (at_chat browsing) initialStage = Some (false, "Review Computer"%string) ∧
  computerVisible (at_chat browsing) (toggleComputer (at_chat browsing) initialStage) = true.
Proof.
  split; [vm_compute; reflexivity|].
  apply (computer_button_does_what_it_says (at_chat browsing) initialStage false "Review Computer"%string). vm_compute. reflexivity.
Defined.
