(* ===== verification/Router.v ===== *)
(** * The pages of the web shell and the paths that reach them

    [App], [AuthenticatedApp] and the rendering of [OperatorExperience] in
    [ui/web/src/app/App.tsx], with the parts of [ui/web/src/components/OperatorLayout.tsx]
    that depend on its queries, and every link of the interface.

    The router is react-router: the class [Router] is what the code uses of it, and
    [RouterLaws] what its documentation says of the patterns this program has.
    [listRouter] is an instance, so the laws can hold. *)
From stdpp Require Import base list strings.
From Stdlib Require Import ZArith NArith.
From S2P Require Import Prelude JsString JsValue JsArray Regex Catalog Protocol Display Envelope.
From S2P Require Import Events EventsFacts Store EventsProps LocalClient Client Operator Visibility Shell.
From S2P Require Import TuiFormat TuiApp Chat Async Computer Sessions Auth Media Surface.

(** ** The router *)

(** [matchRoutes ps pathname] is the index of the pattern that [Routes] renders;
    [pathnameOf to] is the pathname of a link. *)
Class Router := {
  matchRoutes : list jstr → jstr → option nat;
  pathnameOf : jstr → jstr;
}.

(** A segment that stays as it is in an address, and a name of a parameter. *)
Definition plainSegment (s : jstr) : bool :=
  negb (jeqb s []) && forallb (λ c, is_digit c || ((97 <=? c) && (c <=? 122)) || (c =? 45))%N s.
Definition parameterName (s : jstr) : bool :=
  negb (jeqb s []) && forallb (λ c, ((97 <=? c) && (c <=? 122)) || ((65 <=? c) && (c <=? 90)))%N s.

(** The patterns this program has: the root or one segment, and a segment with a parameter. *)
Definition staticPattern (p : jstr) : bool :=
  match p with c :: s => (c =? 47)%N && (jeqb s [] || plainSegment s) | [] => false end.
Definition parameterPattern (base name : jstr) : jstr := base ++ js "/:" ++ name.
Definition simplePattern (p : jstr) : Prop :=
  p = js "*" ∨ staticPattern p = true ∨
  ∃ base name, staticPattern base = true ∧ base ≠ js "/" ∧ parameterName name = true ∧ p = parameterPattern base name.

(** The pathnames of the links. *)
Definition plainPath (p : jstr) : Prop :=
  staticPattern p = true ∨
  ∃ base s, staticPattern base = true ∧ base ≠ js "/" ∧ plainSegment s = true ∧ p = base ++ js "/" ++ s.

(** What the documentation promises of such patterns: a path that is itself a pattern
    renders that route; a trailing slash is ignored; a parameter takes any one segment; the
    splat takes every path that nothing else does. *)
Class RouterLaws `{Router} : Prop := {
  match_declared ps pathname i : matchRoutes ps pathname = Some i → is_Some (ps !! i);
  match_static ps i p :
    Forall simplePattern ps → NoDup ps → staticPattern p = true → ps !! i = Some p → matchRoutes ps p = Some i;
  match_slash ps p :
    Forall simplePattern ps → staticPattern p = true → p ≠ js "/" → matchRoutes ps (p ++ js "/") = matchRoutes ps p;
  match_parameter ps i base name s :
    Forall simplePattern ps → NoDup ps → staticPattern base = true → base ≠ js "/" → parameterName name = true →
    ps !! i = Some (parameterPattern base name) →
    (∀ j name', ps !! j = Some (parameterPattern base name') → name' = name) →
    plainSegment s = true → matchRoutes ps (base ++ js "/" ++ s) = Some i;
  match_splat ps pathname : js "*" ∈ ps → is_Some (matchRoutes ps pathname);
  pathname_plain p : plainPath p → pathnameOf p = p;
  pathname_search p q : plainPath p → pathnameOf (p ++ js "?" ++ q) = p;
}.

(** ** Who is signed in *)

(** [bootstrap] is [window.__ION_BOOTSTRAP__?.actor_id], [meta] the content of the
    document's meta element; [None] is the sign-in screen. *)
Definition App (bootstrap meta : option jstr) : option jstr :=
  match (match bootstrap with Some a => Some a | None => trim <$> meta end) with
  | None | Some [] => None
  | Some actorID => Some actorID
  end.

(** ** Routes *)

Inductive RoutePage : Type :=
  | NavigatePage (to : string) | NullPage
  | MediaPage | OfficePage | CommandCenterPage | SessionsRoute | SecurityRoute | IntegrityRoute
  | ProjectsHomePage | StudioWorkspacePage
  | SubsystemPage (surface : SurfaceDefinition).

Definition routes : list (string * RoutePage) :=
  [("/", NavigatePage "/chat"); ("/chat", NullPage); ("/computer", NullPage); ("/media", MediaPage); ("/office", OfficePage);
   ("/overview", CommandCenterPage); ("/sessions", SessionsRoute); ("/security", SecurityRoute);
   ("/integrity", IntegrityRoute); ("/projects", ProjectsHomePage); ("/studio", ProjectsHomePage);
   ("/studio/:projectID", StudioWorkspacePage)]%string ++
  map (λ surface, (sf_path surface, SubsystemPage surface)) subsystemSurfaces ++
  [("*", NavigatePage "/")]%string.

(** ** The screen *)

(** What [OperatorExperience] renders besides the layout: [ex_chat] is the chat's [active],
    [ex_studioChat] its mode, [ex_onClose] whether the stage can be closed, and the two
    separators. *)
Record Experience : Type := {
  ex_chat : bool; ex_studioChat : bool; ex_reviewAvailable : bool; ex_reviewOpen : bool;
  ex_stage : bool; ex_onClose : bool; ex_studioHandle : bool; ex_computerHandle : bool;
  ex_routeHidden : bool; ex_page : option RoutePage }.

Section Rendering.
Context `{Platform} `{Router}.

(** The element that [Routes] renders. *)
Definition pageOf (pathname : jstr) : option RoutePage :=
  matchRoutes (map (js ∘ fst) routes) pathname ≫= λ i, snd <$> routes !! i.

(** A [Navigate] that is rendered replaces the path. *)
Definition redirect (pathname : jstr) : jstr :=
  match pageOf pathname with Some (NavigatePage to) => pathnameOf (js to) | _ => pathname end.

Definition experience (x : Surroundings) (s : Stage) : Experience := {|
  ex_chat := chatActive x || studioActive x || computerRoute x;
  ex_studioChat := studioActive x;
  ex_reviewAvailable := computerHistoryAvailable x;
  ex_reviewOpen := computerVisible x s && negb (computerRoute x);
  ex_stage := computerVisible x s;
  ex_onClose := chatActive x;
  ex_studioHandle := studioActive x;
  ex_computerHandle := computerVisible x s;
  ex_routeHidden := chatActive x || computerRoute x;
  ex_page := pageOf (sr_pathname x) |}.

(** Something is on the screen: the chat, the stage, or the element of a route. *)
Definition showsSomething (e : Experience) : bool :=
  ex_chat e || ex_stage e ||
  (negb (ex_routeHidden e) && match ex_page e with None | Some NullPage | Some (NavigatePage _) => false | Some _ => true end).

(** ** Links *)

(** The targets of the layout: the brand, the navigations, the recent conversations, the
    new task, and the tabs of a phone. *)
Definition layoutTargets : list string :=
  "/chat"%string :: map fst conversationNavigation ++ map fst workspaceNavigation ++
  ["/sessions"%string] ++ map fst controlNavigation ++ map fst mobileTabs.

(** The links of the composer's menu. *)
Definition composerLinks : list string := ["/knowledge"; "/work"; "/extensions"]%string.

(** The link of the overview, and the way back of the workspace. *)
Definition pageLinks : list string := ["/chat"; "/studio"]%string.

(** The panels of a project and the navigation to one go to its workspace. *)
Definition workspacePath (project : jstr) : jstr := js "/studio/" ++ project.

(** Every target the interface offers at a path with the checks of the overview. *)
Definition offeredTargets (toNumber : jstr → option num) (pathname : jstr) (checks : Checks) : list jstr :=
  map js (layoutTargets ++ composerLinks ++ pageLinks) ++ map (js ∘ cd_to) (overviewCards toNumber checks) ++
  map pc_path (paletteCommands pathname).
End Rendering.

(** ** What the layout shows of its queries *)

(** [authStatus]: the query of the layout. *)
Definition authStatusQuery : proc Layout json :=
  response ← fetch authStatusRequest;
  if negb (hr_ok response) then throw (mkError (js "Authentication status unavailable")) else bodyJSON response.

(** [sessions]: the query of the recent conversations. *)
Definition sessionsQuery : proc Layout json :=
  response ← rpc query "session.list" (JObj []) None;
  match resp_error response with
  | Some e => throw (mkError (err_message e))
  | None => Ret (match resp_result response with None | Some JNull => JArr [] | Some v => v end)
  end.

(** [authStatus.data?.required === true]. *)
Definition signOutOffered (data : option json) : bool := isTrue (data ≫= get "required").

(** The label of the button and the announced status. *)
Definition signOutLabel (l : Layout) : string :=
  if ly_signingOut l then "Signing out…" else if ly_failed l then "Try again" else "Sign out".
Definition signOutTitle (l : Layout) : string := if ly_failed l then "Sign out failed. Try again." else "Sign out".
Definition signOutNotice (l : Layout) : string := if ly_failed l then "Sign out failed. Try again." else EmptyString.

(** A recent conversation: its id, title, tooltip, and whether it is the selected one. *)
Record RecentChat : Type := { rc_id : jstr; rc_title : jstr; rc_hint : jstr; rc_selected : bool }.

Definition recentChat (l : Layout) (s : SessionRow) : RecentChat := {|
  rc_id := sn_id s; rc_title := sn_title s; rc_hint := default (sn_title s) (sn_preview s);
  rc_selected := bool_decide (ly_session l = Some (sn_id s)) |}.

(** [None] when the section is absent. *)
Definition recentChats (l : Layout) (data : option (list SessionRow)) : option (list RecentChat) :=
  match data with
  | None | Some [] => None
  | Some rows => Some (map (recentChat l) (take 5 rows))
  end.
