(* ===== verification/RouterProps.v ===== *)
(** * The web shell: every link leads somewhere

    A router that has the laws, and what they give for the routes of the program: the
    redirects settle, every link of the interface reaches a page that shows something, a
    trailing slash leaves the screen blank, and one page is linked from nowhere. *)
From stdpp Require Import base list strings.
From Stdlib Require Import ZArith NArith.
From S2P Require Import Prelude JsString JsValue JsArray Regex Catalog Protocol Display Envelope.
From S2P Require Import Events EventsFacts Store EventsProps LocalClient Client Operator Visibility Shell.
From S2P Require Import TuiFormat TuiApp Chat Async Computer Sessions Auth Media Surface Router.

(** ** A router *)

(** A path without its trailing slash. *)
Definition unslash (p : jstr) : jstr :=
  match reverse p with c :: ((_ :: _) as r) => if (c =? 47)%N then reverse r else p | _ => p end.

(** What comes before and after the first slash. *)
Fixpoint uptoSlash (s : jstr) : jstr * option jstr :=
  match s with
  | [] => ([], None)
  | c :: s => if (c =? 47)%N then ([], Some s) else let r := uptoSlash s in (c :: r.1, r.2)
  end.

Definition takesParameter (q p : jstr) : bool :=
  match uptoSlash (tail q), uptoSlash (tail p) with
  | (b, Some (58%N :: _)), (b', Some s) => jeqb b b' && negb (jeqb s [])
  | _, _ => false
  end.

(** A target up to its query or fragment. *)
Fixpoint beforeQuery (s : jstr) : jstr :=
  match s with c :: s => if ((c =? 63) || (c =? 35))%N then [] else c :: beforeQuery s | [] => [] end.

Definition firstIndex (f : jstr → bool) (ps : list jstr) : option nat := fst <$> list_find (λ q, f q = true) ps.

Definition listRouter : Router := {|
  matchRoutes ps pathname :=
    let p := unslash pathname in
    orElse (firstIndex (λ q, staticPattern q && jeqb q p) ps)
      (orElse (firstIndex (λ q, takesParameter q p) ps) (firstIndex (λ q, jeqb q (js "*")) ps));
  pathnameOf := beforeQuery |}.

(** *** Its laws *)

Definition plainUnit (c : N) : bool := (is_digit c || ((97 <=? c) && (c <=? 122)) || (c =? 45))%N.

Lemma plainUnit_range c : plainUnit c = true → (45 ≤ c)%N ∧ c ≠ 47%N ∧ c ≠ 58%N ∧ c ≠ 63%N.
Proof.
  unfold plainUnit, is_digit. intros [[[H1 H2]%andb_true_iff|[H1 H2]%andb_true_iff]%orb_true_iff|H1]%orb_true_iff;
    rewrite ?N.leb_le, ?N.eqb_eq in *; lia.
Qed.

Lemma plainSegment_units s : plainSegment s = true → s ≠ [] ∧ Forall (λ c, plainUnit c = true) s.
Proof.
  unfold plainSegment. intros [Hn Hf]%andb_true_iff. split; [intros ->; discriminate|].
  apply Forall_forall. intros c Hc. rewrite forallb_forall in Hf. by apply Hf, list_elem_of_In.
Qed.

Lemma uptoSlash_plain s r : Forall (λ c, plainUnit c = true) s → uptoSlash (s ++ 47%N :: r) = (s, Some r).
Proof.
  induction 1 as [|c s Hc _ IH]; [done|]. apply plainUnit_range in Hc as (_ & Hc & _).
  cbn [app uptoSlash]. rewrite IH. by apply N.eqb_neq in Hc as ->.
Qed.

Lemma uptoSlash_all s : Forall (λ c, plainUnit c = true) s → uptoSlash s = (s, None).
Proof.
  induction 1 as [|c s Hc _ IH]; [done|]. apply plainUnit_range in Hc as (_ & Hc & _).
  cbn [uptoSlash]. rewrite IH. by apply N.eqb_neq in Hc as ->.
Qed.

Lemma beforeQuery_plain s r :
  Forall (λ c, c = 47%N ∨ plainUnit c = true) s → beforeQuery (s ++ r) = s ++ beforeQuery r.
Proof.
  induction 1 as [|c s Hc _ IH]; [done|]. cbn [app beforeQuery]. rewrite IH.
  replace ((c =? 63) || (c =? 35))%N with false; [done|]. symmetry. apply orb_false_iff. rewrite !N.eqb_neq.
  destruct Hc as [->|Hc]; [done|]. apply plainUnit_range in Hc. lia.
Qed.

(** A static pattern is a slash and at most one plain segment. *)
Lemma static_shape p :
  staticPattern p = true → ∃ s, p = 47%N :: s ∧ Forall (λ c, plainUnit c = true) s ∧ (p ≠ js "/" → s ≠ []).
Proof.
  destruct p as [|c s]; [discriminate|]. cbn [staticPattern]. intros [Hc Hs]%andb_true_iff.
  apply N.eqb_eq in Hc as ->. exists s. split; [done|]. apply orb_true_iff in Hs as [Hs|Hs].
  - apply jeqb_eq in Hs as ->. split; [constructor|]. intros Hp. by destruct Hp.
  - apply plainSegment_units in Hs as [? ?]. done.
Qed.

Lemma unslash_last p c : c ≠ 47%N → unslash (p ++ [c]) = p ++ [c].
Proof. unfold unslash. rewrite reverse_snoc. intros Hc. destruct (reverse p); [done|]. by apply N.eqb_neq in Hc as ->. Qed.

Lemma unslash_plain p s : s ≠ [] → Forall (λ c, plainUnit c = true) s → unslash (p ++ s) = p ++ s.
Proof.
  intros Hn. destruct s as [|c s _] using rev_ind; [done|]. intros Hf. apply Forall_app in Hf as [_ Hf].
  apply Forall_singleton, plainUnit_range in Hf as (_ & Hf & _). rewrite app_assoc. by apply unslash_last.
Qed.

Lemma unslash_static p : staticPattern p = true → unslash p = p.
Proof.
  intros (s & -> & Hs & _)%static_shape. destruct s as [|c s]; [reflexivity|].
  by apply (unslash_plain [47%N] (c :: s)).
Qed.

Lemma unslash_slash p : staticPattern p = true → p ≠ js "/" → unslash (p ++ js "/") = p.
Proof.
  intros (s & -> & Hs & Hn)%static_shape Hp. unfold unslash. change (js "/") with [47%N]. rewrite reverse_snoc.
  destruct (reverse (47%N :: s)) as [|c r] eqn:Hr.
  { apply (f_equal length) in Hr. rewrite length_reverse in Hr. discriminate. }
  cbn [N.eqb Pos.eqb]. by rewrite <- Hr, reverse_involutive.
Qed.

Lemma firstIndex_Some f ps i p :
  ps !! i = Some p → f p = true → (∀ j q, ps !! j = Some q → f q = true → j = i) → firstIndex f ps = Some i.
Proof.
  intros Hi Hp Hu. unfold firstIndex. destruct (list_find _ ps) as [[j q]|] eqn:Hf.
  - apply list_find_Some in Hf as (Hj & Hq & _). cbn. f_equal. by apply (Hu _ q).
  - apply list_find_None in Hf. apply (Forall_lookup_1 _ _ _ _ Hf) in Hi. done.
Qed.

Lemma firstIndex_None f ps : (∀ j q, ps !! j = Some q → f q = false) → firstIndex f ps = None.
Proof.
  intros Hn. unfold firstIndex. destruct (list_find _ ps) as [[j q]|] eqn:Hf; [|done].
  apply list_find_Some in Hf as (Hj & Hq & _). apply Hn in Hj. congruence.
Qed.

Lemma firstIndex_declared f ps i : firstIndex f ps = Some i → is_Some (ps !! i).
Proof.
  unfold firstIndex. destruct (list_find _ ps) as [[j q]|] eqn:Hf; [|done]. cbn. intros [= ->].
  apply list_find_Some in Hf as (Hj & _). by eexists.
Qed.

Lemma takesParameter_spec b name s :
  Forall (λ c, plainUnit c = true) b → s ≠ [] →
  takesParameter (parameterPattern (47%N :: b) name) ((47%N :: b) ++ js "/" ++ s) = true.
Proof.
  intros Hb Hs. unfold takesParameter, parameterPattern. cbn [app tail].
  change (js "/" ++ s) with (47%N :: s). change (js "/:" ++ name) with (47%N :: 58%N :: name).
  rewrite !uptoSlash_plain by done. rewrite jeqb_refl. by apply jeqb_neq in Hs as ->.
Qed.

Lemma takesParameter_inv q b s :
  simplePattern q → Forall (λ c, plainUnit c = true) b → takesParameter q ((47%N :: b) ++ js "/" ++ s) = true →
  ∃ name, q = parameterPattern (47%N :: b) name.
Proof.
  intros Hq Hb. unfold takesParameter. cbn [app tail]. change (js "/" ++ s) with (47%N :: s).
  rewrite (uptoSlash_plain b) by done.
  destruct Hq as [->|[(u & -> & Hu & _)%static_shape|(base & name & (u & -> & Hu & _)%static_shape & _ & _ & ->)]].
  - discriminate.
  - cbn [tail]. rewrite uptoSlash_all by done. discriminate.
  - unfold parameterPattern. change (js "/:" ++ name) with (47%N :: 58%N :: name). cbn [app tail].
    rewrite uptoSlash_plain by done. intros [->%jeqb_eq _]%andb_true_iff. by exists name.
Qed.

(** A path with two segments is no static pattern. *)
Lemma two_segments q b s : staticPattern q = true → q = (47%N :: b) ++ js "/" ++ s → False.
Proof.
  intros (u & -> & Hu & _)%static_shape. cbn [app]. intros [= ->]. change (js "/" ++ s) with (47%N :: s) in Hu.
  apply Forall_app in Hu as [_ [Hu _]%Forall_cons]. discriminate.
Qed.

Lemma plainPath_units p : plainPath p → Forall (λ c, c = 47%N ∨ plainUnit c = true) p.
Proof.
  assert (∀ s, Forall (λ c, plainUnit c = true) s → Forall (λ c, c = 47%N ∨ plainUnit c = true) s) as Hw
    by (intros s Hs; eapply Forall_impl; [exact Hs|]; by right).
  intros [(s & -> & Hs & _)%static_shape|(base & s & (u & -> & Hu & _)%static_shape & _ & [_ Hs]%plainSegment_units & ->)].
  - constructor; [by left|]. by apply Hw.
  - rewrite !Forall_app. split_and!; [constructor; [by left|by apply Hw]|repeat constructor|by apply Hw].
Qed.

#[export] Instance listRouter_laws : @RouterLaws listRouter.
Proof.
  constructor; cbn [matchRoutes pathnameOf listRouter].
  - intros ps p i. unfold orElse. intros Hm.
    destruct (firstIndex _ ps) eqn:H1 in Hm; [simplify_eq; by eapply firstIndex_declared|].
    destruct (firstIndex _ ps) eqn:H2 in Hm; [simplify_eq; by eapply firstIndex_declared|].
    by eapply firstIndex_declared.
  - intros ps i p _ Hd Hp Hi. rewrite unslash_static by done. unfold orElse.
    rewrite (firstIndex_Some _ ps i p); [done|done|by rewrite Hp, jeqb_refl|].
    intros j q Hj [_ ->%jeqb_eq]%andb_true_iff. by eapply NoDup_lookup.
  - intros ps p _ Hp Hn. by rewrite unslash_slash, unslash_static.
  - intros ps i base name s Hf Hd Hb Hn Ha Hi Hu Hs. apply static_shape in Hb as (b & -> & Hb & _).
    apply plainSegment_units in Hs as [Hs1 Hs2]. rewrite app_assoc, unslash_plain, <- app_assoc by done. unfold orElse.
    rewrite firstIndex_None.
    2:{ intros j q _. apply andb_false_iff. destruct (staticPattern q) eqn:Hq; [right|by left].
        apply jeqb_neq. intros He. by eapply two_segments. }
    rewrite (firstIndex_Some _ ps i _ Hi); [done|by apply takesParameter_spec|].
    intros j q Hj Hq. apply takesParameter_inv in Hq as (name' & ->); [|by eapply Forall_lookup_1|done].
    rewrite (Hu _ _ Hj) in Hj. by eapply NoDup_lookup.
  - intros ps p Hs. unfold orElse. destruct (firstIndex _ ps); [done|]. destruct (firstIndex _ ps); [done|].
    unfold firstIndex. destruct (list_find _ ps) as [[j q]|] eqn:Hf; [done|]. apply list_find_None in Hf.
    rewrite Forall_forall in Hf. apply Hf in Hs. by rewrite jeqb_refl in Hs.
  - intros p Hp%plainPath_units. rewrite <- (app_nil_r p) at 1. rewrite beforeQuery_plain by done. by rewrite app_nil_r.
  - intros p q Hp%plainPath_units. rewrite beforeQuery_plain by done. change (js "?" ++ q) with (63%N :: q). by rewrite app_nil_r.
Qed.

(** ** The routes of the program *)

Definition patterns : list jstr := map (js ∘ fst) routes.

(** The workspace is the only route with a parameter. *)
Definition workspaceRoute (p : jstr) : bool := negb (jeqb p (js "*") || staticPattern p).

Lemma workspace_pattern p : p ∈ patterns → workspaceRoute p = true → p = parameterPattern (js "/studio") (js "projectID").
Proof.
  intros Hin Hw. assert (forallb (λ p, negb (workspaceRoute p) || jeqb p (parameterPattern (js "/studio") (js "projectID"))) patterns = true)
    as Hall by (vm_compute; reflexivity).
  rewrite forallb_forall in Hall. apply list_elem_of_In, Hall in Hin. rewrite Hw in Hin. by apply jeqb_eq.
Qed.

Lemma patterns_simple : Forall simplePattern patterns.
Proof.
  apply Forall_forall. intros p Hp. pose proof (workspace_pattern p Hp) as Hw. unfold workspaceRoute in Hw.
  destruct (jeqb p (js "*")) eqn:H1; [left; by apply jeqb_eq|].
  destruct (staticPattern p) eqn:H2; [right; left; exact H2|]. rewrite Hw by reflexivity. right. right.
  exists (js "/studio"), (js "projectID"). split_and!; [reflexivity|discriminate|reflexivity..].
Qed.

Lemma patterns_distinct : NoDup patterns.
Proof. apply (bool_decide_eq_true_1 (NoDup _)). vm_compute. reflexivity. Qed.

(** The route that a literal path declares. *)
Definition declared (t : string) : option RoutePage := snd <$> find (λ r, String.eqb r.1 t) routes.

Lemma declared_index t page : declared t = Some page → ∃ i, routes !! i = Some (t, page).
Proof.
  unfold declared. destruct (find _ routes) as [[p pg]|] eqn:Hf; [|discriminate]. cbn. intros [= ->].
  apply find_some in Hf as [Hin Ht]. apply String.eqb_eq in Ht. cbn in Ht. subst p. by apply list_elem_of_lookup, list_elem_of_In.
Qed.

Lemma patterns_lookup i : patterns !! i = (js ∘ fst) <$> routes !! i.
Proof. exact (list_lookup_fmap (js ∘ fst) routes i). Qed.

Lemma splat_declared : js "*" ∈ patterns.
Proof. apply (list_elem_of_lookup_2 _ 20). rewrite patterns_lookup. vm_compute. reflexivity. Qed.

Lemma parameter_not_static name : workspaceRoute (parameterPattern (js "/studio") name) = true.
Proof. reflexivity. Qed.

Section Laws.
Context `{Platform} `{RouterLaws}.

Lemma pageOf_index pathname i : matchRoutes patterns pathname = Some i → pageOf pathname = snd <$> routes !! i.
Proof. unfold pageOf. fold patterns. intros ->. reflexivity. Qed.

Lemma pageOf_static t page : staticPattern (js t) = true → declared t = Some page → pageOf (js t) = Some page.
Proof.
  intros Hs (i & Hi)%declared_index. rewrite (pageOf_index _ i), Hi; [done|].
  apply (match_static _ i (js t) patterns_simple patterns_distinct Hs). by rewrite patterns_lookup, Hi.
Qed.

Lemma pageOf_total pathname : ∃ t page, (t, page) ∈ routes ∧ pageOf pathname = Some page.
Proof.
  destruct (match_splat patterns pathname splat_declared) as [i Hi]. rewrite (pageOf_index _ _ Hi).
  apply match_declared in Hi as [p Hp]. rewrite patterns_lookup in Hp. apply fmap_Some in Hp as ([t page] & Hr & _).
  exists t, page. split; [by eapply list_elem_of_lookup_2|]. by rewrite Hr.
Qed.

Lemma pageOf_slash t page :
  staticPattern (js t) = true → js t ≠ js "/" → declared t = Some page → pageOf (js t ++ js "/") = Some page.
Proof.
  intros Hs Hn Hd. rewrite <- (pageOf_static t page Hs Hd). unfold pageOf. fold patterns.
  by rewrite (match_slash _ _ patterns_simple Hs Hn).
Qed.

(** A project's workspace. *)
Lemma pageOf_workspace project :
  plainSegment project = true → pageOf (workspacePath project) = Some StudioWorkspacePage.
Proof.
  intros Hp. rewrite (pageOf_index _ 11); [reflexivity|]. unfold workspacePath.
  change (js "/studio/") with (js "/studio" ++ js "/"). rewrite <- app_assoc.
  apply (match_parameter patterns 11 (js "/studio") (js "projectID") project patterns_simple patterns_distinct);
    [reflexivity|discriminate|reflexivity|rewrite patterns_lookup; reflexivity| |done].
  intros j name Hj%list_elem_of_lookup_2. apply workspace_pattern in Hj; [|apply parameter_not_static].
  unfold parameterPattern in Hj. by simplify_list_eq.
Qed.

(** A page that stays: it does not navigate away. *)
Definition stays (page : RoutePage) : bool := match page with NavigatePage _ => false | _ => true end.

(** What a route without an element relies on: the chat or the stage is on the screen. *)
Lemma shows_page x s page :
  pageOf (sr_pathname x) = Some page → stays page = true →
  (page = NullPage → chatActive x = true ∨ computerRoute x = true) → showsSomething (experience x s) = true.
Proof.
  intros Hp Hs Hn. unfold showsSomething, experience.
  cbn [ex_chat ex_stage ex_routeHidden ex_page]. rewrite Hp.
  destruct (chatActive x) eqn:Hc; [done|]. destruct (computerRoute x) eqn:Hr; [rewrite !orb_true_r; done|].
  destruct page; try discriminate; [destruct (Hn eq_refl); discriminate|rewrite !orb_true_r; reflexivity..].
Qed.

(** A literal target of a link that reaches something to show. *)
Definition reaches (t : string) : bool :=
  staticPattern (js t) &&
  match declared t with
  | Some NullPage => jeqb (js t) (js "/chat") || jeqb (js t) (js "/computer")
  | Some page => stays page
  | None => false
  end.

(** A path at which the screen shows something, whatever the session and the stage. *)
Definition shownAt (pathname : jstr) : Prop :=
  (∃ page, pageOf pathname = Some page ∧ stays page = true) ∧
  ∀ x s, sr_pathname x = pathname → showsSomething (experience x s) = true.

Lemma reaches_shown t : reaches t = true → shownAt (pathnameOf (js t)).
Proof.
  unfold reaches. intros [Hs Hd]%andb_true_iff. rewrite pathname_plain by (by left).
  destruct (declared t) as [page|] eqn:Hp; [|discriminate]. pose proof (pageOf_static t page Hs Hp) as Hg.
  assert (stays page = true) as Hst by (destruct page; [discriminate|reflexivity..]).
  split; [by exists page|]. intros x s Hx. rewrite <- Hx in Hg. apply (shows_page x s page Hg Hst). intros ->.
  unfold chatActive, computerRoute. rewrite Hx. apply orb_true_iff in Hd as [-> | ->]; [by left|by right].
Qed.

Lemma workspace_shown project :
  plainSegment project = true → shownAt (workspacePath project).
Proof.
  intros Hp. pose proof (pageOf_workspace project Hp) as Hg. split; [by eexists|].
  intros x s Hx. rewrite <- Hx in Hg. by apply (shows_page x s _ Hg).
Qed.

Lemma workspacePath_plain project : plainSegment project = true → plainPath (workspacePath project).
Proof.
  intros Hp. right. exists (js "/studio"), project. split_and!; [reflexivity|discriminate|exact Hp|reflexivity].
Qed.

(** The commands of the palette. *)
Lemma studioMatch_plain pathname project : studioMatch pathname = Some project → plainSegment project = true.
Proof.
  unfold studioMatch. destruct (_ && _) eqn:Hc; [|discriminate]. intros [= <-].
  apply andb_true_iff in Hc as [[_ Hn]%andb_true_iff Hf]. unfold plainSegment. apply andb_true_iff. split; [exact Hn|].
  apply forallb_forall. intros c Hc. rewrite forallb_forall in Hf. specialize (Hf c Hc).
  apply orb_true_iff in Hf as [[->|Hf]%orb_true_iff| ->]; [done| |by rewrite !orb_true_r].
  apply andb_true_iff in Hf as [Hl Hu]. rewrite Hl. apply N.leb_le in Hu.
  rewrite (proj2 (N.leb_le c 122)) by lia. by rewrite orb_true_r.
Qed.

Lemma panel_shown pathname project panel :
  studioMatch pathname = Some project → shownAt (pathnameOf (pc_path (panelCommand project panel))).
Proof.
  intros Hm%studioMatch_plain. unfold panelCommand. cbn [pc_path]. pose proof (workspacePath_plain _ Hm) as Hp.
  rewrite app_assoc. fold (workspacePath project). destruct (String.eqb panel.2 "plan").
  - rewrite app_nil_r, pathname_plain by exact Hp. by apply workspace_shown.
  - change (js "?panel=" ++ js panel.2) with (js "?" ++ js "panel=" ++ js panel.2).
    rewrite pathname_search by exact Hp. by apply workspace_shown.
Qed.

Lemma palette_shown pathname t : t ∈ map pc_path (paletteCommands pathname) → shownAt (pathnameOf t).
Proof.
  assert (∀ t, t ∈ map pc_path globalCommands → shownAt (pathnameOf t)) as Hg.
  { intros u Hu. unfold globalCommands in Hu. rewrite map_map in Hu. apply list_elem_of_In, in_map_iff in Hu as (c & <- & Hc).
    apply reaches_shown. revert c Hc. apply forallb_forall. vm_compute. reflexivity. }
  unfold paletteCommands. destruct (studioMatch pathname) as [project|] eqn:Hm; [|apply Hg].
  rewrite map_app, map_map. intros [Ht|Ht]%elem_of_app; [|by apply Hg].
  apply list_elem_of_In, in_map_iff in Ht as (panel & <- & _). by eapply panel_shown.
Qed.
End Laws.

(** [C34] The redirects settle: from any path at most two of them lead to a page that stays. *)
Theorem redirects_settle `{RouterLaws} (pathname : jstr) :
  ∃ page, pageOf (redirect (redirect pathname)) = Some page ∧ stays page = true ∧
          redirect (redirect (redirect pathname)) = redirect (redirect pathname).
Proof.
  assert (∀ p page, pageOf p = Some page → stays page = true → redirect p = p) as Hstay.
  { intros p page Hp Hs. unfold redirect. rewrite Hp. by destruct page. }
  assert (∃ page, pageOf (js "/chat") = Some page ∧ stays page = true) as (chat & Hc & Hcs).
  { exists NullPage. split; [|done]. by apply pageOf_static. }
  assert (redirect (js "/") = js "/chat") as Hroot.
  { unfold redirect. rewrite (pageOf_static "/" (NavigatePage "/chat")) by reflexivity. apply pathname_plain. by left. }
  destruct (pageOf_total pathname) as (t & page & Hin & Hp). destruct (stays page) eqn:Hs.
  { exists page. by rewrite !(Hstay pathname page). }
  assert (redirect pathname = js "/" ∨ redirect pathname = js "/chat") as [-> | ->].
  { unfold redirect. rewrite Hp. destruct page as [to| | | | | | | | | |]; try discriminate.
    assert (forallb (λ r : string * RoutePage, match r.2 with NavigatePage to => String.eqb to "/" || String.eqb to "/chat" | _ => true end) routes = true)
      as Hall by reflexivity.
    rewrite forallb_forall in Hall. apply list_elem_of_In, Hall in Hin. cbn [snd] in Hin.
    apply orb_true_iff in Hin as [->%String.eqb_eq| ->%String.eqb_eq]; [left|right]; (apply pathname_plain; by left). }
  - exists chat. rewrite Hroot, (Hstay _ _ Hc Hcs). done.
  - exists chat. rewrite !(Hstay _ _ Hc Hcs). done.
Qed.

(** [C35] No dead links: whatever the interface offers - the navigations, the tabs, the cards of
    the overview, the composer's menu, the palette, a project to open - is a path of a page
    that stays, and the screen shows something there, whatever the session and the stage. *)
Theorem every_link_shows_a_page `{Platform} `{RouterLaws} toNumber pathname checks target :
  target ∈ offeredTargets toNumber pathname checks ∨ (∃ project, plainSegment project = true ∧ target = workspacePath project) →
  (∃ page, pageOf (pathnameOf target) = Some page ∧ stays page = true) ∧
  ∀ x s, sr_pathname x = pathnameOf target → showsSomething (experience x s) = true.
Proof.
  change (target ∈ offeredTargets toNumber pathname checks ∨ (∃ project, plainSegment project = true ∧ target = workspacePath project) →
          shownAt (pathnameOf target)).
  intros [Ht|(project & Hp & ->)].
  2:{ rewrite pathname_plain by (by apply workspacePath_plain). by apply workspace_shown. }
  unfold offeredTargets in Ht. rewrite !elem_of_app in Ht. destruct Ht as [Ht|[Ht|Ht]]; [| |by eapply palette_shown].
  - apply list_elem_of_In, in_map_iff in Ht as (t & <- & Ht). apply reaches_shown. revert t Ht.
    apply forallb_forall. vm_compute. reflexivity.
  - apply list_elem_of_In, in_map_iff in Ht as (c & <- & Hc). apply reaches_shown.
    assert (cd_to c ∈ ["/work"; "/diagnostics"; "/extensions"; "/execution"; "/presence"]%string) as Hin.
    { apply list_elem_of_In. unfold overviewCards in Hc.
      repeat (destruct Hc as [<-|Hc]; [repeat (first [left; reflexivity|right])|]). destruct Hc. }
    revert Hin. generalize (cd_to c). intros t Ht%list_elem_of_In. revert t Ht. apply forallb_forall. vm_compute. reflexivity.
Qed.

(** A trailing slash leaves the screen blank: the router renders the route of the path
    without it, which has no element for the chat and the computer, while the shell
    compares the path itself, so that neither is active and nothing is shown. *)
Theorem trailing_slash_is_blank `{Platform} `{RouterLaws} (x : Surroundings) (s : Stage) :
  sr_pathname x = js "/chat/" ∨ sr_pathname x = js "/computer/" →
  ex_page (experience x s) = Some NullPage ∧ ex_routeHidden (experience x s) = false ∧
  showsSomething (experience x s) = false ∧ redirect (sr_pathname x) = sr_pathname x.
Proof.
  intros Hx.
  assert (pageOf (sr_pathname x) = Some NullPage) as Hp.
  { destruct Hx as [-> | ->]; [change (js "/chat/") with (js "/chat" ++ js "/")|change (js "/computer/") with (js "/computer" ++ js "/")];
      by apply pageOf_slash. }
  assert (chatActive x = false ∧ studioActive x = false ∧ computerRoute x = false) as (Hc & Hst & Hr)
    by (unfold chatActive, studioActive, computerRoute; destruct Hx as [-> | ->]; split_and!; reflexivity).
  assert (computerVisible x s = false) as Hv by (unfold computerVisible; by rewrite Hc, Hr).
  unfold redirect, showsSomething, experience. cbn [ex_page ex_routeHidden ex_chat ex_stage].
  rewrite Hp, Hc, Hst, Hr, Hv. done.
Qed.

(** No literal target is the page of the brief. *)
Definition elsewhere (t : string) : bool := negb (jeqb (js t) (js "/since-away")).

Lemma elsewhere_all ts t : forallb elsewhere ts = true → In t ts → js t ≠ js "/since-away".
Proof. intros Hf Hin. rewrite forallb_forall in Hf. by apply jeqb_neq, negb_true_iff, Hf. Qed.

Lemma layout_elsewhere : forallb elsewhere (layoutTargets ++ composerLinks ++ pageLinks) = true.
Proof. vm_compute. reflexivity. Qed.

Lemma commands_elsewhere : forallb (λ c, negb (jeqb (pc_path c) (js "/since-away"))) globalCommands = true.
Proof. vm_compute. reflexivity. Qed.

(** The brief of what happened while the operator was away has a page, and no link of the
    interface leads to it: it opens only by typing its address. *)
Theorem away_brief_is_unlinked `{RouterLaws} toNumber pathname checks target :
  target ∈ offeredTargets toNumber pathname checks →
  target ≠ js "/since-away" ∧ ∃ surface, pageOf (js "/since-away") = Some (SubsystemPage surface).
Proof.
  intros Ht. split; [|eexists; apply pageOf_static; reflexivity].
  assert (∀ t, t ∈ map pc_path globalCommands → t ≠ js "/since-away") as Hg.
  { intros t Hin. apply list_elem_of_In, in_map_iff in Hin as (c & <- & Hc).
    pose proof commands_elsewhere as Hf. rewrite forallb_forall in Hf. by apply jeqb_neq, negb_true_iff, Hf. }
  unfold offeredTargets, paletteCommands in Ht. rewrite !elem_of_app in Ht. destruct Ht as [Ht|[Ht|Ht]].
  - apply list_elem_of_In, in_map_iff in Ht as (t & <- & Hin). by apply (elsewhere_all _ _ layout_elsewhere).
  - apply list_elem_of_In, in_map_iff in Ht as (c & <- & Hin). unfold overviewCards in Hin.
    repeat (destruct Hin as [<-|Hin]; [discriminate|]). destruct Hin.
  - destruct (studioMatch pathname) as [project|]; [|by apply Hg]. rewrite map_app, map_map in Ht.
    apply elem_of_app in Ht as [Ht|Ht]; [|by apply Hg].
    apply list_elem_of_In, in_map_iff in Ht as (panel & <- & _). discriminate.
Qed.

(** The operator of the document: the bootstrap wins over the meta element even when it is
    empty, and the sign-in screen shows exactly when what remains is missing or empty. *)
Theorem app_actor bootstrap meta :
  App bootstrap meta = None ↔
  bootstrap = Some [] ∨ (bootstrap = None ∧ (meta = None ∨ trim <$> meta = Some [])).
Proof.
  unfold App. destruct bootstrap as [[|c a]|]; [|split; [discriminate|intros [?|[? _]]; discriminate]|].
  - split; [by left|done].
  - destruct meta as [m|]; cbn; [|split; [right; split; [done|by left]|done]].
    destruct (trim m) as [|c m'].
    + split; [|done]. intros _. right. split; [done|by right].
    + split; [discriminate|]. intros [?|[_ [?|?]]]; discriminate.
Qed.

(** ** Witnesses *)

#[local] Existing Instance test_platform.
#[local] Existing Instance listRouter.

Lemma redirects_settle_witness :
  (∃ page, pageOf (redirect (redirect (js "/gone/away"))) = Some page ∧ stays page = true ∧
           redirect (redirect (redirect (js "/gone/away"))) = redirect (redirect (js "/gone/away"))) ∧
  redirect (redirect (js "/gone/away")) = js "/chat".
Proof. split; [exact (redirects_settle (js "/gone/away"))|vm_compute; reflexivity]. Defined.

Definition noChecks : Checks :=
  let c := {| ck_data := None; ck_error := false |} in
  {| ck_health := c; ck_providers := c; ck_tools := c; ck_channels := c; ck_work := c |}.

Lemma every_link_shows_a_page_witness :
  (∃ page, pageOf (pathnameOf (js "/studio/0a?panel=tests")) = Some page ∧ stays page = true) ∧
  ∀ x s, sr_pathname x = pathnameOf (js "/studio/0a?panel=tests") → showsSomething (experience x s) = true.
Proof.
  apply (every_link_shows_a_page (λ _, None) (js "/studio/0a") noChecks). left.
  apply (bool_decide_eq_true_1 (_ ∈ _)). vm_compute. reflexivity.
Defined.

Lemma trailing_slash_is_blank_witness :
  let x := {| sr_pathname := js "/chat/"; sr_session := None; sr_state := emptyOperatorState |} in
  showsSomething (experience x initialStage) = false.
Proof.
  intros x. apply (trailing_slash_is_blank x initialStage). left. reflexivity.
Defined.

Lemma away_brief_is_unlinked_witness : js "/chat" ≠ js "/since-away".
Proof.
  apply (away_brief_is_unlinked (λ _, None) (js "/") noChecks). apply (bool_decide_eq_true_1 (_ ∈ _)). vm_compute. reflexivity.
Defined.
