(* ===== verification/Console.v ===== *)
(** * The integrity console

    [internal/security/dashboard/frontend/app.js]: the page of the safety rail.  It opens a
    WebSocket with the bearer token as a subprotocol, keeps the newest 1000 events and
    renders them under a filter.

    [Console] is the state of the script with the sockets it made and what the document
    shows.  [consoleStep] is one thing the operator or the browser does; it is [None] when
    the browser cannot do it in that state.  Parameters: whether an address is one the
    WebSocket constructor accepts, [JSON.parse] of a frame of the server ([None] where it
    throws), and the local formats of a timestamp. *)
From stdpp Require Import base list sorting strings.
From Stdlib Require Import ZArith NArith.
From S2P Require Import Prelude JsString JsValue JsArray Regex Catalog Protocol Display Envelope.
From S2P Require Import Events EventsFacts Store Client Operator.

(** ** The token *)

(** [new TextEncoder().encode(value)]: a lone surrogate becomes U+FFFD. *)
Definition scalarOf (c : N) : N := if ((55296 <=? c) && (c <=? 57343))%N then 65533%N else c.

Definition utf8_of (c : N) : list N :=
  (if c <? 128 then [c]
   else if c <? 2048 then [192 + c / 64; 128 + c mod 64]
   else if c <? 65536 then [224 + c / 4096; 128 + c / 64 mod 64; 128 + c mod 64]
   else [240 + c / 262144; 128 + c / 4096 mod 64; 128 + c / 64 mod 64; 128 + c mod 64])%N.

Definition utf8 (s : jstr) : list N := flat_map (λ c, utf8_of (scalarOf c)) (code_points s).

(** The alphabet of base64. *)
Definition char64 (n : N) : N :=
  (if n <? 26 then 65 + n else if n <? 52 then 71 + n else if n <? 62 then n - 4 else if n =? 62 then 43 else 47)%N.

(** [btoa(binary)], on the units of the binary string. *)
Fixpoint btoa (bs : list N) : jstr :=
  match bs with
  | a :: b :: c :: rest =>
      char64 (a / 4) :: char64 (a mod 4 * 16 + b / 16) :: char64 (b mod 16 * 4 + c / 64) :: char64 (c mod 64) :: btoa rest
  | [a; b] => [char64 (a / 4); char64 (a mod 4 * 16 + b / 16); char64 (b mod 16 * 4); 61]
  | [a] => [char64 (a / 4); char64 (a mod 4 * 16); 61; 61]
  | [] => []
  end%N.

Definition encodeToken (value : jstr) : jstr :=
  replaceUnit 61 [] (replaceUnit 47 [95%N] (replaceUnit 43 [45%N] (btoa (utf8 value)))).

(** ** State *)

Record SafetyEvent : Type := {
  se_type : jstr; se_severity : jstr; se_source : jstr; se_message : jstr; se_timestamp : jstr }.

(** A frame of the server. *)
Record SafetyFrame : Type := {
  sf_kind : jstr; sf_events : option (list SafetyEvent); sf_event : option SafetyEvent }.

(** The document: the status with its class, the numbers, the rows (class, heading, message,
    time), and the values and selection of the filter. *)
Record Shown : Type := {
  sh_status : jstr; sh_online : bool; sh_total : nat; sh_critical : nat; sh_last : jstr;
  sh_rows : list (jstr * jstr * jstr * jstr); sh_options : list jstr; sh_filter : jstr }.

Record Console : Type := {
  cn_events : list SafetyEvent;
  cn_sockets : list ReadyState;
  cn_socket : option nat;
  cn_endpoint : jstr;
  cn_token : jstr;
  cn_shown : Shown }.

Definition setConsoleEvents v c : Console :=
  {| cn_events := v; cn_sockets := cn_sockets c; cn_socket := cn_socket c; cn_endpoint := cn_endpoint c;
     cn_token := cn_token c; cn_shown := cn_shown c |}.
Definition setSockets v w c : Console :=
  {| cn_events := cn_events c; cn_sockets := v; cn_socket := w; cn_endpoint := cn_endpoint c;
     cn_token := cn_token c; cn_shown := cn_shown c |}.
Definition setFields v w c : Console :=
  {| cn_events := cn_events c; cn_sockets := cn_sockets c; cn_socket := cn_socket c; cn_endpoint := v;
     cn_token := w; cn_shown := cn_shown c |}.
Definition setShown v c : Console :=
  {| cn_events := cn_events c; cn_sockets := cn_sockets c; cn_socket := cn_socket c; cn_endpoint := cn_endpoint c;
     cn_token := cn_token c; cn_shown := v |}.

(** [setStatus(text, online)]. *)
Definition showStatus (text : string) (online : bool) (c : Console) : Console :=
  let v := cn_shown c in
  setShown {| sh_status := js text; sh_online := online; sh_total := sh_total v; sh_critical := sh_critical v;
              sh_last := sh_last v; sh_rows := sh_rows v; sh_options := sh_options v; sh_filter := sh_filter v |} c.

(** The page as it is loaded. *)
Definition initialConsole : Console := {|
  cn_events := []; cn_sockets := []; cn_socket := None; cn_endpoint := js "ws://127.0.0.1:8080/safety"; cn_token := [];
  cn_shown := {| sh_status := js "offline"; sh_online := false; sh_total := 0; sh_critical := 0; sh_last := js "—";
                 sh_rows := []; sh_options := [[]]; sh_filter := [] |} |}.

(** ** Rendering *)

(** The order of [sort()]: by code units. *)
Fixpoint unitsLe (a b : jstr) : bool :=
  match a, b with
  | [], _ => true
  | _ :: _, [] => false
  | x :: a, y :: b => if (x =? y)%N then unitsLe a b else (x <? y)%N
  end.

Definition hasType (t : jstr) (e : SafetyEvent) : bool := jeqb (se_type e) t.

(** [[...new Set(events.map((event) => event.type))].sort()]. *)
Definition typesOf (events : list SafetyEvent) : list jstr := sort_by unitsLe (remove_dups (map se_type events)).

Definition shownEvents (filter : jstr) (events : list SafetyEvent) : list SafetyEvent :=
  match filter with [] => events | _ => List.filter (hasType filter) events end.

Section Page.
Variable acceptsEndpoint : jstr → bool.
Variable parseFrame : jstr → option SafetyFrame.
Variable localTime localMoment : jstr → jstr.

Definition consoleRow (e : SafetyEvent) : jstr * jstr * jstr * jstr :=
  (js "event " ++ se_severity e, se_type e ++ js " · " ++ se_source e, se_message e, localMoment (se_timestamp e)).

(** Setting the value of a select that has no such option selects nothing. *)
Definition renderConsole (c : Console) : Console :=
  let v := cn_shown c in
  let events := cn_events c in
  let options := [] :: typesOf events in
  setShown {| sh_status := sh_status v; sh_online := sh_online v; sh_total := length events;
              sh_critical := length (List.filter (λ e, jeqb (se_severity e) (js "critical")) events);
              sh_last := match events with e :: _ => localTime (se_timestamp e) | [] => js "—" end;
              sh_rows := map consoleRow (shownEvents (sh_filter v) events);
              sh_options := options;
              sh_filter := if bool_decide (sh_filter v ∈ options) then sh_filter v else [] |} c.

Definition addEvents (events : list SafetyEvent) (c : Console) : Console :=
  renderConsole (setConsoleEvents (take 1000 (events ++ cn_events c)) c).

(** ** Handlers *)

(** [socket.close()]. *)
Definition closeSocket (i : nat) (c : Console) : Console := setSockets (alter closing i (cn_sockets c)) (cn_socket c) c.

Definition connectConsole (c : Console) : Console :=
  let c := match cn_socket c with Some i => closeSocket i c | None => c end in
  let endpoint := trim (cn_endpoint c) in
  if jeqb endpoint [] || jeqb (cn_token c) [] then showStatus "endpoint + token required" false c
  else if acceptsEndpoint endpoint
  then showStatus "connecting" false (setSockets (cn_sockets c ++ [CONNECTING]) (Some (length (cn_sockets c))) c)
  else c.

(** The subprotocol that the socket of a press asks for. *)
Definition bearerProtocol (c : Console) : jstr := js "ion-bearer." ++ encodeToken (cn_token c).

Definition onFrame (frame : SafetyFrame) (c : Console) : Console :=
  let c := if jeqb (sf_kind frame) (js "snapshot") then addEvents (default [] (sf_events frame)) c else c in
  match sf_event frame with
  | Some e => if jeqb (sf_kind frame) (js "event") then addEvents [e] c else c
  | None => c
  end.

Definition onMessageData (data : jstr) (c : Console) : Console :=
  match parseFrame data with Some frame => onFrame frame c | None => c end.

Inductive ConsoleInput : Type :=
  | EndpointEntered (v : jstr) | TokenEntered (v : jstr) | ConnectPressed | FilterChosen (v : jstr)
  | SocketOpened (i : nat) | SocketMessage (i : nat) (data : jstr) | SocketFailed (i : nat) | SocketClosed (i : nat).

Definition consoleStep (x : ConsoleInput) (c : Console) : option Console :=
  let enter i (s : ReadyState) := setSockets (<[i := s]> (cn_sockets c)) (cn_socket c) c in
  match x with
  | EndpointEntered v => Some (setFields v (cn_token c) c)
  | TokenEntered v => Some (setFields (cn_endpoint c) v c)
  | ConnectPressed => Some (connectConsole c)
  | FilterChosen v =>
      if bool_decide (v ∈ sh_options (cn_shown c)) then
        let s := cn_shown c in
        Some (renderConsole (setShown {| sh_status := sh_status s; sh_online := sh_online s; sh_total := sh_total s;
                                         sh_critical := sh_critical s; sh_last := sh_last s; sh_rows := sh_rows s;
                                         sh_options := sh_options s; sh_filter := v |} c))
      else None
  | SocketOpened i => if bool_decide (cn_sockets c !! i = Some CONNECTING) then Some (showStatus "live" true (enter i OPEN)) else None
  | SocketMessage i data => if bool_decide (cn_sockets c !! i = Some OPEN) then Some (onMessageData data c) else None
  | SocketFailed i =>
      match cn_sockets c !! i with
      | None | Some CLOSED => None
      | Some _ => Some (showStatus "connection error" false c)
      end
  | SocketClosed i =>
      match cn_sockets c !! i with
      | None | Some CLOSED => None
      | Some _ => Some (showStatus "offline" false (enter i CLOSED))
      end
  end.

(** The inputs of a run and the console it reaches. *)
Inductive console_runs : list ConsoleInput → Console → Prop :=
  | console_start : console_runs [] initialConsole
  | console_next xs c x c' : console_runs xs c → consoleStep x c = Some c' → console_runs (xs ++ [x]) c'.

(** Doing the inputs one after another. *)
Fixpoint consolePlay (xs : list ConsoleInput) (c : Console) : option Console :=
  match xs with [] => Some c | x :: xs => c' ← consoleStep x c; consolePlay xs c' end.

Lemma consolePlay_runs xs0 xs c c' : console_runs xs0 c → consolePlay xs c = Some c' → console_runs (xs0 ++ xs) c'.
Proof.
  revert xs0 c. induction xs as [|x xs IH]; intros xs0 c Hr Hp; cbn [consolePlay] in Hp.
  { simplify_eq. by rewrite app_nil_r. }
  apply bind_Some in Hp as (c1 & Hx & Hp). change (x :: xs) with ([x] ++ xs). rewrite app_assoc.
  eapply IH; [|exact Hp]. by eapply console_next.
Qed.
End Page.
