(* ===== verification/ConsoleProps.v ===== *)
(** * What the integrity console guarantees

    Claims about [Console]: the subprotocol carries the token and nothing else, the page
    shows the newest events as an abstract board says, and where it misleads: a replaced socket that
    reports offline, history that repeats, a filter that hides everything. *)
From stdpp Require Import base sets list sorting strings.
From Stdlib Require Import ZArith NArith.
From S2P Require Import Prelude JsString JsValue JsArray Regex Catalog Protocol Display Envelope.
From S2P Require Import Events EventsFacts Store Client Operator Console.

(** ** Base64 for addresses, without padding (RFC 4648, section 5) *)

Definition unit64 (c : N) : option N :=
  (if (65 <=? c) && (c <=? 90) then Some (c - 65)
   else if (97 <=? c) && (c <=? 122) then Some (c - 71)
   else if (48 <=? c) && (c <=? 57) then Some (c + 4)
   else if c =? 45 then Some 62 else if c =? 95 then Some 63 else None)%N.

Fixpoint rawURLDecode (s : jstr) : option (list N) :=
  match s with
  | [] => Some []
  | [_] => None
  | [w; x] => a ← unit64 w; b ← unit64 x; Some [a * 4 + b / 16]%N
  | [w; x; y] => a ← unit64 w; b ← unit64 x; c ← unit64 y; Some [a * 4 + b / 16; b mod 16 * 16 + c / 4]%N
  | w :: x :: y :: z :: rest =>
      a ← unit64 w; b ← unit64 x; c ← unit64 y; d ← unit64 z; bs ← rawURLDecode rest;
      Some (a * 4 + b / 16 :: b mod 16 * 16 + c / 4 :: c mod 4 * 64 + d :: bs)%N
  end.

(** The token that a server reads from the subprotocol: the bytes, as UTF-8. *)
Definition decodeToken (s : jstr) : option jstr :=
  bs ← rawURLDecode s; Some (flat_map utf16_of_cp (cps_of_utf8 (length bs) bs)).

(** The unit that stands for a sextet once the token is made safe for addresses. *)
Definition url64 (n : N) : N := (if char64 n =? 43 then 45 else if char64 n =? 47 then 95 else char64 n)%N.

Lemma char64_cases n (P : N → Prop) : (n < 64)%N → (∀ i, i < 64 → P (N.of_nat i)) → P n.
Proof. intros Hn HP. rewrite <- (N2Nat.id n). apply HP. lia. Qed.

Lemma unit64_url64 n : (n < 64)%N → unit64 (url64 n) = Some n.
Proof.
  intros Hn. apply (char64_cases n (λ n, unit64 (url64 n) = Some n)); [done|].
  intros i Hi. do 64 (destruct i as [|i]; [reflexivity|]). lia.
Qed.

Lemma url64_not_padding n : (n < 64)%N → char64 n ≠ 61%N ∧ url64 n ≠ 61%N.
Proof.
  intros Hn. apply (char64_cases n (λ n, char64 n ≠ 61%N ∧ url64 n ≠ 61%N)); [done|].
  intros i Hi. do 64 (destruct i as [|i]; [split; discriminate|]). lia.
Qed.

Definition urlSafe (s : jstr) : jstr := replaceUnit 61 [] (replaceUnit 47 [95%N] (replaceUnit 43 [45%N] s)).

Lemma urlSafe_cons n s : (n < 64)%N → urlSafe (char64 n :: s) = url64 n :: urlSafe s.
Proof.
  intros Hn. destruct (url64_not_padding n Hn) as [H1 H2]. unfold urlSafe, replaceUnit, url64 in *. cbn [flat_map].
  destruct (char64 n =? 43)%N eqn:E1; cbn [flat_map app]; [done|].
  destruct (char64 n =? 47)%N eqn:E2; cbn [flat_map app]; [done|].
  apply N.eqb_neq in H1. by rewrite H1.
Qed.

(** The groups of three bytes. *)
Lemma three_ind (P : list N → Prop) :
  P [] → (∀ a, P [a]) → (∀ a b, P [a; b]) → (∀ a b c l, P l → P (a :: b :: c :: l)) → ∀ l, P l.
Proof.
  intros H0 H1 H2 H3 l. enough (P l ∧ (∀ a, P (a :: l)) ∧ (∀ a b, P (a :: b :: l))) by tauto.
  induction l as [|x l (IH0 & IH1 & IH2)]; [by split_and!|]. split_and!; [by apply IH1|by intros a; apply IH2|].
  intros a b. by apply H3.
Qed.

Definition isByte (b : N) : Prop := (b < 256)%N.

Lemma sextets a b c : isByte a → isByte b → isByte c →
  (a / 4 < 64 /\ a mod 4 * 16 + b / 16 < 64 /\ b mod 16 * 4 + c / 64 < 64 /\ c mod 64 < 64 /\
   a mod 4 * 16 < 64 /\ b mod 16 * 4 < 64 /\
   a / 4 * 4 + (a mod 4 * 16 + b / 16) / 16 = a /\ a / 4 * 4 + (a mod 4 * 16) / 16 = a /\
   (a mod 4 * 16 + b / 16) mod 16 * 16 + (b mod 16 * 4 + c / 64) / 4 = b /\
   (a mod 4 * 16 + b / 16) mod 16 * 16 + (b mod 16 * 4) / 4 = b /\
   (b mod 16 * 4 + c / 64) mod 4 * 64 + c mod 64 = c)%N.
Proof.
  unfold isByte. intros Ha Hb Hc. split_and!; zify; Z.to_euclidean_division_equations; lia.
Qed.

Lemma decode_btoa bs : Forall isByte bs → rawURLDecode (urlSafe (btoa bs)) = Some bs.
Proof.
  induction bs as [|a|a b|a b c l IH] using three_ind; intros Hb.
  - done.
  - rewrite Forall_cons in Hb. destruct Hb as [Ha _].
    destruct (sextets a 0 0) as (H1 & _ & _ & _ & H5 & _ & _ & H8 & _); [done..|]. cbn [btoa].
    rewrite !urlSafe_cons by done. change (urlSafe [61; 61]%N) with (@nil N). cbn [rawURLDecode].
    rewrite !unit64_url64 by done. cbn [mbind option_bind]. by rewrite H8.
  - rewrite !Forall_cons in Hb. destruct Hb as (Ha & Hb & _).
    destruct (sextets a b 0) as (H1 & H2 & _ & _ & _ & H6 & H7 & _ & _ & H10 & _); [done..|]. cbn [btoa].
    rewrite !urlSafe_cons by done. change (urlSafe [61]%N) with (@nil N). cbn [rawURLDecode].
    rewrite !unit64_url64 by done. cbn [mbind option_bind]. by rewrite H7, H10.
  - rewrite !Forall_cons in Hb. destruct Hb as (Ha & Hb & Hc & Hl).
    destruct (sextets a b c) as (H1 & H2 & H3 & H4 & _ & _ & H7 & _ & H9 & _ & H11); [done..|]. cbn [btoa].
    rewrite !urlSafe_cons by done. cbn [rawURLDecode]. rewrite !unit64_url64 by done. cbn [mbind option_bind].
    rewrite IH by done. cbn [mbind option_bind]. by rewrite H7, H9, H11.
Qed.

(** ** UTF-8 *)

(** A string of 16-bit units, and one without lone surrogates. *)
Definition units16 (s : jstr) : Prop := Forall (λ c, (c < 65536)%N) s.
Definition wellFormed (s : jstr) : Prop := units16 s ∧ Forall (λ c, scalarOf c = c) (code_points s).

(** Induction over the code points of a string: a pair of surrogates, or one unit. *)
Lemma code_points_ind (P : jstr → list N → Prop) :
  P [] [] →
  (∀ h l s, is_high h = true → is_low l = true → P s (code_points s) →
            P (h :: l :: s) ((65536 + (h - 55296) * 1024 + (l - 56320))%N :: code_points s)) →
  (∀ c s, P s (code_points s) → P (c :: s) (c :: code_points s)) →
  ∀ s, P s (code_points s).
Proof.
  intros H0 H2 H1 s. enough (P s (code_points s) ∧ ∀ c, P (c :: s) (code_points (c :: s))) by tauto.
  induction s as [|x s [IH IHc]]; [split; [done|]; intros c; by apply (H1 c [])|]. split; [apply IHc|].
  intros c. cbn [code_points]. destruct (is_high c && is_low x) eqn:Hp; [|apply (H1 c (x :: s)), IHc].
  apply andb_true_iff in Hp as [Hc Hx]. by apply H2.
Qed.

Lemma code_points_bound s : units16 s → Forall (λ c, (c < 1114112)%N) (code_points s).
Proof.
  apply (code_points_ind (λ s cs, units16 s → Forall (λ c, (c < 1114112)%N) cs)); unfold units16.
  - constructor.
  - intros h l t Hh Hl IH Hu. rewrite !Forall_cons in Hu. destruct Hu as (_ & _ & Hu). constructor; [|by apply IH].
    unfold is_high, is_low in *. rewrite !andb_true_iff, !N.leb_le in *. lia.
  - intros c t IH Hu. rewrite Forall_cons in Hu. destruct Hu as [Hc Hu]. constructor; [lia|by apply IH].
Qed.

Lemma utf16_code_points s : units16 s → flat_map utf16_of_cp (code_points s) = s.
Proof.
  apply (code_points_ind (λ s cs, units16 s → flat_map utf16_of_cp cs = s)); unfold units16.
  - done.
  - intros h l t Hh Hl IH Hu. rewrite !Forall_cons in Hu. destruct Hu as (_ & _ & Hu). cbn [flat_map]. rewrite IH by done.
    unfold is_high, is_low in *. rewrite !andb_true_iff, !N.leb_le in *. unfold utf16_of_cp.
    rewrite (proj2 (N.ltb_ge _ _)) by lia. cbn [app]. repeat f_equal; zify; Z.to_euclidean_division_equations; lia.
  - intros c t IH Hu. rewrite Forall_cons in Hu. destruct Hu as [Hc Hu]. cbn [flat_map]. rewrite IH by done.
    unfold utf16_of_cp. by rewrite (proj2 (N.ltb_lt _ _)) by done.
Qed.

Lemma utf8_bytes c : (c < 1114112)%N → Forall isByte (utf8_of c) ∧ 1 ≤ length (utf8_of c).
Proof.
  intros Hc. unfold utf8_of, isByte. repeat case_match; bools; (split; [|cbn; lia]); repeat constructor;
    zify; Z.to_euclidean_division_equations; lia.
Qed.

Lemma cps_utf8 c rest fuel :
  (c < 1114112)%N → cps_of_utf8 (S fuel) (utf8_of c ++ rest) = c :: cps_of_utf8 fuel rest.
Proof.
  intros Hc. unfold utf8_of.
  destruct (c <? 128)%N eqn:H1; [cbn [app cps_of_utf8]; by rewrite H1|]. apply N.ltb_ge in H1.
  destruct (c <? 2048)%N eqn:H2; [|destruct (c <? 65536)%N eqn:H3]; bools; cbn [app cps_of_utf8];
    repeat match goal with
      | |- context [(?x <? ?y)%N] =>
          first [rewrite (proj2 (N.ltb_lt x y)) by (zify; Z.to_euclidean_division_equations; lia)
                |rewrite (proj2 (N.ltb_ge x y)) by (zify; Z.to_euclidean_division_equations; lia)]
      end; f_equal; zify; Z.to_euclidean_division_equations; lia.
Qed.

Lemma cps_utf8_all cs fuel :
  Forall (λ c, (c < 1114112)%N) cs → length cs ≤ fuel → cps_of_utf8 fuel (flat_map utf8_of cs) = cs.
Proof.
  intros Hc. revert fuel. induction Hc as [|c cs Hc _ IH]; intros fuel Hf; [by destruct fuel|].
  destruct fuel as [|fuel]; cbn [length] in Hf; [lia|]. cbn [flat_map]. rewrite cps_utf8 by done. by rewrite IH by lia.
Qed.

Lemma utf8_well_formed s : wellFormed s → utf8 s = flat_map utf8_of (code_points s).
Proof.
  intros [_ Hs]. unfold utf8. induction Hs as [|c cs Hc _ IH]; [done|]. cbn [flat_map]. by rewrite Hc, IH.
Qed.

Lemma flat_bytes cs :
  Forall (λ c, (c < 1114112)%N) cs → Forall isByte (flat_map utf8_of cs) ∧ length cs ≤ length (flat_map utf8_of cs).
Proof.
  induction 1 as [|c cs Hc _ [IH1 IH2]]; [by split|]. cbn [flat_map]. destruct (utf8_bytes c Hc) as [H1 H2].
  rewrite Forall_app, length_app. cbn [length]. split; [done|lia].
Qed.

(** Units that a subprotocol may hold. *)
Definition tokenUnit (c : N) : bool :=
  ((65 <=? c) && (c <=? 90) || (97 <=? c) && (c <=? 122) || (48 <=? c) && (c <=? 57) || (c =? 45) || (c =? 95))%N.

Lemma unit64_token c n : unit64 c = Some n → tokenUnit c = true.
Proof. unfold unit64, tokenUnit. repeat case_match; try done; by rewrite ?orb_true_r. Qed.

Lemma decode_units s bs : rawURLDecode s = Some bs → Forall (λ c, tokenUnit c = true) s.
Proof.
  enough (∀ n s bs, length s ≤ n → rawURLDecode s = Some bs → Forall (λ c, tokenUnit c = true) s) as H by (by apply (H (length s))).
  clear s bs. induction n as [|n IH]; intros s bs Hn Hd; [destruct s; [constructor|cbn in Hn; lia]|].
  destruct s as [|w [|x [|y [|z rest]]]]; cbn [rawURLDecode] in Hd; [constructor|done|..];
    repeat (let a := fresh in let E := fresh in apply bind_Some in Hd as (a & E & Hd)); simplify_eq;
    repeat match goal with H : unit64 _ = Some _ |- _ => apply unit64_token in H end;
    repeat (constructor; [done|]); try constructor.
  match goal with H : rawURLDecode rest = Some _ |- _ => apply IH in H; [done|cbn in Hn; lia] end.
Qed.

(** [C33] The subprotocol carries the token and can be sent: decoding it gives back exactly the
    token that was typed, and it holds letters, digits, hyphens and underscores only. *)
Theorem token_round_trip s :
  wellFormed s → decodeToken (encodeToken s) = Some s ∧ Forall (λ c, tokenUnit c = true) (encodeToken s).
Proof.
  intros Hs. pose proof (proj1 Hs) as Hu. pose proof (code_points_bound s Hu) as Hb.
  destruct (flat_bytes _ Hb) as [Hbytes Hlen].
  assert (rawURLDecode (encodeToken s) = Some (flat_map utf8_of (code_points s))) as Hd.
  { change (encodeToken s) with (urlSafe (btoa (utf8 s))). rewrite utf8_well_formed by done. by apply decode_btoa. }
  split; [|by eapply decode_units]. unfold decodeToken. rewrite Hd. cbn [mbind option_bind].
  by rewrite cps_utf8_all, utf16_code_points.
Qed.

Lemma token_round_trip_witness :
  decodeToken (encodeToken (js "sécret-🔑")) = Some (js "sécret-🔑") ∧
  Forall (λ c, tokenUnit c = true) (encodeToken (js "sécret-🔑")).
Proof. apply token_round_trip. split; repeat constructor. Defined.

(** ** What the page shows *)

Lemma take_app_take {A} n (l k : list A) : take n (l ++ take n k) = take n (l ++ k).
Proof. rewrite !take_app, take_take. f_equal. f_equal. lia. Qed.

Lemma typesOf_elem t events : t ∈ typesOf events ↔ ∃ e, e ∈ events ∧ se_type e = t.
Proof.
  unfold typesOf. rewrite sort_by_elem, elem_of_remove_dups, list_elem_of_fmap. split; intros (e & H1 & H2); by exists e.
Qed.

Lemma visible_none f events : f ≠ [] → f ∉ typesOf events → shownEvents f events = [].
Proof.
  intros Hf Ht. unfold shownEvents. destruct f as [|x f]; [done|]. rewrite typesOf_elem in Ht.
  induction events as [|e events IH]; [done|]. cbn [List.filter]. unfold hasType at 1. destruct (jeqb (se_type e) _) eqn:He.
  - destruct Ht. exists e. split; [by left|by apply jeqb_eq].
  - apply IH. intros (e' & Hin & He'). apply Ht. exists e'. split; [by right|done].
Qed.

Section Shows.
Variable acceptsEndpoint : jstr → bool.
Variable parseFrame : jstr → option SafetyFrame.
Variable localTime localMoment : jstr → jstr.
Local Abbreviation step := (consoleStep acceptsEndpoint parseFrame localTime localMoment).
Local Abbreviation runs := (console_runs acceptsEndpoint parseFrame localTime localMoment).

(** ** The board

    An abstract page: the events, the type that is selected (none is all), and the type
    under which the rows were last drawn. *)
Record Board : Type := { bd_events : list SafetyEvent; bd_selected : jstr; bd_drawn : jstr }.

Definition emptyBoard : Board := {| bd_events := []; bd_selected := []; bd_drawn := [] |}.

(** The events of a message, newest first; [None] where it changes nothing. *)
Definition broughtBy (x : ConsoleInput) : option (list SafetyEvent) :=
  match x with
  | SocketMessage _ data =>
      f ← parseFrame data;
      if decide (sf_kind f = js "snapshot") then Some (default [] (sf_events f))
      else if decide (sf_kind f = js "event") then (λ e, [e]) <$> sf_event f else None
  | _ => None
  end.

(** A type stays selected while an event has it. *)
Definition stillSelected (t : jstr) (events : list SafetyEvent) : jstr :=
  if decide (t = [] ∨ Exists (λ e, se_type e = t) events) then t else [].

Definition boardStep (b : Board) (x : ConsoleInput) : Board :=
  match x with
  | FilterChosen t => {| bd_events := bd_events b; bd_selected := stillSelected t (bd_events b); bd_drawn := t |}
  | _ =>
      match broughtBy x with
      | None => b
      | Some es =>
          let events := take 1000 (es ++ bd_events b) in
          {| bd_events := events; bd_selected := stillSelected (bd_selected b) events; bd_drawn := bd_selected b |}
      end
  end.

(** The order of code units. *)
Definition before (a b : jstr) : Prop :=
  a `prefix_of` b ∨ ∃ p x y a' b', a = p ++ x :: a' ∧ b = p ++ y :: b' ∧ (x < y)%N.

(** What the document shows of a board. *)
Definition depicts (b : Board) (v : Shown) : Prop :=
  sh_total v = length (bd_events b) ∧
  sh_critical v = length (filter (λ e, se_severity e = js "critical") (bd_events b)) ∧
  sh_last v = match bd_events b with e :: _ => localTime (se_timestamp e) | [] => js "—" end ∧
  (∃ types, sh_options v = [] :: types ∧ NoDup types ∧ StronglySorted before types ∧
            ∀ t, t ∈ types ↔ Exists (λ e, se_type e = t) (bd_events b)) ∧
  sh_filter v = bd_selected b ∧
  sh_rows v = map (λ e, (js "event " ++ se_severity e, se_type e ++ js " · " ++ se_source e, se_message e,
                         localMoment (se_timestamp e)))
                (filter (λ e, bd_drawn b = [] ∨ se_type e = bd_drawn b) (bd_events b)).

Definition refines (b : Board) (c : Console) : Prop := cn_events c = bd_events b ∧ depicts b (cn_shown c).

Lemma unitsLe_before a b : unitsLe a b = true → before a b.
Proof.
  revert b. induction a as [|x a IH]; intros [|y b]; cbn [unitsLe]; try done.
  - intros _. left. by exists [].
  - intros _. left. by exists (y :: b).
  - destruct (N.eqb_spec x y) as [->|].
    + intros [[k ->]|(p & x & z & a' & b' & -> & -> & Hlt)]%IH; [left; by exists k|].
      right. by exists (y :: p), x, z, a', b'.
    + intros Hlt%N.ltb_lt. right. by exists [], x, y, a, b.
Qed.

Lemma unitsLe_total a b : unitsLe a b = false → unitsLe b a = true.
Proof.
  revert b. induction a as [|x a IH]; intros [|y b]; cbn [unitsLe]; try done.
  rewrite (N.eqb_sym y x). destruct (N.eqb_spec x y); [apply IH|]. intros Hlt%N.ltb_ge. apply N.ltb_lt. lia.
Qed.

Lemma unitsLe_trans a b c : unitsLe a b = true → unitsLe b c = true → unitsLe a c = true.
Proof.
  revert b c. induction a as [|x a IH]; intros [|y b] [|z c]; cbn [unitsLe]; try done.
  destruct (N.eqb_spec x y) as [->|]; destruct (N.eqb_spec y z) as [->|]; try done.
  - apply IH.
  - intros Hxy _. by rewrite (proj2 (N.eqb_neq _ _)).
  - intros Hxy%N.ltb_lt Hyz%N.ltb_lt. rewrite (proj2 (N.eqb_neq x z)) by lia. apply N.ltb_lt. lia.
Qed.

Lemma options_depicted events :
  NoDup (typesOf events) ∧ StronglySorted before (typesOf events) ∧
  ∀ t, t ∈ typesOf events ↔ Exists (λ e, se_type e = t) events.
Proof.
  split_and!.
  - unfold typesOf. rewrite sort_by_perm. apply NoDup_remove_dups.
  - pose proof (sort_by_ordered unitsLe unitsLe_total unitsLe_trans (remove_dups (map se_type events))) as Hs.
    unfold typesOf. induction Hs as [|t l _ IH Ht]; constructor; [done|].
    eapply Forall_impl; [exact Ht|]. intros t'. apply unitsLe_before.
  - intros t. rewrite typesOf_elem, Exists_exists. done.
Qed.

Lemma filter_same {A} (f : A → bool) (P : A → Prop) `{∀ x, Decision (P x)} l :
  (∀ x, f x = true ↔ P x) → List.filter f l = filter P l.
Proof.
  intros Hf. induction l as [|x l IH]; [done|]. rewrite filter_cons. cbn [List.filter]. rewrite IH.
  destruct (f x) eqn:Hx; case_decide as HP; try done; exfalso.
  - by apply HP, Hf.
  - apply Hf in HP. congruence.
Qed.

Lemma rows_depicted t events :
  shownEvents t events = filter (λ e, t = [] ∨ se_type e = t) events.
Proof.
  destruct t as [|u t]; cbn [shownEvents].
  - induction events as [|e events IH]; [done|]. rewrite filter_cons, decide_True by (by left). by f_equal.
  - apply filter_same. intros e. unfold hasType. rewrite jeqb_eq. naive_solver.
Qed.

Lemma render_depicts c :
  let t := sh_filter (cn_shown c) in
  depicts {| bd_events := cn_events c; bd_selected := stillSelected t (cn_events c); bd_drawn := t |}
    (cn_shown (renderConsole localTime localMoment c)).
Proof.
  intros t. unfold depicts, renderConsole.
  cbn [cn_shown setShown sh_total sh_critical sh_options sh_filter sh_last sh_rows bd_events bd_selected bd_drawn].
  split; [done|]. split; [f_equal; apply filter_same; intros e; apply jeqb_eq|]. split; [done|].
  split; [exists (typesOf (cn_events c)); split; [done|apply options_depicted]|]. split.
  - unfold stillSelected. fold t. destruct (options_depicted (cn_events c)) as (_ & _ & Ho).
    case_bool_decide as Hb; case_decide as Hd; try done; exfalso.
    + apply Hd. apply elem_of_cons in Hb as [?|Hb]; [by left|right; by apply Ho].
    + apply Hb. destruct Hd as [->|Hd]; [by left|right; by apply Ho].
  - fold t. by rewrite <- rows_depicted.
Qed.

Lemma add_refines es c b :
  refines b c →
  refines (let events := take 1000 (es ++ bd_events b) in
           {| bd_events := events; bd_selected := stillSelected (bd_selected b) events; bd_drawn := bd_selected b |})
    (addEvents localTime localMoment es c).
Proof.
  intros (He & _ & _ & _ & _ & Hf & _). split; [unfold addEvents; cbn; by rewrite He|].
  pose proof (render_depicts (setConsoleEvents (take 1000 (es ++ cn_events c)) c)) as Hd.
  cbn [cn_shown cn_events setConsoleEvents] in Hd. cbv zeta. rewrite <- He, <- Hf. exact Hd.
Qed.

(** Inputs that draw nothing keep what is shown of the board. *)
Lemma same_refines b c c' :
  cn_events c' = cn_events c → sh_total (cn_shown c') = sh_total (cn_shown c) →
  sh_critical (cn_shown c') = sh_critical (cn_shown c) → sh_options (cn_shown c') = sh_options (cn_shown c) →
  sh_filter (cn_shown c') = sh_filter (cn_shown c) → sh_last (cn_shown c') = sh_last (cn_shown c) →
  sh_rows (cn_shown c') = sh_rows (cn_shown c) → refines b c → refines b c'.
Proof. unfold refines, depicts. by intros -> -> -> -> -> -> ->. Qed.

Lemma connect_refines b c : refines b c → refines b (connectConsole acceptsEndpoint c).
Proof.
  unfold connectConsole. destruct (cn_socket c); cbn [closeSocket setSockets cn_endpoint cn_token cn_sockets];
    destruct (_ || _); try destruct (acceptsEndpoint _); by apply same_refines.
Qed.

Lemma message_refines b c i data :
  refines b c → refines (boardStep b (SocketMessage i data)) (onMessageData parseFrame localTime localMoment data c).
Proof.
  intros Hr. unfold boardStep, broughtBy, onMessageData. destruct (parseFrame data) as [f|]; [|done]. cbn [mbind option_bind].
  unfold onFrame. destruct (decide (sf_kind f = js "snapshot")) as [Hk|Hk].
  - rewrite Hk. change (jeqb (js "snapshot") (js "event")) with false. change (jeqb (js "snapshot") (js "snapshot")) with true.
    cbv iota. destruct (sf_event f); by apply add_refines.
  - rewrite (proj2 (jeqb_neq _ _) Hk). destruct (decide (sf_kind f = js "event")) as [He|He].
    + rewrite He. change (jeqb (js "event") (js "event")) with true. destruct (sf_event f); [by apply add_refines|done].
    + rewrite (proj2 (jeqb_neq _ _) He). by destruct (sf_event f).
Qed.

Lemma step_refines b c x c' : refines b c → step x c = Some c' → refines (boardStep b x) c'.
Proof.
  intros Hr Hs. destruct x as [v|v| |v|i|i data|i|i]; cbn [consoleStep] in Hs.
  - apply (inj Some) in Hs. subst c'. apply (same_refines b c); reflexivity || exact Hr.
  - apply (inj Some) in Hs. subst c'. apply (same_refines b c); reflexivity || exact Hr.
  - apply (inj Some) in Hs. subst c'. by apply connect_refines.
  - destruct (bool_decide _); [|done]. apply (inj Some) in Hs. subst c'. destruct Hr as [He _]. cbn [boardStep].
    split; [done|]. rewrite <- He.
    match goal with |- depicts _ (cn_shown (renderConsole _ _ ?c')) => exact (render_depicts c') end.
  - destruct (bool_decide _); [|done]. apply (inj Some) in Hs. subst c'. apply (same_refines b c); reflexivity || exact Hr.
  - destruct (bool_decide _); [|done]. apply (inj Some) in Hs. subst c'. by apply message_refines.
  - destruct (cn_sockets c !! i) as [[]|]; try done; apply (inj Some) in Hs; subst c'; apply (same_refines b c); reflexivity || exact Hr.
  - destruct (cn_sockets c !! i) as [[]|]; try done; apply (inj Some) in Hs; subst c'; apply (same_refines b c); reflexivity || exact Hr.
Qed.

(** The events of a board: what the messages brought, the last one first. *)
Lemma board_events xs :
  bd_events (foldl boardStep emptyBoard xs) = take 1000 (concat (map (λ x, default [] (broughtBy x)) (reverse xs))).
Proof.
  induction xs as [|x xs IH] using rev_ind; [done|]. rewrite foldl_app, reverse_snoc. cbn [foldl map concat].
  assert (Hb : take 1000 (bd_events (foldl boardStep emptyBoard xs)) = bd_events (foldl boardStep emptyBoard xs))
    by (rewrite IH, take_take; done).
  rewrite <- (take_app_take 1000 (default [] (broughtBy x))), <- IH.
  destruct x; try (symmetry; exact Hb). unfold boardStep.
  destruct (broughtBy (SocketMessage i data)); [reflexivity|symmetry; exact Hb].
Qed.
End Shows.

Lemma run_refines acceptsEndpoint parseFrame localTime localMoment xs c :
  console_runs acceptsEndpoint parseFrame localTime localMoment xs c →
  refines localTime localMoment (foldl (boardStep parseFrame) emptyBoard xs) c.
Proof.
  induction 1 as [|xs c x c' _ IH Hs].
  - split; [done|]. unfold depicts. cbn. split_and!; try done. exists []. split_and!; [done|constructor|constructor|].
    intros t. rewrite Exists_nil, elem_of_nil. done.
  - rewrite foldl_app. by apply (step_refines acceptsEndpoint parseFrame localTime localMoment _ c).
Qed.

(** [C32] The console implements the board: after any run its events are the last 1000 that
    the sockets brought, newest first, and the page shows them.  The total, the number of
    critical events and the time of the newest are theirs; the filter offers all types and
    then exactly theirs, each once and sorted; the rows are, in order, those of all events
    under no type, and else of the events with the type that was selected when the rows
    were last drawn.  They are drawn when events come and when a type is chosen; the
    selection then stays while an event has the type, and falls back to all types. *)
Theorem console_shows_the_newest acceptsEndpoint parseFrame localTime localMoment xs c :
  console_runs acceptsEndpoint parseFrame localTime localMoment xs c →
  let b := foldl (boardStep parseFrame) emptyBoard xs in
  cn_events c = bd_events b ∧ depicts localTime localMoment b (cn_shown c) ∧
  bd_events b = take 1000 (concat (map (λ x, default [] (broughtBy parseFrame x)) (reverse xs))).
Proof.
  intros Hr b. destruct (run_refines _ _ _ _ _ _ Hr) as [He Hd]. split_and!; [done|done|apply board_events].
Qed.

(** ** Where it misleads *)

Definition consoleEvent (t : string) : SafetyEvent :=
  {| se_type := js t; se_severity := js "info"; se_source := []; se_message := []; se_timestamp := [] |}.
Definition snapshotFrame (es : list SafetyEvent) (data : jstr) : option SafetyFrame :=
  Some {| sf_kind := js "snapshot"; sf_events := Some es; sf_event := None |}.

Definition reconnecting : list ConsoleInput :=
  [TokenEntered (js "t"); ConnectPressed; SocketOpened 0; SocketMessage 0 []; ConnectPressed; SocketOpened 1;
   SocketMessage 1 []; SocketClosed 0].

Lemma console_shows_the_newest_witness :
  let es := [consoleEvent "policy"] in
  let play := consolePlay (λ _, true) (snapshotFrame es) id id reconnecting initialConsole in
  is_Some play ∧
  ∀ c, play = Some c →
       depicts id id {| bd_events := es ++ es; bd_selected := []; bd_drawn := [] |} (cn_shown c).
Proof.
  intros es play. split; [vm_compute; eexists; reflexivity|]. intros c Hp.
  exact (proj1 (proj2 (console_shows_the_newest _ _ _ _ reconnecting c
                  (consolePlay_runs _ _ _ _ [] reconnecting initialConsole c (console_start _ _ _ _) Hp)))).
Defined.

(** A snapshot changes the events and what is shown of them only. *)
Lemma snapshot_step es i c :
  cn_sockets c !! i = Some OPEN →
  ∃ c', consoleStep (λ _, true) (snapshotFrame es) id id (SocketMessage i []) c = Some c' ∧
        cn_sockets c' = cn_sockets c ∧ cn_socket c' = cn_socket c ∧ cn_endpoint c' = cn_endpoint c ∧ cn_token c' = cn_token c.
Proof.
  intros Ho. exists (addEvents id id es c). cbn [consoleStep]. rewrite bool_decide_true by exact Ho.
  split; [reflexivity|]. split_and!; reflexivity.
Qed.

(** Pressing connect on a live page closes its socket and opens another. *)
Lemma press_step p c :
  cn_sockets c = [OPEN] → cn_socket c = Some 0 → trim (cn_endpoint c) ≠ [] → cn_token c ≠ [] →
  ∃ c', consoleStep (λ _, true) p id id ConnectPressed c = Some c' ∧ cn_sockets c' = [CLOSING; CONNECTING] ∧ cn_socket c' = Some 1.
Proof.
  intros Hs Ho He Ht. cbn [consoleStep]. eexists. split; [reflexivity|]. unfold connectConsole. rewrite Ho.
  cbn [closeSocket setSockets cn_endpoint cn_token cn_sockets]. rewrite Hs.
  rewrite (proj2 (jeqb_neq _ _) He), (proj2 (jeqb_neq _ _) Ht). split; reflexivity.
Qed.

(** Connecting again makes the page lie twice: the close of the replaced socket, which
    comes after the new one is open, reports offline while the new socket is live, and the
    history that the server sends again is added to the events it repeats. *)
Theorem reconnecting_misleads (es : list SafetyEvent) :
  length es ≤ 500 →
  ∃ c, console_runs (λ _, true) (snapshotFrame es) id id reconnecting c ∧
       cn_socket c = Some 1 ∧ cn_sockets c !! 1 = Some OPEN ∧ sh_status (cn_shown c) = js "offline" ∧
       sh_online (cn_shown c) = false ∧ cn_events c = es ++ es.
Proof.
  intros Hl. set (step x c := consoleStep (λ _, true) (snapshotFrame es) id id x c).
  assert (∃ c3, consolePlay (λ _, true) (snapshotFrame es) id id (take 3 reconnecting) initialConsole = Some c3 ∧
                cn_sockets c3 = [OPEN] ∧ cn_socket c3 = Some 0 ∧ trim (cn_endpoint c3) ≠ [] ∧ cn_token c3 ≠ [])
    as (c3 & H3 & Hs3 & Ho3 & He3 & Ht3).
  { eexists. split; [reflexivity|]. split_and!; [reflexivity|reflexivity|discriminate|discriminate]. }
  destruct (snapshot_step es 0 c3) as (c4 & H4 & Hs4 & Ho4 & He4 & Ht4); [by rewrite Hs3|].
  destruct (press_step (snapshotFrame es) c4) as (c5 & H5 & Hs5 & Ho5); [congruence..|].
  set (c6 := showStatus "live" true (setSockets (<[1 := OPEN]> (cn_sockets c5)) (cn_socket c5) c5)).
  assert (step (SocketOpened 1) c5 = Some c6) as H6.
  { unfold step. cbn [consoleStep]. rewrite bool_decide_true; [reflexivity|]. rewrite Hs5. reflexivity. }
  assert (cn_sockets c6 = [CLOSING; OPEN] ∧ cn_socket c6 = Some 1) as [Hs6 Ho6]
    by (unfold c6; cbn [showStatus setShown setSockets cn_sockets cn_socket]; rewrite Hs5; split; [reflexivity|exact Ho5]).
  destruct (snapshot_step es 1 c6) as (c7 & H7 & Hs7 & Ho7 & _); [by rewrite Hs6|].
  set (c8 := showStatus "offline" false (setSockets (<[0 := CLOSED]> (cn_sockets c7)) (cn_socket c7) c7)).
  assert (step (SocketClosed 0) c7 = Some c8) as H8.
  { unfold step. cbn [consoleStep]. assert (cn_sockets c7 !! 0 = Some CLOSING) as -> by (rewrite Hs7, Hs6; reflexivity). reflexivity. }
  assert (console_runs (λ _, true) (snapshotFrame es) id id reconnecting c8) as Hr.
  { pose proof (consolePlay_runs _ _ _ _ [] _ _ _ (console_start _ _ _ _) H3) as Hr.
    exact (console_next _ _ _ _ _ _ _ _ (console_next _ _ _ _ _ _ _ _ (console_next _ _ _ _ _ _ _ _
             (console_next _ _ _ _ _ _ _ _ (console_next _ _ _ _ _ _ _ _ Hr H4) H5) H6) H7) H8). }
  exists c8. split; [exact Hr|]. apply run_refines in Hr as [He _]. rewrite board_events in He.
  split; [exact (eq_trans Ho7 Ho6)|]. split; [unfold c8; cbn [showStatus setShown setSockets cn_sockets]; by rewrite Hs7, Hs6|].
  split; [reflexivity|]. split; [reflexivity|]. rewrite He.
  assert (concat (map (λ x, default [] (broughtBy (snapshotFrame es) x)) (reverse reconnecting)) = es ++ es ++ []) as -> by reflexivity.
  rewrite app_nil_r. apply take_ge. rewrite length_app. lia.
Qed.

(** A filter whose type leaves the window hides everything: with a thousand newer events of
    other types the selection falls back to all types, and the list stays empty. *)
Theorem evicted_filter_hides_everything localTime localMoment es c :
  sh_filter (cn_shown c) ≠ [] → 1000 ≤ length es → Forall (λ e, se_type e ≠ sh_filter (cn_shown c)) es →
  let c' := addEvents localTime localMoment es c in
  sh_total (cn_shown c') = 1000 ∧ sh_filter (cn_shown c') = [] ∧ sh_rows (cn_shown c') = [].
Proof.
  intros Hf Hl Ht. unfold addEvents, renderConsole.
  cbn [cn_shown cn_events setShown setConsoleEvents sh_total sh_filter sh_rows].
  rewrite take_app_le by lia.
  assert (sh_filter (cn_shown c) ∉ typesOf (take 1000 es)) as Hn.
  { rewrite typesOf_elem. intros (e & He & Hte). apply elem_of_take in He as (i & He & _).
    apply (Forall_lookup_1 _ _ _ _ Ht) in He. done. }
  split_and!.
  - rewrite length_take. lia.
  - rewrite bool_decide_false; [done|]. by intros [?|?]%elem_of_cons.
  - by rewrite visible_none.
Qed.
