(* ===== verification/Frames.v ===== *)
(** * Frame export

    [skills/creative/p5js/scripts/export-frames.js]: the options of the command line, and
    the capture of a sketch, frame by frame, in a headless browser.

    Parameters: the conversion of a string to a number ([None] for NaN), what the file
    system says of the input and the output directory, and what the browser answers to
    each call ([true] where it resolves, [false] where it throws).  [main] gives what the
    run does, in order, and its exit code; a run that has not ended within the given
    number of frames is [None].  The texts on the console are not kept, except errors. *)
From stdpp Require Import base list strings.
From Stdlib Require Import ZArith NArith.
From S2P Require Import Prelude JsString JsValue JsArray Regex Catalog Protocol Display Envelope.
From S2P Require Import Events LocalClient Client Operator TuiFormat TuiApp Chat Async Computer Sessions Media Surface.

(** ** ExportOptions *)

(** An option: what the command line has, or the number it denotes. *)
Inductive Arg : Type := ArgText (s : jstr) | ArgNumber (n : num).

Record ExportOptions : Type := {
  op_input : option Arg; op_output : Arg; op_width : Arg; op_height : Arg; op_frames : Arg; op_fps : Arg;
  op_wait : Arg; op_selector : Arg }.

Definition defaultOptions : ExportOptions := {|
  op_input := None; op_output := ArgText (js "./frames"); op_width := ArgNumber (num_of_Z 1920);
  op_height := ArgNumber (num_of_Z 1080); op_frames := ArgNumber (num_of_Z 1); op_fps := ArgNumber (num_of_Z 30);
  op_wait := ArgNumber (num_of_Z 2000); op_selector := ArgText (js "canvas") |}.

(** [!opts.input]. *)
Definition noInput (v : option Arg) : bool :=
  match v with
  | None | Some (ArgText []) => true
  | Some (ArgNumber (NFin m _)) => (m =? 0)%Z
  | Some _ => false
  end.

Definition setInput v o : ExportOptions :=
  {| op_input := v; op_output := op_output o; op_width := op_width o; op_height := op_height o;
     op_frames := op_frames o; op_fps := op_fps o; op_wait := op_wait o; op_selector := op_selector o |}.

(** [opts[key] = v]; a name that every object inherits becomes a member nobody reads. *)
Definition setOption (key : jstr) (v : Arg) (o : ExportOptions) : ExportOptions :=
  let named (name : string) := jeqb key (js name) in
  {| op_input := if named "input" then Some v else op_input o;
     op_output := if named "output" then v else op_output o;
     op_width := if named "width" then v else op_width o;
     op_height := if named "height" then v else op_height o;
     op_frames := if named "frames" then v else op_frames o;
     op_fps := if named "fps" then v else op_fps o;
     op_wait := if named "wait" then v else op_wait o;
     op_selector := if named "selector" then v else op_selector o |}.

Definition optionNames : list string :=
  ["input"; "output"; "width"; "height"; "frames"; "fps"; "wait"; "selector"]%string.

(** [key in opts]. *)
Definition inOptions (key : jstr) : bool := in_names key optionNames || inherited key.

Section Script.
Variable toNumber : jstr → option num.

(** [isNaN(Number(val)) ? val : Number(val)]. *)
Definition argOf (v : jstr) : Arg := match toNumber v with Some n => ArgNumber n | None => ArgText v end.

Fixpoint parseLoop (args : list jstr) (o : ExportOptions) : ExportOptions :=
  match args with
  | [] => o
  | a :: rest =>
      if startsWith (js "--") a then
        match rest with
        | v :: rest' => if inOptions (drop 2 a) then parseLoop rest' (setOption (drop 2 a) (argOf v) o) else parseLoop rest o
        | [] => o
        end
      else parseLoop rest (if noInput (op_input o) then setInput (Some (ArgText a)) o else o)
  end.

(** [None] when the script prints its usage and exits. *)
Definition parseArgs (args : list jstr) : option ExportOptions :=
  let o := parseLoop args defaultOptions in if noInput (op_input o) then None else Some o.

(** ** Capture *)

Record Machine : Type := {
  mc_exists : jstr → bool;
  mc_mkdir : jstr → bool;
  mc_launch : bool;
  mc_newPage : bool;
  mc_viewport : Arg → Arg → bool;
  mc_goto : jstr → bool;
  mc_waitForSelector : Arg → bool;
  (** The sketch sets [window._p5Ready] in time. *)
  mc_ready : bool;
  (** Of frame [i]: the redraw, whether the canvas is found ([None] where that throws), and
      its screenshot. *)
  mc_redraw : nat → bool;
  mc_canvas : nat → option bool;
  mc_screenshot : nat → bool;
  mc_close : bool;
}.

(** What the run does: [Shot] is a screenshot in the file that joins the two, [Paused] a
    wait of the given duration, [FrameGap] one of a thousandth of the rate. *)
Inductive Act : Type :=
  | Launched | Redraw | Settled | Shot (directory : Arg) (name : jstr) | Progress (i : nat) | Paused (ms : Arg)
  | FrameGap (fps : Arg) | CanvasMissing | UsageShown | NotFound | Failed | Closed.

(** The value of an option where a number is needed. *)
Definition numberOfArg (a : Arg) : option num := match a with ArgNumber n => Some n | ArgText s => toNumber s end.

(** [i < n], [i === n - 1]. *)
Definition ltNum (i : Z) (n : num) : bool :=
  match n with
  | NInf neg => negb neg
  | NFin m e => if (0 <=? e)%Z then (i <? m * 10 ^ e)%Z else (i * 10 ^ (- e) <? m)%Z
  end.
Definition below (i : nat) (frames : Arg) : bool :=
  match numberOfArg frames with Some n => ltNum (Z.of_nat i) n | None => false end.
Definition lastFrame (i : nat) (frames : Arg) : bool :=
  match numberOfArg frames with
  | Some (NFin m e) => if (0 <=? e)%Z then (Z.of_nat i + 1 =? m * 10 ^ e)%Z else ((Z.of_nat i + 1) * 10 ^ (- e) =? m)%Z
  | _ => false
  end.

(** [String(i).padStart(4, '0')]. *)
Definition padStart (n : nat) (c : N) (s : jstr) : jstr := replicate (n - length s) c ++ s.
Definition frameName (i : nat) : jstr := js "frame-" ++ padStart 4 48 (digits (N.of_nat i)) ++ js ".png".

(** How an iteration or a loop ends. *)
Inductive Ending : Type := Threw | Broke | Finished.

Section Capture.
Variable m : Machine.
Variable o : ExportOptions.
Variable deterministic : bool.

(** One iteration; [Finished] goes on. *)
Definition captureFrame (i : nat) : list Act * Ending :=
  if deterministic && negb (mc_redraw m i) then ([], Threw)
  else
    let start := if deterministic then [Redraw; Settled] else [] in
    match mc_canvas m i with
    | None => (start, Threw)
    | Some false => (start ++ [CanvasMissing], Broke)
    | Some true =>
        if mc_screenshot m i then
          (start ++ [Shot (op_output o) (frameName i)] ++
             (if (i mod 30 =? 0)%nat || lastFrame i (op_frames o) then [Progress i] else []) ++
             (if negb deterministic && below (S i) (op_frames o) then [FrameGap (op_fps o)] else []), Finished)
        else (start, Threw)
    end.

Fixpoint captureLoop (fuel : nat) (i : nat) : option (list Act * Ending) :=
  if below i (op_frames o) then
    match fuel with
    | O => None
    | S fuel =>
        match captureFrame i with
        | (acts, Finished) => (λ r, (acts ++ r.1, r.2)) <$> captureLoop fuel (S i)
        | r => Some r
        end
    end
  else Some ([], Finished).
End Capture.

(** What [main] does once the browser is there. *)
Definition capture (m : Machine) (o : ExportOptions) (inputPath : jstr) (fuel : nat) : option (list Act * Ending) :=
  if negb (mc_newPage m && mc_viewport m (op_width o) (op_height o) && mc_goto m (js "file://" ++ inputPath) &&
           mc_waitForSelector m (op_selector o)) then Some ([], Threw)
  else
    let waited := if mc_ready m then [] else [Paused (op_wait o)] in
    (λ r, (waited ++ r.1, r.2)) <$> captureLoop m o (mc_ready m) fuel 0.

Variable resolve : jstr → jstr.

(** [main], with what its rejection does: the acts and the exit code. *)
Definition main (m : Machine) (args : list jstr) (fuel : nat) : option (list Act * Z) :=
  match parseArgs args with
  | None => Some ([UsageShown], 1%Z)
  | Some o =>
      match op_input o, op_output o with
      | Some (ArgText input), output =>
          let inputPath := resolve input in
          if negb (mc_exists m inputPath) then Some ([NotFound], 1%Z)
          else if negb (match output with ArgText d => mc_mkdir m d | ArgNumber _ => false end && mc_launch m)
          then Some ([Failed], 1%Z)
          else
            (λ r, match r with
                  | (acts, Threw) => (Launched :: acts ++ [Failed], 1%Z)
                  | (acts, _) => if mc_close m then (Launched :: acts ++ [Closed], 0%Z) else (Launched :: acts ++ [Failed], 1%Z)
                  end) <$> capture m o inputPath fuel
      | _, _ => Some ([Failed], 1%Z)
      end
  end.
End Script.
