(* ===== verification/FramesProps.v ===== *)
(** * Frame export: what a run leaves

    When the browser does its part, the script terminates and leaves one file per frame,
    named and ordered by its number, each taken after its own redraw; and where the options
    or the page do not, the ways in which it still reports success. *)
From stdpp Require Import base list strings.
From Stdlib Require Import ZArith NArith.
From S2P Require Import Prelude JsString JsValue JsArray Regex Catalog Protocol Display Envelope.
From S2P Require Import Events LocalClient Client Operator TuiFormat TuiApp Chat Async Computer Sessions Media Surface Frames.

(** ** Names of frames *)

(** The number that decimal digits denote. *)
Definition decimalValue (s : jstr) : N := fold_left (λ v c, 10 * v + (c - 48))%N s 0%N.

Lemma decimalValue_cons c s :
  decimalValue (c :: s) = ((c - 48) * 10 ^ N.of_nat (length s) + decimalValue s)%N.
Proof.
  unfold decimalValue. cbn [fold_left]. rewrite N.mul_0_r, N.add_0_l. generalize (c - 48)%N at 1 2. intros v.
  assert (∀ s v, fold_left (λ v c, 10 * v + (c - 48))%N s v =
                 (v * 10 ^ N.of_nat (length s) + fold_left (λ v c, 10 * v + (c - 48))%N s 0)%N) as Hgen; [|apply Hgen].
  clear. intros s. induction s as [|c s IH]; intros v; cbn [fold_left length]; [cbn; lia|].
  rewrite (IH (10 * v + (c - 48))%N), (IH (10 * 0 + (c - 48))%N), Nat2N.inj_succ, N.pow_succ_r'. lia.
Qed.

Lemma digits_go_value fuel n acc :
  (n < 2 ^ N.of_nat fuel)%N → fuel ≠ 0 →
  decimalValue (digits_go fuel n acc) = (n * 10 ^ N.of_nat (length acc) + decimalValue acc)%N.
Proof.
  revert n acc. induction fuel as [|fuel IH]; intros n acc Hn Hf; [done|]. cbn [digits_go].
  assert (decimalValue ((48 + n mod 10)%N :: acc) = (n mod 10 * 10 ^ N.of_nat (length acc) + decimalValue acc)%N) as Hc
    by (rewrite decimalValue_cons; by rewrite (N.add_comm 48), N.add_sub).
  destruct (n <? 10)%N eqn:Hlt.
  { apply N.ltb_lt in Hlt. rewrite Hc, N.mod_small by lia. done. }
  apply N.ltb_ge in Hlt. rewrite Nat2N.inj_succ, N.pow_succ_r' in Hn.
  destruct fuel as [|fuel]; [cbn in Hn; lia|].
  rewrite IH; [| |done].
  - rewrite Hc. cbn [length]. rewrite Nat2N.inj_succ, N.pow_succ_r'.
    pose proof (N.div_mod n 10). nia.
  - apply N.Div0.div_lt_upper_bound. lia.
Qed.

Lemma digits_value n : decimalValue (digits n) = n.
Proof.
  unfold digits. rewrite digits_go_value; [cbn; lia| |done].
  rewrite Nat2N.inj_succ, N2Nat.id. destruct n as [|p]; [cbn; lia|]. apply N.log2_spec. lia.
Qed.

Lemma padded_value n s : decimalValue (replicate n 48%N ++ s) = decimalValue s.
Proof. induction n as [|n IH]; [done|]. cbn [replicate app]. rewrite decimalValue_cons, IH. lia. Qed.

Lemma frameName_inj i j : frameName i = frameName j → i = j.
Proof.
  unfold frameName, padStart. intros He. apply app_inv_head in He. apply app_inv_tail in He.
  apply (f_equal decimalValue) in He. rewrite !padded_value, !digits_value in He. lia.
Qed.

(** ** The capture *)

Section Works.
Variable toNumber : jstr → option num.
Variable m : Machine.
Variable o : ExportOptions.

(** The frames that the script asks for. *)
Definition frameCount (n : nat) : Prop := ∀ i, below toNumber i (op_frames o) = (i <? n)%nat.

(** The browser does its part for every frame. *)
Definition cooperates : Prop := ∀ i, mc_redraw m i = true ∧ mc_canvas m i = Some true ∧ mc_screenshot m i = true.

(** The files, and the redraws before each of them. *)
Fixpoint shots (redraws : nat) (acts : list Act) : list (nat * jstr) :=
  match acts with
  | [] => []
  | Redraw :: acts => shots (S redraws) acts
  | Shot _ name :: acts => (redraws, name) :: shots redraws acts
  | _ :: acts => shots redraws acts
  end.

Lemma frame_shots deterministic i :
  cooperates →
  ∃ acts, captureFrame toNumber m o deterministic i = (acts, Finished) ∧
    ∀ r rest, shots r (acts ++ rest) =
              let r' := if deterministic then S r else r in (r', frameName i) :: shots r' rest.
Proof.
  intros Hc. destruct (Hc i) as (H1 & H2 & H3). unfold captureFrame. rewrite H1, H2, H3, andb_false_r.
  eexists. split; [reflexivity|]. intros r rest.
  destruct deterministic, (_ || _), (below _ _ _); reflexivity.
Qed.

Lemma loop_shots deterministic n fuel i :
  cooperates → frameCount n → n - i ≤ fuel →
  ∃ acts, captureLoop toNumber m o deterministic fuel i = Some (acts, Finished) ∧
    ∀ r, shots r acts = map (λ k, (if deterministic then r + S (k - i) else r, frameName k)) (seq i (n - i)).
Proof.
  intros Hc Hn. revert i. induction fuel as [|fuel IH]; intros i Hf; cbn [captureLoop]; rewrite Hn.
  - replace (i <? n)%nat with false by (symmetry; apply Nat.ltb_ge; lia). exists []. split; [done|].
    intros r. by replace (n - i) with 0 by lia.
  - destruct (i <? n)%nat eqn:Hi.
    + apply Nat.ltb_lt in Hi. destruct (frame_shots deterministic i Hc) as (acts & -> & Hs).
      destruct (IH (S i)) as (more & -> & Hm); [lia|]. eexists. split; [reflexivity|]. intros r. cbn [fst].
      rewrite Hs. replace (n - i) with (S (n - S i)) by lia. cbn [seq map]. rewrite Nat.sub_diag. f_equal.
      * destruct deterministic; [f_equal; lia|done].
      * cbn zeta. rewrite Hm. apply map_ext_in. intros k Hk%in_seq. destruct deterministic; [f_equal; lia|done].
    + apply Nat.ltb_ge in Hi. exists []. split; [done|]. intros r. by replace (n - i) with 0 by lia.
Qed.
End Works.

(** Every count but Infinity is a number of frames. *)
Lemma frames_counted toNumber o :
  numberOfArg toNumber (op_frames o) ≠ Some (NInf false) → ∃ n, frameCount toNumber o n.
Proof.
  unfold frameCount, below. destruct (numberOfArg toNumber (op_frames o)) as [[z e|[]]|]; intros Hn.
  - destruct (0 <=? e)%Z eqn:He.
    + exists (Z.to_nat (z * 10 ^ e)). intros i. unfold ltNum. rewrite He. apply Bool.eq_iff_eq_true.
      rewrite Z.ltb_lt, Nat.ltb_lt. lia.
    + apply Z.leb_gt in He. exists (Z.to_nat (- (- z / 10 ^ (- e)))). intros i. unfold ltNum.
      rewrite (proj2 (Z.leb_gt 0 e)) by done. apply Bool.eq_iff_eq_true. rewrite Z.ltb_lt, Nat.ltb_lt.
      assert (0 < 10 ^ (- e))%Z by (apply Z.pow_pos_nonneg; lia).
      pose proof (Z.div_mod (- z) (10 ^ (- e)) ltac:(lia)) as Hd. pose proof (Z.mod_pos_bound (- z) (10 ^ (- e)) ltac:(lia)) as Hb.
      revert Hd Hb. generalize (- z / 10 ^ - e)%Z (- z mod 10 ^ - e)%Z. intros q r Hd Hb.
      split; intros Hlt; nia.
  - exists 0. intros i. done.
  - done.
  - exists 0. intros i. done.
Qed.

Section Runs.
Variable toNumber : jstr → option num.
Variable resolve : jstr → jstr.
Variable m : Machine.

(** The file and the directory are there, and every other call of the browser resolves. *)
Definition setUp (o : ExportOptions) (input directory : jstr) : Prop :=
  mc_exists m (resolve input) = true ∧ mc_mkdir m directory = true ∧ mc_launch m = true ∧ mc_newPage m = true ∧
  mc_viewport m (op_width o) (op_height o) = true ∧ mc_goto m (js "file://" ++ resolve input) = true ∧
  mc_waitForSelector m (op_selector o) = true ∧ mc_close m = true.

(** With everything set up the run is that of the loop. *)
Lemma main_loop args o input directory fuel acts ending :
  parseArgs toNumber args = Some o → op_input o = Some (ArgText input) → op_output o = ArgText directory →
  setUp o input directory → ending ≠ Threw →
  captureLoop toNumber m o (mc_ready m) fuel 0 = Some (acts, ending) →
  ∃ before, main toNumber resolve m args fuel = Some (before ++ acts ++ [Closed], 0%Z) ∧
            ∀ rest, shots 0 (before ++ rest) = shots 0 rest.
Proof.
  intros Hp Hi Ho (H1 & H2 & H3 & H4 & H5 & H6 & H7 & H8) He Hl. unfold main. rewrite Hp, Hi, Ho, H1, H2, H3.
  cbn [negb andb]. unfold capture. rewrite H4, H5, H6, H7, Hl. cbn [negb andb fmap option_fmap option_map fst snd].
  exists (Launched :: if mc_ready m then [] else [Paused (op_wait o)]). split.
  - destruct ending; [done|..]; rewrite H8, <- app_assoc; reflexivity.
  - intros rest. by destruct (mc_ready m).
Qed.
End Runs.

Lemma shots_snoc r acts : shots r (acts ++ [Closed]) = shots r acts.
Proof.
  revert r. induction acts as [|a acts IH]; intros r; [done|]. destruct a; cbn [app shots]; rewrite ?IH; done.
Qed.


(** The run ends: unless Infinity frames are asked for, some number of iterations is enough,
    whatever the browser does. *)
Theorem export_ends toNumber resolve m args :
  (∀ o, parseArgs toNumber args = Some o → numberOfArg toNumber (op_frames o) ≠ Some (NInf false)) →
  ∃ bound, ∀ fuel, bound ≤ fuel → is_Some (main toNumber resolve m args fuel).
Proof.
  intros Hfin. unfold main. destruct (parseArgs toNumber args) as [o|] eqn:Hp; [|by exists 0].
  destruct (frames_counted toNumber o (Hfin o eq_refl)) as [n Hn]. exists n. intros fuel Hf.
  assert (∀ d k i, n - i ≤ k → is_Some (captureLoop toNumber m o d k i)) as Hloop.
  { intros d k. induction k as [|k IH]; intros i Hk; cbn [captureLoop]; rewrite Hn.
    - replace (i <? n)%nat with false by (symmetry; apply Nat.ltb_ge; lia). done.
    - destruct (i <? n)%nat; [|done]. destruct (captureFrame _ _ _ _ i) as [acts []]; [done|done|].
      destruct (IH (S i)) as [r ->]; [lia|done]. }
  destruct (op_input o) as [[input|]|]; [|done..]. destruct (negb _); [done|]. destruct (negb _); [done|].
  apply fmap_is_Some. unfold capture. destruct (negb _); [done|]. apply fmap_is_Some, Hloop. lia.
Qed.

(** ** What it reports as success *)

Lemma argOf_text toNumber v : toNumber v = None → argOf toNumber v = ArgText v.
Proof. unfold argOf. by intros ->. Qed.

(** An input and one option. *)
Lemma parse_one toNumber input key v :
  startsWith (js "--") input = false → input ≠ [] → in_names (js key) optionNames = true → js key ≠ js "input" →
  parseArgs toNumber [input; js "--" ++ js key; v] =
  Some (setOption (js key) (argOf toNumber v) (setInput (Some (ArgText input)) defaultOptions)).
Proof.
  intros Hi Hn Hk Hne. unfold parseArgs. cbn [parseLoop]. rewrite Hi.
  rewrite (proj2 (startsWith_spec _ _)) by (by eexists). cbn [op_input defaultOptions noInput].
  change (drop 2 (js "--" ++ js key)) with (js key). unfold inOptions. rewrite Hk. cbn [orb].
  unfold setOption at 1. cbn [op_input setInput]. apply jeqb_neq in Hne as ->. by destruct input.
Qed.

(** A number of frames that is not a number is no error: the script opens the sketch,
    captures nothing, and exits with 0. *)
Theorem unreadable_count_captures_nothing toNumber resolve m input v fuel :
  startsWith (js "--") input = false → input ≠ [] → toNumber v = None →
  setUp resolve m defaultOptions input (js "./frames") →
  ∃ acts, main toNumber resolve m [input; js "--frames"; v] fuel = Some (acts, 0%Z) ∧ shots 0 acts = [].
Proof.
  intros Hi Hn Hv Hs.
  set (o := setOption (js "frames") (ArgText v) (setInput (Some (ArgText input)) defaultOptions)).
  assert (parseArgs toNumber [input; js "--frames"; v] = Some o) as Hp.
  { unfold o. rewrite <- (argOf_text toNumber v Hv). by apply (parse_one toNumber input "frames" v). }
  assert (captureLoop toNumber m o (mc_ready m) fuel 0 = Some ([], Finished)) as Hl.
  { assert (below toNumber 0 (op_frames o) = false) as Hb by (unfold below; change (op_frames o) with (ArgText v); cbn [numberOfArg]; by rewrite Hv).
    destruct fuel; cbn [captureLoop]; by rewrite Hb. }
  destruct (main_loop toNumber resolve m _ o input (js "./frames") fuel [] Finished Hp eq_refl eq_refl Hs ltac:(discriminate) Hl)
    as (before & Hm & Hb).
  exists (before ++ [] ++ [Closed]). split; [exact Hm|]. by rewrite Hb.
Qed.

(** A canvas that is gone stops the capture and the run still exits with 0: the frames from
    the missing one on are not there. *)
Theorem missing_canvas_exits_with_success toNumber resolve m args o input directory n k fuel :
  parseArgs toNumber args = Some o → op_input o = Some (ArgText input) → op_output o = ArgText directory →
  setUp resolve m o input directory → frameCount toNumber o n → k < n → n ≤ fuel →
  (∀ i, mc_redraw m i = true ∧ mc_canvas m i = Some (negb (i =? k)%nat) ∧ mc_screenshot m i = true) →
  ∃ acts, main toNumber resolve m args fuel = Some (acts, 0%Z) ∧ map snd (shots 0 acts) = map frameName (seq 0 k).
Proof.
  intros Hp Hi Ho Hs Hn Hk Hf Hc.
  assert (∀ j i, i + j = k → k ≤ fuel → ∀ f, j < f → ∃ acts, captureLoop toNumber m o (mc_ready m) f i = Some (acts, Broke) ∧
            ∀ r, map snd (shots r acts) = map frameName (seq i j)) as Hloop.
  { intros j. induction j as [|j IH]; intros i Hij Hkf f Hjf; (destruct f as [|f]; [lia|]); cbn [captureLoop]; rewrite Hn;
      (replace (i <? n)%nat with true by (symmetry; apply Nat.ltb_lt; lia)); unfold captureFrame;
      destruct (Hc i) as (-> & -> & ->); rewrite andb_false_r.
    - replace (i =? k)%nat with true by (symmetry; apply Nat.eqb_eq; lia). cbn [negb].
      eexists. split; [reflexivity|]. intros r. by destruct (mc_ready m).
    - replace (i =? k)%nat with false by (symmetry; apply Nat.eqb_neq; lia). cbn [negb].
      destruct (IH (S i) ltac:(lia) Hkf f ltac:(lia)) as (more & -> & Hm). eexists. split; [reflexivity|]. intros r. cbn [fst seq map].
      destruct (mc_ready m), (_ || _), (below _ (S i) _); cbn [negb andb app shots map snd]; by rewrite Hm. }
  destruct (Hloop k 0 eq_refl ltac:(lia) fuel ltac:(lia)) as (acts & Hl & Hsh).
  destruct (main_loop toNumber resolve m args o input directory fuel acts Broke Hp Hi Ho Hs ltac:(discriminate) Hl)
    as (before & Hm & Hb).
  exists (before ++ acts ++ [Closed]). split; [exact Hm|]. by rewrite Hb, shots_snoc, Hsh.
Qed.

(** An output directory whose name is a number cannot be used: the option becomes a number
    and making the directory throws, before any browser is started. *)
Theorem numeric_directory_fails toNumber resolve m input v n fuel :
  startsWith (js "--") input = false → input ≠ [] → toNumber v = Some n → mc_exists m (resolve input) = true →
  main toNumber resolve m [input; js "--output"; v] fuel = Some ([Failed], 1%Z).
Proof.
  intros Hi Hne Hv Hx. unfold main.
  assert (parseArgs toNumber [input; js "--output"; v] =
          Some (setOption (js "output") (argOf toNumber v) (setInput (Some (ArgText input)) defaultOptions))) as ->
    by (by apply (parse_one toNumber input "output" v)).
  unfold argOf. rewrite Hv. set (o := setOption _ _ _). change (op_input o) with (Some (ArgText input)).
  change (op_output o) with (ArgNumber n). cbn beta iota zeta. by rewrite Hx.
Qed.

(** ** Witnesses *)

Definition three (s : jstr) : option num := if jeqb s (js "3") then Some (num_of_Z 3) else None.

Definition workingMachine : Machine := {|
  mc_exists _ := true; mc_mkdir _ := true; mc_launch := true; mc_newPage := true; mc_viewport _ _ := true;
  mc_goto _ := true; mc_waitForSelector _ := true; mc_ready := true; mc_redraw _ := true; mc_canvas _ := Some true;
  mc_screenshot _ := true; mc_close := true |}.

Definition threeFrames : list jstr := [js "sketch.html"; js "--frames"; js "3"].


Lemma export_ends_witness : ∃ bound, ∀ fuel, bound ≤ fuel → is_Some (main three id workingMachine threeFrames fuel).
Proof.
  apply (export_ends three id workingMachine threeFrames). intros o Ho. vm_compute in Ho. injection Ho as <-. discriminate.
Defined.
