(* ===== verification/Scripts.v ===== *)
(** * Build checks

    [scripts/audit-production-dependencies.mjs], which lets a release pass only when every
    advisory against a production dependency is waived, and [ui/scripts/check-budgets.mjs],
    which bounds the size of the bundles.  The output of [npm audit], the files of the
    source tree and the compressed sizes are arguments. *)
From stdpp Require Import base sets list strings.
From Stdlib Require Import ZArith NArith.
From S2P Require Import Prelude JsString JsValue JsArray Regex Catalog Protocol Display Envelope.
From S2P Require Import Events EventsFacts Store EventsProps LocalClient Client Operator TuiFormat TuiApp Async.
From S2P Require Import Computer Sessions Auth.

(** ** The source tree *)

#[warnings="-register-all"] Inductive Entry : Type :=
  | EDir (name : jstr) (children : list Entry)
  | EFile (name content : jstr).

Lemma Entry_nested (P : Entry → Prop) :
  (∀ name l, Forall P l → P (EDir name l)) → (∀ name content, P (EFile name content)) → ∀ e, P e.
Proof.
  intros Hd Hf. fix IH 1. intros [name l|name content]; [|apply Hf]. apply Hd.
  induction l as [|c l IHl]; constructor; [apply IH|exact IHl].
Qed.

Definition joinPath (directory name : jstr) : jstr := directory ++ js "/" ++ name.

(** [extname(name)]: from the last dot on, unless it is the first character. *)
Fixpoint lastDot (s : jstr) : option jstr :=
  match s with
  | [] => None
  | c :: t => match lastDot t with
              | Some e => Some e
              | None => if (c =? 46)%N then Some (c :: t) else None
              end
  end.
Definition extname (name : jstr) : jstr := match name with [] => [] | _ :: t => default [] (lastDot t) end.

Definition sourceExtensions : list string := [".js"; ".jsx"; ".mjs"; ".ts"; ".tsx"]%string.
Definition isSource (name : jstr) : bool := existsb (λ e, jeqb (extname name) (js e)) sourceExtensions.

Definition wordChars : re := RStar (RChr is_word).

(** [/\bunstable_(?:[A-Za-z0-9_]*RSC[A-Za-z0-9_]*|createCallServer|…)\b/]. *)
Definition rscAPI : re :=
  rcats [RBound is_word; lit_cs "unstable_";
         ralts [rcats [wordChars; lit_cs "RSC"; wordChars]; lit_cs "createCallServer";
                lit_cs "routeRSCServerRequest"; lit_cs "matchRSCServerRequest"];
         RBound is_word].

Definition usesRSC (name content : jstr) : bool := isSource name && test rscAPI content.

(** [findRSCUsage(directory)]: the path of the first source file that uses the interface. *)
Fixpoint findRSC (directory : jstr) (e : Entry) : option jstr :=
  match e with
  | EDir name children =>
      (fix go (l : list Entry) : option jstr :=
         match l with
         | [] => None
         | c :: l => match findRSC (joinPath directory name) c with Some p => Some p | None => go l end
         end) children
  | EFile name content => if usesRSC name content then Some (joinPath directory name) else None
  end.

Fixpoint findRSCUsage (directory : jstr) (entries : list Entry) : option jstr :=
  match entries with
  | [] => None
  | e :: l => match findRSC directory e with Some p => Some p | None => findRSCUsage directory l end
  end.

(** ** The audit *)

Record Waiver : Type := { wv_dependency : string; wv_expires : string; wv_reason : string }.

Definition waivers : list (string * Waiver) :=
  [("GHSA-qwww-vcr4-c8h2"%string,
    {| wv_dependency := "react-router"; wv_expires := "2026-08-31";
       wv_reason := "Ion is a client-only SPA and does not use React Router unstable RSC APIs." |})].

Definition waiverOf (id : jstr) : option Waiver := snd <$> find (λ w, jeqb (js w.1) id) waivers.

(** [Object.entries(value ?? {})]. *)
Definition entriesOf (v : option json) : list (jstr * json) :=
  match present v with
  | Some (JObj o) => o
  | Some (JArr l) => imap (λ i x, (string_of_Z (Z.of_nat i), x)) l
  | Some (JStr s) => imap (λ i c, (string_of_Z (Z.of_nat i), JStr [c])) s
  | _ => []
  end.

(** [for (const advisory of value ?? [])]; [None]: not iterable. *)
Definition iterate (v : option json) : option (list json) :=
  match present v with
  | None => Some []
  | Some (JArr l) => Some l
  | Some (JStr s) => Some (map (λ c, JStr [c]) s)
  | Some _ => None
  end.

Section Audit.
Context `{Platform}.
Variable now : Z.
(** The entries of [web/src]. *)
Variable tree : list Entry.

(** [advisory.url?.split('/').pop() ?? String(advisory.source)]; [None]: it throws. *)
Definition advisoryID (advisory : json) : option jstr :=
  match advisory with
  | JNull => None
  | _ => match present (get "url" advisory) with
         | None => Some (match get "source" advisory with Some v => toStr v | None => js "undefined" end)
         | Some (JStr url) => Some (default [] (last (splitOn 47 url)))
         | Some _ => None
         end
  end.

Definition expired (w : Waiver) : bool :=
  match Date_parse (js (wv_expires w) ++ js "T23:59:59Z") with Some t => (t <? now)%Z | None => false end.

Inductive Verdict : Type := Skipped | Unresolved | Waived (id : jstr) | Throws.

Definition judge (dependency : jstr) (advisory : json) : Verdict :=
  match advisory with
  | JStr _ => Skipped
  | _ =>
      match advisoryID advisory with
      | None => Throws
      | Some id =>
          match waiverOf id with
          | None => Unresolved
          | Some w =>
              if negb (jeqb (js (wv_dependency w)) dependency) then Unresolved
              else if expired w then Unresolved
              else match findRSCUsage (js "web/src") tree with
                   | Some _ => Unresolved
                   | None => Waived id
                   end
          end
      end
  end.

(** The verdicts of a report; [None]: the script throws before the end. *)
Definition judgeDependency (row : jstr * json) : option (list Verdict) :=
  match row.2 with
  | JNull => None
  | v => map (judge row.1) <$> iterate (get "via" v)
  end.

Definition verdicts (report : json) : option (list Verdict) :=
  (λ l, concat l) <$> mapM judgeDependency (entriesOf (get "vulnerabilities" report)).

Definition isUnresolved (v : Verdict) : bool := match v with Unresolved => true | _ => false end.
Definition isWaived (v : Verdict) : bool := match v with Waived _ => true | _ => false end.
Definition isThrow (v : Verdict) : bool := match v with Throws => true | _ => false end.

(** Whether the script exits with success.  [parsed] is the parsed output of the audit,
    [status] its exit code. *)
Definition auditPasses (parsed : option json) (status : option Z) : bool :=
  match parsed with
  | None | Some JNull => false
  | Some report =>
      if truthy (get "error" report) then false
      else match verdicts report with
           | None => false
           | Some vs =>
               if existsb isThrow vs then false
               else if existsb isUnresolved vs then false
               else bool_decide (status = Some 0%Z) || existsb isWaived vs
           end
  end.

(** ** What passing means *)

(** The source files of a tree. *)
Fixpoint filesOf (e : Entry) : list (jstr * jstr) :=
  match e with
  | EDir _ children => concat (map filesOf children)
  | EFile name content => [(name, content)]
  end.

Lemma findRSC_None directory e :
  findRSC directory e = None ↔ Forall (λ f, usesRSC f.1 f.2 = false) (filesOf e).
Proof.
  revert directory. induction e as [name children IH|name content] using Entry_nested; intros directory.
  - cbn [findRSC filesOf]. generalize (joinPath directory name); intros path.
    induction IH as [|c l Hc _ IHl]; [done|]. cbn [map concat]. rewrite Forall_app, <- IHl, <- (Hc path).
    destruct (findRSC path c); [split; [done|by intros [? _]]|split; [done|by intros [_ ?]]].
  - cbn. rewrite Forall_singleton. cbn. by destruct (usesRSC name content).
Qed.

Lemma findRSCUsage_None directory entries :
  findRSCUsage directory entries = None ↔ Forall (λ f, usesRSC f.1 f.2 = false) (concat (map filesOf entries)).
Proof.
  induction entries as [|e l IH]; [done|]. cbn [findRSCUsage map concat]. rewrite Forall_app, <- IH, <- (findRSC_None directory e).
  destruct (findRSC directory e); [split; [done|by intros [? _]]|split; [done|by intros [_ ?]]].
Qed.

(** An advisory that the waivers cover. *)
Definition covered (dependency : jstr) (advisory : json) : Prop :=
  ∃ id w, advisoryID advisory = Some id ∧ waiverOf id = Some w ∧ js (wv_dependency w) = dependency ∧
          expired w = false ∧ Forall (λ f, usesRSC f.1 f.2 = false) (concat (map filesOf tree)).

Lemma judge_covered dependency advisory :
  judge dependency advisory ≠ Unresolved → judge dependency advisory ≠ Throws →
  (∃ s, advisory = JStr s) ∨ covered dependency advisory.
Proof.
  intros Hu Ht. assert (Hs : (∃ s, advisory = JStr s) ∨
    judge dependency advisory = match advisoryID advisory with
      | None => Throws
      | Some id => match waiverOf id with
          | None => Unresolved
          | Some w => if negb (jeqb (js (wv_dependency w)) dependency) then Unresolved
                      else if expired w then Unresolved
                      else match findRSCUsage (js "web/src") tree with Some _ => Unresolved | None => Waived id end
          end
      end) by (destruct advisory; eauto).
  destruct Hs as [?|Hj]; [by left|right]. rewrite Hj in Hu, Ht.
  destruct (advisoryID advisory) as [id|] eqn:Hid; [|done]. destruct (waiverOf id) as [w|] eqn:Hw; [|done].
  destruct (jeqb (js (wv_dependency w)) dependency) eqn:Hd; [|done]. destruct (expired w) eqn:He; [done|].
  destruct (findRSCUsage (js "web/src") tree) eqn:Hf; [done|]. exists id, w. apply jeqb_eq in Hd.
  split_and!; try done. by apply (findRSCUsage_None (js "web/src")).
Qed.

Lemma judgeDependency_map row vs :
  judgeDependency row = Some vs → ∃ l, iterate (get "via" row.2) = Some l ∧ vs = map (judge row.1) l.
Proof.
  unfold judgeDependency. destruct (row.2); try done; intros (via & Hl & ->)%fmap_Some; by exists via.
Qed.

(** [C23] A release passes the audit only when every advisory is accounted for: if the
    script succeeds, the report was readable and reports no error of its own, every
    advisory it lists against a dependency is one of the waived ones, for that very
    dependency, on or before the waiver's last day, while no source file of the web client
    uses the affected interface; and either the audit itself succeeded or such a waiver
    explains its failure. *)
Theorem audit_passes_only_when_covered (parsed : option json) (status : option Z) :
  auditPasses parsed status = true →
  ∃ report, parsed = Some report ∧ truthy (get "error" report) = false ∧
    (∀ dependency v advisories advisory,
       (dependency, v) ∈ entriesOf (get "vulnerabilities" report) → iterate (get "via" v) = Some advisories →
       advisory ∈ advisories → (∃ s, advisory = JStr s) ∨ covered dependency advisory) ∧
    (status = Some 0%Z ∨ ∃ dependency advisory, covered dependency advisory).
Proof.
  unfold auditPasses. destruct parsed as [report|]; [|done].
  assert (Hnull : report = JNull ∨ report ≠ JNull) by (destruct report; auto). destruct Hnull as [->|Hne]; [done|].
  intros Hp. exists report.
  assert (Hp' : (if truthy (get "error" report) then false
      else match verdicts report with
           | None => false
           | Some vs => if existsb isThrow vs then false else if existsb isUnresolved vs then false
                        else bool_decide (status = Some 0%Z) || existsb isWaived vs
           end) = true) by (destruct report; done).
  clear Hp. destruct (truthy (get "error" report)); [done|]. destruct (verdicts report) as [vs|] eqn:Hv; [|done].
  destruct (existsb isThrow vs) eqn:Ht; [done|]. destruct (existsb isUnresolved vs) eqn:Hu; [done|].
  unfold verdicts in Hv. apply fmap_Some in Hv as (rows & Hrows & ->). apply mapM_Some_1 in Hrows.
  assert (Hin : ∀ row a, row ∈ entriesOf (get "vulnerabilities" report) → ∀ l, iterate (get "via" row.2) = Some l → a ∈ l →
            judge row.1 a ∈ concat rows).
  { intros row a Hr l Hl Ha. apply list_elem_of_lookup in Hr as [i Hi].
    destruct (Forall2_lookup_l _ _ _ _ _ Hrows Hi) as (vl & Hvl & Hj). apply list_elem_of_In, in_concat.
    exists vl. rewrite <- !list_elem_of_In. split; [by eapply list_elem_of_lookup_2|].
    apply judgeDependency_map in Hj as (l' & Hl' & ->). rewrite Hl in Hl'. injection Hl' as <-.
    by apply list_elem_of_fmap_2. }
  assert (Hok : ∀ x, x ∈ concat rows → x ≠ Unresolved ∧ x ≠ Throws).
  { intros x Hx. rewrite list_elem_of_In in Hx. split; intros ->.
    - by rewrite (proj2 (existsb_exists _ _)) in Hu; [|exists Unresolved].
    - by rewrite (proj2 (existsb_exists _ _)) in Ht; [|exists Throws]. }
  split_and!; [done|done| |].
  - intros dependency v l a Hr Hl Ha. destruct (Hok (judge dependency a)) as [H1 H2]; [by apply (Hin (dependency, v) a Hr l)|].
    by apply judge_covered.
  - apply orb_true_iff in Hp' as [Hs|Hw]; [left; by apply bool_decide_eq_true in Hs|right].
    apply existsb_exists in Hw as (x & Hx & Hw). destruct x as [| |id|]; try done.
    apply in_concat in Hx as (vl & Hvl & Hx). rewrite <- list_elem_of_In in Hvl. apply list_elem_of_lookup in Hvl as [i Hi].
    destruct (Forall2_lookup_r _ _ _ _ _ Hrows Hi) as ([dep v] & Hd & Hj).
    apply judgeDependency_map in Hj as (l & _ & ->). apply in_map_iff in Hx as (a & Ha & _). cbn [fst] in Ha. exists dep, a.
    destruct (judge_covered dep a) as [[s ->]|]; [by rewrite Ha..|done|done].
Qed.
End Audit.

(** ** Budgets *)

Section Budgets.
(** The files of the bundle with their compressed sizes, and the size of the terminal
    client. *)
Variable gzipSize : jstr → Z.

Fixpoint walkEntry (directory : jstr) (e : Entry) : list (jstr * jstr) :=
  match e with
  | EDir name children => concat (map (walkEntry (joinPath directory name)) children)
  | EFile name content => [(joinPath directory name, content)]
  end.
Definition walk (directory : jstr) (entries : list Entry) : list (jstr * jstr) :=
  concat (map (walkEntry directory) entries).

Definition compressedSize (files : list (jstr * jstr)) : Z :=
  fold_left (λ sum f, (sum + gzipSize f.2)%Z) (List.filter (λ f, endsWith (js ".js") f.1) files) 0%Z.

Definition budgetsHold (directory : jstr) (bundle : list Entry) (tuiSize : Z) : bool :=
  let files := walk directory bundle in
  (compressedSize files <=? 350 * 1024)%Z && (tuiSize <=? 3 * 1024 * 1024)%Z &&
  (length (List.filter (λ f, endsWith (js ".map") f.1) files) =? 0)%nat.
End Budgets.

(** ** Witnesses *)

Definition audit_report : json :=
  JObj [(js "vulnerabilities",
         JObj [(js "react-router",
                JObj [(js "via", JArr [JStr (js "react-router-dom");
                                       JObj [(js "url", JStr (js "https://github.com/advisories/GHSA-qwww-vcr4-c8h2"))]])])])].

Definition audit_tree : list Entry :=
  [EDir (js "app") [EFile (js "App.tsx") (js "export function App() {}")]; EFile (js "notes.md") (js "unstable_RSCThing")].

Lemma audit_passes_only_when_covered_witness :
  ∃ report, Some audit_report = Some report ∧ truthy (get "error" report) = false ∧
    (∀ dependency v advisories advisory,
       (dependency, v) ∈ entriesOf (get "vulnerabilities" report) → iterate (get "via" v) = Some advisories →
       advisory ∈ advisories → (∃ s, advisory = JStr s) ∨ @covered test_platform 0 audit_tree dependency advisory) ∧
    (Some 1%Z = Some 0%Z ∨ ∃ dependency advisory, @covered test_platform 0 audit_tree dependency advisory).
Proof.
  apply (@audit_passes_only_when_covered test_platform 0 audit_tree (Some audit_report) (Some 1%Z)).
  vm_compute. reflexivity.
Defined.

(** A source file that uses the interface, or another dependency, makes it fail. *)
Example audit_refuses :
  @auditPasses test_platform 0 [EFile (js "a.ts") (js "import { unstable_RSCStaticRouter } from 'x'")]
    (Some audit_report) (Some 1%Z) = false ∧
  @auditPasses test_platform 1 audit_tree (Some audit_report) (Some 1%Z) = false.
Proof. vm_compute. done. Qed.
